(** * claude-prompt-creator: a shallow embedding of the deliberation pipeline

    The development follows the TypeScript sources: the rule-based mode
    classifier and the round tables of [core/ModeInference.ts], the persona
    catalog and round-prompt assembly of [core/ExpertRegistry.ts], the
    output writer of [services/FileService.ts], the interaction bookkeeping
    of [services/OpenAIService.ts], the memory store of
    [services/MemoryService.ts], the dynamic agent factory of
    [core/DynamicAgentFactory.ts] and the orchestrator of
    [core/CreativeAILoop.ts].

    Strings are modelled as [string]: the bytes of the UTF-8 encoding of
    the JavaScript string, whose [length] counts UTF-16 code units
    ([jsLength]).  [toLowerCase] maps A-Z to a-z and leaves every other
    character alone: it is the JavaScript method on ASCII text, and the
    [LOWER] of the database engine on every text; where a result depends
    on what the JavaScript method does outside ASCII, the method is a
    parameter.  A success rate is the exact value of a binary64 number, and
    the arithmetic on it rounds as binary64 does.  The records of the
    bookkeeping and their arrays of insights live on a heap, so that two
    records can share an array.  The file system is a tree of directories
    and files, and a call on it fails for what the tree holds, not for
    permissions or a full disk.  The provider, the
    terminal and the clock are functions from the position of a call to
    its outcome, so a property proved for all of them holds whatever the
    outside answers.  Error messages of the platform are abbreviated. *)

From Stdlib Require Import Bool List Arith ZArith QArith Lia Lqa Ascii String.
From Stdlib Require Import DecimalString.
From Corelib Require Import PrimFloat FloatOps SpecFloat.
From stdpp Require Import base option list gmap strings.

Import ListNotations.
Local Open Scope list_scope.
Local Open Scope string_scope.

(** ** JavaScript string primitives *)

Module JsString.

Definition code (c : ascii) : nat := nat_of_ascii c.

Definition inRange (lo hi : nat) (c : ascii) : bool :=
  (lo <=? code c)%nat && (code c <=? hi)%nat.

Definition isUpper (c : ascii) : bool := inRange 65 90 c.
Definition isLower (c : ascii) : bool := inRange 97 122 c.
Definition isDigit (c : ascii) : bool := inRange 48 57 c.

(** [\w] of a non-unicode regular expression: [A-Za-z0-9_]. *)
Definition isWordChar (c : ascii) : bool :=
  isUpper c || isLower c || isDigit c || (code c =? 95)%nat.

(** [\s] restricted to ASCII: tab, line feed, vertical tab, form feed,
    carriage return and space. *)
Definition isSpaceChar (c : ascii) : bool :=
  inRange 9 13 c || (code c =? 32)%nat.

(** [[a-z0-9]] *)
Definition isLowerAlnum (c : ascii) : bool := isLower c || isDigit c.

Definition toLowerChar (c : ascii) : ascii :=
  if isUpper c then ascii_of_nat (code c + 32) else c.

Fixpoint mapChars (f : ascii -> ascii) (s : string) : string :=
  match s with
  | EmptyString => EmptyString
  | String c r => String (f c) (mapChars f r)
  end.

Definition toUpperChar (c : ascii) : ascii :=
  if isLower c then ascii_of_nat (code c - 32) else c.

(** [s.toUpperCase()] *)
Definition toUpperCase (s : string) : string := mapChars toUpperChar s.

(** [s.toLowerCase()], on ASCII text. *)
Definition toLowerCase (s : string) : string := mapChars toLowerChar s.

(** A byte that continues a UTF-8 sequence: [10xxxxxx]. *)
Definition isContinuation (c : ascii) : bool := inRange 128 191 c.

(** The UTF-16 code units of the character that a byte starts: none for a
    continuation byte, two for the lead byte of a four-byte sequence (a
    character outside the basic plane), one for every other byte. *)
Definition units (c : ascii) : nat :=
  if isContinuation c then 0%nat
  else if (240 <=? code c)%nat then 2%nat
  else 1%nat.

(** [s.length]: the number of UTF-16 code units. *)
Fixpoint jsLength (s : string) : nat :=
  match s with
  | EmptyString => 0%nat
  | String c r => (units c + jsLength r)%nat
  end.

(** A text that does not begin in the middle of a character. *)
Definition startsCharacter (s : string) : bool :=
  match s with
  | EmptyString => true
  | String c _ => negb (isContinuation c)
  end.



(** The text with the given bytes. *)
Fixpoint ofBytes (bytes : list nat) : string :=
  match bytes with
  | [] => EmptyString
  | b :: rest => String (ascii_of_nat b) (ofBytes rest)
  end.

(** [Some rest] when [k] is a prefix of [t] and [t = k ++ rest]. *)
Fixpoint stripPrefix (k t : string) : option string :=
  match k with
  | EmptyString => Some t
  | String a k' =>
      match t with
      | EmptyString => None
      | String b t' => if Ascii.eqb a b then stripPrefix k' t' else None
      end
  end.

(** [s.includes(sub)] *)
Fixpoint includes (sub s : string) : bool :=
  match stripPrefix sub s with
  | Some _ => true
  | None =>
      match s with
      | EmptyString => false
      | String _ r => includes sub r
      end
  end.

(** The double-quote character, as a one-character string. *)
Definition dq : string := String (ascii_of_nat 34) EmptyString.

(** The line feed, as a one-character string. *)
Definition nl : string := String (ascii_of_nat 10) EmptyString.

(** [parts.join(sep)] *)
Fixpoint join (sep : string) (parts : list string) : string :=
  match parts with
  | [] => EmptyString
  | [p] => p
  | p :: rest => p ++ sep ++ join sep rest
  end.

(** A multi-line text, one element per line. *)
Definition unlines (ls : list string) : string := join nl ls.

(** [s.split(c)] for a one-character separator; the result is never
    empty: splitting the empty string gives one empty piece. *)
Fixpoint splitOn (sep : ascii) (s : string) : list string :=
  match s with
  | EmptyString => [EmptyString]
  | String c r =>
      if Ascii.eqb c sep then EmptyString :: splitOn sep r
      else match splitOn sep r with
           | [] => [String c EmptyString]
           | w :: ws => String c w :: ws
           end
  end.

(** [s.replace(/[class]+/g, "_")] for a character class [inClass]; [inRun]
    tells whether the previous character already belongs to the run being
    replaced. *)
Fixpoint replaceRuns (inClass : ascii -> bool) (inRun : bool) (s : string) : string :=
  match s with
  | EmptyString => EmptyString
  | String c r =>
      if inClass c then
        if inRun then replaceRuns inClass true r
        else String "_" (replaceRuns inClass true r)
      else String c (replaceRuns inClass false r)
  end.

(** [s.slice(0, n)] *)
Fixpoint sliceTo (n : nat) (s : string) : string :=
  match n, s with
  | O, _ => EmptyString
  | _, EmptyString => EmptyString
  | S n', String c r => String c (sliceTo n' r)
  end.

(** Decimal rendering of an integer, as template literals do. *)
Definition ofZ (z : Z) : string := NilEmpty.string_of_int (Z.to_int z).

End JsString.

Import JsString.

(** ** Results of fallible effects *)

Inductive Result (A : Type) : Type :=
| Ok (a : A)
| Fail (message : string).
Arguments Ok {A} a.
Arguments Fail {A} message.

(** An effect over a store [W]: it returns a result and the store it leaves
    behind, also when it fails.  A failure is a failed [Effect] or a thrown
    exception: either ends the computation it occurs in. *)
Definition Eff (W A : Type) : Type := W -> Result A * W.

Definition ret {W A} (a : A) : Eff W A := fun w => (Ok a, w).
Definition fail {W A} (message : string) : Eff W A := fun w => (Fail message, w).
Definition bind {W A B} (m : Eff W A) (k : A -> Eff W B) : Eff W B :=
  fun w => match m w with
           | (Ok a, w') => k a w'
           | (Fail e, w') => (Fail e, w')
           end.
Definition gets {W A} (f : W -> A) : Eff W A := fun w => (Ok (f w), w).
Definition modify {W} (f : W -> W) : Eff W unit := fun w => (Ok tt, f w).

(** [Effect.tryPromise]'s [catch]: rewrite the message of a failure. *)
Definition mapFail {W A} (f : string -> string) (m : Eff W A) : Eff W A :=
  fun w => match m w with
           | (Ok a, w') => (Ok a, w')
           | (Fail e, w') => (Fail (f e), w')
           end.

Declare Scope eff_scope.
Delimit Scope eff_scope with eff.
Notation "'let*' x ':=' m 'in' k" := (bind m (fun x => k))
  (at level 10, x pattern, m at level 100, k at level 200) : eff_scope.
Notation "m ';;' k" := (bind m (fun _ => k))
  (at level 100, right associativity) : eff_scope.

(** ** core/ModeInference.ts *)

Module ModeInference.

Inductive Mode : Type := pr | design_review | explore.

Record Round : Type := mkRound { focus : string; lead : string }.

(** [roundsByMode] of the base table. *)
Definition roundsByMode (mode : Mode) : list Round :=
  match mode with
  | pr =>
      [ mkRound "constraints" "SpecScribe";
        mkRound "architecture_plan" "EffectArchitect";
        mkRound "tests_first" "TestEngineer";
        mkRound "impl" "CodeGen";
        mkRound "consistency_gate" "DXEnforcer";
        mkRound "pr_summary" "PRWriter" ]
  | design_review =>
      [ mkRound "design_principles" "DesignPhilosopher";
        mkRound "architecture_plan" "EffectArchitect";
        mkRound "consistency_gate" "DXEnforcer" ]
  | explore =>
      [ mkRound "concepts" "DesignPhilosopher";
        mkRound "experience_goals" "ExperienceArchitect";
        mkRound "technical_bridge" "TechnicalPoet" ]
  end.

Definition planRounds (mode : Mode) : list Round := roundsByMode mode.

(** *** The regular expression [/\b(k1|...|kn)\b/]

    [prevWord] tells whether the character before the current position is
    a word character (false at the start of the text). *)

Definition headIsWord (s : string) : bool :=
  match s with
  | EmptyString => false
  | String c _ => isWordChar c
  end.

(** [\b] between a position whose previous character has wordness
    [prevWord] and the remaining text [rest]. *)
Definition wordBoundary (prevWord : bool) (rest : string) : bool :=
  xorb prevWord (headIsWord rest).

(** Wordness of the last character of [k], or [prevWord] when [k] is
    empty. *)
Fixpoint lastIsWord (prevWord : bool) (k : string) : bool :=
  match k with
  | EmptyString => prevWord
  | String c k' => lastIsWord (isWordChar c) k'
  end.

(** One alternative followed by the closing [\b]. *)
Definition matchAlternative (prevWord : bool) (rest k : string) : bool :=
  match stripPrefix k rest with
  | Some after => wordBoundary (lastIsWord prevWord k) after
  | None => false
  end.

(** The whole pattern anchored at the current position. *)
Definition matchHere (keywords : list string) (prevWord : bool) (rest : string) : bool :=
  wordBoundary prevWord rest && existsb (matchAlternative prevWord rest) keywords.

(** [RegExp.prototype.test]: try every start position from left to right. *)
Fixpoint scan (keywords : list string) (prevWord : bool) (t : string) : bool :=
  matchHere keywords prevWord t ||
  match t with
  | EmptyString => false
  | String c r => scan keywords (isWordChar c) r
  end.

Definition testWordAlternation (keywords : list string) (t : string) : bool :=
  scan keywords false t.

Definition exploreKeywords : list string :=
  [ "explore"; "brainstorm"; "concept"; "history"; "aesthetic"; "theme";
    "story"; "creative"; "innovative"; "vision" ].

Definition reviewKeywords : list string :=
  [ "review"; "audit"; "consistency"; "refactor"; "check"; "validate";
    "improve"; "optimize"; "analyze" ].

(** [quickInferMode], the rule-based fallback. *)
Definition quickInferMode (task : string) : Mode :=
  let t := toLowerCase task in
  if testWordAlternation exploreKeywords t then explore
  else if testWordAlternation reviewKeywords t then design_review
  else pr.

Definition modeName (mode : Mode) : string :=
  match mode with
  | pr => "pr"
  | design_review => "design_review"
  | explore => "explore"
  end.

(** *** Mode-specific instructions for DesignPhilosopher *)

Definition principlesModeText : string :=
  unlines
  [
    ("You are the DesignPhilosopher operating in " ++ dq ++ "principles mode" ++ dq ++ ".");
    EmptyString;
    "<strict_constraints>";
    "- Do NOT reference history, movements, or philosophy";
    "- Output must be concise and actionable";
    "- Deliver 3–5 design principles tied to user needs and business goals";
    ("- Prefer statements like " ++ dq ++ "Use semantic tokens and OKLCH with ΔL<2 across status colors" ++ dq ++ " over any narrative");
    "- Focus on what works, not why it's historically significant";
    "</strict_constraints>"
  ].

Definition explorationModeText : string :=
  unlines
  [
    ("You are the DesignPhilosopher operating in " ++ dq ++ "exploration mode" ++ dq ++ ".");
    EmptyString;
    "<creative_license>";
    "- You MAY reference historical contexts when they inspire innovation";
    "- Connect concepts across disciplines and time periods";
    "- Explore aesthetic and philosophical dimensions";
    "- Build narrative around design choices";
    "- Think expansively about possibilities and meaning";
    "</creative_license>"
  ].

Definition getDesignPhilosopherMode (mode : Mode) : string :=
  match mode with
  | pr | design_review => principlesModeText
  | explore => explorationModeText
  end.

End ModeInference.

(** ** Shapes shared by the orchestrator and the services
    (core/CreativeAILoop.ts) *)

(** A JavaScript object with string values, as its list of entries in
    insertion order. *)
Definition JsObject : Type := list (string * string).

(** [obj[key]] on the entries of an object. *)
Fixpoint property (key : string) (obj : JsObject) : option string :=
  match obj with
  | [] => None
  | (k, v) :: rest => if String.eqb k key then Some v else property key rest
  end.

(** [obj[key] = value]: an existing key keeps its place. *)
Fixpoint setProperty (key value : string) (obj : JsObject) : JsObject :=
  match obj with
  | [] => [(key, value)]
  | (k, v) :: rest =>
      if String.eqb k key then (k, value) :: rest
      else (k, v) :: setProperty key value rest
  end.

Record TaskContext : Type := mkTaskContext {
  task : string;
  outputType : string;
  constraints : JsObject;
  preferences : JsObject;
  inspirationSeeds : list string
}.

(** The conclusions of the rounds, keyed by round focus. *)
Definition Philosophy : Type := JsObject.

Record TechnicalSpec : Type := mkTechnicalSpec {
  spec_name : string;
  spec_description : string;
  spec_implementation : string;
  setupCommands : list string;
  criticalNotes : list string
}.

(** ** core/ExpertRegistry.ts *)

Module ExpertRegistry.

Import ModeInference.

Record Expert : Type := mkExpert {
  name : string;
  domains : list string;
  prompt : string;
  systemPrompt : string
}.

Definition DesignPhilosopher_systemPrompt : string :=
  unlines
  [
    "You are the DesignPhilosopher expert. Your role is to find deeper meaning and historical resonance in design choices. ";
    EmptyString;
    "<expert_role>";
    "You bring historical context and timeless design principles to modern challenges. You understand how great design transcends trends and creates lasting impact through thoughtful decision-making rooted in proven principles.";
    "</expert_role>";
    EmptyString;
    "<perspective_guidelines>";
    "- Reference historical design movements and their lasting principles";
    "- Identify timeless patterns that transcend current trends";
    "- Connect design decisions to deeper human needs and behaviors";
    "- Balance innovation with proven design wisdom";
    ("- Focus on the " ++ dq ++ "why" ++ dq ++ " behind design choices, not just the " ++ dq ++ "what" ++ dq);
    "</perspective_guidelines>"
  ].

Definition DesignPhilosopher : Expert :=
  {| name := "DesignPhilosopher";
     domains := ["visual"; "interaction"; "system"];
     prompt := "Find deeper meaning and historical resonance in design choices";
     systemPrompt := DesignPhilosopher_systemPrompt |}.

Definition ExperienceArchitect_systemPrompt : string :=
  unlines
  [
    "You are the ExperienceArchitect expert. Your role is to define how it should feel to use and design the emotional journey.";
    EmptyString;
    "<expert_role>";
    "You craft meaningful user experiences by understanding the emotional journey, workflow patterns, and human psychology. You ensure that every interaction serves both functional and emotional needs.";
    "</expert_role>";
    EmptyString;
    "<perspective_guidelines>";
    "- Map the complete emotional journey from first contact to mastery";
    "- Identify key moments of delight, friction, and decision-making";
    "- Consider accessibility and inclusive design principles";
    "- Balance efficiency with emotional satisfaction";
    "- Design for both novice and expert users";
    "</perspective_guidelines>"
  ].

Definition ExperienceArchitect : Expert :=
  {| name := "ExperienceArchitect";
     domains := ["emotional"; "workflow"; "usability"];
     prompt := "Define how it should feel to use and the emotional journey";
     systemPrompt := ExperienceArchitect_systemPrompt |}.

Definition SystemsTheorist_systemPrompt : string :=
  unlines
  [
    "You are the SystemsTheorist expert. Your role is to identify elegant organizational principles and patterns.";
    EmptyString;
    "<expert_role>";
    "You see the big picture and understand how complex systems achieve elegance through proper organization. You identify patterns that reduce complexity while maintaining power and flexibility.";
    "</expert_role>";
    EmptyString;
    "<perspective_guidelines>";
    "- Look for underlying organizational principles that scale";
    "- Identify patterns that reduce cognitive load";
    "- Balance simplicity with comprehensive functionality";
    "- Consider system boundaries and interfaces";
    "- Focus on composability and modularity";
    "</perspective_guidelines>"
  ].

Definition SystemsTheorist : Expert :=
  {| name := "SystemsTheorist";
     domains := ["architecture"; "data"; "complexity"];
     prompt := "Identify elegant organizational principles and patterns";
     systemPrompt := SystemsTheorist_systemPrompt |}.

Definition TechnicalPoet_systemPrompt : string :=
  unlines
  [
    "You are the TechnicalPoet expert. Your role is to bridge conceptual beauty with technical pragmatism.";
    EmptyString;
    "<expert_role>";
    "You translate abstract concepts into concrete technical implementations while preserving the essence and elegance of the original vision. You ensure that technical constraints enhance rather than compromise the design philosophy.";
    "</expert_role>";
    EmptyString;
    "<perspective_guidelines>";
    "- Find technical solutions that embody the design philosophy";
    "- Balance ideal vision with practical constraints";
    "- Identify implementation approaches that feel natural and intuitive";
    "- Ensure technical architecture supports the intended experience";
    "- Translate abstract concepts into concrete development guidance";
    "</perspective_guidelines>"
  ].

Definition TechnicalPoet : Expert :=
  {| name := "TechnicalPoet";
     domains := ["code"; "implementation"; "bridge"];
     prompt := "Bridge conceptual beauty with technical pragmatism";
     systemPrompt := TechnicalPoet_systemPrompt |}.

Definition ColorTheorist_systemPrompt : string :=
  unlines
  [
    "You are the ColorTheorist expert. Your role is to understand color psychology and visual harmony.";
    EmptyString;
    "<expert_role>";
    "You understand how color affects emotion, perception, and behavior. You create visual systems that support the intended experience through thoughtful color choices and visual hierarchy.";
    "</expert_role>";
    EmptyString;
    "<perspective_guidelines>";
    "- Consider cultural and psychological associations of colors";
    "- Create visual systems that support usability and accessibility";
    "- Balance aesthetic appeal with functional requirements";
    "- Ensure color choices reinforce the brand and emotional tone";
    "- Design for various viewing conditions and color blindness";
    "</perspective_guidelines>"
  ].

Definition ColorTheorist : Expert :=
  {| name := "ColorTheorist";
     domains := ["visual"; "emotion"; "psychology"];
     prompt := "Understand color psychology and visual harmony";
     systemPrompt := ColorTheorist_systemPrompt |}.

Definition DataPhilosopher_systemPrompt : string :=
  unlines
  [
    "You are the DataPhilosopher expert. Your role is to find meaning in data relationships and information architecture.";
    EmptyString;
    "<expert_role>";
    "You understand that data structures reflect and shape thinking patterns. You design information architectures that feel intuitive and support natural mental models while maintaining technical efficiency.";
    "</expert_role>";
    EmptyString;
    "<perspective_guidelines>";
    "- Align data structures with user mental models";
    "- Identify relationships that create meaningful connections";
    "- Design for both human understanding and machine efficiency";
    "- Consider data lifecycle and evolution patterns";
    "- Balance normalization with practical usability";
    "</perspective_guidelines>"
  ].

Definition DataPhilosopher : Expert :=
  {| name := "DataPhilosopher";
     domains := ["data"; "structure"; "flow"];
     prompt := "Find meaning in data relationships and information architecture";
     systemPrompt := DataPhilosopher_systemPrompt |}.

Definition SpecScribe_systemPrompt : string :=
  unlines
  [
    "You are the SpecScribe expert. Your role is to clarify constraints and acceptance criteria for implementation tasks.";
    EmptyString;
    "<expert_role>";
    "You translate ambiguous requirements into concrete, actionable specifications. You identify exactly what needs to be built, what files need modification, and what the success criteria are.";
    "</expert_role>";
    EmptyString;
    "<perspective_guidelines>";
    "- Break down requirements into measurable acceptance criteria";
    "- Identify specific files, functions, and interfaces to modify";
    "- Flag missing requirements and assumptions";
    "- Define clear success metrics";
    "- Scope the minimal viable implementation";
    "</perspective_guidelines>"
  ].

Definition SpecScribe : Expert :=
  {| name := "SpecScribe";
     domains := ["requirements"; "constraints"; "acceptance"];
     prompt := "Restate acceptance criteria and identify files to touch";
     systemPrompt := SpecScribe_systemPrompt |}.

Definition EffectArchitect_systemPrompt : string :=
  unlines
  [
    "You are the EffectArchitect expert. Your role is to design clean Effect-ts architectures with proper layer separation and error handling.";
    EmptyString;
    "<expert_role>";
    "You create robust, composable architectures using Effect-ts patterns. You design service layers, error types, configuration schemas, and I/O boundaries that are type-safe and testable.";
    "</expert_role>";
    EmptyString;
    "<perspective_guidelines>";
    "- Use Effect services and layers for dependency injection";
    "- Define proper error types and error handling strategies";
    "- Create schemas for validation and configuration";
    "- Separate pure business logic from effects";
    "- Design composable, testable service interfaces";
    "</perspective_guidelines>"
  ].

Definition EffectArchitect : Expert :=
  {| name := "EffectArchitect";
     domains := ["effect"; "architecture"; "types"; "layers"];
     prompt := "Design Effect layers, environments, schemas, and I/O boundaries";
     systemPrompt := EffectArchitect_systemPrompt |}.

Definition TestEngineer_systemPrompt : string :=
  unlines
  [
    "You are the TestEngineer expert. Your role is to design comprehensive testing strategies using modern tools like Vitest and Bun.";
    EmptyString;
    "<expert_role>";
    "You create test architectures that validate behavior, not implementation. You design Test Layers for Effect services, integration tests, and end-to-end validation strategies.";
    "</expert_role>";
    EmptyString;
    "<perspective_guidelines>";
    "- Write tests first to drive clean interfaces";
    "- Create Test Layers for mocking Effect services";
    "- Focus on behavior testing over implementation testing";
    "- Design integration test strategies";
    "- Ensure tests are fast, reliable, and maintainable";
    "</perspective_guidelines>"
  ].

Definition TestEngineer : Expert :=
  {| name := "TestEngineer";
     domains := ["testing"; "vitest"; "bun"; "layers"];
     prompt := "Design comprehensive test strategy with Test Layers";
     systemPrompt := TestEngineer_systemPrompt |}.

Definition CodeGen_systemPrompt : string :=
  unlines
  [
    "You are the CodeGen expert. Your role is to generate clean, minimal code implementations.";
    EmptyString;
    "<expert_role>";
    "You write code that is easy to review, focused on single responsibilities, and follows established patterns. You create minimal diffs that are safe to merge.";
    "</expert_role>";
    EmptyString;
    "<perspective_guidelines>";
    "- Generate small, focused modules with single responsibilities";
    "- Create minimal diffs that don't touch unrelated code";
    "- Follow existing code patterns and conventions";
    "- Write self-documenting code with clear names";
    "- Prioritize readability and maintainability";
    "</perspective_guidelines>"
  ].

Definition CodeGen : Expert :=
  {| name := "CodeGen";
     domains := ["implementation"; "modules"; "diffs"];
     prompt := "Generate minimal diffs and small, focused modules";
     systemPrompt := CodeGen_systemPrompt |}.

Definition DXEnforcer_systemPrompt : string :=
  unlines
  [
    "You are the DXEnforcer expert. Your role is to ensure developer experience consistency across the codebase.";
    EmptyString;
    "<expert_role>";
    "You enforce coding standards, naming conventions, folder structures, and TypeScript configurations. You ensure the codebase remains consistent and navigable.";
    "</expert_role>";
    EmptyString;
    "<perspective_guidelines>";
    "- Enforce consistent naming patterns across files and functions";
    "- Validate folder structure follows established conventions";
    "- Check TypeScript configuration and type safety";
    "- Ensure import/export patterns are consistent";
    "- Maintain code organization standards";
    "</perspective_guidelines>"
  ].

Definition DXEnforcer : Expert :=
  {| name := "DXEnforcer";
     domains := ["consistency"; "naming"; "dx"; "standards"];
     prompt := "Enforce naming conventions, folder structure, and TypeScript rules";
     systemPrompt := DXEnforcer_systemPrompt |}.

Definition PRWriter_systemPrompt : string :=
  unlines
  [
    "You are the PRWriter expert. Your role is to create clear, actionable PR documentation.";
    EmptyString;
    "<expert_role>";
    "You write PR descriptions that help reviewers understand the change, its impact, and how to test it. You create migration notes when needed.";
    "</expert_role>";
    EmptyString;
    "<perspective_guidelines>";
    "- Write concise summaries focused on the change impact";
    "- Include testing instructions for reviewers";
    "- Document any breaking changes or migration steps";
    "- Highlight areas that need careful review";
    "- Link to relevant issues or design documents";
    "</perspective_guidelines>"
  ].

Definition PRWriter : Expert :=
  {| name := "PRWriter";
     domains := ["documentation"; "prs"; "migration"];
     prompt := "Write concise PR descriptions and migration notes";
     systemPrompt := PRWriter_systemPrompt |}.

(** The catalog, in declaration order. *)
Definition conceptualExperts : list (string * Expert) :=
  [ ("DesignPhilosopher", DesignPhilosopher);
    ("ExperienceArchitect", ExperienceArchitect);
    ("SystemsTheorist", SystemsTheorist);
    ("TechnicalPoet", TechnicalPoet);
    ("ColorTheorist", ColorTheorist);
    ("DataPhilosopher", DataPhilosopher);
    ("SpecScribe", SpecScribe);
    ("EffectArchitect", EffectArchitect);
    ("TestEngineer", TestEngineer);
    ("CodeGen", CodeGen);
    ("DXEnforcer", DXEnforcer);
    ("PRWriter", PRWriter) ].

(** The entry of the catalog under [key]. *)
Fixpoint ownExpert (catalog : list (string * Expert)) (key : string) : option Expert :=
  match catalog with
  | [] => None
  | (k, e) :: rest => if String.eqb k key then Some e else ownExpert rest key
  end.

(** The names of the functions that every object inherits. *)
Definition inheritedFunctions : list string :=
  [ "constructor"; "hasOwnProperty"; "isPrototypeOf"; "propertyIsEnumerable";
    "toLocaleString"; "toString"; "valueOf"; "__defineGetter__"; "__defineSetter__";
    "__lookupGetter__"; "__lookupSetter__" ].

(** What the catalog, an object literal, inherits under [key]: a function
    of the prototype, or under [__proto__] the prototype itself.  Neither
    is an expert, but both pass the presence checks; the prompts read
    their [name], which for a function is its own name ([Object] for the
    constructor), and fields that they do not have, which print as
    [undefined]. *)
Definition inheritedExpert (key : string) : option Expert :=
  if String.eqb key "__proto__"
  then Some (mkExpert "undefined" [] "undefined" "undefined")
  else if existsb (String.eqb key) inheritedFunctions
  then Some (mkExpert (if String.eqb key "constructor" then "Object" else key) []
               "undefined" "undefined")
  else None.

(** [this.conceptualExperts[key]] *)
Definition lookupExpert (catalog : list (string * Expert)) (key : string) : option Expert :=
  match ownExpert catalog key with
  | Some e => Some e
  | None => inheritedExpert key
  end.

(** The supporting experts added for a round focus; [None] is the
    [default] branch of the switch. *)
Definition supportByFocus (focus : string) : option (list string) :=
  if String.eqb focus "constraints" then Some ["EffectArchitect"; "DXEnforcer"]
  else if String.eqb focus "architecture_plan" then Some ["TestEngineer"; "CodeGen"]
  else if String.eqb focus "tests_first" then Some ["EffectArchitect"; "DXEnforcer"]
  else if String.eqb focus "impl" then Some ["EffectArchitect"; "TestEngineer"]
  else if String.eqb focus "consistency_gate" then Some ["PRWriter"]
  else if String.eqb focus "pr_summary" then Some ["DXEnforcer"]
  else if String.eqb focus "design_principles" then Some ["SystemsTheorist"; "ExperienceArchitect"]
  else if String.eqb focus "concepts" then Some ["ExperienceArchitect"; "TechnicalPoet"; "ColorTheorist"]
  else if String.eqb focus "experience_goals" then Some ["DesignPhilosopher"; "SystemsTheorist"]
  else if String.eqb focus "technical_bridge" then Some ["EffectArchitect"; "SystemsTheorist"]
  else None.

Definition selectExpertsForRound (round : Round) (mode : Mode) (context : TaskContext) : list string :=
  let support :=
    match supportByFocus (focus round) with
    | Some names => names
    | None =>
        let t := toLowerCase (task context) in
        if includes "visual" t || includes "ui" t then ["ColorTheorist"; "ExperienceArchitect"]
        else if includes "data" t || includes "api" t then ["DataPhilosopher"; "EffectArchitect"]
        else ["SystemsTheorist"; "ExperienceArchitect"]
    end in
  let experts := lead round :: support in
  lead round :: List.filter (fun e => negb (String.eqb e (lead round))) experts.

Record RoundPrompt : Type := mkRoundPrompt {
  roundSystemPrompt : string;
  roundUserPrompt : string
}.

Section RoundPrompt.

(** [JSON.stringify(obj, null, 2)], left abstract. *)
Variable JSON_stringify : JsObject -> string.

(** The collaboration framing that follows the lead's instruction text. *)
Definition collaborationFrame (round : Round) (supporting : list Expert)
    (leadName : string) (mode : Mode) : string :=
  unlines
  [ EmptyString;
    EmptyString;
    "<collaboration_context>";
    "You are participating in a multi-expert collaborative discussion. You are the LEAD expert for this round, but you must also simulate the perspectives of supporting experts to create a comprehensive synthesis.";
    EmptyString;
    "Mode: " ++ toUpperCase (modeName mode);
    "Current Focus: " ++ focus round;
    EmptyString;
    "Supporting experts in this discussion:";
    join nl (map (fun e => "- " ++ name e ++ ": " ++ prompt e) supporting);
    "</collaboration_context>";
    EmptyString;
    "<output_instructions>";
    "Structure your response with clear sections:";
    "1. **Lead Perspective**: Your initial expert proposal as " ++ leadName;
    "2. **Supporting Insights**: Brief critiques/refinements from each supporting expert  ";
    "3. **Synthesis**: A cohesive final insight that weaves all perspectives together";
    EmptyString;
    match mode with
    | explore => "Focus on depth, creativity, and innovative possibilities. The synthesis should be inspirational and expansive."
    | _ => "Focus on practical, actionable insights. The synthesis should be concrete and implementable."
    end;
    "</output_instructions>";
    EmptyString;
    "<persistence>";
    "- You are an expert agent - provide a complete, thorough analysis before concluding";
    "- Never ask for clarification - make reasonable assumptions and document them";
    "- Only stop when you've delivered a comprehensive synthesis that addresses the focus area";
    "</persistence>" ].

Definition roundUserText (round : Round) (context : TaskContext)
    (currentPhilosophy : Philosophy) (mode : Mode) : string :=
  unlines
  [ "<task_context>";
    "Task: " ++ task context;
    "Output Type: " ++ outputType context;
    "Mode: " ++ modeName mode;
    "Current Focus: " ++ focus round;
    "</task_context>";
    EmptyString;
    "<previous_insights>";
    match currentPhilosophy with
    | [] => "None yet - this is the first round"
    | _ => join nl (map (fun kv => fst kv ++ ": " ++ snd kv) currentPhilosophy)
    end;
    "</previous_insights>";
    EmptyString;
    "<inspiration_seeds>";
    match inspirationSeeds context with
    | [] => "No previous patterns found"
    | seeds => join nl (map (fun s => "- " ++ s) seeds)
    end;
    "</inspiration_seeds>";
    EmptyString;
    "<constraints>";
    JSON_stringify (constraints context);
    "</constraints>";
    EmptyString;
    "<preferences>";
    JSON_stringify (preferences context);
    "</preferences>";
    EmptyString;
    "Generate a comprehensive expert discussion focused on **" ++ focus round
      ++ "** for this " ++ modeName mode ++ " task." ].

(** [experts.filter(e => e !== round.lead).map(e => catalog[e]).filter(Boolean)] *)
Definition supportingIn (catalog : list (string * Expert)) (round : Round)
    (experts : list string) : list Expert :=
  omap (lookupExpert catalog)
       (List.filter (fun e => negb (String.eqb e (lead round))) experts).

(** [generateRoundPrompt] over a catalog; the class uses
    [conceptualExperts].  A lead under whose name nothing is found
    throws. *)
Definition generateRoundPromptIn (catalog : list (string * Expert))
    (round : Round) (experts : list string) (context : TaskContext)
    (currentPhilosophy : Philosophy) (mode : Mode) : Result RoundPrompt :=
  match lookupExpert catalog (lead round) with
  | None => Fail ("Expert " ++ lead round ++ " not found in registry")
  | Some leadExpert =>
      let supportingExperts := supportingIn catalog round experts in
      let baseSystemPrompt :=
        if String.eqb (lead round) "DesignPhilosopher"
        then getDesignPhilosopherMode mode
        else systemPrompt leadExpert in
      Ok {| roundSystemPrompt :=
              baseSystemPrompt
                ++ collaborationFrame round supportingExperts (name leadExpert) mode;
            roundUserPrompt := roundUserText round context currentPhilosophy mode |}
  end.

Definition generateRoundPrompt := generateRoundPromptIn conceptualExperts.

End RoundPrompt.

End ExpertRegistry.

(** ** The mode-inference trial runner: its two presence checks on a
    generated system prompt *)

Module ModeInferenceTrial.

Definition hasHistoricalReferences (systemPrompt : string) : bool :=
  includes "history" systemPrompt || includes "historical" systemPrompt.

Definition hasPrinciplesOnly (systemPrompt : string) : bool :=
  includes "principles mode" systemPrompt
  || includes "Do NOT reference history" systemPrompt.

End ModeInferenceTrial.

(** ** services/FileService.ts *)

Module FileService.

(** A path is its list of segments below the root. *)
Abbreviation Path := (list string).

Inductive Node : Type :=
| Dir
| File (content : string).

Abbreviation FS := (gmap (list string) Node).

Definition isDir (fs : FS) (p : Path) : bool :=
  match p with
  | [] => true
  | _ => match fs !! p with
         | Some Dir => true
         | _ => false
         end
  end.

(** Create the directories [base/s1], [base/s1/s2], ... in turn; a file in
    the way is an error. *)
Fixpoint mkdirFrom (base : Path) (segments : list string) (fs : FS) : Result FS :=
  match segments with
  | [] => Ok fs
  | s :: rest =>
      let p := (base ++ [s])%list in
      match fs !! p with
      | Some (File _) => Fail "EEXIST: file already exists"
      | _ => mkdirFrom p rest (<[p := Dir]> fs)
      end
  end.

(** [mkdir(p, { recursive: true })]; a failed call leaves the tree as it
    was. *)
Definition mkdir (p : Path) : Eff FS unit :=
  fun fs => match mkdirFrom [] p fs with
            | Ok fs' => (Ok tt, fs')
            | Fail e => (Fail e, fs)
            end.

(** [writeFile(p, content, "utf-8")]: the parent must be a directory and
    [p] itself must not be one. *)
Definition writeFile (p : Path) (content : string) : Eff FS unit :=
  fun fs =>
    match p with
    | [] => (Fail "EISDIR: illegal operation on a directory", fs)
    | _ =>
        if negb (isDir fs (removelast p))
        then (Fail "ENOENT: no such file or directory", fs)
        else match fs !! p with
             | Some Dir => (Fail "EISDIR: illegal operation on a directory", fs)
             | _ => (Ok tt, <[p := File content]> fs)
             end
    end.

(** [.replace(/[:.]/g, "-")] *)
Definition dashColonDot (c : ascii) : ascii :=
  if Ascii.eqb c ":" || Ascii.eqb c "." then "-"%char else c.

Definition timestampOf (iso : string) : string := mapChars dashColonDot iso.

(** [.toLowerCase().replace(/[^a-z0-9]+/g, "_").slice(0, 50)] *)
Definition sanitizedTaskName (taskName : string) : string :=
  sliceTo 50 (replaceRuns (fun c => negb (isLowerAlnum c)) false (toLowerCase taskName)).

Definition outputFilename (iso taskName : string) : string :=
  sanitizedTaskName taskName ++ "_" ++ timestampOf iso ++ ".md".

(** [saveOutput]; [cwd] is [process.cwd()] and [iso] the value of
    [new Date().toISOString()] read by the call. *)
Definition saveOutput (cwd : Path) (iso : string) (taskName content : string) : Eff FS Path :=
  (let outputDir := (cwd ++ ["output"])%list in
   mapFail (fun e => "Failed to create output directory: " ++ e) (mkdir outputDir) ;;
   let filepath := (outputDir ++ [outputFilename iso taskName])%list in
   mapFail (fun e => "Failed to write output file: " ++ e) (writeFile filepath content) ;;
   ret filepath)%eff.

End FileService.

(** ** services/OpenAIService.ts *)

Module OpenAIService.

(** [insights] is the address of the array of texts on the heap of the
    store: an interaction does not hold its texts, it refers to an array,
    and two interactions that hold the same address share one array. *)
Record ExpertInteraction : Type := mkInteraction {
  expertName : string;
  round : string;
  callCount : Z;
  insights : nat;
  responseId : option string
}.

Inductive Level : Type := low | medium | high.

Record Request : Type := mkRequest {
  req_prompt : string;
  req_reasoningEffort : Level;
  req_verbosity : Level;
  req_previousResponseId : option string
}.

(** What the provider sends back: [choices[0]?.message?.content] and
    [response_id]. *)
Record RawResponse : Type := mkRaw {
  raw_content : option string;
  raw_response_id : option string
}.

Record Reply : Type := mkReply {
  content : string;
  replyId : option string
}.

(** The provider, as seen by the client: the outcome of the [n]-th call. *)
Definition Provider : Type := nat -> Request -> Result RawResponse.

(** JavaScript truthiness of an optional string. *)
Definition truthy (s : option string) : bool :=
  match s with
  | Some v => negb (String.eqb v EmptyString)
  | None => false
  end.

Definition generateResponseAt (provider : Provider) (n : nat) (request : Request) : Result Reply :=
  match provider n request with
  | Fail e => Fail ("OpenAI API error: " ++ e)
  | Ok raw =>
      match raw_content raw with
      | Some c =>
          if String.eqb c EmptyString
          then Fail "OpenAI API error: Error: No content in OpenAI response"
          else Ok {| content := c; replyId := raw_response_id raw |}
      | None => Fail "OpenAI API error: Error: No content in OpenAI response"
      end
  end.

(** The bookkeeping store.  Records are objects on a heap, addressed by
    their index in [objects]; arrays of records hold addresses and live on
    a heap of their own, so that a copied array shares its records with the
    original; arrays of texts live on a third heap, [texts], so that a
    record made by [{ ...interaction }] shares the array of insights of
    the interaction it was copied from. *)
Record Store : Type := mkStore {
  objects : list ExpertInteraction;
  arrays : list (list nat);
  texts : list (list string)
}.

(** Address of the array [expertInteractions] allocated when the service is
    built. *)
Definition expertInteractions : nat := 0%nat.

Definition initialStore : Store := {| objects := []; arrays := [[]]; texts := [] |}.

Definition arrayAt (st : Store) (a : nat) : list nat :=
  default [] (arrays st !! a).

(** The records an array holds, in order. *)
Definition readArray (st : Store) (a : nat) : list ExpertInteraction :=
  omap (fun r => objects st !! r) (arrayAt st a).

(** The texts an array of texts holds, in order. *)
Definition textsAt (st : Store) (a : nat) : list string :=
  default [] (texts st !! a).

(** An array literal [[t1, ..., tn]]: a new array of texts, and its
    address. *)
Definition newTexts (items : list string) : Eff Store nat :=
  fun st => (Ok (List.length (texts st)),
             {| objects := objects st; arrays := arrays st;
                texts := (texts st ++ [items])%list |}).

(** [array.push(...items)] on the array of texts at address [a]. *)
Definition pushTexts (a : nat) (items : list string) (st : Store) : Store :=
  {| objects := objects st; arrays := arrays st;
     texts := alter (fun held => (held ++ items)%list) a (texts st) |}.

Definition sameKey (i : ExpertInteraction) (o : ExpertInteraction) : bool :=
  String.eqb (expertName o) (expertName i) && String.eqb (round o) (round i).

Definition keyAt (st : Store) (i : ExpertInteraction) (r : nat) : bool :=
  match objects st !! r with
  | Some o => sameKey i o
  | None => false
  end.

(** What the [if (existing)] branch does to the record itself; its array
    of insights stays the array it was. *)
Definition merge (i : ExpertInteraction) (existing : ExpertInteraction) : ExpertInteraction :=
  {| expertName := expertName existing;
     round := round existing;
     callCount := callCount existing + callCount i;
     insights := insights existing;
     responseId := if truthy (responseId i) then responseId i else responseId existing |}.

(** [trackExpertInteraction].  In the [if (existing)] branch the texts of
    the interaction are read first (the spread), then pushed onto the
    array of the record; in the other branch the record that is pushed is
    a shallow copy, which keeps the address of the array. *)
Definition trackExpertInteraction (i : ExpertInteraction) : Eff Store unit :=
  fun st =>
    let arr := arrayAt st expertInteractions in
    match List.find (keyAt st i) arr with
    | Some r =>
        let added := textsAt st (insights i) in
        (Ok tt,
         {| objects := alter (merge i) r (objects st);
            arrays := arrays st;
            texts := match objects st !! r with
                     | Some existing =>
                         alter (fun held => (held ++ added)%list) (insights existing) (texts st)
                     | None => texts st
                     end |})
    | None =>
        let r := List.length (objects st) in
        (Ok tt, {| objects := (objects st ++ [i])%list;
                   arrays := <[expertInteractions := (arr ++ [r])%list]> (arrays st);
                   texts := texts st |})
    end.

(** [getExpertInteractions]: a fresh array with the same elements. *)
Definition getExpertInteractions : Eff Store nat :=
  fun st =>
    let a := List.length (arrays st) in
    (Ok a, {| objects := objects st;
              arrays := (arrays st ++ [arrayAt st expertInteractions])%list;
              texts := texts st |}).

End OpenAIService.

(** ** services/MemoryService.ts *)

Module MemoryService.

(** [entry_timestamp] is the time of [new Date()], in milliseconds. *)
Record MemoryEntry : Type := mkEntry {
  entry_task : string;
  entry_philosophy : Philosophy;
  entry_spec : TechnicalSpec;
  entry_timestamp : Z
}.

(** A row of [memories]; the two JSON columns hold the value that
    [JSON.parse] gives back.  [mem_timestamp] is the second that
    [CURRENT_TIMESTAMP] names: the column holds the text
    [YYYY-MM-DD HH:MM:SS], which orders as the number of the second
    does. *)
Record MemoryRow : Type := mkRow {
  mem_id : Z;
  mem_task : string;
  mem_philosophy : Philosophy;
  mem_spec : TechnicalSpec;
  mem_timestamp : Z
}.

(** [writable] tells whether the database accepts an INSERT. *)
Record Store : Type := mkStore {
  sessionMemory : list MemoryEntry;
  memories : list MemoryRow;
  writable : bool
}.

Definition likeTerm : string := "LOWER(task) LIKE ?".

(** The expression spliced after [WHERE]. *)
Definition whereClause (keywords : list string) : string :=
  join " OR " (map (fun _ => likeTerm) keywords).

Definition likeParams (keywords : list string) : list string :=
  map (fun k => "%" ++ k ++ "%") keywords.

(** *** The database engine on this query *)

(** The grammar wants an expression after [WHERE]: one LIKE term, or
    several joined by [OR].  The result is the number of placeholders. *)
Fixpoint parseTerms (fuel : nat) (s : string) : option nat :=
  match fuel with
  | O => None
  | S f =>
      match stripPrefix likeTerm s with
      | None => None
      | Some EmptyString => Some 1%nat
      | Some rest =>
          match stripPrefix " OR " rest with
          | Some rest' => option_map S (parseTerms f rest')
          | None => None
          end
      end
  end.

Definition prepare (clause : string) : option nat :=
  parseTerms (S (String.length clause)) clause.

(** [LIKE] is case-insensitive on ASCII. *)
Definition likeChar (p c : ascii) : bool :=
  Ascii.eqb (toLowerChar p) (toLowerChar c).

(** The rest of a text after the continuation bytes it starts with. *)
Fixpoint skipContinuation (s : string) : string :=
  match s with
  | EmptyString => EmptyString
  | String c r => if isContinuation c then skipContinuation r else s
  end.

(** The rest of a text after its first character: the lead byte [c] of a
    sequence takes its continuation bytes with it. *)
Definition afterCharacter (c : ascii) (rest : string) : string :=
  if (192 <=? code c)%nat then skipContinuation rest else rest.

(** [text LIKE pattern]: [%] matches any run of characters, [_] any one
    character; the rest of the pattern is matched where a character
    starts. *)
Fixpoint like (pattern text : string) : bool :=
  match pattern with
  | EmptyString => match text with EmptyString => true | _ => false end
  | String p pattern' =>
      if Ascii.eqb p "%" then
        (fix star (t : string) : bool :=
           (startsCharacter t && like pattern' t) ||
           match t with
           | EmptyString => false
           | String _ t' => star t'
           end) text
      else
        match text with
        | EmptyString => false
        | String c text' =>
            if Ascii.eqb p "_" then like pattern' (afterCharacter c text')
            else likeChar p c && like pattern' text'
        end
  end.

(** [ORDER BY timestamp DESC]: insertion into a list that is already in
    descending order, before the rows that are at most as recent, so that
    rows of one second stay in the order of the table, which is the order
    of their ids. *)
Fixpoint insertDesc (r : MemoryRow) (sorted : list MemoryRow) : list MemoryRow :=
  match sorted with
  | [] => [r]
  | x :: rest =>
      if (mem_timestamp x <=? mem_timestamp r)%Z then r :: sorted
      else x :: insertDesc r rest
  end.

Definition orderByTimestampDesc (rows : list MemoryRow) : list MemoryRow :=
  fold_right insertDesc [] rows.

(** The error of a query with nothing between [WHERE] and [ORDER]. *)
Definition syntaxError : string :=
  "Error: SQLITE_ERROR: near " ++ dq ++ "ORDER" ++ dq ++ ": syntax error".

(** [db.all(query, params, ...)] for the query of [findRelevantSuccesses];
    [LOWER] folds the letters of ASCII only. *)
Definition selectMemories (clause : string) (params : list string)
    (rows : list MemoryRow) : Result (list MemoryRow) :=
  match prepare clause with
  | None => Fail syntaxError
  | Some n =>
      if negb (n =? List.length params)%nat
      then Fail "Error: SQLITE_RANGE: column index out of range"
      else
        Ok (firstn 3
              (orderByTimestampDesc
                 (List.filter
                    (fun r => existsb (fun p => like p (toLowerCase (mem_task r))) params)
                    rows)))
  end.

Definition formatSuccess (r : MemoryRow) : string :=
  mem_task r ++ ": " ++ default EmptyString (property "historicalGrounding" (mem_philosophy r)).

Section Search.

(** [String.prototype.toLowerCase], with the case mapping of Unicode.  The
    mapping is not embedded: the search is defined for every function in
    its place.  On ASCII text the method is [toLowerCase]. *)
Variable toLowerCaseJS : string -> string.

(** [task.toLowerCase().split(" ").filter(w => w.length > 3)] *)
Definition keywordsOf (task : string) : list string :=
  List.filter (fun w => (3 <? jsLength w)%nat) (splitOn " " (toLowerCaseJS task)).

Definition findRelevantSuccesses (task : string) : Eff Store (list string) :=
  mapFail (fun e => "Failed to query memories: " ++ e)
    (fun st =>
       let keywords := keywordsOf task in
       match selectMemories (whereClause keywords) (likeParams keywords) (memories st) with
       | Ok rows => (Ok (map formatSuccess rows), st)
       | Fail e => (Fail e, st)
       end).

End Search.

(** [AUTOINCREMENT]: one more than the largest id in use. *)
Definition nextId (rows : list MemoryRow) : Z :=
  1 + fold_right (fun r m => Z.max (mem_id r) m) 0%Z rows.

(** [storeSuccess]; [now] is the time that [new Date()] reads, and
    [currentTimestamp] the second that the engine reads when it fills the
    column the INSERT does not list. *)
Definition storeSuccess (now currentTimestamp : Z) (task : string) (philosophy : Philosophy)
    (spec : TechnicalSpec) : Eff Store unit :=
  (modify (fun st =>
     {| sessionMemory := (sessionMemory st ++ [mkEntry task philosophy spec now])%list;
        memories := memories st;
        writable := writable st |}) ;;
   mapFail (fun e => "Failed to store memory: " ++ e)
     (fun st =>
        if writable st
        then (Ok tt,
              {| sessionMemory := sessionMemory st;
                 memories := (memories st
                               ++ [mkRow (nextId (memories st)) task philosophy spec
                                     currentTimestamp])%list;
                 writable := writable st |})
        else (Fail "Error: SQLITE_READONLY: attempt to write a readonly database", st)))%eff.

(** [getSessionMemory] hands out the session list itself. *)
Definition getSessionMemory : Eff Store (list MemoryEntry) := gets sessionMemory.

End MemoryService.

(** ** The numbers of JavaScript and of the REAL columns *)

Module Binary64.

(** A finite binary64 number is an integer of at most 53 bits times a
    power of two, with an exponent of at least -1074.  Such a number is
    modelled by its exact value, a rational in lowest terms, and an
    operation by the rounding of its exact result to the nearest binary64
    number, to the one with the even integer when two are as near.  What
    lies beyond the finite numbers (infinities, NaN, the sign of zero) is
    not modelled: the operations are those of results that are finite. *)

(** The steps of the finest grid in one unit: 2^1074. *)
Definition scale : Z := 2 ^ 1074.

(** [n / d] rounded to the nearest integer, to the even one half way
    between two; [d] is positive. *)
Definition nearestEven (n d : Z) : Z :=
  let q := (n / d)%Z in
  match (2 * (n mod d) ?= d)%Z with
  | Lt => q
  | Gt => (q + 1)%Z
  | Eq => if Z.even q then q else (q + 1)%Z
  end.

(** The low bits that rounding drops from a value whose integer part,
    counted in steps of the finest grid, is [y]: none while 53 bits hold
    it. *)
Definition shiftOf (y : Z) : Z := Z.max 0 (Z.log2 y - 52).

(** The binary64 number nearest to [p / q]. *)
Definition roundPositive (p q : positive) : Q :=
  let n := (Z.pos p * scale)%Z in
  let s := shiftOf (n / Z.pos q) in
  let m := nearestEven n (Z.pos q * 2 ^ s) in
  Qred (Qmake (m * 2 ^ s) (Z.to_pos scale)).

Definition round (x : Q) : Q :=
  match Qnum x with
  | Z0 => 0%Q
  | Zpos p => roundPositive p (Qden x)
  | Zneg p => (- roundPositive p (Qden x))%Q
  end.

(** [x + y], [x * y] and [x / y] on numbers. *)
Definition add (x y : Q) : Q := round (x + y)%Q.
Definition mul (x y : Q) : Q := round (x * y)%Q.
Definition div (x y : Q) : Q := round (x / y)%Q.

(** The number that JavaScript reads in an INTEGER column. *)
Definition ofInteger (z : Z) : Q := round (inject_Z z).

(** The value of a primitive binary64 number, when it is finite. *)
Definition valueOf (f : float) : option Q :=
  match Prim2SF f with
  | S754_zero _ => Some 0%Q
  | S754_finite negative m e =>
      let v := (inject_Z (Z.pos m) * Qpower 2 e)%Q in
      Some (Qred (if negative then (- v)%Q else v))
  | _ => None
  end.

End Binary64.

(** ** core/DynamicAgentFactory.ts *)

Module DynamicAgentFactory.

Record DynamicAgent : Type := mkAgent {
  id : string;
  name : string;
  domain : string;
  expertise : list string;
  prompt : string;
  capabilities : list string;
  createdAt : Z;
  taskContext : string
}.

Record AgentSpec : Type := mkAgentSpec {
  agentSpec_name : string;
  agentSpec_domain : string;
  agentSpec_expertise : list string;
  agentSpec_capabilities : list string;
  agentSpec_systemPrompt : string
}.

(** A row of [dynamic_agents]; the two JSON columns hold the value that
    [JSON.parse] gives back, and [success_rate] the value of the binary64
    number that the REAL column holds. *)
Record AgentRow : Type := mkAgentRow {
  row_id : string;
  row_name : string;
  row_domain : string;
  row_expertise : list string;
  row_prompt : string;
  row_capabilities : list string;
  created_at : Z;
  task_context : string;
  usage_count : Z;
  success_rate : Q
}.

Record Feedback : Type := mkFeedback {
  success : bool;
  improvements : option (list string)
}.

(** The factory: its table, its cache, and the positions reached in the
    provider's and the clock's answers. *)
Record World : Type := mkWorld {
  db : list AgentRow;
  agentCache : gmap string DynamicAgent;
  llmCalls : nat;
  ticks : nat
}.

(** [array.sort()] on strings: ascending in code-unit order. *)
Fixpoint insertSorted (x : string) (sorted : list string) : list string :=
  match sorted with
  | [] => [x]
  | y :: rest => if String.leb x y then x :: sorted else y :: insertSorted x rest
  end.

Definition sortStrings (l : list string) : list string :=
  fold_right insertSorted [] l.

(** Each element is at most the next one. *)
Fixpoint ascending (l : list string) : bool :=
  match l with
  | [] => true
  | x :: rest =>
      match rest with
      | [] => true
      | y :: _ => String.leb x y && ascending rest
      end
  end.

(** The identity under which [createAgent] caches an agent. *)
Definition cacheKeyOf (domain : string) (missingCapabilities : list string) : string :=
  domain ++ "-" ++ join "-" (sortStrings missingCapabilities).

(** [`${i + 1}. ${imp}`] for the improvements, counted from [i]. *)
Fixpoint numbered (i : nat) (items : list string) : list string :=
  match items with
  | [] => []
  | x :: rest => (ofZ (Z.of_nat (i + 1)) ++ ". " ++ x) :: numbered (S i) rest
  end.

Definition agentSpecPrompt (taskContext domain : string) (capabilities : list string) : string :=
  unlines
  [
    "Create a specialized AI agent for the following context:";
    EmptyString;
    "Task Context: " ++ dq ++ taskContext ++ dq;
    "Domain: " ++ dq ++ domain ++ dq;
    "Required Capabilities: " ++ join ", " capabilities;
    EmptyString;
    "Design an agent with:";
    "1. A unique, descriptive name (e.g., " ++ dq ++ "DataFlowOptimizer" ++ dq ++ ", " ++ dq ++ "UserJourneyArchitect" ++ dq ++ ")";
    "2. Clear domain of expertise";
    "3. Specific expertise areas (3-5)";
    "4. Concrete capabilities it provides";
    "5. A system prompt that defines its personality and approach";
    EmptyString;
    "The agent should be highly specialized and creative in its domain.";
    EmptyString;
    "Respond in JSON:";
    "{";
    "  " ++ dq ++ "name" ++ dq ++ ": " ++ dq ++ "AgentName" ++ dq ++ ",";
    "  " ++ dq ++ "domain" ++ dq ++ ": " ++ dq ++ "specific domain" ++ dq ++ ",";
    "  " ++ dq ++ "expertise" ++ dq ++ ": [" ++ dq ++ "area1" ++ dq ++ ", " ++ dq ++ "area2" ++ dq ++ ", " ++ dq ++ "area3" ++ dq ++ "],";
    "  " ++ dq ++ "capabilities" ++ dq ++ ": [" ++ dq ++ "capability1" ++ dq ++ ", " ++ dq ++ "capability2" ++ dq ++ "],";
    "  " ++ dq ++ "systemPrompt" ++ dq ++ ": " ++ dq ++ "You are [name], a specialist in [domain]. Your approach is..." ++ dq;
    "}"
  ].

Definition enhancementPrompt (spec : AgentSpec) : string :=
  unlines
  [
    "Enhance this agent's system prompt to be more sophisticated and effective:";
    EmptyString;
    "Agent: " ++ agentSpec_name spec;
    "Domain: " ++ agentSpec_domain spec;
    "Expertise: " ++ join ", " (agentSpec_expertise spec);
    "Basic Prompt: " ++ agentSpec_systemPrompt spec;
    EmptyString;
    "Create a detailed system prompt that:";
    "1. Defines the agent's unique perspective and approach";
    "2. Includes specific methodologies or frameworks it uses";
    "3. Describes how it collaborates with other agents";
    "4. Emphasizes creative and innovative thinking in its domain";
    "5. Includes 2-3 signature techniques or principles";
    EmptyString;
    "Make it compelling and distinctive. The agent should feel like a real expert with depth."
  ].

Definition improvementPrompt (agent : DynamicAgent) (improvements : list string) : string :=
  unlines
  [
    "Improve this agent's system prompt based on feedback:";
    EmptyString;
    "Current Agent: " ++ name agent;
    "Current Prompt: " ++ prompt agent;
    EmptyString;
    "Suggested Improvements:";
    join nl (numbered 0 improvements);
    EmptyString;
    "Generate an improved system prompt that incorporates these improvements while maintaining the agent's core identity and expertise."
  ].

(** *** The table *)

Definition hasId (agentId : string) (r : AgentRow) : bool := String.eqb (row_id r) agentId.

(** [SELECT ... WHERE id = ?] with [.get]. *)
Definition selectById (agentId : string) (rows : list AgentRow) : option AgentRow :=
  List.find (hasId agentId) rows.

(** [UPDATE ... WHERE id = ?] *)
Definition updateById (agentId : string) (f : AgentRow -> AgentRow)
    (rows : list AgentRow) : list AgentRow :=
  map (fun r => if hasId agentId r then f r else r) rows.

(** Number of rows with a given id. *)
Definition countId (agentId : string) (rows : list AgentRow) : nat :=
  List.length (List.filter (hasId agentId) rows).

(** The row that [storeAgent] inserts: the two statistics columns are not
    listed and take their defaults. *)
Definition rowOfAgent (agent : DynamicAgent) : AgentRow :=
  {| row_id := id agent;
     row_name := name agent;
     row_domain := domain agent;
     row_expertise := expertise agent;
     row_prompt := prompt agent;
     row_capabilities := capabilities agent;
     created_at := createdAt agent;
     task_context := taskContext agent;
     usage_count := 0;
     success_rate := 0 |}.

Definition setDb (rows : list AgentRow) (w : World) : World :=
  {| db := rows; agentCache := agentCache w; llmCalls := llmCalls w; ticks := ticks w |}.

Definition cacheSet (key : string) (agent : DynamicAgent) (w : World) : World :=
  {| db := db w; agentCache := <[key := agent]> (agentCache w);
     llmCalls := llmCalls w; ticks := ticks w |}.

(** [storeAgent]: [id] is the primary key, a second row with the same id
    is refused and the call throws. *)
Definition storeAgent (agent : DynamicAgent) : Eff World unit :=
  fun w =>
    match selectById (id agent) (db w) with
    | Some _ => (Fail "UNIQUE constraint failed: dynamic_agents.id", w)
    | None => (Ok tt, setDb (db w ++ [rowOfAgent agent])%list w)
    end.

Definition bumpUsage (r : AgentRow) : AgentRow :=
  {| row_id := row_id r; row_name := row_name r; row_domain := row_domain r;
     row_expertise := row_expertise r; row_prompt := row_prompt r;
     row_capabilities := row_capabilities r; created_at := created_at r;
     task_context := task_context r;
     usage_count := usage_count r + 1;
     success_rate := success_rate r |}.

Definition incrementUsage (agentId : string) : Eff World unit :=
  modify (fun w => setDb (updateById agentId bumpUsage (db w)) w).

(** [(totalSuccesses + (success ? 1 : 0)) / (usage_count + 1)] with
    [totalSuccesses = success_rate * usage_count], each operation on
    binary64 numbers; [rate] and [count] are the two columns of the row
    that was read. *)
Definition newSuccessRate (rate : Q) (count : Z) (success : bool) : Q :=
  let usage_count := Binary64.ofInteger count in
  let totalSuccesses := Binary64.mul rate usage_count in
  Binary64.div (Binary64.add totalSuccesses (if success then 1%Q else 0%Q))
    (Binary64.add usage_count 1%Q).

(** The same expression on the primitive binary64 numbers. *)
Definition newSuccessRateDouble (rate count : float) (success : bool) : float :=
  ((rate * count + (if success then 1 else 0)) / (count + 1))%float.

Definition setRate (rate : Q) (r : AgentRow) : AgentRow :=
  {| row_id := row_id r; row_name := row_name r; row_domain := row_domain r;
     row_expertise := row_expertise r; row_prompt := row_prompt r;
     row_capabilities := row_capabilities r; created_at := created_at r;
     task_context := task_context r;
     usage_count := usage_count r + 1;
     success_rate := rate |}.

Definition updateSuccessRate (agentId : string) (success : bool) : Eff World unit :=
  modify (fun w =>
    match selectById agentId (db w) with
    | Some currentStats =>
        let rate := newSuccessRate (success_rate currentStats) (usage_count currentStats) success in
        setDb (updateById agentId (setRate rate) (db w)) w
    | None => w
    end).

Section Factory.

(** The provider behind [openai.generateResponse], the values [Date.now()]
    returns in turn, and [JSON.parse] on a specification reply. *)
Variable provider : OpenAIService.Provider.
Variable clock : nat -> Z.
Variable parseAgentSpec : string -> option AgentSpec.

Definition dateNow : Eff World Z :=
  fun w => (Ok (clock (ticks w)),
            {| db := db w; agentCache := agentCache w;
               llmCalls := llmCalls w; ticks := S (ticks w) |}).

Definition generateResponse (request : OpenAIService.Request) : Eff World OpenAIService.Reply :=
  fun w => (OpenAIService.generateResponseAt provider (llmCalls w) request,
            {| db := db w; agentCache := agentCache w;
               llmCalls := S (llmCalls w); ticks := ticks w |}).

Definition ask (text : string) (effort verbosity : OpenAIService.Level) : Eff World string :=
  (let* reply := generateResponse (OpenAIService.mkRequest text effort verbosity None) in
   ret (OpenAIService.content reply))%eff.

Definition enhanceSystemPrompt (spec : AgentSpec) : Eff World string :=
  ask (enhancementPrompt spec) OpenAIService.high OpenAIService.high.

Definition generateAgentSpec (taskContext domain : string) (capabilities : list string)
    : Eff World AgentSpec :=
  (let* reply := ask (agentSpecPrompt taskContext domain capabilities)
                     OpenAIService.high OpenAIService.medium in
   match parseAgentSpec reply with
   | Some spec =>
       let* enhanced := enhanceSystemPrompt spec in
       ret {| agentSpec_name := agentSpec_name spec;
              agentSpec_domain := agentSpec_domain spec;
              agentSpec_expertise := agentSpec_expertise spec;
              agentSpec_capabilities := agentSpec_capabilities spec;
              agentSpec_systemPrompt := enhanced |}
   | None =>
       ret {| agentSpec_name := domain ++ "Specialist";
              agentSpec_domain := domain;
              agentSpec_expertise := capabilities;
              agentSpec_capabilities := capabilities;
              agentSpec_systemPrompt :=
                "You are a specialist in " ++ domain ++ ". Focus on: "
                  ++ join ", " capabilities |}
   end)%eff.

(** [`${name.toLowerCase().replace(/\s+/g, "_")}_${Date.now()}`] *)
Definition generateAgentId (name : string) : Eff World string :=
  (let* now := dateNow in
   ret (replaceRuns isSpaceChar false (toLowerCase name) ++ "_" ++ ofZ now))%eff.

(** [createAgent].  The capabilities are sorted in place before the cache
    is consulted, so the rest of the call sees the sorted list. *)
Definition createAgent (taskContext domain : string) (missingCapabilities : list string)
    : Eff World DynamicAgent :=
  (let sorted := sortStrings missingCapabilities in
   let cacheKey := domain ++ "-" ++ join "-" sorted in
   let* cached := gets (fun w => agentCache w !! cacheKey) in
   match cached with
   | Some cached =>
       incrementUsage (id cached) ;;
       ret cached
   | None =>
       let* spec := generateAgentSpec taskContext domain sorted in
       let* agentId := generateAgentId (agentSpec_name spec) in
       let* created := dateNow in
       let agent :=
         {| id := agentId;
            name := agentSpec_name spec;
            domain := agentSpec_domain spec;
            expertise := agentSpec_expertise spec;
            prompt := agentSpec_systemPrompt spec;
            capabilities := agentSpec_capabilities spec;
            createdAt := created;
            taskContext := taskContext |} in
       storeAgent agent ;;
       modify (cacheSet cacheKey agent) ;;
       modify (cacheSet (id agent) agent) ;;
       ret agent
   end)%eff.

Definition improveAgentPrompt (agent : DynamicAgent) (improvements : list string)
    : Eff World string :=
  ask (improvementPrompt agent improvements) OpenAIService.high OpenAIService.medium.

(** [evolveAgent] *)
Definition evolveAgent (agentId : string) (feedback : Feedback) : Eff World DynamicAgent :=
  (let* found := gets (fun w => agentCache w !! agentId) in
   match found with
   | None => fail ("Agent " ++ agentId ++ " not found")
   | Some agent =>
       updateSuccessRate agentId (success feedback) ;;
       match improvements feedback with
       | Some (imp :: imps) =>
           let* improvedPrompt := improveAgentPrompt agent (imp :: imps) in
           let* now := dateNow in
           let* created := dateNow in
           let evolvedAgent :=
             {| id := id agent ++ "-v" ++ ofZ now;
                name := name agent;
                domain := domain agent;
                expertise := expertise agent;
                prompt := improvedPrompt;
                capabilities := capabilities agent;
                createdAt := created;
                taskContext := taskContext agent |} in
           storeAgent evolvedAgent ;;
           modify (cacheSet (id evolvedAgent) evolvedAgent) ;;
           ret evolvedAgent
       | _ => ret agent
       end
   end)%eff.

End Factory.

End DynamicAgentFactory.

(** ** core/CreativeAILoop.ts *)

Module CreativeAILoop.

Import ModeInference.

(** Everything a run can touch: the memory store, the interaction
    bookkeeping, the file system, and the positions reached in the answers
    of the provider, the terminal and the clock.  Console output is not
    modelled. *)
Record World : Type := mkWorld {
  memory : MemoryService.Store;
  openai : OpenAIService.Store;
  files : FileService.FS;
  llmCalls : nat;
  prompts : nat;
  ticks : nat
}.

Record LoopResult : Type := mkLoopResult {
  outputPath : FileService.Path;
  philosophy : Philosophy;
  spec : TechnicalSpec;
  expertInteractions : nat
}.

Definition liftMemory {A} (m : Eff MemoryService.Store A) : Eff World A :=
  fun w => match m (memory w) with
           | (r, s) => (r, {| memory := s; openai := openai w; files := files w;
                              llmCalls := llmCalls w; prompts := prompts w;
                              ticks := ticks w |})
           end.

Definition liftOpenAI {A} (m : Eff OpenAIService.Store A) : Eff World A :=
  fun w => match m (openai w) with
           | (r, s) => (r, {| memory := memory w; openai := s; files := files w;
                              llmCalls := llmCalls w; prompts := prompts w;
                              ticks := ticks w |})
           end.

Definition liftFiles {A} (m : Eff FileService.FS A) : Eff World A :=
  fun w => match m (files w) with
           | (r, s) => (r, {| memory := memory w; openai := openai w; files := s;
                              llmCalls := llmCalls w; prompts := prompts w;
                              ticks := ticks w |})
           end.

(** [openai.trackExpertInteraction({ expertName, round, callCount,
    insights: [...], responseId })]: the array literal makes a new array,
    the object literal an interaction that refers to it. *)
Definition track (expertName round : string) (callCount : Z) (insights : list string)
    (responseId : option string) : Eff World unit :=
  liftOpenAI
    (let* a := OpenAIService.newTexts insights in
     OpenAIService.trackExpertInteraction
       (OpenAIService.mkInteraction expertName round callCount a responseId))%eff.

(** [task.match(/a|b|.../i)]: some alternative occurs in the task, whatever
    the case. *)
Definition matchesAny (alternatives : list string) (task : string) : bool :=
  existsb (fun a => includes a (toLowerCase task)) alternatives.

Definition generateClarifyingQuestions (task : string) : list string :=
  (["Is this for production, experimentation, or learning?"]
   ++ (if matchesAny ["ui"; "interface"; "design"; "app"; "website"; "frontend"] task
       then ["What emotional tone should this convey? (professional, playful, minimal, bold)"]
       else [])
   ++ (if matchesAny ["data"; "api"; "backend"; "database"; "process"] task
       then ["What scale of data will this handle? (small/personal, medium/team, large/enterprise)"]
       else [])
   ++ ["Preferred technology stack? (or type 'surprise me' for recommendation)"])%list.

Definition inferOutputType (task : string) : string :=
  if matchesAny ["react"; "component"; "ui"; "frontend"] task then "react_app"
  else if matchesAny ["cli"; "command"; "terminal"; "script"] task then "cli_tool"
  else if matchesAny ["api"; "backend"; "server"; "service"] task then "api_service"
  else if matchesAny ["config"; "settings"; "json"; "yaml"] task then "configuration"
  else "general".

Definition shouldCheckWithUser (round : Round) : bool :=
  String.eqb (focus round) "emotional_resonance"
  || String.eqb (focus round) "technical_bridge".

(** [selectConceptualExperts] of the registry the loop is built with. *)
Definition selectConceptualExperts (context : TaskContext) : list string :=
  let t := toLowerCase (task context) in
  if includes "visual" t || includes "design" t || includes "ui" t
  then ["DesignPhilosopher"; "ColorTheorist"; "ExperienceArchitect"]
  else if includes "data" t || includes "api" t || includes "backend" t
  then ["SystemsTheorist"; "DataPhilosopher"; "TechnicalPoet"]
  else if includes "cli" t || includes "tool" t || includes "script" t
  then ["SystemsTheorist"; "ExperienceArchitect"; "TechnicalPoet"]
  else ["DesignPhilosopher"; "ExperienceArchitect"; "TechnicalPoet"].

Definition selectTechnicalExperts (outputType : string) : list string :=
  if String.eqb outputType "react_app" then ["ReactArchitect"; "ComponentDesigner"; "StateManager"]
  else if String.eqb outputType "cli_tool" then ["CommandGrammar"; "UnixPhilosopher"; "ErrorHandler"]
  else if String.eqb outputType "api_service" then ["APIDesigner"; "DataModeler"; "SecurityExpert"]
  else if String.eqb outputType "configuration" then ["SchemaDesigner"; "DataModeler"]
  else ["SystemArchitect"; "CodeCraftsman"].

Definition conceptRounds : list Round :=
  [ mkRound "historical_grounding" "DesignPhilosopher";
    mkRound "emotional_resonance" "ExperienceArchitect";
    mkRound "technical_bridge" "TechnicalPoet" ].

Section Loop.

(** The outside of a run: the provider, the terminal ([input] and
    [confirm] of the prompt library, by position), the clock as
    [toISOString()] and as epoch milliseconds, and the working
    directory. *)
Variable provider : OpenAIService.Provider.
Variable terminalInput : nat -> string -> Result string.
Variable terminalConfirm : nat -> string -> Result bool.
Variable clockISO : nat -> string.
Variable clockMs : nat -> Z.
Variable cwd : FileService.Path.

(** The texts the loop sends, as pure functions of what they are built
    from, and the extraction of the synthesis from a reply. *)
Variable roundUserPrompt : Round -> list string -> TaskContext -> Philosophy -> string.
Variable technicalUserPrompt : Philosophy -> TaskContext -> list string -> string.
Variable outputUserPrompt : Philosophy -> TechnicalSpec -> TaskContext -> string.
Variable extractSynthesis : string -> string.

(** [String.prototype.toLowerCase] where the memory store calls it. *)
Variable toLowerCaseJS : string -> string.

Definition generateResponse (request : OpenAIService.Request) : Eff World OpenAIService.Reply :=
  fun w => (OpenAIService.generateResponseAt provider (llmCalls w) request,
            {| memory := memory w; openai := openai w; files := files w;
               llmCalls := S (llmCalls w); prompts := prompts w; ticks := ticks w |}).

Definition nextPrompt (w : World) : World :=
  {| memory := memory w; openai := openai w; files := files w;
     llmCalls := llmCalls w; prompts := S (prompts w); ticks := ticks w |}.

Definition nextTick (w : World) : World :=
  {| memory := memory w; openai := openai w; files := files w;
     llmCalls := llmCalls w; prompts := prompts w; ticks := S (ticks w) |}.

Definition input (message : string) : Eff World string :=
  mapFail (fun e => "Failed to get input: " ++ e)
    (fun w => (terminalInput (prompts w) message, nextPrompt w)).

Definition confirm (message : string) : Eff World bool :=
  mapFail (fun e => "Failed to get confirmation: " ++ e)
    (fun w => (terminalConfirm (prompts w) message, nextPrompt w)).

(** [cli.askQuestions]: the answers, sorted into constraints and
    preferences by the wording of the question. *)
Fixpoint askQuestionsFrom (questions : list string) (constraints preferences : JsObject)
    : Eff World (JsObject * JsObject) :=
  match questions with
  | [] => ret (constraints, preferences)
  | question :: rest =>
      (let* answer := input question in
       if includes "production" question
       then askQuestionsFrom rest (setProperty "environment" answer constraints) preferences
       else if includes "emotional tone" question
       then askQuestionsFrom rest constraints (setProperty "tone" answer preferences)
       else if includes "scale" question
       then askQuestionsFrom rest (setProperty "scale" answer constraints) preferences
       else if includes "technology stack" question
       then askQuestionsFrom rest constraints (setProperty "tech_stack" answer preferences)
       else askQuestionsFrom rest constraints preferences)%eff
  end.

Definition askQuestions (questions : list string) : Eff World (JsObject * JsObject) :=
  askQuestionsFrom questions [] [].

(** [cli.getUserFeedback]; [None] is [null]. *)
Definition getUserFeedback (focus current : string) : Eff World (option string) :=
  (let* shouldEdit := confirm ("Would you like to refine the " ++ focus ++ "?") in
   if shouldEdit : bool
   then let* refined := input ("Enter your refined " ++ focus ++ ":") in
        ret (Some refined)
   else ret None)%eff.

(** Phase 0 *)
Definition interactiveTaskAnalysis (initialPrompt : string) : Eff World TaskContext :=
  (let questions := generateClarifyingQuestions initialPrompt in
   let* responses := askQuestions questions in
   let* seeds :=
     liftMemory (MemoryService.findRelevantSuccesses toLowerCaseJS initialPrompt) in
   ret {| task := initialPrompt;
          outputType := inferOutputType initialPrompt;
          constraints := fst responses;
          preferences := snd responses;
          inspirationSeeds := seeds |})%eff.

(** The loop of Phase 1 over the remaining rounds. *)
Fixpoint developRounds (rounds : list Round) (experts : list string)
    (context : TaskContext) (philosophy : Philosophy)
    (previousResponseId : option string) : Eff World Philosophy :=
  match rounds with
  | [] => ret philosophy
  | round :: rest =>
      (let userPrompt := roundUserPrompt round experts context philosophy in
       let* response :=
         generateResponse
           (OpenAIService.mkRequest userPrompt OpenAIService.high OpenAIService.medium
              previousResponseId) in
       let synthesis := extractSynthesis (OpenAIService.content response) in
       let philosophy1 := setProperty (focus round) synthesis philosophy in
       track (lead round) (focus round) 1 [synthesis] (OpenAIService.replyId response) ;;
       if shouldCheckWithUser round
       then
         let* feedback := getUserFeedback (focus round) synthesis in
         if OpenAIService.truthy feedback
         then
           let text := default EmptyString feedback in
           track "User" (focus round) 1 [text] None ;;
           developRounds rest experts context (setProperty (focus round) text philosophy1)
             (OpenAIService.replyId response)
         else
           developRounds rest experts context philosophy1 (OpenAIService.replyId response)
       else
         developRounds rest experts context philosophy1 (OpenAIService.replyId response))%eff
  end.

(** Phase 1 *)
Definition developConcept (context : TaskContext) : Eff World Philosophy :=
  developRounds conceptRounds (selectConceptualExperts context) context [] None.

(** Phase 2 *)
Definition translateToSpec (philosophy : Philosophy) (context : TaskContext)
    : Eff World TechnicalSpec :=
  (let technicalExperts := selectTechnicalExperts (outputType context) in
   let userPrompt := technicalUserPrompt philosophy context technicalExperts in
   let* response :=
     generateResponse
       (OpenAIService.mkRequest userPrompt OpenAIService.high OpenAIService.high None) in
   track (join "+" technicalExperts) "technical_specification" 1
     [OpenAIService.content response] None ;;
   ret {| spec_name := join "_" (firstn 3 (splitOn " " (task context)));
          spec_description := task context;
          spec_implementation := OpenAIService.content response;
          setupCommands := [];
          criticalNotes := [] |})%eff.

(** Phase 3 *)
Definition formatOutput (philosophy : Philosophy) (spec : TechnicalSpec)
    (context : TaskContext) : Eff World FileService.Path :=
  (let userPrompt := outputUserPrompt philosophy spec context in
   let* response :=
     generateResponse
       (OpenAIService.mkRequest userPrompt OpenAIService.medium OpenAIService.high None) in
   track "OutputGenerator" "claude_code_instructions" 1
     ["Generated final implementation guide"] None ;;
   let* iso := (fun w => (Ok (clockISO (ticks w)), nextTick w)) in
   liftFiles (FileService.saveOutput cwd iso (task context) (OpenAIService.content response)))%eff.

(** Phases 0 to 3, in order: what [run] does before it turns to the memory
    store. *)
Definition phases (initialPrompt : string)
    : Eff World (TaskContext * Philosophy * TechnicalSpec * FileService.Path) :=
  (let* taskContext := interactiveTaskAnalysis initialPrompt in
   let* philosophy := developConcept taskContext in
   let* spec := translateToSpec philosophy taskContext in
   let* outputPath := formatOutput philosophy spec taskContext in
   ret (taskContext, philosophy, spec, outputPath))%eff.

(** What [run] does once Phase 3 has returned; the summary it prints at
    the end is console output.  The clock is read twice for the memory
    store: by [new Date()] for the session entry, and by the engine, to
    the second, for the row. *)
Definition wrapUp (done : TaskContext * Philosophy * TechnicalSpec * FileService.Path)
    : Eff World LoopResult :=
  (let '(taskContext, philosophy, spec, outputPath) := done in
   let* interactions := liftOpenAI OpenAIService.getExpertInteractions in
   let* now := (fun w => (Ok (clockMs (ticks w)), nextTick w)) in
   let* currentTimestamp := (fun w => (Ok (clockMs (ticks w) / 1000)%Z, nextTick w)) in
   liftMemory
     (MemoryService.storeSuccess now currentTimestamp (task taskContext) philosophy spec) ;;
   ret {| outputPath := outputPath; philosophy := philosophy; spec := spec;
          expertInteractions := interactions |})%eff.

(** [run] *)
Definition run (initialPrompt : string) : Eff World LoopResult :=
  bind (phases initialPrompt) wrapUp.

End Loop.

End CreativeAILoop.

(** ** [trim] and the removal of a character class *)

Module JsTrim.

(** The white space of [trim] beyond ASCII, in UTF-8.  In two bytes:
    U+00A0.  In three: U+1680, U+2000 to U+200A, U+2028, U+2029, U+202F,
    U+205F, U+3000 and U+FEFF. *)
Definition isSpace2 (a b : ascii) : bool :=
  (code a =? 194)%nat && (code b =? 160)%nat.

Definition isSpace3 (a b c : ascii) : bool :=
  ((code a =? 225)%nat && (code b =? 154)%nat && (code c =? 128)%nat)
  || ((code a =? 226)%nat && (code b =? 128)%nat
      && (inRange 128 138 c || inRange 168 169 c || (code c =? 175)%nat))
  || ((code a =? 226)%nat && (code b =? 129)%nat && (code c =? 159)%nat)
  || ((code a =? 227)%nat && (code b =? 128)%nat && (code c =? 128)%nat)
  || ((code a =? 239)%nat && (code b =? 187)%nat && (code c =? 191)%nat).

(** [s.trimStart()] *)
Fixpoint trimStart (s : string) : string :=
  match s with
  | EmptyString => EmptyString
  | String a r =>
      if isSpaceChar a then trimStart r
      else
        match r with
        | EmptyString => s
        | String b r' =>
            if isSpace2 a b then trimStart r'
            else
              match r' with
              | EmptyString => s
              | String c r'' => if isSpace3 a b c then trimStart r'' else s
              end
        end
  end.

(** [s.trimEnd()]: the text is cut where what follows is white space
    only. *)
Fixpoint trimEnd (s : string) : string :=
  match s with
  | EmptyString => EmptyString
  | String c r =>
      match trimStart s with
      | EmptyString => EmptyString
      | _ => String c (trimEnd r)
      end
  end.

(** [s.trim()] *)
Definition trim (s : string) : string := trimEnd (trimStart s).

(** [s.replace(/[class]/g, empty)] for a character class [inClass]: the
    characters of the class are dropped. *)
Fixpoint removeChars (inClass : ascii -> bool) (s : string) : string :=
  match s with
  | EmptyString => EmptyString
  | String c r =>
      if inClass c then removeChars inClass r else String c (removeChars inClass r)
  end.

End JsTrim.

(** ** core/ModeInference.ts: the classifier that asks the provider *)

Module ModeInferenceAI.

Import ModeInference JsTrim.

(** The user prompt, the only text the request carries. *)
Definition classifierPrompt (task : string) : string :=
  unlines
  [ "Task: " ++ dq ++ task ++ dq;
    EmptyString;
    "What mode is this? Respond with only the mode name." ].

Definition classifierRequest (task : string) : OpenAIService.Request :=
  OpenAIService.mkRequest (classifierPrompt task) OpenAIService.low OpenAIService.low None.

(** The class of the pattern: the single and the double quote. *)
Definition isQuote (c : ascii) : bool :=
  Ascii.eqb c "'" || Ascii.eqb c (ascii_of_nat 34).

(** [response.content.trim().toLowerCase()] without its quotes.  The
    lower-casing is the one of ASCII: no character outside ASCII
    lower-cases to a text made of the letters of a mode name. *)
Definition normalizeReply (content : string) : string :=
  removeChars isQuote (toLowerCase (trim content)).

(** The three strings the reply is compared with. *)
Definition modeOfName (s : string) : option Mode :=
  if String.eqb s "pr" then Some pr
  else if String.eqb s "design_review" then Some design_review
  else if String.eqb s "explore" then Some explore
  else None.

(** [inferModeWithAI]; [n] is the position of the call in the provider's
    answers.  The [try] block holds one effect and statements that do not
    throw: a failure of the effect is the failure of the generator it is
    yielded from, and is not an exception for the [catch] clause. *)
Definition inferModeWithAI (provider : OpenAIService.Provider) (n : nat) (task : string)
    : Result Mode :=
  match OpenAIService.generateResponseAt provider n (classifierRequest task) with
  | Fail e => Fail e
  | Ok response =>
      match modeOfName (normalizeReply (OpenAIService.content response)) with
      | Some mode => Ok mode
      | None => Ok (quickInferMode task)
      end
  end.

End ModeInferenceAI.

(** ** core/CreativeAILoop.ts: the figures of the closing summary *)

Module ExpertSummary.

Import OpenAIService.

(** [interactions.reduce((sum, i) => sum + i.callCount, 0)], the number
    printed as the total of calls. *)
Definition totalCalls (interactions : list ExpertInteraction) : Z :=
  fold_left (fun sum i => (sum + callCount i)%Z) interactions 0%Z.

End ExpertSummary.

(** ** core/DynamicAgentFactory.ts: loading, searching and teaming up *)

Module DynamicAgentTeams.

Import DynamicAgentFactory.

(** The agent read back from a row; the two statistics columns are not
    part of it. *)
Definition agentOfRow (r : AgentRow) : DynamicAgent :=
  {| id := row_id r;
     name := row_name r;
     domain := row_domain r;
     expertise := row_expertise r;
     prompt := row_prompt r;
     capabilities := row_capabilities r;
     createdAt := created_at r;
     taskContext := task_context r |}.

(** [ORDER BY usage_count DESC]: insertion into a list that is already in
    descending order, before the rows that are used at most as often, so
    that rows that tie stay in the order of the table. *)
Fixpoint insertByUsage (r : AgentRow) (sorted : list AgentRow) : list AgentRow :=
  match sorted with
  | [] => [r]
  | x :: rest =>
      if (usage_count x <=? usage_count r)%Z then r :: sorted
      else x :: insertByUsage r rest
  end.

Definition orderByUsageDesc (rows : list AgentRow) : list AgentRow :=
  fold_right insertByUsage [] rows.

(** The body of the loop of [loadCachedAgents]. *)
Definition cacheRow (cache : gmap string DynamicAgent) (r : AgentRow)
    : gmap string DynamicAgent :=
  <[row_id r := agentOfRow r]> cache.

(** [loadCachedAgents]: the hundred most used rows, each cached under its
    id. *)
Definition loadCachedAgents : Eff World unit :=
  modify (fun w =>
    {| db := db w;
       agentCache := fold_left cacheRow (firstn 100 (orderByUsageDesc (db w))) (agentCache w);
       llmCalls := llmCalls w;
       ticks := ticks w |}).

(** The factory that the constructor returns on a database that holds
    [rows]: an empty cache, then [loadCachedAgents]. *)
Definition openFactory (rows : list AgentRow) (llmCalls ticks : nat) : World :=
  snd (loadCachedAgents
         {| db := rows; agentCache := ∅; llmCalls := llmCalls; ticks := ticks |}).

(** [ORDER BY success_rate DESC, usage_count DESC]: [r] goes before [x]
    when its rate is higher, or the rates are equal and it is used at
    least as often. *)
Definition goesBefore (r x : AgentRow) : bool :=
  if Qle_bool (success_rate r) (success_rate x)
  then Qle_bool (success_rate x) (success_rate r) && (usage_count x <=? usage_count r)%Z
  else true.

Fixpoint insertRanked (r : AgentRow) (sorted : list AgentRow) : list AgentRow :=
  match sorted with
  | [] => [r]
  | x :: rest => if goesBefore r x then r :: sorted else x :: insertRanked r rest
  end.

Definition orderByRank (rows : list AgentRow) : list AgentRow :=
  fold_right insertRanked [] rows.

(** The rows of the query of [findAgentsByDomain]: [WHERE domain = ?],
    ordered, [LIMIT 5]. *)
Definition selectByDomain (domain : string) (rows : list AgentRow) : list AgentRow :=
  firstn 5 (orderByRank (List.filter (fun r => String.eqb (row_domain r) domain) rows)).

Definition findAgentsByDomain (domain : string) : Eff World (list DynamicAgent) :=
  gets (fun w => map agentOfRow (selectByDomain domain (db w))).

(** What [analyzeAgentNeeds] returns. *)
Record AgentNeeds : Type := mkAgentNeeds {
  needed : bool;
  missingCapabilities : list string;
  suggestedDomains : list string
}.

(** What [createAgentTeam] reads in the parsed reply; a field that is
    missing is [None]. *)
Record Strategy : Type := mkStrategy {
  leaderId : option string;
  collaborationStrategy : option string
}.

(** [leader] is [None] when there is no agent to lead. *)
Record Team : Type := mkTeam {
  leader : option DynamicAgent;
  team : list DynamicAgent;
  teamStrategy : option string
}.

Definition needsPrompt (task : string) (existingAgents : list string) : string :=
  unlines
  [
    "Analyze this task and determine if new specialized agents are needed beyond the existing ones.";
    EmptyString;
    "Task: " ++ dq ++ task ++ dq;
    EmptyString;
    "Existing agents: " ++ join ", " existingAgents;
    EmptyString;
    "Analyze:";
    "1. What capabilities are missing from existing agents?";
    "2. What new domains of expertise would be valuable?";
    "3. Should we create new agents? (yes/no)";
    EmptyString;
    "Respond in JSON:";
    "{";
    "  " ++ dq ++ "needed" ++ dq ++ ": boolean,";
    "  " ++ dq ++ "missingCapabilities" ++ dq ++ ": [" ++ dq ++ "capability1" ++ dq ++ ", " ++ dq ++ "capability2" ++ dq ++ "],";
    "  " ++ dq ++ "suggestedDomains" ++ dq ++ ": [" ++ dq ++ "domain1" ++ dq ++ ", " ++ dq ++ "domain2" ++ dq ++ "]";
    "}"
  ].

Definition teamPrompt (task : string) (agents : list DynamicAgent) : string :=
  unlines
  [
    "Given this task and team of agents, design a collaboration strategy:";
    EmptyString;
    "Task: " ++ dq ++ task ++ dq;
    EmptyString;
    "Agents:";
    join nl (map (fun a => "- " ++ name a ++ ": " ++ domain a
                             ++ " specialist with expertise in " ++ join ", " (expertise a))
               agents);
    EmptyString;
    "Determine:";
    "1. Which agent should lead this task";
    "2. How the agents should collaborate";
    "3. The order of contributions";
    EmptyString;
    "Respond in JSON:";
    "{";
    "  " ++ dq ++ "leaderId" ++ dq ++ ": " ++ dq ++ "agent_id" ++ dq ++ ",";
    "  " ++ dq ++ "collaborationStrategy" ++ dq ++ ": " ++ dq ++ "detailed strategy description" ++ dq ++ ",";
    "  " ++ dq ++ "contributionOrder" ++ dq ++ ": [" ++ dq ++ "agent_id1" ++ dq ++ ", " ++ dq ++ "agent_id2" ++ dq ++ ", ...]";
    "}"
  ].

Section Teams.

(** The provider and the clock of the factory, and what the code reads in
    the three kinds of reply; [None] is a reply on which the guarded block
    throws: a text that [JSON.parse] refuses, or one that parses to a
    value without fields. *)
Variable provider : OpenAIService.Provider.
Variable clock : nat -> Z.
Variable parseAgentSpec : string -> option AgentSpec.
Variable parseNeeds : string -> option AgentNeeds.
Variable parseStrategy : string -> option Strategy.

(** [analyzeAgentNeeds] *)
Definition analyzeAgentNeeds (task : string) (existingAgents : list string)
    : Eff World AgentNeeds :=
  (let* reply := ask provider (needsPrompt task existingAgents)
                   OpenAIService.medium OpenAIService.low in
   match parseNeeds reply with
   | Some needs => ret needs
   | None => ret {| needed := false; missingCapabilities := []; suggestedDomains := [] |}
   end)%eff.

(** The loop of [findOrCreateAgents] over the remaining domains; [agents]
    are the agents found so far. *)
Fixpoint findOrCreateFrom (task : string) (requiredDomains : list string)
    (agents : list DynamicAgent) : Eff World (list DynamicAgent) :=
  match requiredDomains with
  | [] => ret agents
  | domain :: rest =>
      (let* existing := findAgentsByDomain domain in
       match existing with
       | best :: _ => findOrCreateFrom task rest (agents ++ [best])%list
       | [] =>
           let* analysisResult := analyzeAgentNeeds task (map name agents) in
           if needed analysisResult
           then
             let* newAgent :=
               createAgent provider clock parseAgentSpec task domain
                 (missingCapabilities analysisResult) in
             findOrCreateFrom task rest (agents ++ [newAgent])%list
           else findOrCreateFrom task rest agents
       end)%eff
  end.

(** [findOrCreateAgents] *)
Definition findOrCreateAgents (task : string) (requiredDomains : list string)
    : Eff World (list DynamicAgent) :=
  findOrCreateFrom task requiredDomains [].

(** [agents.find(a => a.id === leaderId) || agents[0]] *)
Definition chooseLeader (leaderId : option string) (agents : list DynamicAgent)
    : option DynamicAgent :=
  match leaderId with
  | Some wanted =>
      match List.find (fun a => String.eqb (id a) wanted) agents with
      | Some a => Some a
      | None => head agents
      end
  | None => head agents
  end.

(** [createAgentTeam] *)
Definition createAgentTeam (task : string) (agents : list DynamicAgent) : Eff World Team :=
  (let* reply := ask provider (teamPrompt task agents)
                   OpenAIService.medium OpenAIService.low in
   match parseStrategy reply with
   | Some strategy =>
       ret {| leader := chooseLeader (leaderId strategy) agents;
              team := agents;
              teamStrategy := collaborationStrategy strategy |}
   | None =>
       ret {| leader := head agents;
              team := agents;
              teamStrategy := Some "Sequential collaboration with peer review" |}
   end)%eff.

End Teams.

End DynamicAgentTeams.

(** ** core/ModeInference.ts, with the final review and the dynamic rounds *)

Module DynamicModeInference.

Import ModeInference DynamicAgentFactory DynamicAgentTeams.

Record Round : Type := mkRound {
  focus : string;
  lead : string;
  dynamicAgent : option DynamicAgent
}.

Definition baseRoundsByMode (mode : Mode) : list Round :=
  match mode with
  | pr =>
      [ mkRound "constraints" "SpecScribe" None;
        mkRound "architecture_plan" "EffectArchitect" None;
        mkRound "tests_first" "TestEngineer" None;
        mkRound "impl" "CodeGen" None;
        mkRound "consistency_gate" "DXEnforcer" None;
        mkRound "pr_summary" "PRWriter" None;
        mkRound "final_synthesis" "MasterReviewer" None ]
  | design_review =>
      [ mkRound "design_principles" "DesignPhilosopher" None;
        mkRound "architecture_plan" "EffectArchitect" None;
        mkRound "consistency_gate" "DXEnforcer" None;
        mkRound "final_optimization" "MasterReviewer" None ]
  | explore =>
      [ mkRound "concepts" "DesignPhilosopher" None;
        mkRound "experience_goals" "ExperienceArchitect" None;
        mkRound "technical_bridge" "TechnicalPoet" None;
        mkRound "creative_synthesis" "MasterReviewer" None ]
  end.

(** [rounds.splice(index, 0, round)] *)
Definition spliceAt {A : Type} (index : nat) (x : A) (l : list A) : list A :=
  (firstn index l ++ x :: skipn index l)%list.

(** The round made for a dynamic agent. *)
Definition dynamicRound (agent : DynamicAgent) : Round :=
  {| focus := "dynamic_" ++ domain agent;
     lead := name agent;
     dynamicAgent := Some agent |}.

Definition insertIndex (mode : Mode) : nat :=
  match mode with
  | explore => 1%nat
  | _ => 2%nat
  end.

(** The loop that splices the rounds of the team into the plan, each at
    the same index. *)
Definition spliceTeam (mode : Mode) (agents : list DynamicAgent) (rounds : list Round)
    : list Round :=
  fold_left (fun enhanced agent => spliceAt (insertIndex mode) (dynamicRound agent) enhanced)
    agents rounds.

Section Plan.

Variable provider : OpenAIService.Provider.
Variable clock : nat -> Z.
Variable parseAgentSpec : string -> option AgentSpec.
Variable parseNeeds : string -> option AgentNeeds.
Variable parseStrategy : string -> option Strategy.

(** [planRounds]; [withFactory] tells whether the optional factory is
    given. *)
Definition planRounds (mode : Mode) (task : string) (withFactory : bool)
    : Eff World (list Round) :=
  (let baseRounds := baseRoundsByMode mode in
   if negb withFactory then ret baseRounds
   else
     let existingAgents := map lead baseRounds in
     let* analysis := analyzeAgentNeeds provider parseNeeds task existingAgents in
     if negb (needed analysis) then ret baseRounds
     else
       let* dynamicAgents :=
         findOrCreateAgents provider clock parseAgentSpec parseNeeds task
           (suggestedDomains analysis) in
       match dynamicAgents with
       | _ :: _ =>
           let* agentTeam := createAgentTeam provider parseStrategy task dynamicAgents in
           ret (spliceTeam mode (team agentTeam) baseRounds)
       | [] => ret baseRounds
       end)%eff.

End Plan.

(** [planRoundsSync] *)
Definition planRoundsSync (mode : Mode) : list Round := baseRoundsByMode mode.

Record ExpertConfig : Type := mkExpertConfig {
  reasoningEffort : OpenAIService.Level;
  verbosity : OpenAIService.Level;
  instructions : option string
}.

Definition reviewBaseInstructions : string :=
  "You are conducting the final review and synthesis. Take deep time to think through all aspects.".

Definition getMasterReviewerInstructions (mode : Mode) : string :=
  match mode with
  | pr =>
      unlines
      [ reviewBaseInstructions;
        EmptyString;
        "<pr_review_focus>";
        "- Ensure implementation meets all constraints and requirements";
        "- Verify architecture is sound and follows Effect patterns";
        "- Confirm tests adequately cover the implementation";
        "- Check for code quality, maintainability, and best practices  ";
        "- Validate the PR summary accurately represents the changes";
        "- Identify any potential bugs, edge cases, or performance issues";
        "- Ensure consistency with existing codebase patterns";
        "</pr_review_focus>" ]
  | design_review =>
      unlines
      [ reviewBaseInstructions;
        EmptyString;
        "<design_optimization_focus>";
        "- Synthesize design principles into a coherent design philosophy";
        "- Ensure architectural decisions support long-term maintainability";
        "- Identify opportunities for design improvements and optimizations";
        "- Verify consistency across all design recommendations";
        "- Check alignment with user needs and business goals";
        "- Highlight any contradictions between expert recommendations";
        "</design_optimization_focus>" ]
  | explore =>
      unlines
      [ reviewBaseInstructions;
        EmptyString;
        "<creative_synthesis_focus>  ";
        "- Weave together conceptual insights into an inspiring vision";
        "- Ensure technical bridge maintains creative integrity";
        "- Identify the most innovative and promising directions";
        "- Synthesize experience goals with technical possibilities";
        "- Highlight breakthrough opportunities and novel approaches";
        "- Create a compelling narrative that connects all insights";
        "</creative_synthesis_focus>" ]
  end.

(** [getExpertConfig] *)
Definition getExpertConfig (expertName : string) (mode : Mode) : ExpertConfig :=
  if String.eqb expertName "MasterReviewer"
  then {| reasoningEffort := OpenAIService.high;
          verbosity := OpenAIService.high;
          instructions := Some (getMasterReviewerInstructions mode) |}
  else if String.eqb expertName "DesignPhilosopher"
  then {| reasoningEffort := OpenAIService.medium;
          verbosity := OpenAIService.medium;
          instructions := Some (getDesignPhilosopherMode mode) |}
  else {| reasoningEffort := OpenAIService.medium;
          verbosity := OpenAIService.low;
          instructions := None |}.

End DynamicModeInference.

(** * Vocabulary of the properties *)

Module ModeInferenceWords.

Import ModeInference.

(** [pre] does not end in a word character. *)
Definition leftEdge (pre : string) : Prop :=
  forall p c, pre = p ++ String c EmptyString -> isWordChar c = false.

(** [post] does not start with a word character. *)
Definition rightEdge (post : string) : Prop :=
  forall c r, post = String c r -> isWordChar c = false.

(** [k] occurs in [t] as a whole word. *)
Definition wholeWord (k t : string) : Prop :=
  exists pre post, t = pre ++ k ++ post /\ leftEdge pre /\ rightEdge post.

Definition someWholeWord (keywords : list string) (t : string) : Prop :=
  exists k, In k keywords /\ wholeWord k t.

(** A keyword made of word characters only, and not empty. *)
Fixpoint allWordChars (k : string) : bool :=
  match k with
  | EmptyString => true
  | String c k' => isWordChar c && allWordChars k'
  end.

Definition wordy (k : string) : bool :=
  match k with
  | EmptyString => false
  | _ => allWordChars k
  end.

(** The classification as the prose has it: a keyword counts when the task
    text contains it, and a text with keywords of both lists falls to the
    default. *)
Definition containsAny (keywords : list string) (task : string) : bool :=
  existsb (fun k => includes k task) keywords.

Definition statedMode (task : string) : Mode :=
  if containsAny exploreKeywords task && negb (containsAny reviewKeywords task)
  then explore
  else if containsAny reviewKeywords task && negb (containsAny exploreKeywords task)
  then design_review
  else pr.

End ModeInferenceWords.

Module ExpertRegistryWords.

Import ExpertRegistry.

(** The catalog with another instruction text in the DesignPhilosopher
    entry. *)
Definition withDesignPhilosopherText (text : string) : list (string * Expert) :=
  ("DesignPhilosopher",
   {| name := "DesignPhilosopher";
      domains := domains DesignPhilosopher;
      prompt := prompt DesignPhilosopher;
      systemPrompt := text |}) :: tail conceptualExperts.

End ExpertRegistryWords.

Module FileServiceWords.

(** Characters of a sanitized name. *)
Definition isNameChar (c : ascii) : bool := isLowerAlnum c || Ascii.eqb c "_".

Fixpoint allChars (p : ascii -> bool) (s : string) : bool :=
  match s with
  | EmptyString => true
  | String c r => p c && allChars p r
  end.

End FileServiceWords.

Module OpenAIServiceWords.

Import OpenAIService.

(** What a client can do with the bookkeeping and with the arrays it
    passes to it: make an array of texts, push texts onto an array it has
    made, record an interaction, ask for the list. *)
Inductive Call : Type :=
| NewArray (items : list string)
| Push (a : nat) (items : list string)
| Track (i : ExpertInteraction)
| Snapshot.

Definition perform (c : Call) (st : Store) : Store :=
  match c with
  | NewArray items => snd (newTexts items st)
  | Push a items => pushTexts a items st
  | Track i => snd (trackExpertInteraction i st)
  | Snapshot => snd (getExpertInteractions st)
  end.

(** The store after a sequence of calls on a fresh service. *)
Definition after (history : list Call) : Store :=
  fold_left (fun st c => perform c st) history initialStore.

(** A call that names an array names one that was made. *)
Definition inScope (st : Store) (c : Call) : bool :=
  match c with
  | Push a _ => (a <? List.length (texts st))%nat
  | Track i => (insights i <? List.length (texts st))%nat
  | _ => true
  end.

Fixpoint scopedFrom (st : Store) (history : list Call) : bool :=
  match history with
  | [] => true
  | c :: rest => inScope st c && scopedFrom (perform c st) rest
  end.

(** A sequence of calls in which every array that is named was made
    before. *)
Definition scoped (history : list Call) : bool := scopedFrom initialStore history.

(** The records of the service's own list. *)
Definition live (st : Store) : list ExpertInteraction :=
  readArray st expertInteractions.

(** The texts an interaction refers to. *)
Definition insightsOf (st : Store) (i : ExpertInteraction) : list string :=
  textsAt st (insights i).

(** The array of every record was made. *)
Definition allocated (st : Store) : Prop :=
  forall o, In o (objects st) -> (insights o < List.length (texts st))%nat.

(** Insert-or-merge on a list of records: the first record with the key of
    [i] absorbs [i], and without such a record [i] goes to the end. *)
Fixpoint upsert (i : ExpertInteraction) (l : list ExpertInteraction) : list ExpertInteraction :=
  match l with
  | [] => [i]
  | o :: rest => if sameKey i o then merge i o :: rest else o :: upsert i rest
  end.

(** Index of the first record with the key of [i]. *)
Fixpoint firstMatch (i : ExpertInteraction) (l : list ExpertInteraction) : option nat :=
  match l with
  | [] => None
  | o :: rest => if sameKey i o then Some 0%nat else option_map S (firstMatch i rest)
  end.

(** What a recording does to the arrays of texts: the array of the first
    record with the key of the interaction receives the texts of the
    interaction, and without such a record no array changes. *)
Definition textsAfter (i : ExpertInteraction) (st : Store) : list (list string) :=
  match firstMatch i (objects st) with
  | Some r =>
      match objects st !! r with
      | Some existing =>
          alter (fun held => (held ++ textsAt st (insights i))%list) (insights existing)
            (texts st)
      | None => texts st
      end
  | None => texts st
  end.

(** Two interactions of one round, each with an array of its own, the
    second with the response id of a later reply; and the calls of a
    client that makes the two arrays and records the first interaction. *)
Definition firstCall : ExpertInteraction :=
  mkInteraction "DesignPhilosopher" "historical_grounding" 1 0 (Some "resp_1").

Definition secondCall : ExpertInteraction :=
  mkInteraction "DesignPhilosopher" "historical_grounding" 1 1 (Some "resp_2").

Definition firstRecorded : list Call :=
  [ NewArray ["Grids endure."]; NewArray ["So does contrast."]; Track firstCall ].

(** A client that passes one array in two interactions, and then records
    the first key again with an array of its own. *)
Definition sharedArray : list Call :=
  [ NewArray ["x"];
    Track (mkInteraction "DesignPhilosopher" "concepts" 1 0 None);
    Track (mkInteraction "TechnicalPoet" "concepts" 1 0 None);
    NewArray ["y"];
    Track (mkInteraction "DesignPhilosopher" "concepts" 1 1 None) ].

(** The store keeps one array per address, the service's own at address 0
    listing every record in allocation order. *)
Definition wellFormed (st : Store) : Prop :=
  arrays st !! expertInteractions = Some (seq 0 (List.length (objects st))).

End OpenAIServiceWords.

Module MemoryServiceWords.




(** Three characters outside ASCII, of two and of three bytes each. *)
Definition ete : string := ofBytes [195; 169; 116; 195; 169].
Definition nihongo : string := ofBytes [230; 151; 165; 230; 156; 172; 232; 170; 158].


End MemoryServiceWords.

Module CreativeAILoopWords.

Import CreativeAILoop.

(** An effect of the loop that leaves the memory store as it found it,
    whether it succeeds or fails. *)
Definition keepsMemory {A : Type} (m : Eff World A) : Prop :=
  forall w, memory (snd (m w)) = memory w.

(** The outside of the examples: a user who answers every question and
    declines every refinement, a fixed clock, and two providers, one that
    answers and one that is down. *)
Definition answering : nat -> string -> Result string := fun _ _ => Ok "production".
Definition declining : nat -> string -> Result bool := fun _ _ => Ok false.
Definition fixedISO : nat -> string := fun _ => "2024-01-15T10:30:45.123Z".
Definition fixedMs : nat -> Z := fun _ => 1705314645123%Z.
Definition replying : OpenAIService.Provider :=
  fun _ _ => Ok (OpenAIService.mkRaw (Some "**Synthesis**: keep it small") None).
Definition down : OpenAIService.Provider := fun _ _ => Fail "Error: timeout".

Definition plainRoundPrompt (round : ModeInference.Round) (experts : list string)
    (context : TaskContext) (philosophy : Philosophy) : string :=
  ModeInference.focus round ++ ": " ++ task context.
Definition plainTechnicalPrompt (philosophy : Philosophy) (context : TaskContext)
    (experts : list string) : string := task context.
Definition plainOutputPrompt (philosophy : Philosophy) (spec : TechnicalSpec)
    (context : TaskContext) : string := task context.
Definition wholeReply (content : string) : string := content.

(** A world with one archived run. *)
Definition archived : MemoryService.MemoryRow :=
  MemoryService.mkRow 1 "build a dashboard for sales" []
    (mkTechnicalSpec "build_a_dashboard" "build a dashboard for sales" "..." [] []) 1700000000.

Definition startWorld : World :=
  {| memory := MemoryService.mkStore [] [archived] true;
     openai := OpenAIService.initialStore;
     files := ∅;
     llmCalls := 0;
     prompts := 0;
     ticks := 0 |}.

End CreativeAILoopWords.

Module DynamicAgentFactoryWords.

Import DynamicAgentFactory.

(** An effect of the factory that neither writes the table nor the
    cache. *)
Definition keepsTable {A : Type} (m : Eff World A) : Prop :=
  forall w, db (snd (m w)) = db w /\ agentCache (snd (m w)) = agentCache w.

(** A provider that always answers, a clock that advances by one
    millisecond per reading, and a parser that rejects every reply (so the
    fallback specification is used): the outside of the examples. *)
Definition sampleProvider : OpenAIService.Provider :=
  fun _ _ => Ok (OpenAIService.mkRaw (Some "Be thorough.") None).

Definition sampleClock (n : nat) : Z := 1700000000000 + Z.of_nat n.

Definition noSpec (reply : string) : option AgentSpec := None.

Definition emptyWorld : World :=
  {| db := []; agentCache := ∅; llmCalls := 0; ticks := 0 |}.

(** A factory that holds one agent, used three times with a success rate
    of one half. *)
Definition sampleAgent : DynamicAgent :=
  {| id := "flowtuner_1690000000000";
     name := "FlowTuner";
     domain := "data pipelines";
     expertise := ["batching"; "backpressure"];
     prompt := "You tune data flows.";
     capabilities := ["profiling"];
     createdAt := 1690000000000;
     taskContext := "speed up the nightly import" |}.

Definition sampleRow : AgentRow :=
  {| row_id := "flowtuner_1690000000000";
     row_name := "FlowTuner";
     row_domain := "data pipelines";
     row_expertise := ["batching"; "backpressure"];
     row_prompt := "You tune data flows.";
     row_capabilities := ["profiling"];
     created_at := 1690000000000;
     task_context := "speed up the nightly import";
     usage_count := 3;
     success_rate := 1 # 2 |}.

Definition sampleWorld : World :=
  {| db := [sampleRow];
     agentCache := {[ "flowtuner_1690000000000" := sampleAgent ]};
     llmCalls := 0;
     ticks := 0 |}.

(** The same table in a factory whose cache does not hold the agent. *)
Definition storedOnly : World :=
  {| db := [sampleRow]; agentCache := ∅; llmCalls := 0; ticks := 0 |}.

(** The primitive binary64 number of a count. *)
Definition countDouble (n : nat) : float :=
  Nat.iter n (fun f => (f + 1)%float) 0%float.

(** A run of updates computed twice, with [newSuccessRate] and on the
    primitive binary64 numbers: [true] when the two agree after every
    update. *)
Fixpoint replay (outcomes : list bool) (count : nat) (rate : Q) (rateDouble : float) : bool :=
  match outcomes with
  | [] => true
  | success :: rest =>
      let next := newSuccessRate rate (Z.of_nat count) success in
      let nextDouble := newSuccessRateDouble rateDouble (countDouble count) success in
      match Binary64.valueOf nextDouble with
      | Some v => Qeq_bool v next && replay rest (S count) next nextDouble
      | None => false
      end
  end.

Definition outcomes : list bool :=
  [ true; false; false; true; true; true; false; true; false; false; true; true; false;
    true; true; true; false; false; true; false; true; true; false; true ].

End DynamicAgentFactoryWords.

Module ModeInferenceAIWords.

(** Every character of [s] satisfies [p]. *)
Fixpoint every (p : ascii -> bool) (s : string) : bool :=
  match s with
  | EmptyString => true
  | String c r => p c && every p r
  end.

(** A byte of ASCII that is no white space. *)
Definition plain (c : ascii) : bool := negb (isSpaceChar c) && (code c <? 128)%nat.

(** A no-break space before the name of a mode. *)
Definition afterNoBreakSpace : string :=
  String (ascii_of_nat 194) (String (ascii_of_nat 160) "pr").

End ModeInferenceAIWords.

Module ExpertSummaryWords.

Import OpenAIService OpenAIServiceWords.

(** The key under which the bookkeeping files an interaction. *)
Definition keyOf (i : ExpertInteraction) : string * string := (expertName i, round i).

(** The interactions a sequence of calls has recorded, in order. *)
Definition tracked (history : list Call) : list ExpertInteraction :=
  omap (fun c => match c with Track i => Some i | _ => None end) history.

(** The insights that the records of the list hold, one record after the
    other. *)
Definition heldInsights (st : Store) : list string :=
  concat (map (insightsOf st) (live st)).

(** An interaction as the loop writes it: an object literal whose insights
    are an array literal. *)
Record Literal : Type := mkLiteral {
  lit_expertName : string;
  lit_round : string;
  lit_callCount : Z;
  lit_insights : list string;
  lit_responseId : option string
}.

(** The calls of a client that records literals only: each makes its
    array, at the next free address, and records the interaction that
    refers to it. *)
Fixpoint callsOf (next : nat) (literals : list Literal) : list Call :=
  match literals with
  | [] => []
  | l :: rest =>
      NewArray (lit_insights l)
      :: Track (mkInteraction (lit_expertName l) (lit_round l) (lit_callCount l) next
                  (lit_responseId l))
      :: callsOf (S next) rest
  end.

(** A store in which every record has an array of its own, among the [k]
    arrays that were made. *)
Definition ownArrays (k : nat) (st : Store) : Prop :=
  wellFormed st
  /\ List.length (texts st) = k
  /\ NoDup (map insights (objects st))
  /\ forall a, In a (map insights (objects st)) -> (a < k)%nat.

End ExpertSummaryWords.

Module MemorySearchWords.

Import MemoryService.

(** A row that the query for [task] selects: its lower-cased task matches
    the pattern of some keyword. *)
Definition matches (toLowerCaseJS : string -> string) (task : string) (r : MemoryRow) : bool :=
  existsb (fun p => like p (toLowerCase (mem_task r)))
    (likeParams (keywordsOf toLowerCaseJS task)).

(** [a] comes before [b] in a result that is ordered by timestamp,
    descending. *)
Definition recentFirst (a b : MemoryRow) : Prop :=
  (mem_timestamp b <= mem_timestamp a)%Z.

(** A list of rows in which no row is older than a row after it. *)
Fixpoint newestFirst (rows : list MemoryRow) : Prop :=
  match rows with
  | [] => True
  | r :: rest => (forall x, In x rest -> recentFirst r x) /\ newestFirst rest
  end.

End MemorySearchWords.

Module OrchestratorWords.

Import CreativeAILoop.

(** The keys of an object after [obj[key] = value]. *)
Fixpoint addKey (key : string) (keys : list string) : list string :=
  match keys with
  | [] => [key]
  | k :: rest => if String.eqb k key then k :: rest else k :: addKey key rest
  end.

(** An effect of the loop that asks the provider [n] times when it
    succeeds, and at most [n] times when it fails. *)
Definition spends {A : Type} (n : nat) (m : Eff World A) : Prop :=
  forall w,
    (llmCalls w <= llmCalls (snd (m w)) <= llmCalls w + n)%nat
    /\ forall a, fst (m w) = Ok a -> llmCalls (snd (m w)) = (llmCalls w + n)%nat.

(** A user who types the number of the prompt. *)
Definition numbering : nat -> string -> Result string :=
  fun n _ => Ok (ofZ (Z.of_nat n)).

(** The request of a round of Phase 1. *)
Definition conceptRequest (userPrompt : string) (previousResponseId : option string)
    : OpenAIService.Request :=
  OpenAIService.mkRequest userPrompt OpenAIService.high OpenAIService.medium
    previousResponseId.

(** What a round files under its focus, given the conclusion drawn from
    the reply: the refinement when the round is one the user is asked
    about, the user wants to refine it, and the text that the prompt for
    the refinement returns is not empty; the conclusion otherwise. *)
Definition filed (wants : string -> bool) (refinement : string -> string)
    (round : ModeInference.Round) (synthesis : string) : string :=
  if shouldCheckWithUser round && wants (ModeInference.focus round)
     && negb (String.eqb (refinement (ModeInference.focus round)) EmptyString)
  then refinement (ModeInference.focus round)
  else synthesis.

(** A user who refines the technical bridge only, and types the same
    sentence whatever is asked. *)
Definition refiningBridge : nat -> string -> Result bool :=
  fun _ message => Ok (String.eqb message "Would you like to refine the technical_bridge?").

Definition typing : nat -> string -> Result string := fun _ _ => Ok "Make it reactive.".

End OrchestratorWords.

Module DynamicAgentTeamsWords.

Import DynamicAgentFactory DynamicAgentTeams.

(** No two rows of the table share an id. *)
Definition uniqueIds (w : World) : Prop := NoDup (map row_id (db w)).

(** Every agent in the cache has a row in the table. *)
Definition cachedAreStored (w : World) : Prop :=
  forall key agent, agentCache w !! key = Some agent -> selectById (id agent) (db w) <> None.

(** An effect that keeps a property of the factory, whether it succeeds
    or fails. *)
Definition preserves (holds : World -> Prop) {A : Type} (m : Eff World A) : Prop :=
  forall w, holds w -> holds (snd (m w)).

(** The tail of a creation or of an evolution: the INSERT, then the cache
    entries for the agent that was inserted. *)
Definition storeAndCache (agent : DynamicAgent) (keys : list string) : Eff World DynamicAgent :=
  (storeAgent agent ;;
   fold_right (fun key rest => modify (cacheSet key agent) ;; rest) (ret agent) keys)%eff.

(** [x] is ranked at least as high as [y]: a higher success rate, or the
    same rate and at least as many uses. *)
Definition ranksAbove (x y : AgentRow) : Prop :=
  (success_rate y < success_rate x)%Q
  \/ ((success_rate y == success_rate x)%Q /\ (usage_count y <= usage_count x)%Z).

(** An analysis that asks for an agent with one capability, and a reply
    that names no leader. *)
Definition wantsOne (reply : string) : option AgentNeeds :=
  Some {| needed := true; missingCapabilities := ["profiling"];
          suggestedDomains := ["data pipelines"; "caching"] |}.

Definition noLeader (reply : string) : option Strategy :=
  Some {| leaderId := None; collaborationStrategy := None |}.

(** A second agent, and a reply that names it as the leader. *)
Definition cacheKeeper : DynamicAgent :=
  {| id := "cachekeeper_1690000000001";
     name := "CacheKeeper";
     domain := "caching";
     expertise := ["eviction"];
     prompt := "You keep caches warm.";
     capabilities := ["profiling"];
     createdAt := 1690000000001;
     taskContext := "speed up the nightly import" |}.

Definition namesCacheKeeper (reply : string) : option Strategy :=
  Some {| leaderId := Some "cachekeeper_1690000000001";
          collaborationStrategy := Some "CacheKeeper leads, FlowTuner reviews" |}.

End DynamicAgentTeamsWords.

Module PhaseZeroWords.

Import CreativeAILoop.

(** A tree in which a regular file sits where the output directory
    should be. *)
Definition outputIsAFile : FileService.FS :=
  <[ ["srv"; "output"] := FileService.File "notes" ]> ∅.

(** An effect of the loop that only talks to the terminal: whatever its
    outcome, it leaves the memory store, the bookkeeping, the files and
    the positions of the provider and of the clock as it found them. *)
Definition onlyPrompts {A : Type} (m : Eff World A) : Prop :=
  forall w,
    memory (snd (m w)) = memory w
    /\ openai (snd (m w)) = openai w
    /\ files (snd (m w)) = files w
    /\ llmCalls (snd (m w)) = llmCalls w
    /\ ticks (snd (m w)) = ticks w.

End PhaseZeroWords.

(** * Properties *)

(** ** Effects *)

Module EffFacts.

Lemma bind_Ok {W A B : Type} (m : Eff W A) (k : A -> Eff W B) (w w' : W) (b : B) :
  bind m k w = (Ok b, w') ->
  exists a w0, m w = (Ok a, w0) /\ k a w0 = (Ok b, w').
Proof.
  unfold bind. destruct (m w) as [[a|e] w0]; [eauto | discriminate].
Qed.

Lemma bind_Fail {W A B : Type} (m : Eff W A) (k : A -> Eff W B) (w w' : W) (e : string) :
  bind m k w = (Fail e, w') ->
  m w = (Fail e, w') \/ exists a w0, m w = (Ok a, w0) /\ k a w0 = (Fail e, w').
Proof.
  unfold bind. destruct (m w) as [[a|e0] w0]; [eauto |].
  intros [= -> ->]. now left.
Qed.

Lemma bind_of_Ok {W A B : Type} (m : Eff W A) (k : A -> Eff W B) (w w0 : W) (a : A) :
  m w = (Ok a, w0) -> bind m k w = k a w0.
Proof. unfold bind. now intros ->. Qed.

Lemma bind_of_Fail {W A B : Type} (m : Eff W A) (k : A -> Eff W B) (w w0 : W) (e : string) :
  m w = (Fail e, w0) -> bind m k w = (Fail e, w0).
Proof. unfold bind. now intros ->. Qed.

Lemma mapFail_Ok {W A : Type} (f : string -> string) (m : Eff W A) (w w' : W) (a : A) :
  mapFail f m w = (Ok a, w') <-> m w = (Ok a, w').
Proof.
  unfold mapFail. destruct (m w) as [[a0|e] w0]; split; congruence.
Qed.

End EffFacts.

(** ** Lists *)

Module ListFacts.

Lemma omap_cons_eq {A B : Type} (f : A -> option B) (a : A) (l : list A) :
  omap f (a :: l) = match f a with
                    | Some y => y :: omap f l
                    | None => omap f l
                    end.
Proof. reflexivity. Qed.

End ListFacts.

(** ** Strings *)

Module JsStringFacts.

Lemma append_nil (s : string) : EmptyString ++ s = s.
Proof. reflexivity. Qed.

Lemma append_cons (c : ascii) (a b : string) : String c a ++ b = String c (a ++ b).
Proof. reflexivity. Qed.

(** Unfold [++] on strings whose head is known. *)
Ltac string_simpl :=
  repeat (rewrite ?append_nil, ?append_cons in *; simpl in * ).

Lemma append_empty_r (s : string) : s ++ EmptyString = s.
Proof. induction s as [|c s IH]; string_simpl; [reflexivity | now rewrite IH]. Qed.

Lemma append_assoc (a b c : string) : (a ++ b) ++ c = a ++ (b ++ c).
Proof. induction a as [|x a IH]; string_simpl; [reflexivity | now rewrite IH]. Qed.

Lemma stripPrefix_Some (k t r : string) : stripPrefix k t = Some r <-> t = k ++ r.
Proof.
  revert t. induction k as [|a k IH]; intros t; string_simpl.
  - split; [intros [= ->]; reflexivity | intros ->; reflexivity].
  - destruct t as [|b t]; [split; discriminate |].
    destruct (Ascii.eqb_spec a b) as [->|Hne].
    + rewrite IH. split; [intros ->; reflexivity | intros [= ->]; reflexivity].
    + split; [discriminate | intros [= E _]; congruence].
Qed.

Lemma stripPrefix_append (k r : string) : stripPrefix k (k ++ r) = Some r.
Proof. now apply stripPrefix_Some. Qed.

Lemma includes_here (sub s r : string) : stripPrefix sub s = Some r -> includes sub s = true.
Proof. intros H. destruct s; simpl; now rewrite H. Qed.

Lemma includes_true (sub s : string) :
  includes sub s = true <-> exists pre post, s = pre ++ sub ++ post.
Proof.
  split.
  - induction s as [|c s IH]; simpl.
    + destruct (stripPrefix sub EmptyString) as [r|] eqn:E; [|discriminate].
      apply stripPrefix_Some in E. intros _. exists EmptyString, r. exact E.
    + destruct (stripPrefix sub (String c s)) as [r|] eqn:E.
      * apply stripPrefix_Some in E. intros _. exists EmptyString, r. exact E.
      * intros (pre & post & ->)%IH. exists (String c pre), post. reflexivity.
  - intros (pre & post & ->). induction pre as [|c pre IH]; string_simpl.
    + apply (includes_here _ _ post), stripPrefix_append.
    + destruct (stripPrefix sub (String c (pre ++ sub ++ post))); [reflexivity | exact IH].
Qed.

Lemma length_append (a b : string) :
  String.length (a ++ b) = (String.length a + String.length b)%nat.
Proof. induction a as [|c a IH]; string_simpl; [reflexivity | now rewrite IH]. Qed.

Lemma mapChars_length (f : ascii -> ascii) (s : string) :
  String.length (mapChars f s) = String.length s.
Proof. induction s; simpl; congruence. Qed.

Lemma sliceTo_length (n : nat) (s : string) : (String.length (sliceTo n s) <= n)%nat.
Proof.
  revert s. induction n as [|n IH]; intros [|c s]; simpl; try lia.
  specialize (IH s). lia.
Qed.

End JsStringFacts.

(** ** The mode classifier and the round tables *)

Module ModeInferenceFacts.

Import ModeInference ModeInferenceWords JsStringFacts.

Lemma lastIsWord_append (pw : bool) (a b : string) :
  lastIsWord pw (a ++ b) = lastIsWord (lastIsWord pw a) b.
Proof. revert pw. induction a as [|c a IH]; intros pw; simpl; [reflexivity | apply IH]. Qed.

Lemma matchAlternative_true (pw : bool) (rest k : string) :
  matchAlternative pw rest k = true <->
  exists post, rest = k ++ post /\ wordBoundary (lastIsWord pw k) post = true.
Proof.
  unfold matchAlternative. destruct (stripPrefix k rest) as [r|] eqn:E.
  - apply stripPrefix_Some in E. split.
    + intros H. exists r. split; assumption.
    + intros (post & H & Hb). rewrite E in H.
      assert (Some r = Some post) as [= ->].
      { rewrite <- (stripPrefix_append k r), H. apply stripPrefix_append. }
      exact Hb.
  - split; [discriminate |]. intros (post & -> & _).
    rewrite stripPrefix_append in E. discriminate.
Qed.

Lemma matchHere_true (keywords : list string) (pw : bool) (t : string) :
  matchHere keywords pw t = true <->
  exists k post, In k keywords /\ t = k ++ post
                 /\ wordBoundary pw t = true
                 /\ wordBoundary (lastIsWord pw k) post = true.
Proof.
  unfold matchHere. rewrite andb_true_iff, existsb_exists. split.
  - intros [Hb (k & Hin & Hk)]. apply matchAlternative_true in Hk as (post & -> & Hp).
    exists k, post. auto.
  - intros (k & post & Hin & -> & Hb & Hp). split; [exact Hb |].
    exists k. split; [exact Hin |]. apply matchAlternative_true. eauto.
Qed.

(** The scanner finds exactly the occurrences of an alternative between
    two word boundaries. *)
Lemma scan_true (keywords : list string) (pw : bool) (t : string) :
  scan keywords pw t = true <->
  exists k pre post, In k keywords /\ t = pre ++ k ++ post
                     /\ wordBoundary (lastIsWord pw pre) (k ++ post) = true
                     /\ wordBoundary (lastIsWord pw (pre ++ k)) post = true.
Proof.
  revert pw. induction t as [|c t IH]; intros pw.
  - simpl scan. rewrite orb_false_r, matchHere_true. split.
    + intros (k & post & Hin & E & Hb & Hp).
      exists k, EmptyString, post. simpl. rewrite <- E. auto.
    + intros (k & pre & post & Hin & E & Hb & Hp).
      destruct pre; [|discriminate]. simpl in *.
      exists k, post. rewrite E. auto.
  - simpl scan. rewrite orb_true_iff, matchHere_true, IH. split.
    + intros [(k & post & Hin & E & Hb & Hp) | (k & pre & post & Hin & -> & Hb & Hp)].
      * exists k, EmptyString, post. simpl. rewrite <- E. auto.
      * exists k, (String c pre), post. simpl. auto.
    + intros (k & pre & post & Hin & E & Hb & Hp).
      destruct pre as [|x pre]; simpl in *.
      * left. exists k, post. rewrite E. auto.
      * injection E as -> ->. right. exists k, pre, post. auto.
Qed.

Lemma lastIsWord_false_leftEdge (pre : string) :
  lastIsWord false pre = false <-> leftEdge pre.
Proof.
  unfold leftEdge. split.
  - intros H p c ->. rewrite lastIsWord_append in H. exact H.
  - intros H. assert (G : forall pw, pw = false \/ pre <> EmptyString ->
                                     lastIsWord pw pre = false).
    { revert H. induction pre as [|c pre IH]; intros H pw Hpw.
      - simpl. destruct Hpw; [assumption | congruence].
      - simpl. destruct pre as [|d pre].
        + simpl. apply (H EmptyString c). reflexivity.
        + apply IH; [|right; discriminate].
          intros p e E. apply (H (String c p) e). simpl. now rewrite E. }
    apply G. now left.
Qed.

Lemma headIsWord_false_rightEdge (post : string) :
  headIsWord post = false <-> rightEdge post.
Proof.
  unfold rightEdge. split.
  - intros H c r ->. exact H.
  - intros H. destruct post as [|c r]; [reflexivity | apply (H c r); reflexivity].
Qed.

Lemma wordy_head (k post : string) : wordy k = true -> headIsWord (k ++ post) = true.
Proof.
  destruct k as [|c k]; [discriminate |]. simpl. now intros [H _]%andb_true_iff.
Qed.

Lemma wordy_last (pw : bool) (k : string) : wordy k = true -> lastIsWord pw k = true.
Proof.
  destruct k as [|c k]; [discriminate |]. simpl. revert c.
  induction k as [|d k IH]; intros c [Hc Hk]%andb_true_iff; simpl; [exact Hc |].
  apply IH. exact Hk.
Qed.

(** For keywords made of word characters, the regular expression tests
    for a whole-word occurrence. *)
Lemma testWordAlternation_true (keywords : list string) (t : string) :
  forallb wordy keywords = true ->
  (testWordAlternation keywords t = true <-> someWholeWord keywords t).
Proof.
  intros Hw. rewrite forallb_forall in Hw.
  unfold testWordAlternation, someWholeWord, wholeWord. rewrite scan_true. split.
  - intros (k & pre & post & Hin & -> & Hb & Hp). exists k. split; [exact Hin |].
    exists pre, post. split; [reflexivity |].
    unfold wordBoundary in *.
    rewrite (wordy_head _ _ (Hw k Hin)) in Hb.
    rewrite lastIsWord_append, (wordy_last _ _ (Hw k Hin)) in Hp.
    split.
    + apply lastIsWord_false_leftEdge. now destruct (lastIsWord false pre).
    + apply headIsWord_false_rightEdge. now destruct (headIsWord post).
  - intros (k & Hin & pre & post & -> & Hl & Hr). exists k, pre, post.
    apply lastIsWord_false_leftEdge in Hl. apply headIsWord_false_rightEdge in Hr.
    unfold wordBoundary.
    rewrite (wordy_head _ _ (Hw k Hin)), lastIsWord_append,
      (wordy_last _ _ (Hw k Hin)), Hl, Hr. auto.
Qed.

Lemma exploreKeywords_wordy : forallb wordy exploreKeywords = true.
Proof. reflexivity. Qed.

Lemma reviewKeywords_wordy : forallb wordy reviewKeywords = true.
Proof. reflexivity. Qed.

(** C1, as the code has it: on the lower-cased task text, a whole-word
    occurrence of an explore keyword gives [explore] whatever else the text
    holds; failing that, a whole-word occurrence of a design-review keyword
    gives [design_review]; a text with neither gives [pr]. *)
Theorem quickInferMode_whole_words (task : string) :
  let t := toLowerCase task in
  (quickInferMode task = explore <-> someWholeWord exploreKeywords t)
  /\ (quickInferMode task = design_review <->
      ~ someWholeWord exploreKeywords t /\ someWholeWord reviewKeywords t)
  /\ (quickInferMode task = pr <->
      ~ someWholeWord exploreKeywords t /\ ~ someWholeWord reviewKeywords t).
Proof.
  intros t. unfold quickInferMode. fold t.
  pose proof (testWordAlternation_true exploreKeywords t exploreKeywords_wordy) as He.
  pose proof (testWordAlternation_true reviewKeywords t reviewKeywords_wordy) as Hr.
  destruct (testWordAlternation exploreKeywords t).
  - assert (X : someWholeWord exploreKeywords t) by now apply He.
    repeat split; try discriminate; tauto.
  - assert (NX : ~ someWholeWord exploreKeywords t) by (intros X%He; discriminate).
    destruct (testWordAlternation reviewKeywords t).
    + assert (R : someWholeWord reviewKeywords t) by now apply Hr.
      repeat split; try discriminate; tauto.
    + assert (NR : ~ someWholeWord reviewKeywords t) by (intros R%Hr; discriminate).
      repeat split; try discriminate; tauto.
Qed.

(** C1 as stated fails: with a keyword of each list the code answers
    [explore] where the statement gives the default, and a keyword that is
    only part of a longer word is contained in the text and yet does not
    count. *)
Lemma quickInferMode_not_statedMode :
  quickInferMode "explore and review" = explore
  /\ statedMode "explore and review" = pr
  /\ quickInferMode "explores" = pr
  /\ statedMode "explores" = explore.
Proof. repeat split; reflexivity. Qed.

(** C2: the base table gives [pr] its six rounds and [explore] its three,
    in this order. *)
Theorem planRounds_base_table :
  planRounds pr =
    [ mkRound "constraints" "SpecScribe";
      mkRound "architecture_plan" "EffectArchitect";
      mkRound "tests_first" "TestEngineer";
      mkRound "impl" "CodeGen";
      mkRound "consistency_gate" "DXEnforcer";
      mkRound "pr_summary" "PRWriter" ]
  /\ planRounds explore =
    [ mkRound "concepts" "DesignPhilosopher";
      mkRound "experience_goals" "ExperienceArchitect";
      mkRound "technical_bridge" "TechnicalPoet" ].
Proof. split; reflexivity. Qed.

End ModeInferenceFacts.

(** ** The mode switch of DesignPhilosopher *)

Module ExpertRegistryFacts.

Import ModeInference ExpertRegistry ExpertRegistryWords ModeInferenceTrial.

Lemma conceptualExperts_head :
  conceptualExperts = withDesignPhilosopherText DesignPhilosopher_systemPrompt.
Proof. reflexivity. Qed.

(** A DesignPhilosopher entry is never a supporting expert of a round that
    DesignPhilosopher leads, so its text does not reach the frame. *)
Lemma supportingIn_lead_text (text : string) (focus : string) (experts : list string) :
  supportingIn (withDesignPhilosopherText text) (mkRound focus "DesignPhilosopher") experts
  = supportingIn conceptualExperts (mkRound focus "DesignPhilosopher") experts.
Proof.
  unfold supportingIn. cbn [lead].
  induction experts as [|e experts IH]; [reflexivity |].
  cbn [List.filter]. destruct (String.eqb_spec e "DesignPhilosopher") as [->|Hne]; cbn [negb].
  - exact IH.
  - rewrite !ListFacts.omap_cons_eq, IH. unfold withDesignPhilosopherText, conceptualExperts.
    unfold lookupExpert. cbn [ownExpert tail].
    destruct (String.eqb_spec "DesignPhilosopher" e) as [E|_]; [congruence | reflexivity].
Qed.

(** C6, as the code has it: in [pr] and [design_review] the text holds the
    prohibition and not the permission, in [explore] the permission and not
    the prohibition; the runner's principles check separates the two
    bodies; and a round led by DesignPhilosopher opens its system prompt
    with the text of the mode, whatever instruction text the catalog entry
    carries, where a round led by another persona opens with the entry of
    the catalog. *)
Theorem designPhilosopher_mode_switch :
  (includes "Do NOT reference history" (getDesignPhilosopherMode pr) = true
   /\ includes "You MAY reference historical" (getDesignPhilosopherMode pr) = false
   /\ hasPrinciplesOnly (getDesignPhilosopherMode pr) = true)
  /\ (includes "Do NOT reference history" (getDesignPhilosopherMode design_review) = true
      /\ includes "You MAY reference historical" (getDesignPhilosopherMode design_review) = false
      /\ hasPrinciplesOnly (getDesignPhilosopherMode design_review) = true)
  /\ (includes "You MAY reference historical" (getDesignPhilosopherMode explore) = true
      /\ includes "Do NOT reference history" (getDesignPhilosopherMode explore) = false
      /\ hasPrinciplesOnly (getDesignPhilosopherMode explore) = false)
  /\ (forall JSON_stringify text focus experts context philosophy mode,
        generateRoundPromptIn JSON_stringify (withDesignPhilosopherText text)
          (mkRound focus "DesignPhilosopher") experts context philosophy mode
        = Ok {| roundSystemPrompt :=
                  getDesignPhilosopherMode mode
                    ++ collaborationFrame (mkRound focus "DesignPhilosopher")
                         (supportingIn conceptualExperts
                            (mkRound focus "DesignPhilosopher") experts)
                         "DesignPhilosopher" mode;
                roundUserPrompt :=
                  roundUserText JSON_stringify (mkRound focus "DesignPhilosopher")
                    context philosophy mode |})
  /\ (forall JSON_stringify focus experts context philosophy mode,
        generateRoundPrompt JSON_stringify
          (mkRound focus "DesignPhilosopher") experts context philosophy mode
        = Ok {| roundSystemPrompt :=
                  getDesignPhilosopherMode mode
                    ++ collaborationFrame (mkRound focus "DesignPhilosopher")
                         (supportingIn conceptualExperts
                            (mkRound focus "DesignPhilosopher") experts)
                         "DesignPhilosopher" mode;
                roundUserPrompt :=
                  roundUserText JSON_stringify (mkRound focus "DesignPhilosopher")
                    context philosophy mode |})
  /\ (forall JSON_stringify focus experts context philosophy mode,
        generateRoundPrompt JSON_stringify
          (mkRound focus "ExperienceArchitect") experts context philosophy mode
        = Ok {| roundSystemPrompt :=
                  ExperienceArchitect_systemPrompt
                    ++ collaborationFrame (mkRound focus "ExperienceArchitect")
                         (supportingIn conceptualExperts
                            (mkRound focus "ExperienceArchitect") experts)
                         "ExperienceArchitect" mode;
                roundUserPrompt :=
                  roundUserText JSON_stringify (mkRound focus "ExperienceArchitect")
                    context philosophy mode |}).
Proof.
  assert (G : forall JSON_stringify text focus experts context philosophy mode,
            generateRoundPromptIn JSON_stringify (withDesignPhilosopherText text)
              (mkRound focus "DesignPhilosopher") experts context philosophy mode
            = Ok {| roundSystemPrompt :=
                      getDesignPhilosopherMode mode
                        ++ collaborationFrame (mkRound focus "DesignPhilosopher")
                             (supportingIn conceptualExperts
                                (mkRound focus "DesignPhilosopher") experts)
                             "DesignPhilosopher" mode;
                    roundUserPrompt :=
                      roundUserText JSON_stringify (mkRound focus "DesignPhilosopher")
                        context philosophy mode |}).
  { intros J text focus experts context philosophy mode.
    unfold generateRoundPromptIn. rewrite supportingIn_lead_text. reflexivity. }
  repeat split; try (vm_compute; reflexivity). exact G.
Qed.

(** C6 as stated fails: the runner's check for historical references, the
    one it uses for the permission, holds of the text of every mode, the
    prohibition itself naming history. *)
Lemma hasHistoricalReferences_in_both_bodies :
  hasHistoricalReferences (getDesignPhilosopherMode pr) = true
  /\ hasHistoricalReferences (getDesignPhilosopherMode design_review) = true
  /\ hasHistoricalReferences (getDesignPhilosopherMode explore) = true.
Proof. repeat split; vm_compute; reflexivity. Qed.

End ExpertRegistryFacts.

(** ** The output writer *)

Module FileServiceFacts.

Import FileService FileServiceWords JsStringFacts.

Lemma includes_char_cons (a c : ascii) (s : string) :
  includes (String a EmptyString) (String c s)
  = Ascii.eqb a c || includes (String a EmptyString) s.
Proof.
  cbn [includes stripPrefix]. destruct (Ascii.eqb a c); [reflexivity |].
  destruct s; reflexivity.
Qed.

Lemma includes_char_mapChars (a : ascii) (f : ascii -> ascii) (s : string) :
  (forall c, Ascii.eqb a (f c) = false) ->
  includes (String a EmptyString) (mapChars f s) = false.
Proof.
  intros Hf. induction s as [|c s IH]; [reflexivity |].
  cbn [mapChars]. now rewrite includes_char_cons, Hf, IH.
Qed.

Lemma dashColonDot_not_colon (c : ascii) : Ascii.eqb ":" (dashColonDot c) = false.
Proof.
  unfold dashColonDot. destruct (Ascii.eqb_spec c ":") as [->|H1]; [reflexivity |].
  destruct (Ascii.eqb_spec c ".") as [->|H2]; [reflexivity |].
  cbn [orb]. destruct (Ascii.eqb_spec ":" c); congruence.
Qed.

Lemma dashColonDot_not_dot (c : ascii) : Ascii.eqb "." (dashColonDot c) = false.
Proof.
  unfold dashColonDot. destruct (Ascii.eqb_spec c ":") as [->|H1]; [reflexivity |].
  destruct (Ascii.eqb_spec c ".") as [->|H2]; [reflexivity |].
  cbn [orb]. destruct (Ascii.eqb_spec "." c); congruence.
Qed.

(** The timestamp part holds neither [:] nor [.]. *)
Lemma timestampOf_clean (iso : string) :
  includes ":" (timestampOf iso) = false /\ includes "." (timestampOf iso) = false.
Proof.
  split; apply includes_char_mapChars;
    [apply dashColonDot_not_colon | apply dashColonDot_not_dot].
Qed.

Lemma replaceRuns_chars (inRun : bool) (s : string) :
  allChars isNameChar (replaceRuns (fun c => negb (isLowerAlnum c)) inRun s) = true.
Proof.
  revert inRun. induction s as [|c s IH]; intros inRun; [reflexivity |].
  cbn [replaceRuns]. destruct (isLowerAlnum c) eqn:E; cbn [negb].
  - cbn [allChars]. unfold isNameChar at 1. now rewrite E, IH.
  - destruct inRun; [apply IH |]. cbn [allChars]. now rewrite IH.
Qed.

Lemma sliceTo_chars (p : ascii -> bool) (n : nat) (s : string) :
  allChars p s = true -> allChars p (sliceTo n s) = true.
Proof.
  revert s. induction n as [|n IH]; intros [|c s]; cbn [sliceTo allChars]; try reflexivity.
  intros [Hc Hs]%andb_true_iff. now rewrite Hc, IH.
Qed.

Lemma includes_step (sub : string) (c : ascii) (s : string) :
  stripPrefix sub (String c s) = None ->
  includes sub (String c s) = includes sub s.
Proof. intros H. cbn [includes]. now rewrite H. Qed.

Lemma stripPrefix_pair (s : string) :
  stripPrefix "__" (String "_" s) = stripPrefix "_" s.
Proof. cbn [stripPrefix]. now rewrite Ascii.eqb_refl. Qed.

(** After a replaced run the text does not go on with an underscore, and
    no two underscores follow each other. *)
Lemma replaceRuns_single (inRun : bool) (s : string) :
  let out := replaceRuns (fun c => negb (isLowerAlnum c)) inRun s in
  includes "__" out = false
  /\ (inRun = true -> stripPrefix "_" out = None).
Proof.
  revert inRun. induction s as [|c s IH]; intros inRun; [split; reflexivity |].
  cbn zeta. cbn [replaceRuns]. destruct (isLowerAlnum c) eqn:E; cbn [negb].
  - destruct (IH false) as [H1 _].
    assert (Hc : Ascii.eqb "_" c = false).
    { destruct (Ascii.eqb_spec "_" c) as [<-|_]; [discriminate E | reflexivity]. }
    split.
    + rewrite includes_step; [exact H1 |]. cbn [stripPrefix]. now rewrite Hc.
    + intros _. cbn [stripPrefix]. now rewrite Hc.
  - destruct (IH true) as [H1 H2]. specialize (H2 eq_refl). destruct inRun.
    + split; [exact H1 | intros _; exact H2].
    + split; [|discriminate].
      rewrite includes_step; [exact H1 |]. now rewrite stripPrefix_pair.
Qed.

Lemma stripPrefix_sliceTo (k s : string) (n : nat) :
  stripPrefix k s = None -> stripPrefix k (sliceTo n s) = None.
Proof.
  revert s n. induction k as [|a k IH]; intros s n; [discriminate |].
  destruct s as [|c s]; destruct n as [|n]; cbn [sliceTo stripPrefix]; try reflexivity.
  destruct (Ascii.eqb a c); [apply IH | reflexivity].
Qed.

Lemma sliceTo_no_pair (n : nat) (s : string) :
  includes "__" s = false -> includes "__" (sliceTo n s) = false.
Proof.
  revert s. induction n as [|n IH]; intros [|c s]; cbn [sliceTo]; try reflexivity.
  intros H. cbn [includes] in H.
  destruct (stripPrefix "__" (String c s)) eqn:E; [discriminate H |].
  rewrite includes_step.
  - apply IH, H.
  - apply (stripPrefix_sliceTo "__" (String c s) (S n)), E.
Qed.

(** The sanitized name: at most 50 characters, each a lower-case letter, a
    digit or an underscore, and never two underscores in a row. *)
Lemma sanitizedTaskName_shape (taskName : string) :
  (String.length (sanitizedTaskName taskName) <= 50)%nat
  /\ allChars isNameChar (sanitizedTaskName taskName) = true
  /\ includes "__" (sanitizedTaskName taskName) = false.
Proof.
  unfold sanitizedTaskName. split; [apply sliceTo_length |]. split.
  - apply sliceTo_chars, replaceRuns_chars.
  - apply sliceTo_no_pair, (replaceRuns_single false).
Qed.

Lemma mkdirFrom_dir (base : Path) (segments : list string) (fs fs' : FS) :
  mkdirFrom base segments fs = Ok fs' ->
  segments <> [] ->
  fs' !! (base ++ segments)%list = Some Dir.
Proof.
  revert base fs. induction segments as [|s rest IH]; intros base fs H Hne; [congruence |].
  cbn [mkdirFrom] in H.
  assert (G : mkdirFrom (base ++ [s])%list rest (<[(base ++ [s])%list := Dir]> fs) = Ok fs').
  { destruct (fs !! (base ++ [s])%list) as [[|c]|]; [exact H | discriminate | exact H]. }
  clear H. destruct rest as [|s' rest].
  - cbn [mkdirFrom] in G. injection G as <-. apply lookup_insert_eq.
  - apply IH in G; [|discriminate]. now rewrite <- app_assoc in G.
Qed.

Lemma mkdirFrom_files (base : Path) (segments : list string) (fs fs' : FS) :
  mkdirFrom base segments fs = Ok fs' ->
  forall q c, fs' !! q = Some (File c) <-> fs !! q = Some (File c).
Proof.
  revert base fs. induction segments as [|s rest IH]; intros base fs H q c.
  - cbn [mkdirFrom] in H. now injection H as <-.
  - cbn [mkdirFrom] in H. set (p := (base ++ [s])%list) in *.
    assert (G : mkdirFrom p rest (<[p := Dir]> fs) = Ok fs'
                /\ forall c', fs !! p <> Some (File c')).
    { destruct (fs !! p) as [[|c']|]; [split; [exact H | discriminate]
                                      | discriminate
                                      | split; [exact H | discriminate]]. }
    destruct G as [G Hp]. rewrite (IH _ _ G q c).
    destruct (decide (p = q)) as [<-|Hpq].
    + rewrite lookup_insert_eq. split; [discriminate | intros E; now apply Hp in E].
    + now rewrite lookup_insert_ne.
Qed.

Lemma mkdirFrom_keeps_dir (base : Path) (segments : list string) (fs fs' : FS) (q : Path) :
  mkdirFrom base segments fs = Ok fs' ->
  fs !! q = Some Dir -> fs' !! q = Some Dir.
Proof.
  revert base fs. induction segments as [|s rest IH]; intros base fs H Hq.
  - cbn [mkdirFrom] in H. now injection H as <-.
  - cbn [mkdirFrom] in H. set (p := (base ++ [s])%list) in *.
    assert (G : mkdirFrom p rest (<[p := Dir]> fs) = Ok fs').
    { destruct (fs !! p) as [[|c]|]; [exact H | discriminate | exact H]. }
    apply (IH _ _ G). destruct (decide (p = q)) as [<-|Hpq].
    + apply lookup_insert_eq.
    + now rewrite lookup_insert_ne.
Qed.

(** A successful recursive [mkdir] leaves a directory at every step of the
    path. *)
Lemma mkdirFrom_ancestors (base : Path) (segments : list string) (fs fs' : FS) :
  mkdirFrom base segments fs = Ok fs' ->
  forall k, (0 < k <= List.length segments)%nat ->
            fs' !! (base ++ firstn k segments)%list = Some Dir.
Proof.
  revert base fs. induction segments as [|s rest IH]; intros base fs H k Hk;
    [cbn [List.length] in Hk; lia |].
  cbn [mkdirFrom] in H. set (p := (base ++ [s])%list) in *.
  assert (G : mkdirFrom p rest (<[p := Dir]> fs) = Ok fs').
  { destruct (fs !! p) as [[|c]|]; [exact H | discriminate | exact H]. }
  destruct k as [|k]; [lia |]. cbn [firstn]. destruct k as [|k].
  - cbn [firstn]. fold p. apply (mkdirFrom_keeps_dir _ _ _ _ _ G), lookup_insert_eq.
  - specialize (IH _ _ G (S k)). unfold p in IH. rewrite <- app_assoc in IH.
    apply IH. cbn [List.length] in Hk. lia.
Qed.

(** A successful [saveOutput]: the directory is created first, and the
    file is written into the tree that results. *)
Lemma saveOutput_Ok (cwd : Path) (iso taskName content : string) (fs fs' : FS) (p : Path) :
  saveOutput cwd iso taskName content fs = (Ok p, fs') ->
  exists fs1,
    mkdir (cwd ++ ["output"])%list fs = (Ok tt, fs1)
    /\ isDir fs1 (cwd ++ ["output"])%list = true
    /\ p = (cwd ++ ["output"; outputFilename iso taskName])%list
    /\ fs' = <[p := File content]> fs1.
Proof.
  set (outputDir := (cwd ++ ["output"])%list).
  assert (Hpath : ((outputDir ++ [outputFilename iso taskName])
                   = cwd ++ ["output"; outputFilename iso taskName])%list).
  { unfold outputDir. now rewrite <- app_assoc. }
  unfold saveOutput, bind, mapFail, ret. fold outputDir. unfold mkdir.
  destruct (mkdirFrom [] outputDir fs) as [fs1|e1] eqn:M; [|discriminate].
  assert (Hdir : fs1 !! outputDir = Some Dir).
  { apply (mkdirFrom_dir [] outputDir fs fs1 M).
    unfold outputDir. destruct cwd; discriminate. }
  assert (HisDir : isDir fs1 outputDir = true).
  { unfold isDir. rewrite Hdir. unfold outputDir. now destruct cwd. }
  rewrite Hpath. set (q := (cwd ++ ["output"; outputFilename iso taskName])%list).
  assert (Hparent : removelast q = outputDir).
  { unfold q. rewrite <- Hpath. apply removelast_last. }
  unfold writeFile. rewrite Hparent, HisDir. cbn [negb].
  assert (Hq : q <> []) by (unfold q; destruct cwd; discriminate).
  intros H. exists fs1. split; [reflexivity |]. split; [exact HisDir |].
  destruct q as [|x q']; [congruence |].
  destruct (fs1 !! (x :: q')) as [[|c]|]; [discriminate | |];
    injection H as <- <-; auto.
Qed.

(** A failed [saveOutput] has written no file. *)
Lemma saveOutput_Fail (cwd : Path) (iso taskName content : string) (fs fs' : FS) (e : string) :
  saveOutput cwd iso taskName content fs = (Fail e, fs') ->
  forall q c, fs' !! q = Some (File c) -> fs !! q = Some (File c).
Proof.
  unfold saveOutput, bind, mapFail, ret, mkdir.
  destruct (mkdirFrom [] (cwd ++ ["output"])%list fs) as [fs1|e1] eqn:M.
  - unfold writeFile.
    destruct ((cwd ++ ["output"]) ++ [outputFilename iso taskName])%list as [|x p'];
      [intros [= _ <-] q c Hq; now apply (mkdirFrom_files _ _ _ _ M) |].
    destruct (negb (isDir fs1 (removelast (x :: p'))));
      [intros [= _ <-] q c Hq; now apply (mkdirFrom_files _ _ _ _ M) |].
    destruct (fs1 !! (x :: p')) as [[|c']|]; [|discriminate|discriminate].
    intros [= _ <-] q c Hq. now apply (mkdirFrom_files _ _ _ _ M).
  - intros [= _ <-] q c Hq. exact Hq.
Qed.

(** C5, as the code has it.  For the task name of the example the
    sanitized prefix keeps the underscore that stands for the closing
    exclamation marks, so the file name is that prefix, the separating
    underscore, the timestamp and the extension; the timestamp holds no
    colon and no dot.  For every task name the prefix has at most 50
    characters, all of them lower-case letters, digits or underscores, with
    one underscore for each replaced run.  A successful call creates the
    output directory first, with the directories above it, and writes the
    file into the tree that results; a failed call writes no file. *)
Theorem saveOutput_filename_and_order
    (cwd : Path) (iso taskName content : string) (fs : FS) :
  outputFilename iso "Build a CLI tool!!"
    = "build_a_cli_tool_" ++ "_" ++ timestampOf iso ++ ".md"
  /\ includes ":" (timestampOf iso) = false
  /\ includes "." (timestampOf iso) = false
  /\ ((String.length (sanitizedTaskName taskName) <= 50)%nat
      /\ allChars isNameChar (sanitizedTaskName taskName) = true
      /\ includes "__" (sanitizedTaskName taskName) = false)
  /\ (forall p fs',
        saveOutput cwd iso taskName content fs = (Ok p, fs') ->
        exists fs1,
          mkdir (cwd ++ ["output"])%list fs = (Ok tt, fs1)
          /\ isDir fs1 (cwd ++ ["output"])%list = true
          /\ (forall k, (0 < k <= List.length (cwd ++ ["output"]))%nat ->
                        fs1 !! firstn k (cwd ++ ["output"])%list = Some Dir)
          /\ p = (cwd ++ ["output"; outputFilename iso taskName])%list
          /\ fs' = <[p := File content]> fs1)
  /\ (forall e fs',
        saveOutput cwd iso taskName content fs = (Fail e, fs') ->
        forall q c, fs' !! q = Some (File c) -> fs !! q = Some (File c)).
Proof.
  split; [reflexivity |].
  destruct (timestampOf_clean iso) as [Hc Hd].
  split; [exact Hc |]. split; [exact Hd |].
  split; [apply sanitizedTaskName_shape |]. split.
  - intros p fs' H. destruct (saveOutput_Ok _ _ _ _ _ _ _ H) as (fs1 & Hm & Hd1 & Hp & Hw).
    exists fs1. repeat split; try assumption.
    intros k Hk. unfold mkdir in Hm.
    destruct (mkdirFrom [] (cwd ++ ["output"])%list fs) as [fs2|e2] eqn:M; [|discriminate].
    injection Hm as <-. apply (mkdirFrom_ancestors [] _ _ _ M k Hk).
  - intros e fs' H. now apply (saveOutput_Fail _ _ _ _ _ _ _ H).
Qed.

(** C5 as stated fails: the name written for the example has two
    underscores before the timestamp, so it is not the prefix
    [build_a_cli_tool_] followed by the timestamp. *)
Lemma outputFilename_two_underscores :
  outputFilename "2024-01-15T10:30:45.123Z" "Build a CLI tool!!"
    = "build_a_cli_tool__2024-01-15T10-30-45-123Z.md"
  /\ String.eqb
       (outputFilename "2024-01-15T10:30:45.123Z" "Build a CLI tool!!")
       ("build_a_cli_tool_" ++ timestampOf "2024-01-15T10:30:45.123Z" ++ ".md")
     = false.
Proof. split; reflexivity. Qed.

(** On an empty tree the call succeeds, and the file sits in the directory
    the call created. *)
Lemma saveOutput_on_empty_tree :
  exists fs1 : FS,
    mkdir ["srv"; "output"] ∅ = (Ok tt, fs1)
    /\ isDir fs1 ["srv"; "output"] = true
    /\ snd (saveOutput ["srv"] "2024-01-15T10:30:45.123Z" "Build a CLI tool!!" "guide" ∅)
       = <[ ["srv"; "output"; "build_a_cli_tool__2024-01-15T10-30-45-123Z.md"]
            := File "guide" ]> fs1.
Proof.
  destruct (saveOutput_filename_and_order ["srv"] "2024-01-15T10:30:45.123Z"
              "Build a CLI tool!!" "guide" ∅) as (_ & _ & _ & _ & H & _).
  destruct (H ["srv"; "output"; "build_a_cli_tool__2024-01-15T10-30-45-123Z.md"]
              (snd (saveOutput ["srv"] "2024-01-15T10:30:45.123Z"
                      "Build a CLI tool!!" "guide" ∅)))
    as (fs1 & H1 & H2 & _ & _ & H4).
  - reflexivity.
  - exists fs1. auto.
Defined.

End FileServiceFacts.

(** ** The interaction bookkeeping *)

Module OpenAIServiceFacts.

Import OpenAIService OpenAIServiceWords.

Lemma omap_lookup_seq (pre suf : list ExpertInteraction) :
  omap (fun r => (pre ++ suf)%list !! r) (seq (List.length pre) (List.length suf)) = suf.
Proof.
  revert pre. induction suf as [|x suf IH]; intros pre; [reflexivity |].
  cbn [List.length seq].
  rewrite ListFacts.omap_cons_eq, list_lookup_middle by reflexivity. f_equal.
  specialize (IH (pre ++ [x])%list).
  rewrite <- app_assoc, length_app, Nat.add_1_r in IH. exact IH.
Qed.

Lemma live_objects (st : Store) : wellFormed st -> live st = objects st.
Proof.
  unfold wellFormed, live, readArray, arrayAt. intros ->. cbn [default].
  apply (omap_lookup_seq []).
Qed.

Lemma find_keyAt_seq (i : ExpertInteraction) (objs : list ExpertInteraction)
    (arrs : list (list nat)) (txts : list (list string)) (pre suf : list ExpertInteraction) :
  objs = (pre ++ suf)%list ->
  List.find (keyAt (mkStore objs arrs txts) i) (seq (List.length pre) (List.length suf))
  = option_map (Nat.add (List.length pre)) (firstMatch i suf).
Proof.
  intros ->. revert pre. induction suf as [|x suf IH]; intros pre; [reflexivity |].
  cbn [List.length seq List.find firstMatch].
  unfold keyAt at 1. cbn [objects]. rewrite list_lookup_middle by reflexivity.
  destruct (sameKey i x).
  - cbn [option_map]. now rewrite Nat.add_0_r.
  - specialize (IH (pre ++ [x])%list).
    rewrite <- app_assoc, length_app, Nat.add_1_r in IH. cbn [app] in IH.
    rewrite IH. destruct (firstMatch i suf); cbn [option_map]; [|reflexivity].
    f_equal. cbn [List.length]. lia.
Qed.

Lemma upsert_firstMatch (i : ExpertInteraction) (l : list ExpertInteraction) :
  upsert i l = match firstMatch i l with
               | Some r => alter (merge i) r l
               | None => (l ++ [i])%list
               end.
Proof.
  induction l as [|o l IH]; [reflexivity |].
  cbn [upsert firstMatch]. destruct (sameKey i o); [reflexivity |].
  rewrite IH. destruct (firstMatch i l); reflexivity.
Qed.

Lemma firstMatch_length (i : ExpertInteraction) (l : list ExpertInteraction) (r : nat) :
  firstMatch i l = Some r -> (r < List.length l)%nat.
Proof.
  revert r. induction l as [|o l IH]; intros r; [discriminate |].
  cbn [firstMatch List.length]. destruct (sameKey i o).
  - intros [= <-]. lia.
  - destruct (firstMatch i l) as [r'|]; [|discriminate].
    intros [= <-]. specialize (IH r' eq_refl). lia.
Qed.

Lemma firstMatch_existing (i o : ExpertInteraction) (before rest : list ExpertInteraction) :
  (forall x, In x before -> sameKey i x = false) ->
  sameKey i o = true ->
  firstMatch i (before ++ o :: rest) = Some (List.length before).
Proof.
  intros Hb Ho. induction before as [|x before IH]; cbn [app firstMatch List.length].
  - now rewrite Ho.
  - rewrite (Hb x) by now left. rewrite IH; [reflexivity |].
    intros y Hy. apply Hb. now right.
Qed.

Lemma firstMatch_fresh (i : ExpertInteraction) (l : list ExpertInteraction) :
  (forall x, In x l -> sameKey i x = false) -> firstMatch i l = None.
Proof.
  intros H. induction l as [|x l IH]; [reflexivity |]. cbn [firstMatch].
  rewrite (H x) by now left. rewrite IH; [reflexivity |].
  intros y Hy. apply H. now right.
Qed.

(** On a well-formed store a call is the insert-or-merge of the records,
    and leaves the store well formed. *)
Lemma track_wellFormed (i : ExpertInteraction) (st : Store) :
  wellFormed st ->
  wellFormed (snd (trackExpertInteraction i st))
  /\ objects (snd (trackExpertInteraction i st)) = upsert i (objects st)
  /\ List.length (arrays (snd (trackExpertInteraction i st))) = List.length (arrays st)
  /\ (forall a, a <> expertInteractions ->
        arrays (snd (trackExpertInteraction i st)) !! a = arrays st !! a)
  /\ texts (snd (trackExpertInteraction i st)) = textsAfter i st.
Proof.
  intros Hwf. unfold trackExpertInteraction, textsAfter, arrayAt. rewrite Hwf.
  cbn [default from_option id].
  destruct st as [objs arrs txts]. cbn [objects arrays texts] in *.
  pose proof (find_keyAt_seq i objs arrs txts [] objs eq_refl) as F.
  change (List.length (@nil ExpertInteraction)) with 0%nat in F. rewrite F. clear F.
  rewrite upsert_firstMatch.
  destruct (firstMatch i objs) as [r|] eqn:E; cbn [option_map snd objects arrays texts].
  - rewrite Nat.add_0_l.
    split; [|split; [reflexivity | split; [reflexivity | split; reflexivity]]].
    unfold wellFormed. cbn [objects arrays]. now rewrite length_alter.
  - split; [|split; [reflexivity | split; [|split; [|reflexivity]]]].
    + unfold wellFormed. cbn [objects arrays].
      rewrite list_lookup_insert_eq by (eapply lookup_lt_Some; exact Hwf).
      rewrite length_app, seq_app. reflexivity.
    + apply length_insert.
    + intros a Ha. now apply list_lookup_insert_ne.
Qed.

Lemma snapshot_wellFormed (st : Store) :
  wellFormed st -> wellFormed (snd (getExpertInteractions st)).
Proof.
  unfold wellFormed, getExpertInteractions. cbn [snd objects arrays]. intros H.
  rewrite lookup_app_l; [exact H | eapply lookup_lt_Some; exact H].
Qed.

Lemma perform_wellFormed (c : Call) (st : Store) :
  wellFormed st -> wellFormed (perform c st).
Proof.
  intros H. destruct c as [items|a items|i|]; cbn [perform].
  - exact H.
  - exact H.
  - now apply track_wellFormed.
  - now apply snapshot_wellFormed.
Qed.

Lemma fold_wellFormed (history : list Call) (st : Store) :
  wellFormed st -> wellFormed (fold_left (fun st c => perform c st) history st).
Proof.
  revert st. induction history as [|c history IH]; intros st H; [exact H |].
  cbn [fold_left]. apply IH. now apply perform_wellFormed.
Qed.

Lemma after_wellFormed (history : list Call) : wellFormed (after history).
Proof. apply fold_wellFormed. reflexivity. Qed.

Lemma textsAfter_length (i : ExpertInteraction) (st : Store) :
  List.length (textsAfter i st) = List.length (texts st).
Proof.
  unfold textsAfter. destruct (firstMatch i (objects st)) as [r|]; [|reflexivity].
  destruct (objects st !! r); [apply length_alter | reflexivity].
Qed.

Lemma upsert_In (i o : ExpertInteraction) (l : list ExpertInteraction) :
  In o (upsert i l) -> o = i \/ exists x, In x l /\ insights o = insights x.
Proof.
  induction l as [|x l IH]; cbn [upsert].
  - intros [<-|[]]. now left.
  - destruct (sameKey i x).
    + intros [<-|H]; right.
      * exists x. split; [now left | reflexivity].
      * exists o. split; [now right | reflexivity].
    + intros [<-|H].
      * right. exists x. split; [now left | reflexivity].
      * destruct (IH H) as [->|(y & Hy & E)]; [now left |].
        right. exists y. split; [now right | exact E].
Qed.

(** A call that is in scope keeps every record's array among the arrays
    that were made. *)
Lemma perform_allocated (c : Call) (st : Store) :
  wellFormed st -> allocated st -> inScope st c = true -> allocated (perform c st).
Proof.
  intros Hwf Hal Hc. destruct c as [items|a items|i|]; cbn [perform inScope] in *.
  - intros o Ho. cbn [newTexts snd objects texts] in *. rewrite length_app.
    specialize (Hal o Ho). cbn [List.length]. lia.
  - intros o Ho. cbn [pushTexts objects texts] in *. rewrite length_alter. now apply Hal.
  - destruct (track_wellFormed i st Hwf) as (_ & Hobj & _ & _ & Htx).
    intros o Ho. rewrite Hobj in Ho. rewrite Htx, textsAfter_length.
    apply Nat.ltb_lt in Hc.
    destruct (upsert_In i o _ Ho) as [->|(x & Hx & ->)]; [exact Hc | now apply Hal].
  - intros o Ho. cbn [getExpertInteractions snd objects texts] in *. now apply Hal.
Qed.

Lemma fold_allocated (history : list Call) (st : Store) :
  wellFormed st -> allocated st -> scopedFrom st history = true ->
  allocated (fold_left (fun st c => perform c st) history st).
Proof.
  revert st. induction history as [|c history IH]; intros st Hwf Hal Hsc; [exact Hal |].
  cbn [fold_left scopedFrom] in *. apply andb_true_iff in Hsc as [Hc Hrest].
  apply IH; [now apply perform_wellFormed | now apply perform_allocated | exact Hrest].
Qed.

Lemma after_allocated (history : list Call) :
  scoped history = true -> allocated (after history).
Proof.
  intros H. apply fold_allocated; [reflexivity | intros o [] | exact H].
Qed.

Lemma upsert_existing (i o : ExpertInteraction) (before rest : list ExpertInteraction) :
  (forall x, In x before -> sameKey i x = false) ->
  sameKey i o = true ->
  upsert i (before ++ o :: rest) = (before ++ merge i o :: rest)%list.
Proof.
  intros Hb Ho. induction before as [|x before IH]; cbn [app upsert].
  - now rewrite Ho.
  - rewrite (Hb x) by now left. f_equal. apply IH. intros y Hy. apply Hb. now right.
Qed.

Lemma upsert_fresh (i : ExpertInteraction) (l : list ExpertInteraction) :
  (forall x, In x l -> sameKey i x = false) ->
  upsert i l = (l ++ [i])%list.
Proof.
  intros H. induction l as [|x l IH]; [reflexivity |]. cbn [upsert app].
  rewrite (H x) by now left. f_equal. apply IH. intros y Hy. apply H. now right.
Qed.

Lemma upsert_length (i : ExpertInteraction) (l : list ExpertInteraction) :
  (List.length l <= List.length (upsert i l))%nat.
Proof.
  induction l as [|x l IH]; cbn [upsert List.length]; [lia |].
  destruct (sameKey i x); cbn [List.length]; lia.
Qed.

Lemma omap_lookup_prefix (l : list ExpertInteraction) (n : nat) :
  omap (fun r => l !! r) (seq 0 n) = firstn n l.
Proof.
  induction n as [|n IH]; [reflexivity |].
  rewrite seq_S, omap_app, IH, ListFacts.omap_cons_eq. cbn [Nat.add].
  destruct (l !! n) as [x|] eqn:E.
  - symmetry. now apply take_S_r.
  - apply lookup_ge_None in E. rewrite app_nil_r, !firstn_all2 by lia. reflexivity.
Qed.

(** The texts of an array after texts were pushed onto the array at
    [target]. *)
Lemma textsAt_alter (added : list string) (target a : nat) (st st' : Store) :
  texts st' = alter (fun held => (held ++ added)%list) target (texts st) ->
  (target < List.length (texts st))%nat ->
  textsAt st' a = if (a =? target)%nat then (textsAt st a ++ added)%list else textsAt st a.
Proof.
  intros E Hlt. unfold textsAt. rewrite E.
  destruct (Nat.eqb_spec a target) as [->|Hne].
  - rewrite list_lookup_alter_eq.
    destruct (lookup_lt_is_Some_2 _ _ Hlt) as [held ->]. reflexivity.
  - now rewrite list_lookup_alter_ne by congruence.
Qed.

(** C7: after any sequence of calls, recording an interaction whose
    (expertName, round) key the list already holds changes that one record
    and adds none: the call count is the sum, the record keeps its array
    of insights, which now holds the old texts followed by those of the
    interaction, no other array changes, and the response id is the new
    one when the interaction carries one that is not empty, and stays what
    it was when the interaction carries none or an empty one; with a fresh
    key the record goes to the end of the list, and no array changes.
    [getExpertInteractions] returns a new array with the records of the
    list; a later call does not touch that array, whose records remain
    those of the list it was copied from. *)
Theorem trackExpertInteraction_upsert (history : list Call) (i : ExpertInteraction) :
  scoped history = true ->
  let st := after history in
  let st' := snd (trackExpertInteraction i st) in
  (forall before o rest,
      live st = (before ++ o :: rest)%list ->
      (forall x, In x before -> sameKey i x = false) ->
      sameKey i o = true ->
      exists o',
        live st' = (before ++ o' :: rest)%list
        /\ List.length (live st') = List.length (live st)
        /\ expertName o' = expertName o
        /\ round o' = round o
        /\ callCount o' = (callCount o + callCount i)%Z
        /\ insights o' = insights o
        /\ insightsOf st' o' = (insightsOf st o ++ insightsOf st i)%list
        /\ (forall a, a <> insights o -> textsAt st' a = textsAt st a)
        /\ (forall newId, responseId i = Some newId -> newId <> EmptyString ->
                          responseId o' = Some newId)
        /\ (responseId i = None \/ responseId i = Some EmptyString ->
            responseId o' = responseId o))
  /\ ((forall x, In x (live st) -> sameKey i x = false) ->
      live st' = (live st ++ [i])%list /\ texts st' = texts st)
  /\ live st' = upsert i (live st)
  /\ (exists a,
        fst (getExpertInteractions st) = Ok a
        /\ a <> expertInteractions
        /\ arrays st !! a = None
        /\ readArray (snd (getExpertInteractions st)) a = live st
        /\ live (snd (getExpertInteractions st)) = live st
        /\ forall j,
             let st2 := snd (trackExpertInteraction j (snd (getExpertInteractions st))) in
             arrayAt st2 a = arrayAt (snd (getExpertInteractions st)) a
             /\ readArray st2 a = firstn (List.length (live st)) (live st2)).
Proof.
  intros Hsc st st'.
  pose proof (after_wellFormed history) as Hwf. fold st in Hwf.
  pose proof (after_allocated history Hsc) as Hal. fold st in Hal.
  destruct (track_wellFormed i st Hwf) as (Hwf' & Hobj & _ & _ & Htx).
  fold st' in Hwf', Hobj, Htx.
  assert (Hup : live st' = upsert i (live st)).
  { now rewrite (live_objects st' Hwf'), (live_objects st Hwf). }
  split; [|split; [|split; [exact Hup |]]].
  - intros before o rest E Hb Ho. exists (merge i o).
    rewrite (live_objects st Hwf) in E.
    assert (Hin : (insights o < List.length (texts st))%nat).
    { apply Hal. rewrite E. apply in_or_app. right. now left. }
    assert (Htx' : texts st'
                   = alter (fun held => (held ++ textsAt st (insights i))%list) (insights o)
                       (texts st)).
    { rewrite Htx. unfold textsAfter. rewrite E, (firstMatch_existing i o before rest Hb Ho).
      now rewrite list_lookup_middle by reflexivity. }
    pose proof (fun a => textsAt_alter _ _ a st st' Htx' Hin) as Hat.
    split; [now rewrite Hup, (live_objects st Hwf), E, (upsert_existing i o before rest Hb Ho) |].
    split.
    { rewrite Hup, (live_objects st Hwf), E, (upsert_existing i o before rest Hb Ho).
      rewrite !length_app. reflexivity. }
    split; [reflexivity |]. split; [reflexivity |]. split; [reflexivity |].
    split; [reflexivity |].
    split; [unfold insightsOf; cbn [merge insights]; now rewrite Hat, Nat.eqb_refl |].
    split.
    { intros a Ha. rewrite Hat. destruct (Nat.eqb_spec a (insights o)); congruence. }
    split.
    + intros newId E1 Hne. cbn [merge responseId]. rewrite E1. cbn [truthy].
      destruct (String.eqb_spec newId EmptyString); [congruence | reflexivity].
    + intros [E1|E1]; cbn [merge responseId]; rewrite E1; reflexivity.
  - intros Hfresh. split; [rewrite Hup; now apply upsert_fresh |].
    rewrite Htx. unfold textsAfter. rewrite <- (live_objects st Hwf).
    now rewrite (firstMatch_fresh i (live st) Hfresh).
  - set (st1 := snd (getExpertInteractions st)).
    pose proof (snapshot_wellFormed st Hwf) as Hwf1. fold st1 in Hwf1.
    exists (List.length (arrays st)).
    assert (Hpos : (0 < List.length (arrays st))%nat)
      by (eapply lookup_lt_Some; exact Hwf).
    assert (Ha : arrays st1 !! List.length (arrays st)
                 = Some (seq 0 (List.length (objects st)))).
    { unfold st1, getExpertInteractions. cbn [snd arrays].
      rewrite list_lookup_middle by reflexivity.
      unfold arrayAt. now rewrite Hwf. }
    split; [reflexivity |].
    split; [unfold expertInteractions; lia |].
    split; [apply lookup_ge_None_2; lia |].
    assert (Hobj1 : objects st1 = objects st) by reflexivity.
    split; [|split].
    + unfold readArray, arrayAt. rewrite Ha. cbn [default]. rewrite Hobj1.
      rewrite (live_objects st Hwf). apply (omap_lookup_seq []).
    + now rewrite (live_objects st1 Hwf1), (live_objects st Hwf).
    + intros j st2.
      destruct (track_wellFormed j st1 Hwf1) as (Hwf2 & Hobj2 & _ & Hother & _).
      fold st2 in Hwf2, Hobj2, Hother.
      assert (Ha2 : arrays st2 !! List.length (arrays st) = arrays st1 !! List.length (arrays st)).
      { apply Hother. unfold expertInteractions. lia. }
      split.
      * unfold arrayAt. now rewrite Ha2.
      * unfold readArray, arrayAt. rewrite Ha2, Ha. cbn [default].
        rewrite (live_objects st2 Hwf2), (live_objects st Hwf).
        apply omap_lookup_prefix.
Qed.

(** C7 at work: the same key recorded twice, each time with an array of
    its own, gives one record with two calls, whose array holds both
    insights, and which carries the response id of the second call. *)
Lemma trackExpertInteraction_same_key_twice :
  scoped firstRecorded = true
  /\ live (after (firstRecorded ++ [Track secondCall]))
     = [ mkInteraction "DesignPhilosopher" "historical_grounding" 2 0 (Some "resp_2") ]
  /\ textsAt (after (firstRecorded ++ [Track secondCall])) 0
     = ["Grids endure."; "So does contrast."]
  /\ textsAt (after (firstRecorded ++ [Track secondCall])) 1 = ["So does contrast."].
Proof.
  split; [reflexivity |].
  destruct (trackExpertInteraction_upsert firstRecorded secondCall eq_refl) as (H & _).
  destruct (H [] firstCall [] eq_refl) as (o' & E & _ & En & Er & Ec & Ei & Et & Eo & Ea & _).
  - intros x [].
  - reflexivity.
  - unfold after. rewrite fold_left_app. cbn [fold_left perform].
    change (fold_left (fun st c => perform c st) firstRecorded initialStore)
      with (after firstRecorded).
    split; [|split].
    + rewrite E. cbn [app]. f_equal. destruct o' as [n r c a rid].
      cbn [expertName round callCount insights responseId] in *.
      rewrite En, Er, Ec, Ei, (Ea "resp_2" eq_refl) by discriminate. reflexivity.
    + unfold insightsOf in Et. rewrite Ei in Et. exact Et.
    + now rewrite Eo by discriminate.
Defined.

(** What sharing does: a client passes one array in two interactions with
    different keys, and then records the first key again.  Both records
    refer to the one array, so the texts pushed for the first also show
    under the second. *)
Remark trackExpertInteraction_shared_array :
  scoped sharedArray = true
  /\ map insights (live (after sharedArray)) = [0; 0]%nat
  /\ map (insightsOf (after sharedArray)) (live (after sharedArray))
     = [["x"; "y"]; ["x"; "y"]]
  /\ map callCount (live (after sharedArray)) = [2; 1]%Z.
Proof. repeat split; reflexivity. Qed.

End OpenAIServiceFacts.

(** ** The memory store *)

Module MemoryServiceFacts.

Import MemoryService MemoryServiceWords JsStringFacts.



Lemma whereClause_cons (k : string) (keywords : list string) :
  whereClause (k :: keywords)
  = likeTerm ++ match keywords with
                | [] => EmptyString
                | _ => " OR " ++ whereClause keywords
                end.
Proof.
  unfold whereClause. cbn [map join]. destruct keywords as [|k' keywords].
  - cbn [map]. now rewrite append_empty_r.
  - reflexivity.
Qed.

Lemma whereClause_empty : whereClause [] = EmptyString.
Proof. reflexivity. Qed.

(** The engine refuses the query without keywords. *)
Lemma prepare_empty : prepare (whereClause []) = None.
Proof. reflexivity. Qed.

Lemma parseTerms_whereClause (keywords : list string) (fuel : nat) :
  keywords <> [] ->
  (List.length keywords <= fuel)%nat ->
  parseTerms fuel (whereClause keywords) = Some (List.length keywords).
Proof.
  revert fuel. induction keywords as [|k keywords IH]; intros fuel Hne Hfuel; [congruence |].
  destruct fuel as [|fuel]; [cbn [List.length] in Hfuel; lia |].
  rewrite whereClause_cons. cbn [parseTerms]. rewrite stripPrefix_append.
  destruct keywords as [|k' keywords]; [reflexivity |].
  rewrite stripPrefix_append.
  change (" OR " ++ whereClause (k' :: keywords))
    with (String " " (String "O" (String "R" (String " " (whereClause (k' :: keywords)))))).
  cbv iota.
  rewrite IH; [reflexivity | discriminate | cbn [List.length] in *; lia].
Qed.

Lemma whereClause_length (keywords : list string) :
  (List.length keywords <= String.length (whereClause keywords))%nat.
Proof.
  induction keywords as [|k keywords IH]; [cbn; lia |].
  rewrite whereClause_cons, length_append.
  change (String.length likeTerm) with 18%nat.
  destruct keywords as [|k' keywords]; [cbn [List.length]; lia |].
  rewrite length_append. cbn [List.length] in *. lia.
Qed.

Lemma prepare_whereClause (keywords : list string) :
  keywords <> [] -> prepare (whereClause keywords) = Some (List.length keywords).
Proof.
  intros Hne. unfold prepare. apply parseTerms_whereClause; [exact Hne |].
  pose proof (whereClause_length keywords). lia.
Qed.



(** Characters are counted, not bytes: a word of three characters outside
    ASCII has five or nine bytes, and is no keyword. *)
Remark findRelevantSuccesses_three_characters :
  String.length ete = 5%nat /\ jsLength ete = 3%nat
  /\ String.length nihongo = 9%nat /\ jsLength nihongo = 3%nat
  /\ keywordsOf toLowerCase (ete ++ " " ++ nihongo) = []
  /\ findRelevantSuccesses toLowerCase (ete ++ " " ++ nihongo) (mkStore [] [] true)
     = (Fail ("Failed to query memories: " ++ syntaxError), mkStore [] [] true).
Proof. repeat split; reflexivity. Qed.


(** When the INSERT is refused, [storeSuccess] fails with the session entry
    already pushed. *)
Remark storeSuccess_refused (now currentTimestamp : Z) (task : string)
    (philosophy : Philosophy) (spec : TechnicalSpec) (st : Store) :
  writable st = false ->
  storeSuccess now currentTimestamp task philosophy spec st
  = (Fail "Failed to store memory: Error: SQLITE_READONLY: attempt to write a readonly database",
     {| sessionMemory := (sessionMemory st ++ [mkEntry task philosophy spec now])%list;
        memories := memories st;
        writable := writable st |}).
Proof.
  intros H. unfold storeSuccess, bind, modify, mapFail. cbn [writable]. now rewrite H.
Qed.

End MemoryServiceFacts.

(** ** The orchestrator *)

Module CreativeAILoopFacts.

Import ModeInference CreativeAILoop CreativeAILoopWords EffFacts.

Lemma keeps_ret {A : Type} (a : A) : keepsMemory (ret a).
Proof. intros w. reflexivity. Qed.

Lemma keeps_bind {A B : Type} (m : Eff World A) (k : A -> Eff World B) :
  keepsMemory m -> (forall a, keepsMemory (k a)) -> keepsMemory (bind m k).
Proof.
  intros Hm Hk w. unfold bind. specialize (Hm w).
  destruct (m w) as [[a|e] w0]; cbn [snd] in *; [|exact Hm].
  now rewrite (Hk a w0).
Qed.

Lemma keeps_mapFail {A : Type} (f : string -> string) (m : Eff World A) :
  keepsMemory m -> keepsMemory (mapFail f m).
Proof.
  intros Hm w. unfold mapFail. specialize (Hm w).
  destruct (m w) as [[a|e] w0]; exact Hm.
Qed.

Lemma keeps_liftOpenAI {A : Type} (m : Eff OpenAIService.Store A) :
  keepsMemory (liftOpenAI m).
Proof. intros w. unfold liftOpenAI. now destruct (m (openai w)). Qed.

Lemma keeps_liftFiles {A : Type} (m : Eff FileService.FS A) :
  keepsMemory (liftFiles m).
Proof. intros w. unfold liftFiles. now destruct (m (files w)). Qed.

Lemma keeps_track (expertName round : string) (callCount : Z) (insights : list string)
    (responseId : option string) :
  keepsMemory (track expertName round callCount insights responseId).
Proof. apply keeps_liftOpenAI. Qed.

(** The query reads the table and writes nothing. *)
Lemma findRelevantSuccesses_reads (toLowerCaseJS : string -> string) (task : string)
    (st : MemoryService.Store) :
  snd (MemoryService.findRelevantSuccesses toLowerCaseJS task st) = st.
Proof.
  unfold MemoryService.findRelevantSuccesses, mapFail.
  now destruct (MemoryService.selectMemories _ _ _).
Qed.

Lemma keeps_findRelevantSuccesses (toLowerCaseJS : string -> string) (task : string) :
  keepsMemory (liftMemory (MemoryService.findRelevantSuccesses toLowerCaseJS task)).
Proof.
  intros w. unfold liftMemory.
  pose proof (findRelevantSuccesses_reads toLowerCaseJS task (memory w)) as H.
  destruct (MemoryService.findRelevantSuccesses toLowerCaseJS task (memory w)) as [r s].
  cbn [snd memory] in *. exact H.
Qed.

Create HintDb keeps.
#[local] Hint Resolve keeps_ret keeps_bind keeps_mapFail keeps_liftOpenAI
  keeps_liftFiles keeps_track keeps_findRelevantSuccesses : keeps.

Section Run.

Variable provider : OpenAIService.Provider.
Variable terminalInput : nat -> string -> Result string.
Variable terminalConfirm : nat -> string -> Result bool.
Variable clockISO : nat -> string.
Variable clockMs : nat -> Z.
Variable cwd : FileService.Path.
Variable roundUserPrompt : Round -> list string -> TaskContext -> Philosophy -> string.
Variable technicalUserPrompt : Philosophy -> TaskContext -> list string -> string.
Variable outputUserPrompt : Philosophy -> TechnicalSpec -> TaskContext -> string.
Variable extractSynthesis : string -> string.
Variable toLowerCaseJS : string -> string.

Let thePhases :=
  phases provider terminalInput terminalConfirm clockISO cwd roundUserPrompt
    technicalUserPrompt outputUserPrompt extractSynthesis toLowerCaseJS.
Let theRun :=
  run provider terminalInput terminalConfirm clockISO clockMs cwd roundUserPrompt
    technicalUserPrompt outputUserPrompt extractSynthesis toLowerCaseJS.

Lemma keeps_generateResponse (request : OpenAIService.Request) :
  keepsMemory (generateResponse provider request).
Proof. intros w. reflexivity. Qed.

Lemma keeps_input (message : string) : keepsMemory (input terminalInput message).
Proof. apply keeps_mapFail. intros w. reflexivity. Qed.

Lemma keeps_confirm (message : string) : keepsMemory (confirm terminalConfirm message).
Proof. apply keeps_mapFail. intros w. reflexivity. Qed.

#[local] Hint Resolve keeps_generateResponse keeps_input keeps_confirm : keeps.

Lemma keeps_askQuestionsFrom (questions : list string) (constraints preferences : JsObject) :
  keepsMemory (askQuestionsFrom terminalInput questions constraints preferences).
Proof.
  revert constraints preferences.
  induction questions as [|q questions IH]; intros constraints preferences;
    cbn [askQuestionsFrom]; [auto with keeps |].
  apply keeps_bind; [auto with keeps |]. intros answer.
  repeat match goal with |- context [if ?b then _ else _] => destruct b end; apply IH.
Qed.

Lemma keeps_getUserFeedback (focus current : string) :
  keepsMemory (getUserFeedback terminalInput terminalConfirm focus current).
Proof.
  unfold getUserFeedback. apply keeps_bind; [auto with keeps |].
  intros [|]; auto with keeps.
Qed.

#[local] Hint Resolve keeps_askQuestionsFrom keeps_getUserFeedback : keeps.

Lemma keeps_interactiveTaskAnalysis (initialPrompt : string) :
  keepsMemory (interactiveTaskAnalysis terminalInput toLowerCaseJS initialPrompt).
Proof. unfold interactiveTaskAnalysis, askQuestions. auto 10 with keeps. Qed.

Lemma keeps_developRounds (rounds : list Round) (experts : list string)
    (context : TaskContext) (philosophy : Philosophy) (previous : option string) :
  keepsMemory
    (developRounds provider terminalInput terminalConfirm roundUserPrompt extractSynthesis
       rounds experts context philosophy previous).
Proof.
  revert philosophy previous.
  induction rounds as [|round rounds IH]; intros philosophy previous;
    cbn [developRounds]; [auto with keeps |].
  apply keeps_bind; [auto with keeps |]. intros response.
  apply keeps_bind; [auto with keeps |]. intros _.
  destruct (shouldCheckWithUser round); [|apply IH].
  apply keeps_bind; [auto with keeps |]. intros feedback.
  destruct (OpenAIService.truthy feedback); [|apply IH].
  apply keeps_bind; [auto with keeps |]. intros _. apply IH.
Qed.

Lemma keeps_translateToSpec (philosophy : Philosophy) (context : TaskContext) :
  keepsMemory (translateToSpec provider technicalUserPrompt philosophy context).
Proof. unfold translateToSpec. auto 10 with keeps. Qed.

Lemma keeps_formatOutput (philosophy : Philosophy) (spec : TechnicalSpec)
    (context : TaskContext) :
  keepsMemory (formatOutput provider clockISO cwd outputUserPrompt philosophy spec context).
Proof.
  unfold formatOutput.
  apply keeps_bind; [auto with keeps | intros response].
  apply keeps_bind; [auto with keeps | intros _].
  apply keeps_bind; [intros w; reflexivity | intros iso].
  auto with keeps.
Qed.

(** Phases 0 to 3 leave the memory store alone. *)
Lemma keeps_phases (initialPrompt : string) : keepsMemory (thePhases initialPrompt).
Proof.
  unfold thePhases, phases, developConcept.
  apply keeps_bind; [apply keeps_interactiveTaskAnalysis | intros taskContext].
  apply keeps_bind; [apply keeps_developRounds | intros philosophy].
  apply keeps_bind; [apply keeps_translateToSpec | intros spec].
  apply keeps_bind; [apply keeps_formatOutput | intros outputPath].
  apply keeps_ret.
Qed.

(** When Phase 3 returns, the output file is in place. *)
Lemma formatOutput_saved (philosophy : Philosophy) (spec : TechnicalSpec)
    (context : TaskContext) (w w1 : World) (path : FileService.Path) :
  formatOutput provider clockISO cwd outputUserPrompt philosophy spec context w
    = (Ok path, w1) ->
  exists content, files w1 !! path = Some (FileService.File content).
Proof.
  unfold formatOutput.
  intros (response & wa & _ & H)%bind_Ok.
  apply bind_Ok in H as (? & wb & _ & H).
  apply bind_Ok in H as (iso & wc & _ & H).
  unfold liftFiles in H.
  destruct (FileService.saveOutput cwd iso (task context)
              (OpenAIService.content response) (files wc)) as [r fs'] eqn:S.
  injection H as -> <-. cbn [files].
  destruct (FileServiceFacts.saveOutput_Ok _ _ _ _ _ _ _ S) as (fs1 & _ & _ & _ & ->).
  exists (OpenAIService.content response). apply lookup_insert_eq.
Qed.

Lemma phases_saved (initialPrompt : string) (w w1 : World)
    (done : TaskContext * Philosophy * TechnicalSpec * FileService.Path) :
  thePhases initialPrompt w = (Ok done, w1) ->
  exists content, files w1 !! snd done = Some (FileService.File content).
Proof.
  unfold thePhases, phases.
  intros (taskContext & wa & _ & H)%bind_Ok.
  apply bind_Ok in H as (philosophy & wb & _ & H).
  apply bind_Ok in H as (spec & wc & _ & H).
  apply bind_Ok in H as (outputPath & wd & Hsave & H).
  injection H as <- <-. cbn [snd]. eapply formatOutput_saved. exact Hsave.
Qed.

(** C8: phases 0 to 3 never write to the memory store; a run in which one
    of them fails ends with that failure and with the session list and the
    memories table as they were; and a run that changed the memory store
    has been through Phase 3, with the output file saved, the change being
    that of the one call of [storeSuccess]. *)
Theorem run_stores_after_phase_3 (initialPrompt : string) (w : World) :
  memory (snd (thePhases initialPrompt w)) = memory w
  /\ (forall e w',
        thePhases initialPrompt w = (Fail e, w') ->
        theRun initialPrompt w = (Fail e, w')
        /\ MemoryService.sessionMemory (memory w') = MemoryService.sessionMemory (memory w)
        /\ MemoryService.memories (memory w') = MemoryService.memories (memory w))
  /\ (memory (snd (theRun initialPrompt w)) <> memory w ->
      exists taskContext philosophy spec outputPath w1 content,
        thePhases initialPrompt w = (Ok (taskContext, philosophy, spec, outputPath), w1)
        /\ memory w1 = memory w
        /\ files w1 !! outputPath = Some (FileService.File content)
        /\ memory (snd (theRun initialPrompt w))
           = snd (MemoryService.storeSuccess (clockMs (ticks w1))
                    (clockMs (S (ticks w1)) / 1000)%Z (task taskContext)
                    philosophy spec (memory w))).
Proof.
  pose proof (keeps_phases initialPrompt w) as Hkeep.
  split; [exact Hkeep |]. split.
  - intros e w' H. rewrite H in Hkeep. cbn [snd] in Hkeep.
    split; [|now rewrite Hkeep].
    unfold theRun, run. fold thePhases. now apply bind_of_Fail.
  - intros Hchanged.
    destruct (thePhases initialPrompt w) as [[done|e] w1] eqn:P.
    + destruct done as [[[taskContext philosophy] spec] outputPath].
      cbn [snd] in Hkeep.
      destruct (phases_saved initialPrompt w w1 _ P) as [content Hfile].
      exists taskContext, philosophy, spec, outputPath, w1, content.
      repeat split; [exact Hkeep | exact Hfile |].
      unfold theRun, run. fold thePhases. rewrite (bind_of_Ok _ _ _ _ _ P).
      unfold wrapUp, bind, liftOpenAI, liftMemory, OpenAIService.getExpertInteractions, ret.
      cbn [memory openai files llmCalls prompts ticks nextTick fst snd].
      rewrite Hkeep.
      destruct (MemoryService.storeSuccess _ _ _ _ _ (memory w)) as [[u|e] s]; reflexivity.
    + exfalso. apply Hchanged.
      unfold theRun, run. fold thePhases. rewrite (bind_of_Fail _ _ _ _ _ P).
      cbn [snd] in *. exact Hkeep.
Qed.

End Run.

(** C8 at work: with the provider down the run fails in Phase 1, and the
    memory store is the one the run started with. *)
Lemma run_with_provider_down :
  exists w',
    run down answering declining fixedISO fixedMs ["srv"] plainRoundPrompt
      plainTechnicalPrompt plainOutputPrompt wholeReply toLowerCase "build a dashboard" startWorld
    = (Fail "OpenAI API error: Error: timeout", w')
    /\ MemoryService.sessionMemory (memory w') = []
    /\ MemoryService.memories (memory w') = [archived].
Proof.
  destruct (phases down answering declining fixedISO ["srv"] plainRoundPrompt
              plainTechnicalPrompt plainOutputPrompt wholeReply toLowerCase "build a dashboard"
              startWorld) as [[done|e] w'] eqn:P; [vm_compute in P; discriminate P |].
  assert (He : e = "OpenAI API error: Error: timeout").
  { vm_compute in P. now injection P as <- _. }
  subst e.
  destruct (run_stores_after_phase_3 down answering declining fixedISO fixedMs ["srv"]
              plainRoundPrompt plainTechnicalPrompt plainOutputPrompt wholeReply toLowerCase
              "build a dashboard" startWorld) as (_ & H & _).
  destruct (H _ w' P) as (Hrun & Hsession & Hrows).
  exists w'. split; [exact Hrun |]. split; [exact Hsession | exact Hrows].
Defined.

(** With the provider answering, the run goes through and the store gains
    one session entry and one row. *)
Example run_with_provider_replying :
  let w' := snd (run replying answering declining fixedISO fixedMs ["srv"]
                   plainRoundPrompt plainTechnicalPrompt plainOutputPrompt wholeReply toLowerCase
                   "build a dashboard" startWorld) in
  List.length (MemoryService.sessionMemory (memory w')) = 1%nat
  /\ List.length (MemoryService.memories (memory w')) = 2%nat
  /\ files w' !! ["srv"; "output"; "build_a_dashboard_2024-01-15T10-30-45-123Z.md"]
     = Some (FileService.File "**Synthesis**: keep it small").
Proof. vm_compute. repeat split. Qed.

End CreativeAILoopFacts.

(** ** Rounding to binary64 *)

Module Binary64Facts.

Import Binary64.

Lemma nearestEven_le (n d k : Z) :
  (0 < d)%Z -> (n <= k * d)%Z -> (nearestEven n d <= k)%Z.
Proof.
  intros Hd H. unfold nearestEven.
  pose proof (Z.div_mod n d ltac:(lia)) as E.
  pose proof (Z.mod_pos_bound n d Hd) as [R0 R1].
  set (q := (n / d)%Z) in *. set (r := (n mod d)%Z) in *.
  assert (Hq : (q <= k)%Z) by nia.
  destruct (Z.compare_spec (2 * r) d) as [C|C|C]; [destruct (Z.even q) | |]; nia.
Qed.

Lemma nearestEven_ge (n d k : Z) :
  (0 < d)%Z -> (k * d <= n)%Z -> (k <= nearestEven n d)%Z.
Proof.
  intros Hd H. unfold nearestEven.
  pose proof (Z.div_mod n d ltac:(lia)) as E.
  pose proof (Z.mod_pos_bound n d Hd) as [R0 R1].
  set (q := (n / d)%Z) in *. set (r := (n mod d)%Z) in *.
  assert (Hq : (k <= q)%Z) by nia.
  destruct (Z.compare_spec (2 * r) d) as [C|C|C]; [destruct (Z.even q) | |]; nia.
Qed.

Lemma scale_pos : (0 < scale)%Z.
Proof. unfold scale. apply Z.pow_pos_nonneg; lia. Qed.

(** Below 2^53 the grid of the result is at most as coarse as the
    integers. *)
Lemma shiftOf_small (y : Z) :
  (y < 2 ^ 53 * scale)%Z -> (0 <= shiftOf y <= 1074)%Z.
Proof.
  intros H. unfold shiftOf. split; [lia |].
  destruct (Z.le_gt_cases y 0) as [Hy|Hy].
  - rewrite (Z.log2_nonpos y Hy). lia.
  - assert (L : (Z.log2 y < 1127)%Z).
    { apply Z.log2_lt_pow2; [exact Hy |].
      replace (2 ^ 1127)%Z with (2 ^ 53 * scale)%Z; [exact H |].
      unfold scale. rewrite <- Z.pow_add_r by lia. reflexivity. }
    lia.
Qed.

Lemma scale_split (s : Z) :
  (0 <= s <= 1074)%Z -> (2 ^ (1074 - s) * 2 ^ s = scale)%Z.
Proof.
  intros H. unfold scale. rewrite <- Z.pow_add_r by lia. f_equal. lia.
Qed.

Lemma roundPositive_le (p q : positive) (k : Z) :
  (Z.pos p <= k * Z.pos q)%Z -> (k < 2 ^ 53)%Z ->
  (roundPositive p q <= inject_Z k)%Q.
Proof.
  intros Hx Hk. unfold roundPositive.
  pose proof scale_pos as HS.
  set (n := (Z.pos p * scale)%Z).
  set (s := shiftOf (n / Z.pos q)).
  assert (Hs : (0 <= s <= 1074)%Z).
  { apply shiftOf_small. apply Z.div_lt_upper_bound; [lia |]. unfold n. nia. }
  pose proof (scale_split s Hs) as Hsplit.
  assert (H2 : (0 < 2 ^ s)%Z) by (apply Z.pow_pos_nonneg; lia).
  assert (Hm : (nearestEven n (Z.pos q * 2 ^ s) <= k * 2 ^ (1074 - s))%Z).
  { apply nearestEven_le; [nia |]. unfold n.
    replace (k * 2 ^ (1074 - s) * (Z.pos q * 2 ^ s))%Z
      with (k * Z.pos q * (2 ^ (1074 - s) * 2 ^ s))%Z by ring.
    rewrite Hsplit. nia. }
  rewrite Qred_correct. unfold Qle, inject_Z. cbn [Qnum Qden].
  rewrite Z2Pos.id by exact HS.
  set (m := nearestEven n (Z.pos q * 2 ^ s)) in *.
  replace (k * scale)%Z with (k * 2 ^ (1074 - s) * 2 ^ s)%Z
    by (rewrite <- Hsplit; ring).
  nia.
Qed.

Lemma roundPositive_ge (p q : positive) (k : Z) :
  (k * Z.pos q <= Z.pos p)%Z -> (Z.pos p < 2 ^ 53 * Z.pos q)%Z ->
  (inject_Z k <= roundPositive p q)%Q.
Proof.
  intros Hx Hb. unfold roundPositive.
  pose proof scale_pos as HS.
  set (n := (Z.pos p * scale)%Z).
  set (s := shiftOf (n / Z.pos q)).
  assert (Hs : (0 <= s <= 1074)%Z).
  { apply shiftOf_small. apply Z.div_lt_upper_bound; [lia |]. unfold n. nia. }
  pose proof (scale_split s Hs) as Hsplit.
  assert (H2 : (0 < 2 ^ s)%Z) by (apply Z.pow_pos_nonneg; lia).
  assert (Hm : (k * 2 ^ (1074 - s) <= nearestEven n (Z.pos q * 2 ^ s))%Z).
  { apply nearestEven_ge; [nia |]. unfold n.
    replace (k * 2 ^ (1074 - s) * (Z.pos q * 2 ^ s))%Z
      with (k * Z.pos q * (2 ^ (1074 - s) * 2 ^ s))%Z by ring.
    rewrite Hsplit. nia. }
  rewrite Qred_correct. unfold Qle, inject_Z. cbn [Qnum Qden].
  rewrite Z2Pos.id by exact HS.
  set (m := nearestEven n (Z.pos q * 2 ^ s)) in *.
  replace (k * scale)%Z with (k * 2 ^ (1074 - s) * 2 ^ s)%Z
    by (rewrite <- Hsplit; ring).
  nia.
Qed.

Lemma roundPositive_nonneg (p q : positive) : (0 <= roundPositive p q)%Q.
Proof.
  unfold roundPositive. pose proof scale_pos as HS.
  set (n := (Z.pos p * scale)%Z).
  set (s := shiftOf (n / Z.pos q)).
  assert (H2 : (0 < 2 ^ s)%Z).
  { apply Z.pow_pos_nonneg; [lia |]. unfold s, shiftOf. lia. }
  assert (Hm : (0 <= nearestEven n (Z.pos q * 2 ^ s))%Z).
  { apply nearestEven_ge; [nia |]. unfold n. nia. }
  rewrite Qred_correct. unfold Qle. cbn [Qnum Qden]. nia.
Qed.

(** Rounding keeps what is not negative so. *)
Lemma round_nonneg (x : Q) : (0 <= x)%Q -> (0 <= round x)%Q.
Proof.
  destruct x as [[|p|p] q]; unfold round; cbn [Qnum Qden]; intros H.
  - apply Qle_refl.
  - apply roundPositive_nonneg.
  - unfold Qle in H. cbn [Qnum Qden] in H. lia.
Qed.

(** Rounding does not pass an integer below 2^53, from either side. *)
Lemma round_le (x : Q) (k : Z) :
  (x <= inject_Z k)%Q -> (0 <= k < 2 ^ 53)%Z -> (round x <= inject_Z k)%Q.
Proof.
  destruct x as [[|p|p] q]; unfold round; cbn [Qnum Qden]; intros H Hk.
  - unfold Qle. cbn. lia.
  - apply roundPositive_le; [|lia]. unfold Qle in H. cbn [Qnum Qden inject_Z] in H. lia.
  - pose proof (roundPositive_nonneg p q) as Hp.
    apply Qle_trans with 0%Q.
    + apply (Qopp_le_compat 0 _) in Hp. exact Hp.
    + unfold Qle. cbn. lia.
Qed.

Lemma round_ge (x : Q) (k : Z) :
  (inject_Z k <= x)%Q -> (0 <= k)%Z -> (x < inject_Z (2 ^ 53))%Q ->
  (inject_Z k <= round x)%Q.
Proof.
  destruct x as [[|p|p] q]; unfold round; cbn [Qnum Qden]; intros H Hk Hb.
  - unfold Qle in *. cbn [Qnum Qden inject_Z] in *. lia.
  - apply roundPositive_ge.
    + unfold Qle in H. cbn [Qnum Qden inject_Z] in H. lia.
    + unfold Qlt in Hb. cbn [Qnum Qden inject_Z] in Hb. lia.
  - unfold Qle in H. cbn [Qnum Qden inject_Z] in H. lia.
Qed.

(** An integer from 0 to below 2^53 is a binary64 number. *)
Lemma round_integer (x : Q) (k : Z) :
  (x == inject_Z k)%Q -> (0 <= k < 2 ^ 53)%Z -> (round x == inject_Z k)%Q.
Proof.
  intros E Hk. apply Qle_antisym.
  - apply round_le; [rewrite E; apply Qle_refl | exact Hk].
  - apply round_ge; [rewrite E; apply Qle_refl | lia |].
    rewrite E. rewrite <- Zlt_Qlt. lia.
Qed.

End Binary64Facts.

(** ** The dynamic agent factory *)

Module DynamicAgentFactoryFacts.

Import DynamicAgentFactory DynamicAgentFactoryWords EffFacts.

(** *** The table *)

Lemma selectById_None_countId (agentId : string) (rows : list AgentRow) :
  selectById agentId rows = None <-> countId agentId rows = 0%nat.
Proof.
  unfold selectById, countId. induction rows as [|r rows IH]; [split; reflexivity |].
  cbn [List.find List.filter]. destruct (hasId agentId r); cbn [List.length].
  - split; discriminate.
  - exact IH.
Qed.

Lemma countId_app (agentId : string) (l1 l2 : list AgentRow) :
  countId agentId (l1 ++ l2) = (countId agentId l1 + countId agentId l2)%nat.
Proof. unfold countId. now rewrite List.filter_app, length_app. Qed.

Lemma countId_updateById (a b : string) (f : AgentRow -> AgentRow) (rows : list AgentRow) :
  (forall r, row_id (f r) = row_id r) ->
  countId a (updateById b f rows) = countId a rows.
Proof.
  intros Hf. unfold countId, updateById.
  induction rows as [|r rows IH]; [reflexivity |]. cbn [map List.filter].
  assert (E : hasId a (if hasId b r then f r else r) = hasId a r).
  { unfold hasId. destruct (String.eqb (row_id r) b); [now rewrite Hf | reflexivity]. }
  rewrite E. destruct (hasId a r); cbn [List.length]; now rewrite IH.
Qed.

Lemma selectById_app (agentId : string) (l1 l2 : list AgentRow) :
  selectById agentId (l1 ++ l2)
  = match selectById agentId l1 with
    | Some r => Some r
    | None => selectById agentId l2
    end.
Proof.
  unfold selectById. induction l1 as [|r l1 IH]; [reflexivity |].
  cbn [app List.find]. now destruct (hasId agentId r).
Qed.

Lemma selectById_updateById (agentId : string) (f : AgentRow -> AgentRow)
    (rows : list AgentRow) :
  (forall r, row_id (f r) = row_id r) ->
  selectById agentId (updateById agentId f rows) = option_map f (selectById agentId rows).
Proof.
  intros Hf. unfold selectById, updateById.
  induction rows as [|r rows IH]; [reflexivity |]. cbn [map List.find].
  destruct (hasId agentId r) eqn:E.
  - unfold hasId in *. now rewrite Hf, E.
  - now rewrite E.
Qed.

Lemma length_updateById (agentId : string) (f : AgentRow -> AgentRow) (rows : list AgentRow) :
  List.length (updateById agentId f rows) = List.length rows.
Proof. unfold updateById. apply length_map. Qed.

Lemma updateById_In_other (agentId : string) (f : AgentRow -> AgentRow)
    (rows : list AgentRow) (r : AgentRow) :
  (forall x, row_id (f x) = row_id x) ->
  row_id r <> agentId ->
  In r (updateById agentId f rows) <-> In r rows.
Proof.
  intros Hf Hr. unfold updateById. rewrite in_map_iff. split.
  - intros (x & E & Hx). destruct (hasId agentId x) eqn:H.
    + exfalso. apply Hr. rewrite <- E, Hf. now apply String.eqb_eq.
    + now subst.
  - intros Hin. exists r. split; [|exact Hin].
    destruct (hasId agentId r) eqn:H; [|reflexivity].
    exfalso. apply Hr. now apply String.eqb_eq.
Qed.

(** The running mean stays between 0 and 1, rounding included, while
    the count after the update is below 2^53. *)
Lemma newSuccessRate_bounds (rate : Q) (count : Z) (success : bool) :
  (0 <= count)%Z -> (count + 1 < 2 ^ 53)%Z -> (0 <= rate)%Q -> (rate <= 1)%Q ->
  (0 <= newSuccessRate rate count success)%Q
  /\ (newSuccessRate rate count success <= 1)%Q.
Proof.
  intros Hc Hsafe H0 H1.
  unfold newSuccessRate, Binary64.div, Binary64.add, Binary64.mul, Binary64.ofInteger.
  set (c := Binary64.round (inject_Z count)).
  assert (Ec : (c == inject_Z count)%Q).
  { apply Binary64Facts.round_integer; [reflexivity | lia]. }
  assert (Hn : (0 <= inject_Z count)%Q).
  { change 0%Q with (inject_Z 0). now rewrite <- Zle_Qle. }
  set (t := Binary64.round (rate * c)).
  assert (Ht0 : (0 <= t)%Q).
  { apply Binary64Facts.round_nonneg. apply Qmult_le_0_compat; [exact H0 | now rewrite Ec]. }
  assert (Ht1 : (t <= inject_Z count)%Q).
  { apply Binary64Facts.round_le; [|lia]. rewrite Ec.
    rewrite <- (Qmult_1_l (inject_Z count)) at 2. now apply Qmult_le_compat_r. }
  set (b := if success then 1%Q else 0%Q).
  assert (Hb : (0 <= b)%Q /\ (b <= 1)%Q) by (unfold b; destruct success; split; lra).
  destruct Hb as [Hb0 Hb1].
  set (u := Binary64.round (t + b)).
  assert (Hu0 : (0 <= u)%Q) by (apply Binary64Facts.round_nonneg; lra).
  assert (Hu1 : (u <= inject_Z (count + 1))%Q).
  { apply Binary64Facts.round_le; [|lia].
    rewrite inject_Z_plus. change (inject_Z 1) with 1%Q. lra. }
  set (d := Binary64.round (c + 1)).
  assert (Ed : (d == inject_Z (count + 1))%Q).
  { apply Binary64Facts.round_integer; [|lia]. rewrite Ec, inject_Z_plus. reflexivity. }
  assert (Hd : (0 < d)%Q).
  { rewrite Ed. change 0%Q with (inject_Z 0). rewrite <- Zlt_Qlt. lia. }
  split.
  - apply Binary64Facts.round_nonneg. apply Qle_shift_div_l; [exact Hd | lra].
  - change 1%Q with (inject_Z 1). apply Binary64Facts.round_le; [|lia].
    change (inject_Z 1) with 1%Q.
    apply Qle_shift_div_r; [exact Hd |]. rewrite Ed. lra.
Qed.

(** From three uses at one half, a success gives five eighths, all the
    numbers on the way being binary64 numbers; from two uses at one half,
    a failure gives the binary64 number nearest to one third. *)
Lemma newSuccessRate_example :
  newSuccessRate (1 # 2) 3 true = (5 # 8)%Q
  /\ newSuccessRate (1 # 2) 2 false = (6004799503160661 # 18014398509481984)%Q.
Proof. split; vm_compute; reflexivity. Qed.

(** [newSuccessRate] computes what the primitive binary64 numbers do: on
    a run of two dozen updates from a fresh row, with quotients such as
    one third on the way, the two agree after every update. *)
Remark newSuccessRate_on_primitive_numbers :
  replay outcomes 0 0%Q 0%float = true
  /\ Binary64.valueOf (newSuccessRateDouble 0.5 3 true) = Some (5 # 8)%Q
  /\ Binary64.valueOf (newSuccessRateDouble 0.5 2 false)
     = Some (newSuccessRate (1 # 2) 2 false).
Proof. split; [|split]; vm_compute; reflexivity. Qed.

(** *** Sorting *)

Lemma insertSorted_ascending (x : string) (l : list string) :
  ascending l = true -> ascending (insertSorted x l) = true.
Proof.
  induction l as [|y l IH]; [reflexivity |]. intros Hl.
  cbn [insertSorted]. destruct (String.leb x y) eqn:Exy.
  - change (ascending (x :: y :: l)) with (String.leb x y && ascending (y :: l)).
    now rewrite Exy, Hl.
  - assert (Hyx : String.leb y x = true).
    { destruct (String.leb_total x y) as [H|H]; [congruence | exact H]. }
    destruct l as [|z l].
    + cbn [insertSorted ascending]. now rewrite Hyx.
    + change (ascending (y :: z :: l)) with (String.leb y z && ascending (z :: l)) in Hl.
      apply andb_true_iff in Hl as [Hyz Hl]. specialize (IH Hl).
      cbn [insertSorted] in *. destruct (String.leb x z).
      * change (ascending (y :: x :: z :: l))
          with (String.leb y x && ascending (x :: z :: l)).
        now rewrite Hyx, IH.
      * change (ascending (y :: z :: insertSorted x l))
          with (String.leb y z && ascending (z :: insertSorted x l)).
        now rewrite Hyz, IH.
Qed.

Lemma sortStrings_ascending (l : list string) : ascending (sortStrings l) = true.
Proof.
  induction l as [|x l IH]; [reflexivity |].
  cbn [sortStrings fold_right]. now apply insertSorted_ascending.
Qed.

Lemma sortStrings_permutation (l : list string) : Permutation (sortStrings l) l.
Proof.
  induction l as [|x l IH]; [reflexivity |]. cbn [sortStrings fold_right].
  fold (sortStrings l). rewrite <- IH at 2. clear IH.
  induction (sortStrings l) as [|y s IH]; [reflexivity |].
  cbn [insertSorted]. destruct (String.leb x y); [reflexivity |].
  rewrite IH. apply perm_swap.
Qed.

(** An array that is already in order is left as it is. *)
Lemma sortStrings_of_ascending (l : list string) :
  ascending l = true -> sortStrings l = l.
Proof.
  induction l as [|x l IH]; [reflexivity |]. intros Hl.
  cbn [sortStrings fold_right]. fold (sortStrings l).
  destruct l as [|y l]; [reflexivity |].
  change (ascending (x :: y :: l)) with (String.leb x y && ascending (y :: l)) in Hl.
  apply andb_true_iff in Hl as [Hxy Hl]. rewrite (IH Hl).
  cbn [insertSorted]. now rewrite Hxy.
Qed.

(** The array that a call has sorted in place gives the same identity when
    it is passed again. *)
Lemma cacheKeyOf_sorted (domain : string) (missingCapabilities : list string) :
  cacheKeyOf domain (sortStrings missingCapabilities) = cacheKeyOf domain missingCapabilities.
Proof.
  unfold cacheKeyOf. now rewrite (sortStrings_of_ascending _ (sortStrings_ascending _)).
Qed.

Lemma hasId_rowOfAgent (agent : DynamicAgent) : hasId (id agent) (rowOfAgent agent) = true.
Proof. unfold hasId. cbn [rowOfAgent row_id]. apply String.eqb_refl. Qed.

Lemma storeAgent_Ok (agent : DynamicAgent) (w w' : World) :
  storeAgent agent w = (Ok tt, w') ->
  selectById (id agent) (db w) = None
  /\ w' = setDb (db w ++ [rowOfAgent agent])%list w.
Proof.
  unfold storeAgent. destruct (selectById (id agent) (db w)); [discriminate |].
  now intros [= <-].
Qed.

Lemma storeAgent_db (agent : DynamicAgent) (w : World) :
  db (snd (storeAgent agent w)) = db w
  \/ db (snd (storeAgent agent w)) = (db w ++ [rowOfAgent agent])%list.
Proof.
  unfold storeAgent. destruct (selectById (id agent) (db w)); [now left | now right].
Qed.

Section Factory.

Variable provider : OpenAIService.Provider.
Variable clock : nat -> Z.
Variable parseAgentSpec : string -> option AgentSpec.

Lemma keepsTable_ret {A : Type} (a : A) : keepsTable (ret a).
Proof. intros w. split; reflexivity. Qed.

Lemma keepsTable_bind {A B : Type} (m : Eff World A) (k : A -> Eff World B) :
  keepsTable m -> (forall a, keepsTable (k a)) -> keepsTable (bind m k).
Proof.
  intros Hm Hk w. unfold bind. destruct (Hm w) as [H1 H2].
  destruct (m w) as [[a|e] w0]; cbn [snd] in *; [|auto].
  destruct (Hk a w0) as [H3 H4]. split; congruence.
Qed.

Lemma keepsTable_dateNow : keepsTable (dateNow clock).
Proof. intros w. split; reflexivity. Qed.

Lemma keepsTable_generateResponse (request : OpenAIService.Request) :
  keepsTable (generateResponse provider request).
Proof. intros w. split; reflexivity. Qed.

Lemma keepsTable_ask (text : string) (effort verbosity : OpenAIService.Level) :
  keepsTable (ask provider text effort verbosity).
Proof.
  unfold ask. apply keepsTable_bind; [apply keepsTable_generateResponse |].
  intros reply. apply keepsTable_ret.
Qed.

Lemma keepsTable_generateAgentSpec (taskContext domain : string) (capabilities : list string) :
  keepsTable (generateAgentSpec provider parseAgentSpec taskContext domain capabilities).
Proof.
  unfold generateAgentSpec. apply keepsTable_bind; [apply keepsTable_ask |].
  intros reply. destruct (parseAgentSpec reply) as [spec|]; [|apply keepsTable_ret].
  apply keepsTable_bind; [apply keepsTable_ask |]. intros enhanced. apply keepsTable_ret.
Qed.

Lemma keepsTable_generateAgentId (name : string) : keepsTable (generateAgentId clock name).
Proof.
  unfold generateAgentId. apply keepsTable_bind; [apply keepsTable_dateNow |].
  intros now. apply keepsTable_ret.
Qed.

Lemma keepsTable_Ok {A : Type} (m : Eff World A) (w w' : World) (r : Result A) :
  keepsTable m -> m w = (r, w') -> db w' = db w /\ agentCache w' = agentCache w.
Proof. intros H E. specialize (H w). now rewrite E in H. Qed.

(** A first call for an identity that is not cached persists one row and
    caches the agent under the identity and under its id. *)
Lemma createAgent_miss (taskContext domain : string) (missingCapabilities : list string)
    (w w1 : World) (agent : DynamicAgent) :
  agentCache w !! cacheKeyOf domain missingCapabilities = None ->
  createAgent provider clock parseAgentSpec taskContext domain missingCapabilities w
    = (Ok agent, w1) ->
  selectById (id agent) (db w) = None
  /\ db w1 = (db w ++ [rowOfAgent agent])%list
  /\ agentCache w1
     = <[id agent := agent]>
         (<[cacheKeyOf domain missingCapabilities := agent]> (agentCache w)).
Proof.
  intros Hmiss. unfold createAgent. fold (cacheKeyOf domain missingCapabilities).
  unfold bind at 1, gets. rewrite Hmiss.
  intros (spec & wa & Hspec & H)%bind_Ok.
  apply bind_Ok in H as (agentId & wb & Hid & H).
  apply bind_Ok in H as (created & wc & Hnow & H).
  apply bind_Ok in H as ([] & wd & Hstore & H).
  cbn [id] in H. unfold bind, modify, ret in H. injection H as <- <-.
  apply storeAgent_Ok in Hstore as [Hfresh ->]. cbn [id] in Hfresh.
  destruct (keepsTable_Ok _ _ _ _ (keepsTable_generateAgentSpec _ _ _) Hspec) as [Da Ca].
  destruct (keepsTable_Ok _ _ _ _ (keepsTable_generateAgentId _) Hid) as [Db Cb].
  destruct (keepsTable_Ok _ _ _ _ keepsTable_dateNow Hnow) as [Dc Cc].
  cbn [db agentCache cacheSet setDb id].
  rewrite Dc, Db, Da in *. rewrite Cc, Cb, Ca. auto.
Qed.

(** A call for a cached identity only bumps the usage count of the cached
    agent's row. *)
Lemma createAgent_hit (taskContext domain : string) (missingCapabilities : list string)
    (w : World) (cached : DynamicAgent) :
  agentCache w !! cacheKeyOf domain missingCapabilities = Some cached ->
  createAgent provider clock parseAgentSpec taskContext domain missingCapabilities w
  = (Ok cached, setDb (updateById (id cached) bumpUsage (db w)) w).
Proof.
  intros Hhit. unfold createAgent. fold (cacheKeyOf domain missingCapabilities).
  unfold bind at 1, gets. rewrite Hhit. reflexivity.
Qed.

(** C3: when the identity is not cached yet and the first call succeeds,
    a second call with the same identity returns the same agent (the same
    id), without asking the provider; the two calls persist one row, the
    only row with that id; its usage count is 0 after the first call and 1
    after the second. *)
Theorem createAgent_twice (taskContext taskContext' domain : string)
    (missingCapabilities missingCapabilities' : list string)
    (w w1 : World) (agent : DynamicAgent) :
  cacheKeyOf domain missingCapabilities' = cacheKeyOf domain missingCapabilities ->
  agentCache w !! cacheKeyOf domain missingCapabilities = None ->
  createAgent provider clock parseAgentSpec taskContext domain missingCapabilities w
    = (Ok agent, w1) ->
  exists w2,
    createAgent provider clock parseAgentSpec taskContext' domain missingCapabilities' w1
      = (Ok agent, w2)
    /\ db w1 = (db w ++ [rowOfAgent agent])%list
    /\ List.length (db w2) = S (List.length (db w))
    /\ countId (id agent) (db w) = 0%nat
    /\ countId (id agent) (db w1) = 1%nat
    /\ countId (id agent) (db w2) = 1%nat
    /\ option_map usage_count (selectById (id agent) (db w1)) = Some 0%Z
    /\ option_map usage_count (selectById (id agent) (db w2)) = Some 1%Z
    /\ llmCalls w2 = llmCalls w1
    /\ agentCache w2 = agentCache w1.
Proof.
  intros Hkey Hmiss Hfirst.
  destruct (createAgent_miss _ _ _ _ _ _ Hmiss Hfirst) as (Hfresh & Hdb & Hcache).
  assert (Hhit : agentCache w1 !! cacheKeyOf domain missingCapabilities' = Some agent).
  { rewrite Hkey, Hcache.
    destruct (decide (id agent = cacheKeyOf domain missingCapabilities)) as [->|Hne].
    - apply lookup_insert_eq.
    - rewrite lookup_insert_ne by exact Hne. apply lookup_insert_eq. }
  eexists. split; [apply (createAgent_hit _ _ _ _ _ Hhit) |].
  cbn [db setDb llmCalls agentCache].
  assert (Hcount0 : countId (id agent) (db w) = 0%nat) by now apply selectById_None_countId.
  assert (Hcount1 : countId (id agent) (db w1) = 1%nat).
  { rewrite Hdb, countId_app, Hcount0. unfold countId. cbn [List.filter].
    now rewrite hasId_rowOfAgent. }
  assert (Hsel1 : selectById (id agent) (db w1) = Some (rowOfAgent agent)).
  { rewrite Hdb, selectById_app, Hfresh. unfold selectById. cbn [List.find].
    now rewrite hasId_rowOfAgent. }
  repeat split.
  - exact Hdb.
  - rewrite length_updateById, Hdb, length_app. cbn [List.length]. lia.
  - exact Hcount0.
  - exact Hcount1.
  - rewrite countId_updateById by reflexivity. exact Hcount1.
  - now rewrite Hsel1.
  - rewrite selectById_updateById by reflexivity. now rewrite Hsel1.
Qed.

(** The table after [updateSuccessRate]. *)
Lemma updateSuccessRate_db (agentId : string) (success : bool) (w : World) :
  updateSuccessRate agentId success w
  = (Ok tt,
     setDb match selectById agentId (db w) with
           | Some row =>
               updateById agentId
                 (setRate (newSuccessRate (success_rate row) (usage_count row) success))
                 (db w)
           | None => db w
           end w).
Proof.
  unfold updateSuccessRate, modify. destruct (selectById agentId (db w)); [reflexivity |].
  now destruct w.
Qed.

(** Whatever becomes of an evolution, the table it leaves is the table
    after the statistics update, with at most one row added at the end. *)
Lemma evolveAgent_db (agentId : string) (feedback : Feedback) (w : World)
    (agent : DynamicAgent) :
  agentCache w !! agentId = Some agent ->
  let updated := db (snd (updateSuccessRate agentId (success feedback) w)) in
  let final := db (snd (evolveAgent provider clock agentId feedback w)) in
  final = updated \/ exists r, final = (updated ++ [r])%list.
Proof.
  intros Hcached updated final.
  assert (F : final = db (snd (evolveAgent provider clock agentId feedback w)))
    by reflexivity.
  clearbody final. unfold evolveAgent in F.
  unfold bind at 1, gets in F. rewrite Hcached in F.
  unfold bind at 1 in F.
  destruct (updateSuccessRate agentId (success feedback) w) as [[[]|e] wu] eqn:U;
    [|rewrite updateSuccessRate_db in U; discriminate U].
  cbn [snd] in updated.
  destruct (improvements feedback) as [[|imp imps]|]; [now left | | now left].
  unfold bind at 1 in F.
  destruct (improveAgentPrompt provider agent (imp :: imps) wu) as [[improved|e] wa] eqn:Ha;
    pose proof (keepsTable_Ok _ _ _ _ (keepsTable_ask _ _ _) Ha) as [Da _];
    cbn [snd] in F; [|left; now rewrite F].
  unfold bind at 1, dateNow at 1 in F. unfold bind at 1, dateNow at 1 in F.
  cbn [db agentCache llmCalls ticks] in F.
  unfold bind at 1 in F.
  match type of F with context [storeAgent ?a ?x] =>
    pose proof (storeAgent_db a x) as Hs; destruct (storeAgent a x) as [[[]|e] wd]
  end; cbn [snd db] in Hs.
  - unfold bind, modify, ret in F. cbn [snd db cacheSet] in F.
    destruct Hs as [Hs|Hs]; rewrite Hs, Da in F; [now left | right; eauto].
  - cbn [snd] in F.
    destruct Hs as [Hs|Hs]; rewrite Hs, Da in F; [now left | right; eauto].
Qed.

(** C4: for an agent in the cache whose row holds usage count n and
    success rate r, an evolution with feedback [success] leaves the row
    with usage count n + 1 and with the success rate that binary64
    arithmetic gives for (r * n + (1 if success, else 0)) / (n + 1), each
    of the four operations rounded, whatever else the call does; from
    n = 3 and r = 1/2 a success gives 5/8 exactly; and with r in [0,1],
    n >= 0 and n + 1 below 2^53 the new rate is in [0,1]. *)
Theorem evolveAgent_success_rate (agentId : string) (feedback : Feedback) (w : World)
    (agent : DynamicAgent) (row : AgentRow) :
  agentCache w !! agentId = Some agent ->
  selectById agentId (db w) = Some row ->
  exists row',
    selectById agentId (db (snd (evolveAgent provider clock agentId feedback w))) = Some row'
    /\ success_rate row'
       = Binary64.div
           (Binary64.add
              (Binary64.mul (success_rate row) (Binary64.ofInteger (usage_count row)))
              (if success feedback then 1%Q else 0%Q))
           (Binary64.add (Binary64.ofInteger (usage_count row)) 1%Q)
    /\ usage_count row' = (usage_count row + 1)%Z
    /\ (usage_count row = 3%Z -> success_rate row = (1 # 2)%Q -> success feedback = true ->
        success_rate row' = (5 # 8)%Q)
    /\ ((0 <= usage_count row)%Z -> (usage_count row + 1 < 2 ^ 53)%Z ->
        (0 <= success_rate row)%Q -> (success_rate row <= 1)%Q ->
        (0 <= success_rate row')%Q /\ (success_rate row' <= 1)%Q).
Proof.
  intros Hcached Hrow.
  set (rate := newSuccessRate (success_rate row) (usage_count row) (success feedback)).
  exists (setRate rate row).
  assert (Hupdated :
            selectById agentId (db (snd (updateSuccessRate agentId (success feedback) w)))
            = Some (setRate rate row)).
  { rewrite updateSuccessRate_db. cbn [snd db setDb]. rewrite Hrow.
    rewrite selectById_updateById by reflexivity. now rewrite Hrow. }
  split.
  - destruct (evolveAgent_db agentId feedback w agent Hcached) as [->|[r ->]].
    + exact Hupdated.
    + now rewrite selectById_app, Hupdated.
  - cbn [setRate success_rate usage_count]. repeat split.
    + intros Hn Hr Hs. subst rate. rewrite Hn, Hr, Hs. apply newSuccessRate_example.
    + now apply newSuccessRate_bounds.
    + now apply newSuccessRate_bounds.
Qed.

(** C10: an evolution with a non-empty list of improvements that succeeds
    persists one new row, under the id of the original followed by [-v]
    and the time read from the clock; the row carries the column defaults
    for usage count and success rate, the name, the domain, the expertise,
    the capabilities and the task context of the original, the improved
    prompt and a new creation time; the rows of other ids are those of
    before, and the statistics update is the one made to the rows of the
    id the call was given. *)
Theorem evolveAgent_evolved_row (agentId : string) (success : bool)
    (imp : string) (imps : list string) (w w' : World) (agent evolved : DynamicAgent) :
  agentCache w !! agentId = Some agent ->
  id agent = agentId ->
  evolveAgent provider clock agentId (mkFeedback success (Some (imp :: imps))) w
    = (Ok evolved, w') ->
  exists improvedPrompt now created,
    evolved = {| id := agentId ++ "-v" ++ ofZ now;
                 name := name agent;
                 domain := domain agent;
                 expertise := expertise agent;
                 prompt := improvedPrompt;
                 capabilities := capabilities agent;
                 createdAt := created;
                 taskContext := taskContext agent |}
    /\ now = clock (ticks w)
    /\ created = clock (S (ticks w))
    /\ selectById (id evolved) (db w) = None
    /\ db w'
       = (db (snd (updateSuccessRate agentId success w))
          ++ [ {| row_id := id evolved;
                  row_name := name agent;
                  row_domain := domain agent;
                  row_expertise := expertise agent;
                  row_prompt := improvedPrompt;
                  row_capabilities := capabilities agent;
                  created_at := created;
                  task_context := taskContext agent;
                  usage_count := 0;
                  success_rate := 0 |} ])%list
    /\ (forall r, row_id r <> agentId ->
                  In r (db (snd (updateSuccessRate agentId success w))) <-> In r (db w))
    /\ agentCache w' = <[id evolved := evolved]> (agentCache w).
Proof.
  intros Hcached Hid. unfold evolveAgent.
  unfold bind at 1, gets. rewrite Hcached. cbn [DynamicAgentFactory.success improvements].
  intros (u & wu & Hupd & H)%bind_Ok.
  rewrite updateSuccessRate_db in Hupd. injection Hupd as _ <-.
  apply bind_Ok in H as (improved & wa & Ha & H).
  destruct (keepsTable_Ok _ _ _ _ (keepsTable_ask _ _ _) Ha) as [Da Ca].
  assert (Ta : ticks wa = ticks w).
  { unfold improveAgentPrompt, ask, bind, generateResponse, ret in Ha.
    destruct (OpenAIService.generateResponseAt _ _ _); [|discriminate].
    now injection Ha as _ <-. }
  unfold bind at 1, dateNow at 1 in H. unfold bind at 1, dateNow at 1 in H.
  cbn [ticks db agentCache llmCalls] in H.
  apply bind_Ok in H as ([] & wd & Hstore & H).
  apply storeAgent_Ok in Hstore as [Hfresh ->].
  unfold bind, modify, ret in H. injection H as <- <-.
  cbn [id db agentCache setDb cacheSet] in *.
  rewrite Da, Ca, Ta in *. rewrite Hid in *.
  exists improved, (clock (ticks w)), (clock (S (ticks w))).
  rewrite updateSuccessRate_db. cbn [snd db setDb agentCache].
  assert (Hother : forall r, row_id r <> agentId ->
            In r match selectById agentId (db w) with
                 | Some row =>
                     updateById agentId
                       (setRate (newSuccessRate (success_rate row) (usage_count row) success))
                       (db w)
                 | None => db w
                 end <-> In r (db w)).
  { intros r Hr. destruct (selectById agentId (db w)); [|reflexivity].
    now apply updateById_In_other. }
  assert (Hnew : selectById (agentId ++ "-v" ++ ofZ (clock (ticks w))) (db w) = None).
  { apply selectById_None_countId. apply selectById_None_countId in Hfresh.
    destruct (selectById agentId (db w)); [|exact Hfresh].
    now rewrite countId_updateById in Hfresh. }
  repeat split; try reflexivity; try exact Hnew; apply Hother; assumption.
Qed.

End Factory.

(** C3 at work: on an empty factory the identity ("ml", [b; a]) is created
    once and found again under the capabilities in another order. *)
Lemma createAgent_twice_on_empty_factory :
  exists agent w1 w2,
    createAgent sampleProvider sampleClock noSpec "train a model" "ml" ["b"; "a"] emptyWorld
      = (Ok agent, w1)
    /\ createAgent sampleProvider sampleClock noSpec "train again" "ml" ["a"; "b"] w1
       = (Ok agent, w2)
    /\ id agent = "mlspecialist_1700000000000"
    /\ countId (id agent) (db w2) = 1%nat
    /\ List.length (db w2) = 1%nat
    /\ option_map usage_count (selectById (id agent) (db w1)) = Some 0%Z
    /\ option_map usage_count (selectById (id agent) (db w2)) = Some 1%Z.
Proof.
  destruct (createAgent sampleProvider sampleClock noSpec "train a model" "ml" ["b"; "a"]
              emptyWorld) as [[agent|e] w1] eqn:E;
    [|vm_compute in E; discriminate E].
  assert (Hid : id agent = "mlspecialist_1700000000000").
  { vm_compute in E. now injection E as <- _. }
  destruct (createAgent_twice sampleProvider sampleClock noSpec
              "train a model" "train again" "ml" ["b"; "a"] ["a"; "b"]
              emptyWorld w1 agent eq_refl eq_refl E)
    as (w2 & H2 & _ & Hlen & _ & _ & Hc2 & Hu1 & Hu2 & _).
  exists agent, w1, w2. repeat split; assumption.
Defined.

(** C4 at work: three uses at one half, then a success. *)
Lemma evolveAgent_success_rate_after_three_uses :
  exists row',
    selectById "flowtuner_1690000000000"
      (db (snd (evolveAgent sampleProvider sampleClock "flowtuner_1690000000000"
                  (mkFeedback true None) sampleWorld)))
    = Some row'
    /\ success_rate row' = (5 # 8)%Q
    /\ usage_count row' = 4%Z
    /\ (0 <= success_rate row')%Q /\ (success_rate row' <= 1)%Q.
Proof.
  destruct (evolveAgent_success_rate sampleProvider sampleClock
              "flowtuner_1690000000000" (mkFeedback true None) sampleWorld
              sampleAgent sampleRow eq_refl eq_refl)
    as (row' & Hsel & _ & Hcount & Hexample & Hbounds).
  exists row'. split; [exact Hsel |]. split; [now apply Hexample |].
  split; [exact Hcount |].
  apply Hbounds; [discriminate | reflexivity | discriminate | discriminate].
Defined.

(** C4 as stated fails, in two ways.  An agent that has a row and is not
    in the cache is not evolved: the call fails and the row keeps its
    rate and its count.  And the rate that is stored is a binary64
    number, which the quotient need not be: after a failure from two uses
    at one half it is not one third. *)
Lemma evolveAgent_success_rate_not_for_every_row :
  selectById "flowtuner_1690000000000" (db storedOnly) = Some sampleRow
  /\ evolveAgent sampleProvider sampleClock "flowtuner_1690000000000"
       (mkFeedback true None) storedOnly
     = (Fail "Agent flowtuner_1690000000000 not found", storedOnly)
  /\ newSuccessRate (1 # 2) 2 false = (6004799503160661 # 18014398509481984)%Q
  /\ Qeq_bool (newSuccessRate (1 # 2) 2 false) (1 # 3) = false
  /\ Qeq_bool (((1 # 2) * 2 + 0) / (2 + 1)) (1 # 3) = true.
Proof. split; [|split; [|split; [|split]]]; vm_compute; reflexivity. Qed.

(** C10 at work: an evolution with one improvement on the same factory. *)
Lemma evolveAgent_evolved_row_of_sample :
  exists evolved w',
    evolveAgent sampleProvider sampleClock "flowtuner_1690000000000"
      (mkFeedback true (Some ["explain the trade-offs"])) sampleWorld
    = (Ok evolved, w')
    /\ id evolved = "flowtuner_1690000000000-v1700000000000"
    /\ name evolved = "FlowTuner"
    /\ option_map usage_count (selectById (id evolved) (db w')) = Some 0%Z
    /\ option_map usage_count (selectById "flowtuner_1690000000000" (db w')) = Some 4%Z
    /\ List.length (db w') = 2%nat.
Proof.
  destruct (evolveAgent sampleProvider sampleClock "flowtuner_1690000000000"
              (mkFeedback true (Some ["explain the trade-offs"])) sampleWorld)
    as [[evolved|e] w'] eqn:E; [|vm_compute in E; discriminate E].
  destruct (evolveAgent_evolved_row sampleProvider sampleClock
              "flowtuner_1690000000000" true "explain the trade-offs" [] sampleWorld w'
              sampleAgent evolved eq_refl eq_refl E)
    as (improved & now & created & -> & -> & -> & Hnew & Hdb & _ & _).
  eexists. exists w'. split; [reflexivity |]. rewrite Hdb.
  repeat split.
Defined.

End DynamicAgentFactoryFacts.

(** ** The classifier that asks the provider *)

Module ModeInferenceAIFacts.

Import ModeInference JsTrim ModeInferenceAI ModeInferenceAIWords JsStringFacts.

Lemma trimStart_spaces (pre s : string) :
  every isSpaceChar pre = true -> trimStart (pre ++ s) = trimStart s.
Proof.
  induction pre as [|c pre IH]; [reflexivity |].
  cbn [every]. intros [Hc Hpre]%andb_true_iff.
  rewrite append_cons. cbn [trimStart]. rewrite Hc. now apply IH.
Qed.

Lemma trimStart_all_spaces (post : string) :
  every isSpaceChar post = true -> trimStart post = EmptyString.
Proof.
  intros H. rewrite <- (append_empty_r post). now rewrite trimStart_spaces.
Qed.

(** A byte of ASCII starts no white space of several bytes. *)
Lemma plain_starts_no_space (a : ascii) :
  plain a = true ->
  isSpaceChar a = false
  /\ (forall b, isSpace2 a b = false)
  /\ (forall b c, isSpace3 a b c = false).
Proof.
  unfold plain. intros [Ha Hlt]%andb_true_iff. apply negb_true_iff in Ha.
  apply Nat.ltb_lt in Hlt. split; [exact Ha |].
  assert (E : forall n, (128 <= n)%nat -> (code a =? n)%nat = false)
    by (intros n Hn; apply Nat.eqb_neq; lia).
  split.
  - intros b. unfold isSpace2. now rewrite E by lia.
  - intros b c. unfold isSpace3. now rewrite !E by lia.
Qed.

Lemma trimStart_plain (c : ascii) (r : string) :
  plain c = true -> trimStart (String c r) = String c r.
Proof.
  intros (H1 & H2 & H3)%plain_starts_no_space. cbn [trimStart]. rewrite H1.
  destruct r as [|b r']; [reflexivity |]. rewrite H2.
  destruct r' as [|d r'']; [reflexivity |]. now rewrite H3.
Qed.

Lemma trimEnd_spaces (post : string) :
  every isSpaceChar post = true -> trimEnd post = EmptyString.
Proof.
  intros H. destruct post as [|c post]; [reflexivity |].
  cbn [trimEnd]. now rewrite (trimStart_all_spaces _ H).
Qed.

Lemma trimEnd_core (core post : string) :
  every plain core = true ->
  every isSpaceChar post = true ->
  trimEnd (core ++ post) = core.
Proof.
  intros Hcore Hpost. induction core as [|c core IH].
  - rewrite append_nil. now apply trimEnd_spaces.
  - cbn [every] in Hcore. apply andb_true_iff in Hcore as [Hc Hcore].
    rewrite append_cons. cbn [trimEnd]. rewrite (trimStart_plain _ _ Hc).
    now rewrite (IH Hcore).
Qed.

(** White space around a text of ASCII without white space is what
    [trim] removes. *)
Lemma trim_core (pre core post : string) :
  every isSpaceChar pre = true ->
  every plain core = true ->
  every isSpaceChar post = true ->
  trim (pre ++ core ++ post) = core.
Proof.
  intros Hpre Hcore Hpost. unfold trim. rewrite (trimStart_spaces _ _ Hpre).
  destruct core as [|c core].
  - rewrite append_nil. now rewrite (trimStart_all_spaces _ Hpost).
  - rewrite append_cons.
    pose proof Hcore as Hcore'. cbn [every] in Hcore'.
    apply andb_true_iff in Hcore' as [Hc _]. rewrite (trimStart_plain _ _ Hc).
    rewrite <- append_cons. now apply trimEnd_core.
Qed.

Lemma mapChars_append (f : ascii -> ascii) (a b : string) :
  mapChars f (a ++ b) = mapChars f a ++ mapChars f b.
Proof.
  induction a as [|c a IH]; [reflexivity |].
  rewrite append_cons. cbn [mapChars]. now rewrite IH, append_cons.
Qed.

Lemma removeChars_append (p : ascii -> bool) (a b : string) :
  removeChars p (a ++ b) = removeChars p a ++ removeChars p b.
Proof.
  induction a as [|c a IH]; [reflexivity |].
  rewrite append_cons. cbn [removeChars]. destruct (p c); [exact IH |].
  now rewrite IH, append_cons.
Qed.

Lemma removeChars_all (p : ascii -> bool) (s : string) :
  every p s = true -> removeChars p s = EmptyString.
Proof.
  induction s as [|c s IH]; [reflexivity |].
  cbn [every removeChars]. intros [-> Hs]%andb_true_iff. now apply IH.
Qed.

Lemma every_append (p : ascii -> bool) (a b : string) :
  every p (a ++ b) = every p a && every p b.
Proof.
  induction a as [|c a IH]; [reflexivity |].
  rewrite append_cons. cbn [every]. now rewrite IH, andb_assoc.
Qed.

Lemma every_impl (p q : ascii -> bool) (s : string) :
  (forall c, p c = true -> q c = true) -> every p s = true -> every q s = true.
Proof.
  intros H. induction s as [|c s IH]; [reflexivity |].
  cbn [every]. intros [Hc Hs]%andb_true_iff. now rewrite (H c Hc), (IH Hs).
Qed.

(** Lower-casing leaves a quote as it is, and a plain byte plain. *)

Lemma toLowerChar_quote (c : ascii) : isQuote c = true -> toLowerChar c = c.
Proof. destruct c as [[] [] [] [] [] [] [] []]; (reflexivity || discriminate). Qed.

Lemma isQuote_plain (c : ascii) : isQuote c = true -> plain c = true.
Proof. destruct c as [[] [] [] [] [] [] [] []]; (reflexivity || discriminate). Qed.

Lemma toLowerChar_plain (c : ascii) : plain (toLowerChar c) = plain c.
Proof. destruct c as [[] [] [] [] [] [] [] []]; reflexivity. Qed.

Lemma toLowerCase_quotes (q : string) :
  every isQuote q = true -> toLowerCase q = q.
Proof.
  induction q as [|c q IH]; [reflexivity |].
  cbn [every]. intros [Hc Hq]%andb_true_iff.
  unfold toLowerCase in *. cbn [mapChars]. now rewrite (toLowerChar_quote c Hc), (IH Hq).
Qed.

Lemma every_toLowerCase_plain (s : string) :
  every plain (toLowerCase s) = every plain s.
Proof.
  induction s as [|c s IH]; [reflexivity |].
  unfold toLowerCase in *. cbn [mapChars every]. now rewrite toLowerChar_plain, IH.
Qed.

Lemma modeName_plain (m : Mode) :
  every plain (modeName m) = true
  /\ removeChars isQuote (modeName m) = modeName m
  /\ modeOfName (modeName m) = Some m.
Proof. destruct m; repeat split; reflexivity. Qed.

(** X1: a reply that names a mode decides the mode, whatever the task
    says and whatever the keyword rule would answer: the name may be
    written in any letter case, wrapped in single or double quotes, and
    surrounded by white space. *)
Theorem inferModeWithAI_named_mode (provider : OpenAIService.Provider) (n : nat)
    (task : string) (m : Mode) (pre ql spelled qr post : string)
    (raw : OpenAIService.RawResponse) :
  every isSpaceChar pre = true ->
  every isSpaceChar post = true ->
  every isQuote ql = true ->
  every isQuote qr = true ->
  toLowerCase spelled = modeName m ->
  provider n (classifierRequest task) = Ok raw ->
  OpenAIService.raw_content raw = Some (pre ++ ql ++ spelled ++ qr ++ post) ->
  inferModeWithAI provider n task = Ok m.
Proof.
  intros Hpre Hpost Hql Hqr Hname Hraw Hcontent.
  destruct (modeName_plain m) as (Hplain & Hkeep & Hback).
  assert (Hspelled : every plain spelled = true).
  { now rewrite <- every_toLowerCase_plain, Hname. }
  assert (Hcore : every plain (ql ++ spelled ++ qr) = true).
  { rewrite !every_append, Hspelled.
    rewrite (every_impl _ _ ql isQuote_plain Hql).
    now rewrite (every_impl _ _ qr isQuote_plain Hqr). }
  assert (Hne : String.eqb (pre ++ ql ++ spelled ++ qr ++ post) EmptyString = false).
  { apply String.eqb_neq. intros E. apply (f_equal String.length) in E.
    rewrite !length_append in E. cbn [String.length] in E.
    assert (L : String.length spelled = String.length (modeName m)).
    { rewrite <- Hname. unfold toLowerCase. now rewrite mapChars_length. }
    destruct m; cbn in L; lia. }
  unfold inferModeWithAI, OpenAIService.generateResponseAt.
  rewrite Hraw, Hcontent, Hne. cbn [OpenAIService.content].
  unfold normalizeReply.
  replace (pre ++ ql ++ spelled ++ qr ++ post) with (pre ++ (ql ++ spelled ++ qr) ++ post)
    by now rewrite !append_assoc.
  rewrite (trim_core _ _ _ Hpre Hcore Hpost).
  unfold toLowerCase. rewrite !mapChars_append. fold (toLowerCase ql) (toLowerCase spelled)
    (toLowerCase qr).
  rewrite (toLowerCase_quotes ql Hql), (toLowerCase_quotes qr Hqr), Hname.
  rewrite !removeChars_append, (removeChars_all _ ql Hql), (removeChars_all _ qr Hqr).
  rewrite Hkeep, append_nil, append_empty_r, Hback. reflexivity.
Qed.

(** X1 at work: the reply ["Design_Review"] followed by a line feed, on a
    task whose keyword rule answers [explore]. *)
Lemma inferModeWithAI_quoted_reply :
  quickInferMode "explore the history of grids" = explore
  /\ inferModeWithAI
       (fun _ _ => Ok (OpenAIService.mkRaw (Some (dq ++ "Design_Review" ++ dq ++ nl)) None))
       0 "explore the history of grids"
     = Ok design_review.
Proof.
  split; [reflexivity |].
  apply (inferModeWithAI_named_mode _ 0%nat _ design_review
           EmptyString dq "Design_Review" dq nl
           (OpenAIService.mkRaw (Some (dq ++ "Design_Review" ++ dq ++ nl)) None));
    reflexivity.
Defined.

(** The white space that [trim] removes is the one of the language, not
    only the one of ASCII: here a no-break space before the name. *)
Remark inferModeWithAI_after_a_no_break_space :
  trim afterNoBreakSpace = "pr"
  /\ inferModeWithAI
       (fun _ _ => Ok (OpenAIService.mkRaw (Some afterNoBreakSpace) None))
       0 "explore the history of grids"
     = Ok pr.
Proof. split; reflexivity. Qed.

End ModeInferenceAIFacts.

(** ** The experts of a round *)

Module RoundExpertsFacts.

Import ModeInference ExpertRegistry.

Lemma filter_not_lead (leadName : string) (names : list string) :
  ~ In leadName (List.filter (fun e => negb (String.eqb e leadName)) names).
Proof.
  intros H. apply List.filter_In in H as [_ H].
  now rewrite String.eqb_refl in H.
Qed.

(** X3: the experts selected for a round start with the lead, and the
    lead does not occur again; the others are at most three, each of them
    one of the supporting experts of the focus or, for a focus outside the
    table, of the task. *)
Theorem selectExpertsForRound_lead_first (round : Round) (mode : Mode)
    (context : TaskContext) :
  exists support,
    selectExpertsForRound round mode context = lead round :: support
    /\ ~ In (lead round) support
    /\ (List.length support <= 3)%nat
    /\ forall mode', selectExpertsForRound round mode' context
                     = selectExpertsForRound round mode context.
Proof.
  unfold selectExpertsForRound.
  set (support0 := match supportByFocus (focus round) with
                   | Some names => names
                   | None => _
                   end).
  exists (List.filter (fun e => negb (String.eqb e (lead round))) support0).
  split; [|split; [|split]].
  - cbn [List.filter]. now rewrite String.eqb_refl.
  - apply filter_not_lead.
  - assert (L : (List.length support0 <= 3)%nat).
    { subst support0. unfold supportByFocus.
      repeat match goal with
             | |- context [if ?b then _ else _] => destruct b
             end; cbn [List.length]; lia. }
    pose proof (List.filter_length_le (fun e => negb (String.eqb e (lead round))) support0).
    lia.
  - reflexivity.
Qed.

Section Prompts.

Variable JSON_stringify : JsObject -> string.

(** X4: every round of the base plan of a mode can be prompted: the lead
    is in the catalog, so is every expert selected to support it, and the
    collaboration frame lists them all. *)
Theorem planRounds_rounds_have_prompts (mode : Mode) (round : Round)
    (context : TaskContext) (currentPhilosophy : Philosophy) :
  In round (planRounds mode) ->
  let experts := selectExpertsForRound round mode context in
  (exists p, generateRoundPrompt JSON_stringify round experts context currentPhilosophy mode
             = Ok p)
  /\ map name (supportingIn conceptualExperts round experts) = tail experts
  /\ lookupExpert conceptualExperts (lead round) <> None
  /\ ownExpert conceptualExperts (lead round) <> None
  /\ map (ownExpert conceptualExperts) (tail experts)
     = map Some (supportingIn conceptualExperts round experts).
Proof.
  intros Hin experts. subst experts.
  assert (H : lookupExpert conceptualExperts (lead round) <> None
              /\ ownExpert conceptualExperts (lead round) <> None
              /\ map name (supportingIn conceptualExperts round
                             (selectExpertsForRound round mode context))
                 = tail (selectExpertsForRound round mode context)
              /\ map (ownExpert conceptualExperts)
                   (tail (selectExpertsForRound round mode context))
                 = map Some (supportingIn conceptualExperts round
                               (selectExpertsForRound round mode context))).
  { destruct mode; cbn [planRounds roundsByMode In] in Hin;
      repeat (destruct Hin as [<-|Hin];
              [split; [discriminate | split; [discriminate | split; reflexivity]] |]);
      destruct Hin. }
  destruct H as (Hlead & Hown & Hsupport & Hcatalog).
  split; [|split; [exact Hsupport | split; [exact Hlead | split; [exact Hown | exact Hcatalog]]]].
  unfold generateRoundPrompt, generateRoundPromptIn.
  destruct (lookupExpert conceptualExperts (lead round)); [eauto | congruence].
Qed.

End Prompts.

(** A lead that is no entry of the catalog: a name that the catalog
    inherits is found, and prompts as the function it is; any other name
    throws. *)
Remark generateRoundPrompt_outside_the_catalog :
  (exists p,
     generateRoundPrompt (fun _ => EmptyString) (mkRound "concepts" "constructor")
       ["constructor"] (mkTaskContext "add a retry policy" "general" [] [] []) [] explore
     = Ok p
     /\ includes "undefined" (roundSystemPrompt p) = true
     /\ includes "Your initial expert proposal as Object" (roundSystemPrompt p) = true)
  /\ generateRoundPrompt (fun _ => EmptyString) (mkRound "concepts" "Nobody")
       ["Nobody"] (mkTaskContext "add a retry policy" "general" [] [] []) [] explore
     = Fail "Expert Nobody not found in registry".
Proof.
  split; [|reflexivity]. eexists. split; [reflexivity |].
  split; vm_compute; reflexivity.
Qed.

(** X4 at work: the first round of the plan of [pr]. *)
Lemma planRounds_first_round_of_pr :
  map name
    (supportingIn conceptualExperts (mkRound "constraints" "SpecScribe")
       (selectExpertsForRound (mkRound "constraints" "SpecScribe") pr
          (mkTaskContext "add a retry policy" "general" [] [] [])))
  = ["EffectArchitect"; "DXEnforcer"].
Proof.
  apply (planRounds_rounds_have_prompts (fun _ => EmptyString) pr
           (mkRound "constraints" "SpecScribe")
           (mkTaskContext "add a retry policy" "general" [] [] []) []).
  now left.
Defined.

End RoundExpertsFacts.

(** ** The output writer and the files around it *)

Module OutputFilesFacts.

Import FileService FileServiceWords FileServiceFacts JsStringFacts EffFacts.

Lemma append_inv_head (a b c : string) : a ++ b = a ++ c -> b = c.
Proof.
  induction a as [|x a IH]; [exact id |].
  rewrite !append_cons. intros [= H]. now apply IH.
Qed.

Lemma append_inv_tail (a b c : string) : a ++ c = b ++ c -> a = b.
Proof.
  revert b. induction a as [|x a IH]; intros [|y b] H.
  - reflexivity.
  - apply (f_equal String.length) in H. rewrite append_nil, length_append in H.
    cbn [String.length] in H. lia.
  - apply (f_equal String.length) in H. rewrite append_nil, length_append in H.
    cbn [String.length] in H. lia.
  - rewrite !append_cons in H. injection H as -> H. f_equal. now apply IH.
Qed.

(** Two outputs of one task have the same file name exactly when their
    timestamps agree. *)
Lemma outputFilename_same_task (iso1 iso2 taskName : string) :
  outputFilename iso1 taskName = outputFilename iso2 taskName
  <-> timestampOf iso1 = timestampOf iso2.
Proof.
  unfold outputFilename. split.
  - intros H. apply append_inv_head in H. apply append_inv_head in H.
    now apply append_inv_tail in H.
  - now intros ->.
Qed.

(** What a call leaves of the files it found. *)
Lemma saveOutput_files (cwd : Path) (iso taskName content : string) (fs : FS)
    (q : Path) (c : string) :
  fs !! q = Some (File c) ->
  match saveOutput cwd iso taskName content fs with
  | (Ok p, fs') => p = (cwd ++ ["output"; outputFilename iso taskName])%list
                   /\ fs' !! p = Some (File content)
                   /\ (q <> p -> fs' !! q = Some (File c))
  | (Fail _, fs') => fs' !! q = Some (File c)
  end.
Proof.
  intros Hq.
  destruct (saveOutput cwd iso taskName content fs) as [[p|e] fs'] eqn:S.
  - destruct (saveOutput_Ok _ _ _ _ _ _ _ S) as (fs1 & M & _ & Hp & ->).
    split; [exact Hp |]. split; [apply lookup_insert_eq |].
    intros Hne. rewrite lookup_insert_ne by congruence.
    unfold mkdir in M.
    destruct (mkdirFrom [] (cwd ++ ["output"])%list fs) as [fs2|] eqn:M2; [|discriminate].
    injection M as <-. now apply (mkdirFrom_files _ _ _ _ M2).
  - revert S. unfold saveOutput, bind, mapFail, ret, mkdir.
    destruct (mkdirFrom [] (cwd ++ ["output"])%list fs) as [fs1|e1] eqn:M.
    + assert (H1 : fs1 !! q = Some (File c)) by now apply (mkdirFrom_files _ _ _ _ M).
      unfold writeFile.
      destruct ((cwd ++ ["output"]) ++ [outputFilename iso taskName])%list as [|x p'];
        [now intros [= _ <-] |].
      destruct (negb (isDir fs1 (removelast (x :: p')))); [now intros [= _ <-] |].
      destruct (fs1 !! (x :: p')) as [[|c']|]; [|discriminate|discriminate].
      now intros [= _ <-].
    + now intros [= _ <-].
Qed.

(** X5: [saveOutput] never removes or rewrites a file other than the one
    it is about to write: a file that was there is still there, with the
    same content, after a call that succeeds, and a call that fails leaves
    every file, the target included, as it found it. *)
Theorem saveOutput_keeps_other_files (cwd : Path) (iso taskName content : string)
    (fs : FS) (q : Path) (c : string) :
  fs !! q = Some (File c) ->
  let out := saveOutput cwd iso taskName content fs in
  (q <> (cwd ++ ["output"; outputFilename iso taskName])%list ->
   snd out !! q = Some (File c))
  /\ (forall e, fst out = Fail e -> snd out !! q = Some (File c)).
Proof.
  intros Hq out. subst out.
  pose proof (saveOutput_files cwd iso taskName content fs q c Hq) as H.
  destruct (saveOutput cwd iso taskName content fs) as [[p|e] fs']; cbn [fst snd].
  - destruct H as (-> & _ & H). split; [exact H | discriminate].
  - split; [now intros _ | now intros _ _].
Qed.

(** X5 at work: a note next to the output directory survives a save. *)
Lemma saveOutput_keeps_a_note :
  let fs : FS := {[ ["srv"; "notes.txt"] := File "remember the grid" ]} in
  snd (saveOutput ["srv"] "2024-01-15T10:30:45.123Z" "build a dashboard" "guide" fs)
    !! ["srv"; "notes.txt"]
  = Some (File "remember the grid").
Proof.
  intros fs.
  apply (saveOutput_keeps_other_files ["srv"] "2024-01-15T10:30:45.123Z"
           "build a dashboard" "guide" fs ["srv"; "notes.txt"] "remember the grid").
  - reflexivity.
  - discriminate.
Defined.

(** X6: two outputs of the same task.  When the two timestamps differ,
    the second save writes another file and the first output is still in
    place; when they agree (two saves within one millisecond), the second
    save is written over the first. *)
Theorem saveOutput_twice (cwd : Path) (iso1 iso2 taskName content1 content2 : string)
    (fs fs1 fs2 : FS) (p1 p2 : Path) :
  saveOutput cwd iso1 taskName content1 fs = (Ok p1, fs1) ->
  saveOutput cwd iso2 taskName content2 fs1 = (Ok p2, fs2) ->
  fs2 !! p2 = Some (File content2)
  /\ (timestampOf iso1 <> timestampOf iso2 ->
      p1 <> p2 /\ fs2 !! p1 = Some (File content1))
  /\ (timestampOf iso1 = timestampOf iso2 ->
      p1 = p2 /\ fs2 !! p1 = Some (File content2)).
Proof.
  intros S1 S2.
  destruct (saveOutput_Ok _ _ _ _ _ _ _ S1) as (fa & _ & _ & Hp1 & Hfs1).
  assert (F1 : fs1 !! p1 = Some (File content1)).
  { rewrite Hfs1. apply lookup_insert_eq. }
  pose proof (saveOutput_files cwd iso2 taskName content2 fs1 p1 content1 F1) as H.
  rewrite S2 in H. destruct H as (Hp2 & F2 & Hother).
  split; [exact F2 |]. split.
  - intros Hts.
    assert (Hne : p1 <> p2).
    { rewrite Hp1, Hp2. intros E. apply app_inv_head in E. injection E as E.
      now apply outputFilename_same_task in E. }
    split; [exact Hne | now apply Hother].
  - intros Hts.
    assert (E : p1 = p2).
    { rewrite Hp1, Hp2. apply (outputFilename_same_task iso1 iso2 taskName) in Hts.
      now rewrite Hts. }
    split; [exact E | now rewrite E].
Qed.

(** X6 at work: two saves one second apart. *)
Lemma saveOutput_twice_one_second_apart :
  let first := saveOutput ["srv"] "2024-01-15T10:30:45.123Z" "build a dashboard" "first" ∅ in
  let second :=
    saveOutput ["srv"] "2024-01-15T10:30:46.123Z" "build a dashboard" "second" (snd first) in
  fst first = Ok ["srv"; "output"; "build_a_dashboard_2024-01-15T10-30-45-123Z.md"]
  /\ fst second = Ok ["srv"; "output"; "build_a_dashboard_2024-01-15T10-30-46-123Z.md"]
  /\ snd second !! ["srv"; "output"; "build_a_dashboard_2024-01-15T10-30-45-123Z.md"]
     = Some (File "first")
  /\ snd second !! ["srv"; "output"; "build_a_dashboard_2024-01-15T10-30-46-123Z.md"]
     = Some (File "second").
Proof.
  intros first second.
  assert (S1 : saveOutput ["srv"] "2024-01-15T10:30:45.123Z" "build a dashboard" "first" ∅
               = (Ok ["srv"; "output"; "build_a_dashboard_2024-01-15T10-30-45-123Z.md"],
                  snd first))
    by reflexivity.
  assert (S2 : saveOutput ["srv"] "2024-01-15T10:30:46.123Z" "build a dashboard" "second"
                 (snd first)
               = (Ok ["srv"; "output"; "build_a_dashboard_2024-01-15T10-30-46-123Z.md"],
                  snd second))
    by reflexivity.
  destruct (saveOutput_twice _ _ _ _ _ _ _ _ _ _ _ S1 S2) as (F2 & Hdiff & _).
  destruct Hdiff as [_ F1]; [intros E; vm_compute in E; discriminate E |].
  split; [unfold first; now rewrite S1 |].
  split; [unfold second; now rewrite S2 |]. split; [exact F1 | exact F2].
Defined.

Lemma toLowerCase_nameChars (s : string) :
  allChars isNameChar s = true -> toLowerCase s = s.
Proof.
  induction s as [|c s IH]; [reflexivity |]. cbn [allChars].
  intros [Hc Hs]%andb_true_iff. unfold toLowerCase in *. cbn [mapChars].
  rewrite (IH Hs). f_equal.
  revert Hc. clear. destruct c as [[] [] [] [] [] [] [] []]; (reflexivity || discriminate).
Qed.

Lemma nameChar_cases (c : ascii) :
  isNameChar c = true ->
  (c = "_"%char /\ isLowerAlnum c = false) \/ (c <> "_"%char /\ isLowerAlnum c = true).
Proof.
  destruct c as [[] [] [] [] [] [] [] []]; try discriminate; intros _;
    first [left; split; reflexivity | right; split; [discriminate | reflexivity]].
Qed.

(** On a name of the shape [sanitizedTaskName] produces, the replacement of
    runs changes nothing. *)
Lemma replaceRuns_nameChars (s : string) :
  allChars isNameChar s = true ->
  includes "__" s = false ->
  replaceRuns (fun c => negb (isLowerAlnum c)) false s = s
  /\ (stripPrefix "_" s = None ->
      replaceRuns (fun c => negb (isLowerAlnum c)) true s = s).
Proof.
  induction s as [|c s IH]; [split; reflexivity |].
  cbn [allChars]. intros [Hc Hs]%andb_true_iff Hpair.
  assert (Hstep : stripPrefix "__" (String c s) = None).
  { destruct (stripPrefix "__" (String c s)) eqn:E; [|reflexivity].
    apply includes_here in E. congruence. }
  rewrite (includes_step _ _ _ Hstep) in Hpair.
  destruct (IH Hs Hpair) as [IH0 IH1].
  destruct (nameChar_cases c Hc) as [[-> Hc']|[Hne Hc']].
  - rewrite stripPrefix_pair in Hstep. split.
    + cbn [replaceRuns]. cbn [negb isLowerAlnum]. now rewrite (IH1 Hstep).
    + discriminate.
  - split.
    + cbn [replaceRuns]. rewrite Hc'. cbn [negb]. now rewrite IH0.
    + intros _. cbn [replaceRuns]. rewrite Hc'. cbn [negb]. now rewrite IH0.
Qed.

Lemma sliceTo_all (n : nat) (s : string) :
  (String.length s <= n)%nat -> sliceTo n s = s.
Proof.
  revert s. induction n as [|n IH]; intros [|c s]; cbn [String.length sliceTo];
    try reflexivity; [lia |].
  intros H. f_equal. apply IH. lia.
Qed.

(** X7: sanitizing is idempotent: the sanitized form of a task name is its
    own sanitized form, so a name that went through [saveOutput] once names
    the same file prefix when it is fed back. *)
Theorem sanitizedTaskName_idempotent (taskName : string) :
  sanitizedTaskName (sanitizedTaskName taskName) = sanitizedTaskName taskName.
Proof.
  destruct (sanitizedTaskName_shape taskName) as (Hlen & Hchars & Hpair).
  set (s := sanitizedTaskName taskName) in *.
  unfold sanitizedTaskName at 1.
  rewrite (toLowerCase_nameChars s Hchars).
  destruct (replaceRuns_nameChars s Hchars Hpair) as [-> _].
  now apply sliceTo_all.
Qed.

End OutputFilesFacts.

(** ** What the bookkeeping conserves *)

Module ExpertSummaryFacts.

Import OpenAIService OpenAIServiceWords OpenAIServiceFacts ExpertSummary ExpertSummaryWords.

Lemma sameKey_keyOf (i o : ExpertInteraction) :
  sameKey i o = true <-> keyOf o = keyOf i.
Proof.
  unfold sameKey, keyOf. rewrite andb_true_iff, !String.eqb_eq.
  split; [intros [-> ->]; reflexivity | intros [= -> ->]; auto].
Qed.

Lemma keyOf_merge (i o : ExpertInteraction) : keyOf (merge i o) = keyOf o.
Proof. reflexivity. Qed.

(** The keys after an insert-or-merge: those of before, with the key of
    the interaction at the end when it was not among them. *)
Lemma keys_upsert (i : ExpertInteraction) (l : list ExpertInteraction) :
  map keyOf (upsert i l)
  = if existsb (sameKey i) l then map keyOf l else (map keyOf l ++ [keyOf i])%list.
Proof.
  induction l as [|o l IH]; [reflexivity |].
  cbn [upsert existsb map]. destruct (sameKey i o); cbn [orb map].
  - reflexivity.
  - rewrite IH. now destruct (existsb (sameKey i) l).
Qed.

Lemma upsert_distinct (i : ExpertInteraction) (l : list ExpertInteraction) :
  NoDup (map keyOf l) -> NoDup (map keyOf (upsert i l)).
Proof.
  intros H. rewrite keys_upsert.
  destruct (existsb (sameKey i) l) eqn:E; [exact H |].
  apply NoDup_app. split; [exact H |]. split; [|apply NoDup_singleton].
  intros k Hk Hi. apply list_elem_of_singleton in Hi. subst k.
  apply list_elem_of_In, in_map_iff in Hk as (o & Ho & Hin).
  assert (F : existsb (sameKey i) l = true).
  { apply existsb_exists. exists o. split; [exact Hin | now apply sameKey_keyOf]. }
  congruence.
Qed.

(** The live list after a sequence of calls on a well-formed store. *)
Lemma live_fold (history : list Call) (st : Store) :
  wellFormed st ->
  live (fold_left (fun st c => perform c st) history st)
  = fold_left (fun l i => upsert i l) (tracked history) (live st)
  /\ wellFormed (fold_left (fun st c => perform c st) history st).
Proof.
  revert st. induction history as [|c history IH]; intros st Hwf; [now split |].
  cbn [fold_left].
  pose proof (perform_wellFormed c st Hwf) as Hwf'.
  destruct (IH _ Hwf') as [E W]. split; [|exact W].
  rewrite E. unfold tracked. rewrite ListFacts.omap_cons_eq.
  rewrite (live_objects _ Hwf'), (live_objects _ Hwf).
  destruct c as [items|a items|i|]; cbn [perform fold_left]; try reflexivity.
  now destruct (track_wellFormed i st Hwf) as (_ & -> & _).
Qed.

Lemma live_after (history : list Call) :
  live (after history) = fold_left (fun l i => upsert i l) (tracked history) [].
Proof.
  unfold after. now destruct (live_fold history initialStore eq_refl) as [-> _].
Qed.

(** X8: whatever the calls, the list of recorded interactions never holds
    two records with the same expert name and round. *)
Theorem tracked_keys_distinct (history : list Call) :
  NoDup (map keyOf (live (after history))).
Proof.
  rewrite live_after.
  assert (G : forall items l, NoDup (map keyOf l) ->
                           NoDup (map keyOf (fold_left (fun l i => upsert i l) items l))).
  { induction items as [|i items IH]; intros l H; [exact H |].
    cbn [fold_left]. apply IH. now apply upsert_distinct. }
  apply G. apply NoDup_nil_2.
Qed.

Lemma totalCalls_from (l : list ExpertInteraction) (z : Z) :
  fold_left (fun sum i => (sum + callCount i)%Z) l z = (z + totalCalls l)%Z.
Proof.
  unfold totalCalls. revert z. induction l as [|i l IH]; intros z; cbn [fold_left]; [lia |].
  rewrite IH, (IH (0 + callCount i)%Z). lia.
Qed.

Lemma totalCalls_cons (i : ExpertInteraction) (l : list ExpertInteraction) :
  totalCalls (i :: l) = (callCount i + totalCalls l)%Z.
Proof. unfold totalCalls at 1. cbn [fold_left]. rewrite totalCalls_from. lia. Qed.

Lemma totalCalls_app (l1 l2 : list ExpertInteraction) :
  totalCalls (l1 ++ l2) = (totalCalls l1 + totalCalls l2)%Z.
Proof.
  unfold totalCalls at 1. rewrite fold_left_app. now rewrite totalCalls_from.
Qed.

Lemma totalCalls_upsert (i : ExpertInteraction) (l : list ExpertInteraction) :
  totalCalls (upsert i l) = (totalCalls l + callCount i)%Z.
Proof.
  induction l as [|o l IH]; [cbn; lia |].
  cbn [upsert]. destruct (sameKey i o).
  - rewrite !totalCalls_cons. cbn [merge callCount]. lia.
  - rewrite !totalCalls_cons, IH. lia.
Qed.

(** *** The arrays of a client that records literals *)

Lemma insights_upsert (i : ExpertInteraction) (l : list ExpertInteraction) :
  map insights (upsert i l)
  = if existsb (sameKey i) l then map insights l else (map insights l ++ [insights i])%list.
Proof.
  induction l as [|o l IH]; [reflexivity |].
  cbn [upsert existsb map]. destruct (sameKey i o); cbn [orb map].
  - reflexivity.
  - rewrite IH. now destruct (existsb (sameKey i) l).
Qed.

Lemma firstMatch_existsb (i : ExpertInteraction) (l : list ExpertInteraction) :
  match firstMatch i l with
  | Some r => existsb (sameKey i) l = true /\ exists o, l !! r = Some o
  | None => existsb (sameKey i) l = false
  end.
Proof.
  induction l as [|o l IH]; [reflexivity |].
  cbn [firstMatch existsb]. destruct (sameKey i o); cbn [orb].
  - split; [reflexivity | now exists o].
  - destruct (firstMatch i l) as [r|]; cbn [option_map]; [|exact IH].
    destruct IH as [E (x & Hx)]. split; [exact E | now exists x].
Qed.

(** Texts pushed onto one array of a list of distinct arrays show once in
    the texts of the list. *)
Lemma concat_pushed (f : nat -> list string) (items : list string) (target : nat)
    (addresses : list nat) :
  NoDup addresses ->
  In target addresses ->
  Permutation
    (concat (map (fun a => if (a =? target)%nat then (f a ++ items)%list else f a) addresses))
    (concat (map f addresses) ++ items).
Proof.
  induction addresses as [|a addresses IH]; intros Hnd Hin; [destruct Hin |].
  apply NoDup_cons in Hnd as [Hna Hnd]. cbn [map concat].
  destruct (Nat.eqb_spec a target) as [->|Hne].
  - assert (E : map (fun a => if (a =? target)%nat then (f a ++ items)%list else f a) addresses
                = map f addresses).
    { apply map_ext_in. intros x Hx. destruct (Nat.eqb_spec x target) as [->|]; [|reflexivity].
      exfalso. apply Hna. now apply list_elem_of_In. }
    rewrite E, <- !app_assoc. apply Permutation_app_head. apply Permutation_app_comm.
  - destruct Hin as [->|Hin]; [congruence |].
    rewrite (IH Hnd Hin). now rewrite app_assoc.
Qed.

Lemma held_objects (st : Store) :
  wellFormed st -> heldInsights st = concat (map (textsAt st) (map insights (objects st))).
Proof.
  intros Hwf. unfold heldInsights. rewrite (live_objects st Hwf), map_map. reflexivity.
Qed.

(** One literal: its array is made, then recorded. *)
Lemma literal_recorded (k : nat) (l : Literal) (st : Store) :
  ownArrays k st ->
  let i := mkInteraction (lit_expertName l) (lit_round l) (lit_callCount l) k
             (lit_responseId l) in
  let st2 := perform (Track i) (perform (NewArray (lit_insights l)) st) in
  ownArrays (S k) st2
  /\ Permutation (heldInsights st2) (heldInsights st ++ lit_insights l).
Proof.
  intros (Hwf & Hlen & Hnd & Hlt) i st2.
  set (st1 := perform (NewArray (lit_insights l)) st) in *.
  assert (Hwf1 : wellFormed st1) by exact Hwf.
  assert (Hobj1 : objects st1 = objects st) by reflexivity.
  assert (Htx1 : texts st1 = (texts st ++ [lit_insights l])%list) by reflexivity.
  assert (Hold : forall a, (a < k)%nat -> textsAt st1 a = textsAt st a).
  { intros a Ha. unfold textsAt. rewrite Htx1, lookup_app_l by lia. reflexivity. }
  assert (Hnew : textsAt st1 k = lit_insights l).
  { unfold textsAt. rewrite Htx1, <- Hlen, list_lookup_middle by reflexivity. reflexivity. }
  destruct (track_wellFormed i st1 Hwf1) as (Hwf2 & Hobj2 & _ & _ & Htx2).
  change (snd (trackExpertInteraction i st1)) with st2 in Hwf2, Hobj2, Htx2.
  rewrite Hobj1 in Hobj2.
  assert (Hsame : concat (map (textsAt st1) (map insights (objects st)))
                  = concat (map (textsAt st) (map insights (objects st)))).
  { f_equal. apply map_ext_in. intros a Ha. apply Hold. now apply Hlt. }
  rewrite (held_objects st2 Hwf2), (held_objects st Hwf), Hobj2, insights_upsert.
  unfold ownArrays. rewrite Hobj2, insights_upsert, Htx2, textsAfter_length, Htx1, length_app.
  cbn [List.length]. rewrite Hlen, Nat.add_1_r.
  pose proof (firstMatch_existsb i (objects st)) as Hfm.
  unfold textsAfter in Htx2. rewrite Hobj1 in Htx2.
  destruct (firstMatch i (objects st)) as [r|] eqn:Er.
  - destruct Hfm as [-> (o & Ho)]. rewrite Ho in Htx2. change (insights i) with k in Htx2.
    rewrite Hnew in Htx2.
    assert (Hin : In (insights o) (map insights (objects st))).
    { apply in_map. apply list_elem_of_In. eapply list_elem_of_lookup_2. exact Ho. }
    split.
    + split; [exact Hwf2 |]. split; [reflexivity |]. split; [exact Hnd |].
      intros a Ha. specialize (Hlt a Ha). lia.
    + assert (Hat : forall a, textsAt st2 a
                              = if (a =? insights o)%nat
                                then (textsAt st1 a ++ lit_insights l)%list else textsAt st1 a).
      { intros a. apply textsAt_alter; [exact Htx2 |].
        rewrite Htx1, length_app. specialize (Hlt _ Hin). cbn [List.length]. lia. }
      rewrite (map_ext _ _ Hat), (concat_pushed _ _ _ _ Hnd Hin), Hsame. reflexivity.
  - rewrite Hfm. change (insights i) with k.
    assert (Hfresh : ~ In k (map insights (objects st))).
    { intros Hk. specialize (Hlt k Hk). lia. }
    split.
    + split; [exact Hwf2 |]. split; [reflexivity |]. split.
      * apply NoDup_app. split; [exact Hnd |]. split; [|apply NoDup_singleton].
        intros a Ha Hs. apply list_elem_of_singleton in Hs. subst a.
        apply Hfresh. now apply list_elem_of_In.
      * intros a Ha. apply in_app_or in Ha as [Ha|[<-|[]]]; [specialize (Hlt a Ha) |]; lia.
    + assert (Hat : forall a, textsAt st2 a = textsAt st1 a).
      { intros a. unfold textsAt. now rewrite Htx2. }
      rewrite (map_ext _ _ Hat), map_app, concat_app, Hsame. cbn [map concat].
      now rewrite Hnew, app_nil_r.
Qed.

Lemma literals_recorded (literals : list Literal) (k : nat) (st : Store) :
  ownArrays k st ->
  Permutation
    (heldInsights (fold_left (fun st c => perform c st) (callsOf k literals) st))
    (heldInsights st ++ concat (map lit_insights literals)).
Proof.
  revert k st. induction literals as [|l literals IH]; intros k st Hown.
  - cbn [callsOf fold_left map concat]. now rewrite app_nil_r.
  - cbn [callsOf fold_left map concat].
    destruct (literal_recorded k l st Hown) as [Hown2 Hp].
    rewrite (IH _ _ Hown2), Hp. now rewrite <- app_assoc.
Qed.

(** X9: the bookkeeping loses no call, and loses no insight of a client
    that gives every interaction an array of its own.  After any sequence
    of calls, the total of calls that the closing summary prints is the
    sum of the call counts of all the interactions that were recorded.
    When every interaction is written as a literal, as the loop writes
    them, the insights held by the records are those that were recorded,
    each as often as it was recorded. *)
Theorem tracked_calls_conserved (history : list Call) (literals : list Literal) :
  totalCalls (live (after history)) = totalCalls (tracked history)
  /\ Permutation (heldInsights (after (callsOf 0 literals)))
       (concat (map lit_insights literals)).
Proof.
  split.
  - rewrite live_after.
    assert (G : forall items l,
               totalCalls (fold_left (fun l i => upsert i l) items l)
               = (totalCalls l + totalCalls items)%Z).
    { induction items as [|i items IH]; intros l; cbn [fold_left]; [cbn; lia |].
      rewrite IH, totalCalls_upsert, totalCalls_cons. lia. }
    rewrite G. cbn. lia.
  - unfold after. rewrite literals_recorded; [reflexivity |].
    split; [reflexivity |]. split; [reflexivity |]. split; [apply NoDup_nil_2 |].
    intros a [].
Qed.

(** The second half of X9 needs arrays that are not shared: the client
    that passes one array in two interactions records three insights, and
    the records show four. *)
Remark shared_array_counted_twice :
  heldInsights (after sharedArray) = ["x"; "y"; "x"; "y"]
  /\ totalCalls (live (after sharedArray)) = 3%Z.
Proof. split; reflexivity. Qed.

End ExpertSummaryFacts.

(** ** Searching and filling the memory store *)

Module MemorySearchFacts.

Import MemoryService MemoryServiceWords MemorySearchWords MemoryServiceFacts JsStringFacts
  EffFacts.

(** *** The pattern matcher *)










(** *** The pieces of [split] *)








(** *** The order of the result *)

Lemma insertDesc_In (r x : MemoryRow) (l : list MemoryRow) :
  In x (insertDesc r l) <-> x = r \/ In x l.
Proof.
  induction l as [|y l IH]; cbn [insertDesc In]; [intuition congruence |].
  destruct (mem_timestamp y <=? mem_timestamp r)%Z; cbn [In]; [intuition congruence |].
  rewrite IH. intuition congruence.
Qed.

Lemma insertDesc_length (r : MemoryRow) (l : list MemoryRow) :
  List.length (insertDesc r l) = S (List.length l).
Proof.
  induction l as [|y l IH]; [reflexivity |]. cbn [insertDesc].
  destruct (mem_timestamp y <=? mem_timestamp r)%Z; cbn [List.length]; [reflexivity |].
  now rewrite IH.
Qed.

Lemma insertDesc_sorted (r : MemoryRow) (l : list MemoryRow) :
  newestFirst l -> newestFirst (insertDesc r l).
Proof.
  induction l as [|y l IH]; intros H; cbn [insertDesc].
  - split; [intros x [] | exact I].
  - destruct H as [Hy Hl].
    destruct (mem_timestamp y <=? mem_timestamp r)%Z eqn:E.
    + apply Z.leb_le in E. split; [|now split].
      intros x [<-|Hx]; [unfold recentFirst; lia |].
      specialize (Hy x Hx). unfold recentFirst in *. lia.
    + apply Z.leb_gt in E. split; [|now apply IH].
      intros x Hx. apply insertDesc_In in Hx as [->|Hx];
        [unfold recentFirst; lia | now apply Hy].
Qed.

Lemma orderByTimestampDesc_In (x : MemoryRow) (l : list MemoryRow) :
  In x (orderByTimestampDesc l) <-> In x l.
Proof.
  unfold orderByTimestampDesc. induction l as [|y l IH]; [reflexivity |].
  cbn [fold_right In]. rewrite insertDesc_In, IH. intuition congruence.
Qed.

Lemma orderByTimestampDesc_length (l : list MemoryRow) :
  List.length (orderByTimestampDesc l) = List.length l.
Proof.
  unfold orderByTimestampDesc. induction l as [|y l IH]; [reflexivity |].
  cbn [fold_right List.length]. now rewrite insertDesc_length, IH.
Qed.

Lemma orderByTimestampDesc_sorted (l : list MemoryRow) :
  newestFirst (orderByTimestampDesc l).
Proof.
  unfold orderByTimestampDesc. induction l as [|y l IH]; [exact I |].
  cbn [fold_right]. now apply insertDesc_sorted.
Qed.

Lemma firstn_In {A : Type} (n : nat) (l : list A) (x : A) : In x (firstn n l) -> In x l.
Proof. intros H. rewrite <- (firstn_skipn n l). apply in_or_app. now left. Qed.

Lemma skipn_In {A : Type} (n : nat) (l : list A) (x : A) : In x (skipn n l) -> In x l.
Proof. intros H. rewrite <- (firstn_skipn n l). apply in_or_app. now right. Qed.

Lemma sorted_firstn (n : nat) (l : list MemoryRow) :
  newestFirst l ->
  newestFirst (firstn n l)
  /\ forall x y, In x (firstn n l) -> In y (skipn n l) -> recentFirst x y.
Proof.
  revert l. induction n as [|n IH]; intros l H.
  - split; [exact I | intros x y []].
  - destruct l as [|a l]; [split; [exact I | intros x y []] |].
    destruct H as [Ha Hl]. destruct (IH l Hl) as [S1 S2].
    cbn [firstn skipn]. split.
    + split; [|exact S1]. intros x Hx. apply Ha. eapply firstn_In. exact Hx.
    + intros x y [<-|Hx] Hy.
      * apply Ha. eapply skipn_In. exact Hy.
      * now apply S2.
Qed.

(** The query with at least one keyword. *)
Lemma findRelevantSuccesses_rows (toLowerCaseJS : string -> string) (task : string)
    (st : Store) :
  keywordsOf toLowerCaseJS task <> [] ->
  findRelevantSuccesses toLowerCaseJS task st
  = (Ok (map formatSuccess
           (firstn 3
              (orderByTimestampDesc
                 (List.filter (matches toLowerCaseJS task) (memories st))))),
     st).
Proof.
  intros Hne. unfold findRelevantSuccesses, mapFail, selectMemories.
  rewrite (prepare_whereClause _ Hne).
  unfold likeParams at 1. rewrite length_map, Nat.eqb_refl. reflexivity.
Qed.

Lemma findRelevantSuccesses_Ok_keywords (toLowerCaseJS : string -> string) (task : string)
    (st st' : Store) (found : list string) :
  findRelevantSuccesses toLowerCaseJS task st = (Ok found, st') ->
  keywordsOf toLowerCaseJS task <> [].
Proof.
  intros H E. unfold findRelevantSuccesses, mapFail in H. rewrite E in H. discriminate H.
Qed.

(** X10: a query that succeeds changes nothing and returns the texts of
    the three most recent rows that match a keyword of the task, most
    recent first: at most three rows, all the matching rows when there are
    fewer, none that does not match, and no row left out that is more
    recent than a row returned. *)
Theorem findRelevantSuccesses_most_recent_three (toLowerCaseJS : string -> string)
    (task : string) (st st' : Store) (found : list string) :
  findRelevantSuccesses toLowerCaseJS task st = (Ok found, st') ->
  st' = st
  /\ exists rows,
       found = map formatSuccess rows
       /\ List.length rows
          = Nat.min 3 (List.length (List.filter (matches toLowerCaseJS task) (memories st)))
       /\ newestFirst rows
       /\ (forall r, In r rows -> In r (memories st) /\ matches toLowerCaseJS task r = true)
       /\ (forall r r', In r (memories st) -> matches toLowerCaseJS task r = true ->
                        ~ In r rows -> In r' rows -> recentFirst r' r).
Proof.
  intros H. pose proof (findRelevantSuccesses_Ok_keywords _ _ _ _ _ H) as Hne.
  rewrite (findRelevantSuccesses_rows toLowerCaseJS task st Hne) in H. injection H as <- <-.
  split; [reflexivity |].
  set (sorted := orderByTimestampDesc
                   (List.filter (matches toLowerCaseJS task) (memories st))).
  exists (firstn 3 sorted).
  destruct (sorted_firstn 3 sorted (orderByTimestampDesc_sorted _)) as [S1 S2].
  split; [reflexivity |]. split; [|split; [exact S1 | split]].
  - rewrite length_firstn. unfold sorted. now rewrite orderByTimestampDesc_length.
  - intros r Hr. apply firstn_In in Hr. unfold sorted in Hr.
    apply orderByTimestampDesc_In, List.filter_In in Hr. exact Hr.
  - intros r r' Hr Hm Hout Hr'. apply S2; [exact Hr' |].
    assert (Hs : In r sorted).
    { unfold sorted. apply orderByTimestampDesc_In, List.filter_In. now split. }
    rewrite <- (firstn_skipn 3 sorted) in Hs. apply in_app_or in Hs as [Hs|Hs];
      [contradiction | exact Hs].
Qed.

(** X10 at work: a table of one row, and a task that shares a word with
    it. *)
Lemma findRelevantSuccesses_one_row :
  let row := mkRow 1 "build a dashboard for sales" [("historicalGrounding", "Bauhaus grids")]
               (mkTechnicalSpec "build_a_dashboard" "build a dashboard for sales" "..." [] [])
               1700000000 in
  findRelevantSuccesses toLowerCase "a sales report" (mkStore [] [row] true)
  = (Ok ["build a dashboard for sales: Bauhaus grids"], mkStore [] [row] true).
Proof.
  intros row.
  destruct (findRelevantSuccesses toLowerCase "a sales report" (mkStore [] [row] true))
    as [[found|e] st'] eqn:E; [|vm_compute in E; discriminate E].
  destruct (findRelevantSuccesses_most_recent_three _ _ _ _ _ E) as (-> & _).
  vm_compute in E. injection E as <-. reflexivity.
Defined.

(** *** Storing *)

Lemma nextId_above (rows : list MemoryRow) (r : MemoryRow) :
  In r rows -> (mem_id r < nextId rows)%Z.
Proof.
  unfold nextId. induction rows as [|x rows IH]; [intros [] |].
  cbn [fold_right]. intros [->|H]; [lia |]. specialize (IH H). lia.
Qed.

Lemma nextId_positive (rows : list MemoryRow) : (0 < nextId rows)%Z.
Proof.
  unfold nextId. induction rows as [|x rows IH]; cbn [fold_right]; lia.
Qed.

(** A call that succeeds found the database writable, and leaves the
    session list and the table with one more element each. *)
Lemma storeSuccess_Ok (now currentTimestamp : Z) (task : string) (philosophy : Philosophy)
    (spec : TechnicalSpec) (st st' : Store) :
  storeSuccess now currentTimestamp task philosophy spec st = (Ok tt, st') ->
  writable st = true
  /\ sessionMemory st' = (sessionMemory st ++ [mkEntry task philosophy spec now])%list
  /\ memories st'
     = (memories st
        ++ [mkRow (nextId (memories st)) task philosophy spec currentTimestamp])%list
  /\ writable st' = true.
Proof.
  unfold storeSuccess, bind, modify, mapFail. cbn [writable memories sessionMemory].
  destruct (writable st) eqn:W; [|discriminate].
  intros [= <-]. cbn [sessionMemory memories writable]. auto.
Qed.

(** X11: [storeSuccess] only ever adds.  Whatever the outcome, the
    session list is the old one followed by the new entry.  When the
    database accepts the INSERT the call succeeds and the table is the old
    one followed by one row, which holds the task, the philosophy and the
    specification under an id that is positive and larger than every id
    in use, so ids stay distinct; when it refuses, the call fails, the
    table is as before, and the session entry is there all the same. *)
Theorem storeSuccess_appends (now currentTimestamp : Z) (task : string)
    (philosophy : Philosophy) (spec : TechnicalSpec) (st : Store) :
  let out := storeSuccess now currentTimestamp task philosophy spec st in
  sessionMemory (snd out) = (sessionMemory st ++ [mkEntry task philosophy spec now])%list
  /\ writable (snd out) = writable st
  /\ (writable st = true ->
      fst out = Ok tt
      /\ exists id,
           memories (snd out)
           = (memories st ++ [mkRow id task philosophy spec currentTimestamp])%list
           /\ (0 < id)%Z
           /\ (forall r, In r (memories st) -> (mem_id r < id)%Z)
           /\ (NoDup (map mem_id (memories st)) ->
               NoDup (map mem_id (memories (snd out)))))
  /\ (writable st = false ->
      (exists e, fst out = Fail e) /\ memories (snd out) = memories st).
Proof.
  intros out. subst out. unfold storeSuccess, bind, modify, mapFail. cbn [writable memories].
  destruct (writable st) eqn:W; cbn [fst snd sessionMemory writable memories].
  - split; [reflexivity |]. split; [reflexivity |]. split; [|discriminate].
    intros _. split; [reflexivity |]. exists (nextId (memories st)).
    split; [reflexivity |]. split; [apply nextId_positive |].
    split; [apply nextId_above |].
    intros Hnd. rewrite map_app. cbn [map mem_id]. apply NoDup_app.
    split; [exact Hnd |]. split; [|apply NoDup_singleton].
    intros i Hi Hnew. apply list_elem_of_singleton in Hnew. subst i.
    apply list_elem_of_In, in_map_iff in Hi as (r & E & Hr).
    pose proof (nextId_above _ _ Hr). lia.
  - split; [reflexivity |]. split; [reflexivity |]. split; [discriminate |].
    intros _. split; [eauto | reflexivity].
Qed.




(** Within one second the order is that of the ids: after three stores
    for one task in a second, the fourth is not among the three results
    of a search for that task. *)
Remark storeSuccess_four_in_a_second :
  let spec := mkTechnicalSpec "sales_report" "sales report" "..." [] [] in
  let store (now : Z) (grounding : string) (st : Store) :=
    snd (storeSuccess now 1700000001%Z "sales report"
           [("historicalGrounding", grounding)] spec st) in
  fst (findRelevantSuccesses toLowerCase "sales report"
         (store 1700000001004%Z "fourth"
            (store 1700000001003%Z "third"
               (store 1700000001002%Z "second"
                  (store 1700000001001%Z "first" (mkStore [] [] true))))))
  = Ok ["sales report: first"; "sales report: second"; "sales report: third"].
Proof. reflexivity. Qed.

End MemorySearchFacts.

(** ** The orchestrator, phase by phase *)

Module OrchestratorFacts.

Import ModeInference CreativeAILoop CreativeAILoopWords OrchestratorWords JsStringFacts
  EffFacts.

(** *** The output type *)

Lemma includes_trans (a b c : string) :
  includes a b = true -> includes b c = true -> includes a c = true.
Proof.
  intros (p1 & q1 & ->)%includes_true (p2 & q2 & ->)%includes_true.
  apply includes_true. exists (p2 ++ p1), (q1 ++ q2). now rewrite !append_assoc.
Qed.

(** X13: the output type is decided by the first group of substrings that
    occurs in the task, in the order react, cli, api, configuration.  The
    substring [ui] of the first group occurs in every task that says
    [build], so such a task is a React application whatever else it says;
    it is also asked for an emotional tone, and given the visual experts
    for its rounds. *)
Theorem inferOutputType_first_group_wins (prompt : string) :
  (includes "ui" (toLowerCase prompt) = true -> inferOutputType prompt = "react_app")
  /\ (includes "build" (toLowerCase prompt) = true -> inferOutputType prompt = "react_app")
  /\ (includes "ui" (toLowerCase prompt) = true ->
      In "What emotional tone should this convey? (professional, playful, minimal, bold)"
        (generateClarifyingQuestions prompt)
      /\ forall outputType constraints preferences seeds,
           selectConceptualExperts
             (mkTaskContext prompt outputType constraints preferences seeds)
           = ["DesignPhilosopher"; "ColorTheorist"; "ExperienceArchitect"])
  /\ (inferOutputType prompt = "cli_tool" ->
      matchesAny ["react"; "component"; "ui"; "frontend"] prompt = false)
  /\ (inferOutputType prompt = "general" ->
      forall k, In k [ "react"; "component"; "ui"; "frontend"; "cli"; "command"; "terminal";
                       "script"; "api"; "backend"; "server"; "service"; "config";
                       "settings"; "json"; "yaml" ] ->
                includes k (toLowerCase prompt) = false).
Proof.
  assert (Hui : includes "ui" (toLowerCase prompt) = true -> inferOutputType prompt = "react_app").
  { intros H. unfold inferOutputType, matchesAny. cbn [existsb]. rewrite H.
    now rewrite !orb_true_r. }
  split; [exact Hui |]. split; [|split; [|split]].
  - intros H. apply Hui. apply (includes_trans "ui" "build"); [reflexivity | exact H].
  - intros H. split.
    + unfold generateClarifyingQuestions, matchesAny. cbn [existsb]. rewrite H. cbn [orb].
      right. now left.
    + intros outputType constraints preferences seeds.
      unfold selectConceptualExperts. cbn [task]. rewrite H. now rewrite !orb_true_r.
  - unfold inferOutputType.
    destruct (matchesAny ["react"; "component"; "ui"; "frontend"] prompt);
      [discriminate | reflexivity].
  - unfold inferOutputType, matchesAny. cbn [existsb].
    repeat match goal with
           | |- context [includes ?k (toLowerCase prompt)] =>
               let E := fresh "E" in
               destruct (includes k (toLowerCase prompt)) eqn:E; cbn [orb];
               try discriminate
           end.
    intros _ k Hk. cbn [In] in Hk.
    repeat (destruct Hk as [<-|Hk]; [assumption |]). destruct Hk.
Qed.

(** *** The name of the specification *)

Lemma includes_char_nil (a : ascii) : includes (String a EmptyString) EmptyString = false.
Proof. reflexivity. Qed.

Lemma includes_char_append (a : ascii) (x y : string) :
  includes (String a EmptyString) (x ++ y)
  = includes (String a EmptyString) x || includes (String a EmptyString) y.
Proof.
  induction x as [|c x IH]; [now rewrite append_nil |].
  rewrite append_cons, !FileServiceFacts.includes_char_cons, IH. apply orb_assoc.
Qed.

Lemma splitOn_no_separator (sep : ascii) (s w : string) :
  In w (splitOn sep s) -> includes (String sep EmptyString) w = false.
Proof.
  revert w. induction s as [|c s IH]; intros w.
  - intros [<-|[]]. reflexivity.
  - cbn [splitOn]. destruct (Ascii.eqb c sep) eqn:E.
    + intros [<-|H]; [reflexivity | now apply IH].
    + destruct (splitOn sep s) as [|w0 ws].
      * intros [<-|[]]. rewrite FileServiceFacts.includes_char_cons.
        rewrite Ascii.eqb_sym, E. reflexivity.
      * intros [<-|H].
        -- rewrite FileServiceFacts.includes_char_cons, Ascii.eqb_sym, E.
           apply IH. now left.
        -- apply IH. now right.
Qed.

Lemma splitOn_whole (sep : ascii) (s : string) :
  includes (String sep EmptyString) s = false -> splitOn sep s = [s].
Proof.
  induction s as [|c s IH]; [reflexivity |].
  rewrite FileServiceFacts.includes_char_cons. intros [E H]%orb_false_iff.
  cbn [splitOn]. rewrite Ascii.eqb_sym, E. now rewrite (IH H).
Qed.

Lemma join_no_character (a : ascii) (sep : string) (parts : list string) :
  includes (String a EmptyString) sep = false ->
  (forall p, In p parts -> includes (String a EmptyString) p = false) ->
  includes (String a EmptyString) (join sep parts) = false.
Proof.
  intros Hsep. induction parts as [|p parts IH]; intros H; [reflexivity |].
  destruct parts as [|p' parts]; [apply H; now left |].
  change (join sep (p :: p' :: parts)) with (p ++ sep ++ join sep (p' :: parts)).
  rewrite !includes_char_append, Hsep, (H p (or_introl eq_refl)). cbn [orb].
  apply IH. intros q Hq. apply H. now right.
Qed.

(** The name given to a specification: the first three pieces of the
    task between spaces, joined by underscores. *)
Lemma specName_no_space (task : string) :
  includes " " (join "_" (firstn 3 (splitOn " " task))) = false.
Proof.
  apply join_no_character; [reflexivity |].
  intros p Hp. apply (splitOn_no_separator " " task).
  rewrite <- (firstn_skipn 3 (splitOn " " task)). apply in_or_app. now left.
Qed.

Section Phases.

Variable provider : OpenAIService.Provider.
Variable terminalInput : nat -> string -> Result string.
Variable terminalConfirm : nat -> string -> Result bool.
Variable clockISO : nat -> string.
Variable clockMs : nat -> Z.
Variable cwd : FileService.Path.
Variable roundUserPrompt : Round -> list string -> TaskContext -> Philosophy -> string.
Variable technicalUserPrompt : Philosophy -> TaskContext -> list string -> string.
Variable outputUserPrompt : Philosophy -> TechnicalSpec -> TaskContext -> string.
Variable extractSynthesis : string -> string.
Variable toLowerCaseJS : string -> string.

Lemma generateResponse_Ok (request : OpenAIService.Request) (w w' : World)
    (reply : OpenAIService.Reply) :
  generateResponse provider request w = (Ok reply, w') ->
  OpenAIService.content reply <> EmptyString
  /\ llmCalls w' = S (llmCalls w)
  /\ memory w' = memory w /\ openai w' = openai w /\ files w' = files w
  /\ prompts w' = prompts w /\ ticks w' = ticks w.
Proof.
  unfold generateResponse. intros [= E <-]. cbn. repeat split.
  unfold OpenAIService.generateResponseAt in E.
  destruct (provider (llmCalls w) request) as [raw|]; [|discriminate].
  destruct (OpenAIService.raw_content raw) as [c|]; [|discriminate].
  destruct (String.eqb c EmptyString) eqn:Ec; [discriminate |].
  injection E as <-. cbn. now apply String.eqb_neq.
Qed.

(** Recording an interaction touches the bookkeeping only. *)
Lemma track_frame (expertName round : string) (callCount : Z) (insights : list string)
    (responseId : option string) (w w' : World) (r : Result unit) :
  track expertName round callCount insights responseId w = (r, w') ->
  memory w' = memory w /\ files w' = files w /\ llmCalls w' = llmCalls w
  /\ prompts w' = prompts w /\ ticks w' = ticks w.
Proof.
  unfold track, liftOpenAI.
  destruct (bind _ _ (openai w)) as [r0 s].
  intros [= _ <-]. now cbn.
Qed.

(** X14: the specification that Phase 2 returns is named after the task:
    its name holds no space, it is the task itself when the task holds
    none, and its description is the task.  Its implementation is the
    content of the reply to the one call that the phase makes to the
    provider, the request for the technical experts of the output type;
    that content is not empty.  The two lists of the specification are
    empty. *)
Theorem translateToSpec_names_the_task (philosophy : Philosophy) (context : TaskContext)
    (w w' : World) (spec : TechnicalSpec) :
  translateToSpec provider technicalUserPrompt philosophy context w = (Ok spec, w') ->
  includes " " (spec_name spec) = false
  /\ (includes " " (task context) = false -> spec_name spec = task context)
  /\ spec_description spec = task context
  /\ (exists response,
        OpenAIService.generateResponseAt provider (llmCalls w)
          (OpenAIService.mkRequest
             (technicalUserPrompt philosophy context
                (selectTechnicalExperts (outputType context)))
             OpenAIService.high OpenAIService.high None)
        = Ok response
        /\ spec_implementation spec = OpenAIService.content response)
  /\ spec_implementation spec <> EmptyString
  /\ setupCommands spec = []
  /\ criticalNotes spec = []
  /\ llmCalls w' = S (llmCalls w).
Proof.
  unfold translateToSpec.
  intros (response & wa & Hr & H)%bind_Ok.
  apply bind_Ok in H as ([] & wb & Ht & H).
  unfold ret in H. injection H as <- <-.
  destruct (generateResponse_Ok _ _ _ _ Hr) as (Hne & Hcalls & _).
  cbn [spec_name spec_description spec_implementation setupCommands criticalNotes].
  split; [apply specName_no_space |].
  split; [intros Hnone; now rewrite (splitOn_whole " " _ Hnone) |].
  split; [reflexivity |].
  split.
  { exists response. split; [|reflexivity].
    unfold generateResponse in Hr. now injection Hr as -> _. }
  split; [exact Hne |]. split; [reflexivity |]. split; [reflexivity |].
  destruct (track_frame _ _ _ _ _ _ _ _ Ht) as (_ & _ & -> & _). exact Hcalls.
Qed.

(** *** The answers to the clarifying questions *)

Section Answers.

Variable answer : nat -> string.
Hypothesis terminal_answers : forall n q, terminalInput n q = Ok (answer n).

Lemma input_answer (message : string) (w : World) :
  input terminalInput message w = (Ok (answer (prompts w)), nextPrompt w).
Proof. unfold input, mapFail. now rewrite terminal_answers. Qed.

Lemma askQuestionsFrom_cons (question : string) (rest : list string)
    (constraints preferences : JsObject) (w : World) :
  askQuestionsFrom terminalInput (question :: rest) constraints preferences w
  = (if includes "production" question
     then askQuestionsFrom terminalInput rest
            (setProperty "environment" (answer (prompts w)) constraints) preferences
     else if includes "emotional tone" question
     then askQuestionsFrom terminalInput rest constraints
            (setProperty "tone" (answer (prompts w)) preferences)
     else if includes "scale" question
     then askQuestionsFrom terminalInput rest
            (setProperty "scale" (answer (prompts w)) constraints) preferences
     else if includes "technology stack" question
     then askQuestionsFrom terminalInput rest constraints
            (setProperty "tech_stack" (answer (prompts w)) preferences)
     else askQuestionsFrom terminalInput rest constraints preferences) (nextPrompt w).
Proof.
  cbn [askQuestionsFrom]. rewrite (bind_of_Ok _ _ _ _ _ (input_answer question w)).
  reflexivity.
Qed.

(** X15: when the user answers every prompt, the answers to the
    clarifying questions are all kept: each question that
    [generateClarifyingQuestions] can ask is one that [askQuestions]
    recognises.  The first answer is filed as the environment and the last
    as the technology stack; the tone and the scale are filed exactly when
    their questions are asked, between the two; one prompt is used per
    question, and there are two to four of them. *)
Theorem clarifying_answers_are_kept (initialPrompt : string) (w : World) :
  let questions := generateClarifyingQuestions initialPrompt in
  let visual :=
    matchesAny ["ui"; "interface"; "design"; "app"; "website"; "frontend"] initialPrompt in
  let data := matchesAny ["data"; "api"; "backend"; "database"; "process"] initialPrompt in
  let first := prompts w in
  exists constraints preferences w',
    askQuestions terminalInput questions w = (Ok (constraints, preferences), w')
    /\ prompts w' = (first + List.length questions)%nat
    /\ (2 <= List.length questions <= 4)%nat
    /\ (List.length constraints + List.length preferences = List.length questions)%nat
    /\ property "environment" constraints = Some (answer first)
    /\ property "tech_stack" preferences
       = Some (answer (first + List.length questions - 1)%nat)
    /\ property "tone" preferences
       = (if visual then Some (answer (S first)) else None)
    /\ property "scale" constraints
       = (if data then Some (answer (if visual then S (S first) else S first)) else None).
Proof.
  intros questions visual data first. subst questions visual data first.
  unfold generateClarifyingQuestions, askQuestions.
  destruct (matchesAny ["ui"; "interface"; "design"; "app"; "website"; "frontend"]
              initialPrompt);
    destruct (matchesAny ["data"; "api"; "backend"; "database"; "process"] initialPrompt);
    cbn [app];
    repeat (rewrite askQuestionsFrom_cons;
            repeat match goal with
                   | |- context [includes ?k ?q] =>
                       let b := eval vm_compute in (includes k q) in
                       change (includes k q) with b
                   end;
            cbv iota);
    cbn [askQuestionsFrom ret nextPrompt prompts setProperty];
    do 3 eexists; (split; [reflexivity |]);
    cbn [prompts List.length property setProperty].
    all: repeat split; try lia; try reflexivity.
    all: unfold nextPrompt; cbn [prompts].
    all: repeat match goal with
                | |- context [String.eqb ?a ?b] =>
                    let v := eval vm_compute in (String.eqb a b) in
                    change (String.eqb a b) with v
                end;
         cbv iota; cbn [property].
    all: repeat match goal with
                | |- context [String.eqb ?a ?b] =>
                    let v := eval vm_compute in (String.eqb a b) in
                    change (String.eqb a b) with v
                end;
         cbv iota.
    all: try lia; f_equal; f_equal; lia.
Qed.

End Answers.

(** *** The keys of the philosophy *)

Lemma keys_setProperty (key value : string) (obj : JsObject) :
  map fst (setProperty key value obj) = addKey key (map fst obj).
Proof.
  induction obj as [|[k v] obj IH]; [reflexivity |].
  cbn [setProperty map fst addKey]. destruct (String.eqb k key); cbn [map fst]; [reflexivity |].
  now rewrite IH.
Qed.

Lemma addKey_twice (key : string) (keys : list string) :
  addKey key (addKey key keys) = addKey key keys.
Proof.
  induction keys as [|k keys IH]; cbn [addKey].
  - now rewrite String.eqb_refl.
  - destruct (String.eqb k key) eqn:E; cbn [addKey]; rewrite E; [reflexivity |].
    now rewrite IH.
Qed.

Lemma property_outside (key : string) (obj : JsObject) :
  ~ In key (map fst obj) -> property key obj = None.
Proof.
  induction obj as [|[k v] obj IH]; [reflexivity |].
  cbn [map fst In property]. intros H.
  destruct (String.eqb_spec k key) as [->|Hne]; [exfalso; apply H; now left |].
  apply IH. intros Hin. apply H. now right.
Qed.

Lemma property_inside (key : string) (obj : JsObject) :
  In key (map fst obj) -> exists value, property key obj = Some value.
Proof.
  induction obj as [|[k v] obj IH]; [intros [] |].
  cbn [map fst In property]. intros H.
  destruct (String.eqb_spec k key) as [->|Hne]; [eauto |].
  destruct H as [H|H]; [congruence | now apply IH].
Qed.

(** The keys of the philosophy after the rounds: each round files its
    conclusion under its focus, once. *)
Lemma developRounds_keys (rounds : list Round) (experts : list string)
    (context : TaskContext) (philosophy philosophy' : Philosophy)
    (previous : option string) (w w' : World) :
  developRounds provider terminalInput terminalConfirm roundUserPrompt extractSynthesis
    rounds experts context philosophy previous w = (Ok philosophy', w') ->
  map fst philosophy'
  = fold_left (fun keys round => addKey (focus round) keys) rounds (map fst philosophy).
Proof.
  revert philosophy previous w.
  induction rounds as [|round rounds IH]; intros philosophy previous w; cbn [developRounds].
  - unfold ret. now intros [= <- _].
  - intros (response & wa & _ & H)%bind_Ok.
    apply bind_Ok in H as ([] & wb & _ & H).
    cbn [fold_left].
    destruct (shouldCheckWithUser round).
    + apply bind_Ok in H as (feedback & wc & _ & H).
      destruct (OpenAIService.truthy feedback).
      * apply bind_Ok in H as ([] & wd & _ & H).
        apply IH in H. now rewrite H, !keys_setProperty, addKey_twice.
      * apply IH in H. now rewrite H, keys_setProperty.
    + apply IH in H. now rewrite H, keys_setProperty.
Qed.

Lemma setProperty_twice (key value value' : string) (obj : JsObject) :
  setProperty key value' (setProperty key value obj) = setProperty key value' obj.
Proof.
  induction obj as [|[k v] obj IH]; cbn [setProperty].
  - now rewrite String.eqb_refl.
  - destruct (String.eqb k key) eqn:E; cbn [setProperty]; rewrite E; [reflexivity |].
    now rewrite IH.
Qed.

Section Refinements.

(** A user whose answers depend on what is asked, not on when: [wants]
    tells which rounds the user refines, [refinement] what the prompt for
    the refined text returns. *)
Variable wants : string -> bool.
Variable refinement : string -> string.
Hypothesis terminal_confirms :
  forall n focus,
    terminalConfirm n ("Would you like to refine the " ++ focus ++ "?") = Ok (wants focus).
Hypothesis terminal_refines :
  forall n focus,
    terminalInput n ("Enter your refined " ++ focus ++ ":") = Ok (refinement focus).

Lemma getUserFeedback_scripted (focus current : string) (w : World) :
  getUserFeedback terminalInput terminalConfirm focus current w
  = if wants focus
    then (Ok (Some (refinement focus)), nextPrompt (nextPrompt w))
    else (Ok None, nextPrompt w).
Proof.
  unfold getUserFeedback, bind, confirm, input, mapFail, ret.
  rewrite terminal_confirms. destruct (wants focus); [|reflexivity].
  now rewrite terminal_refines.
Qed.

(** One round of Phase 1: one call to the provider, and the value filed
    under the focus of the round. *)
Lemma developRounds_step (round : Round) (rest : list Round) (experts : list string)
    (context : TaskContext) (philosophy final : Philosophy) (previous : option string)
    (w w' : World) :
  developRounds provider terminalInput terminalConfirm roundUserPrompt extractSynthesis
    (round :: rest) experts context philosophy previous w = (Ok final, w') ->
  exists response w1,
    OpenAIService.generateResponseAt provider (llmCalls w)
      (conceptRequest (roundUserPrompt round experts context philosophy) previous)
    = Ok response
    /\ llmCalls w1 = S (llmCalls w)
    /\ developRounds provider terminalInput terminalConfirm roundUserPrompt extractSynthesis
         rest experts context
         (setProperty (focus round)
            (filed wants refinement round (extractSynthesis (OpenAIService.content response)))
            philosophy)
         (OpenAIService.replyId response) w1
       = (Ok final, w').
Proof.
  cbn [developRounds]. intros (response & wa & Hr & H)%bind_Ok.
  apply bind_Ok in H as ([] & wb & Ht & H).
  destruct (generateResponse_Ok _ _ _ _ Hr) as (_ & Hcalls & _).
  destruct (track_frame _ _ _ _ _ _ _ _ Ht) as (_ & _ & Hb & _).
  assert (Hreply : OpenAIService.generateResponseAt provider (llmCalls w)
                     (conceptRequest (roundUserPrompt round experts context philosophy)
                        previous)
                   = Ok response).
  { unfold generateResponse in Hr. injection Hr as Hr _. exact Hr. }
  exists response. unfold filed.
  destruct (shouldCheckWithUser round); cbn [andb].
  - unfold bind at 1 in H. rewrite getUserFeedback_scripted in H.
    destruct (wants (focus round)); cbn [andb].
    + cbn [OpenAIService.truthy] in H.
      destruct (String.eqb (refinement (focus round)) EmptyString); cbn [negb] in *.
      * eexists. split; [exact Hreply |]. split; [|exact H].
        cbn [nextPrompt llmCalls]. congruence.
      * apply bind_Ok in H as ([] & wd & Ht2 & H).
        destruct (track_frame _ _ _ _ _ _ _ _ Ht2) as (_ & _ & Hd & _).
        cbn [default from_option] in H. rewrite setProperty_twice in H.
        exists wd. split; [exact Hreply |]. split; [|exact H].
        rewrite Hd. cbn [nextPrompt llmCalls]. congruence.
    + cbn [OpenAIService.truthy] in H.
      eexists. split; [exact Hreply |]. split; [|exact H].
      cbn [nextPrompt llmCalls]. congruence.
  - exists wb. split; [exact Hreply |]. split; [congruence | exact H].
Qed.

(** The three rounds of Phase 1, one after the other. *)
Lemma developConcept_steps (context : TaskContext) (philosophy : Philosophy) (w w' : World) :
  developConcept provider terminalInput terminalConfirm roundUserPrompt extractSynthesis
    context w = (Ok philosophy, w') ->
  exists r0 r1 r2,
    let experts := selectConceptualExperts context in
    let v0 := extractSynthesis (OpenAIService.content r0) in
    let v1 := filed wants refinement (mkRound "emotional_resonance" "ExperienceArchitect")
                (extractSynthesis (OpenAIService.content r1)) in
    let v2 := filed wants refinement (mkRound "technical_bridge" "TechnicalPoet")
                (extractSynthesis (OpenAIService.content r2)) in
    OpenAIService.generateResponseAt provider (llmCalls w)
      (conceptRequest
         (roundUserPrompt (mkRound "historical_grounding" "DesignPhilosopher") experts
            context [])
         None)
    = Ok r0
    /\ OpenAIService.generateResponseAt provider (S (llmCalls w))
         (conceptRequest
            (roundUserPrompt (mkRound "emotional_resonance" "ExperienceArchitect") experts
               context [("historical_grounding", v0)])
            (OpenAIService.replyId r0))
       = Ok r1
    /\ OpenAIService.generateResponseAt provider (S (S (llmCalls w)))
         (conceptRequest
            (roundUserPrompt (mkRound "technical_bridge" "TechnicalPoet") experts context
               [("historical_grounding", v0); ("emotional_resonance", v1)])
            (OpenAIService.replyId r1))
       = Ok r2
    /\ philosophy
       = [("historical_grounding", v0); ("emotional_resonance", v1);
          ("technical_bridge", v2)].
Proof.
  unfold developConcept, conceptRounds. intros H.
  apply developRounds_step in H as (r0 & w1 & H0 & C1 & H).
  apply developRounds_step in H as (r1 & w2 & H1 & C2 & H).
  apply developRounds_step in H as (r2 & w3 & H2 & C3 & H).
  cbn [developRounds] in H. unfold ret in H. injection H as <- _.
  rewrite C1 in H1. rewrite C2, C1 in H2.
  exists r0, r1, r2. cbn zeta.
  split; [exact H0 |]. split; [exact H1 |]. split; [exact H2 | reflexivity].
Qed.

End Refinements.

(** X16: the philosophy that Phase 1 returns has exactly three entries,
    in the order of the rounds: [historical_grounding],
    [emotional_resonance] and [technical_bridge]; no entry is filed under
    [historicalGrounding], the key that the memory store reads.  With a
    user whose answers depend on what is asked, the three values are
    these: the conclusion drawn from the first reply; for each of the two
    later rounds the refinement, when the user chose to refine the round
    and the prompt for it returned a text that is not empty, and else the
    conclusion drawn from the reply of the round.  Each round asks the
    provider once, with the entries filed so far and the response id of
    the round before. *)
Theorem developConcept_keys (context : TaskContext) (philosophy : Philosophy)
    (w w' : World) :
  developConcept provider terminalInput terminalConfirm roundUserPrompt extractSynthesis
    context w = (Ok philosophy, w') ->
  map fst philosophy = ["historical_grounding"; "emotional_resonance"; "technical_bridge"]
  /\ (forall key, In key (map focus conceptRounds) ->
                  exists value, property key philosophy = Some value)
  /\ property "historicalGrounding" philosophy = None
  /\ MemoryService.formatSuccess
       (MemoryService.mkRow 1 (task context) philosophy
          (mkTechnicalSpec EmptyString EmptyString EmptyString [] []) 0)
     = task context ++ ": "
  /\ forall (wants : string -> bool) (refinement : string -> string),
       (forall n focus,
          terminalConfirm n ("Would you like to refine the " ++ focus ++ "?")
          = Ok (wants focus)) ->
       (forall n focus,
          terminalInput n ("Enter your refined " ++ focus ++ ":") = Ok (refinement focus)) ->
       exists r0 r1 r2,
         let experts := selectConceptualExperts context in
         let v0 := extractSynthesis (OpenAIService.content r0) in
         let v1 := filed wants refinement (mkRound "emotional_resonance" "ExperienceArchitect")
                     (extractSynthesis (OpenAIService.content r1)) in
         let v2 := filed wants refinement (mkRound "technical_bridge" "TechnicalPoet")
                     (extractSynthesis (OpenAIService.content r2)) in
         OpenAIService.generateResponseAt provider (llmCalls w)
           (conceptRequest
              (roundUserPrompt (mkRound "historical_grounding" "DesignPhilosopher") experts
                 context [])
              None)
         = Ok r0
         /\ OpenAIService.generateResponseAt provider (S (llmCalls w))
              (conceptRequest
                 (roundUserPrompt (mkRound "emotional_resonance" "ExperienceArchitect")
                    experts context [("historical_grounding", v0)])
                 (OpenAIService.replyId r0))
            = Ok r1
         /\ OpenAIService.generateResponseAt provider (S (S (llmCalls w)))
              (conceptRequest
                 (roundUserPrompt (mkRound "technical_bridge" "TechnicalPoet") experts
                    context [("historical_grounding", v0); ("emotional_resonance", v1)])
                 (OpenAIService.replyId r1))
            = Ok r2
         /\ philosophy
            = [("historical_grounding", v0); ("emotional_resonance", v1);
               ("technical_bridge", v2)]
         /\ (forall focus lead,
               In (mkRound focus lead) (tail conceptRounds) ->
               wants focus = true -> refinement focus <> EmptyString ->
               property focus philosophy = Some (refinement focus)).
Proof.
  intros Hrun. pose proof Hrun as H.
  unfold developConcept in H. apply developRounds_keys in H.
  cbn in H. split; [exact H |].
  assert (Hnone : property "historicalGrounding" philosophy = None).
  { apply property_outside. rewrite H. cbn [In].
    intros [E|[E|[E|[]]]]; discriminate E. }
  split; [|split; [exact Hnone | split]].
  - intros key Hkey. apply property_inside. now rewrite H.
  - unfold MemoryService.formatSuccess. cbn [MemoryService.mem_task MemoryService.mem_philosophy].
    now rewrite Hnone.
  - intros wants refinement Hc Hi.
    destruct (developConcept_steps wants refinement Hc Hi context philosophy w w' Hrun)
      as (r0 & r1 & r2 & H0 & H1 & H2 & Hp).
    exists r0, r1, r2. cbn zeta in *.
    split; [exact H0 |]. split; [exact H1 |]. split; [exact H2 |]. split; [exact Hp |].
    intros focus lead Hin Hw Hne. rewrite Hp.
    assert (Ht : String.eqb (refinement focus) EmptyString = false)
      by now apply String.eqb_neq.
    destruct Hin as [E|[E|[]]]; injection E as <- <-; unfold filed;
      cbn [ModeInference.focus]; rewrite Hw, Ht; reflexivity.
Qed.

(** *** The archive of a run *)

Lemma interactiveTaskAnalysis_task (initialPrompt : string) (w w' : World)
    (context : TaskContext) :
  interactiveTaskAnalysis terminalInput toLowerCaseJS initialPrompt w = (Ok context, w') ->
  task context = initialPrompt /\ outputType context = inferOutputType initialPrompt.
Proof.
  unfold interactiveTaskAnalysis.
  intros (responses & wa & _ & H)%bind_Ok.
  apply bind_Ok in H as (seeds & wb & _ & H).
  unfold ret in H. injection H as <- _. now split.
Qed.

(** X17: what a run that succeeds leaves in the memory store: one more
    session entry and one more row, both for the prompt the run was given,
    with the philosophy and the specification the run returns.  The
    philosophy is filed under the foci of the three rounds, so the text
    that a later [findRelevantSuccesses] makes of the row is the prompt
    followed by a colon and nothing else.  The output file named by the
    result is in place. *)
Theorem run_archives_the_prompt (initialPrompt : string) (w w' : World)
    (result : LoopResult) :
  run provider terminalInput terminalConfirm clockISO clockMs cwd roundUserPrompt
    technicalUserPrompt outputUserPrompt extractSynthesis toLowerCaseJS initialPrompt w
  = (Ok result, w') ->
  exists now currentTimestamp,
    let row :=
      MemoryService.mkRow (MemoryService.nextId (MemoryService.memories (memory w)))
        initialPrompt (philosophy result) (spec result) currentTimestamp in
    MemoryService.memories (memory w')
    = (MemoryService.memories (memory w) ++ [row])%list
    /\ MemoryService.sessionMemory (memory w')
       = (MemoryService.sessionMemory (memory w)
          ++ [MemoryService.mkEntry initialPrompt (philosophy result) (spec result) now])%list
    /\ map fst (philosophy result)
       = ["historical_grounding"; "emotional_resonance"; "technical_bridge"]
    /\ MemoryService.formatSuccess row = initialPrompt ++ ": "
    /\ exists content, files w' !! outputPath result = Some (FileService.File content).
Proof.
  unfold run. intros (done & w1 & P & Hw)%bind_Ok.
  destruct done as [[[context ph] sp] path].
  pose proof (CreativeAILoopFacts.keeps_phases provider terminalInput terminalConfirm
                clockISO cwd roundUserPrompt technicalUserPrompt outputUserPrompt
                extractSynthesis toLowerCaseJS initialPrompt w) as Hkeep.
  rewrite P in Hkeep. cbn [snd] in Hkeep.
  destruct (CreativeAILoopFacts.phases_saved _ _ _ _ _ _ _ _ _ _ _ _ _ _ P)
    as [content Hfile].
  cbn [snd] in Hfile.
  assert (Hparts : task context = initialPrompt
                   /\ map fst ph
                      = ["historical_grounding"; "emotional_resonance"; "technical_bridge"]).
  { unfold phases in P.
    apply bind_Ok in P as (context0 & wa & Ha & P).
    apply bind_Ok in P as (ph0 & wb & Hb & P).
    apply bind_Ok in P as (sp0 & wc & _ & P).
    apply bind_Ok in P as (path0 & wd & _ & P).
    unfold ret in P. injection P as -> -> _ _ _.
    split; [apply (interactiveTaskAnalysis_task _ _ _ _ Ha) |].
    unfold developConcept in Hb. apply developRounds_keys in Hb. exact Hb. }
  destruct Hparts as [Htask Hkeys].
  unfold wrapUp in Hw.
  apply bind_Ok in Hw as (interactions & wx & Hx & Hw).
  apply bind_Ok in Hw as (now & wy & Hy & Hw).
  apply bind_Ok in Hw as (currentTimestamp & wt & Ht & Hw).
  apply bind_Ok in Hw as ([] & wz & Hz & Hw).
  unfold ret in Hw. injection Hw as <- <-.
  cbn [philosophy spec outputPath].
  unfold liftOpenAI, OpenAIService.getExpertInteractions in Hx.
  cbv beta iota zeta in Hx. injection Hx as _ <-.
  cbv beta in Hy. injection Hy as _ <-.
  cbv beta in Ht. injection Ht as _ <-.
  unfold liftMemory, nextTick in Hz. cbn [memory files openai llmCalls prompts ticks] in Hz.
  destruct (MemoryService.storeSuccess now currentTimestamp (task context) ph sp (memory w1))
    as [r s] eqn:S.
  cbv beta iota in Hz. injection Hz as -> <-. cbn [memory files].
  destruct (MemorySearchFacts.storeSuccess_Ok _ _ _ _ _ _ _ S)
    as (_ & Hsession & Hrows & _).
  rewrite Hkeep, Htask in *.
  exists now, currentTimestamp. cbn zeta. split; [exact Hrows |]. split; [exact Hsession |].
  split; [exact Hkeys |]. split; [|eauto].
  unfold MemoryService.formatSuccess.
  cbn [MemoryService.mem_task MemoryService.mem_philosophy].
  rewrite property_outside; [reflexivity |].
  rewrite Hkeys. cbn [In]. intros [E|[E|[E|[]]]]; discriminate E.
Qed.

(** *** The calls to the provider *)

Lemma spends_quiet {A : Type} (m : Eff World A) :
  (forall w, llmCalls (snd (m w)) = llmCalls w) -> spends 0 m.
Proof. intros H w. rewrite H. split; [lia | intros; lia]. Qed.

Lemma spends_bind {A B : Type} (n k : nat) (m : Eff World A) (f : A -> Eff World B) :
  spends n m -> (forall a, spends k (f a)) -> spends (n + k) (bind m f).
Proof.
  intros Hm Hf w. unfold bind. destruct (Hm w) as [Hb He].
  destruct (m w) as [[a|e] w0]; cbn [fst snd] in *.
  - specialize (He a eq_refl). destruct (Hf a w0) as [Hb' He']. split; [lia |].
    intros b Hk. rewrite (He' b Hk). lia.
  - split; [lia | discriminate].
Qed.

Lemma spends_ret {A : Type} (a : A) : spends 0 (ret a : Eff World A).
Proof. now apply spends_quiet. Qed.

Lemma spends_generateResponse (request : OpenAIService.Request) :
  spends 1 (generateResponse provider request).
Proof. intros w. cbn. split; [lia | intros; lia]. Qed.

Lemma spends_input (message : string) : spends 0 (input terminalInput message).
Proof.
  apply spends_quiet. intros w. unfold input, mapFail.
  now destruct (terminalInput (prompts w) message).
Qed.

Lemma spends_confirm (message : string) : spends 0 (confirm terminalConfirm message).
Proof.
  apply spends_quiet. intros w. unfold confirm, mapFail.
  now destruct (terminalConfirm (prompts w) message).
Qed.

Lemma spends_liftOpenAI {A : Type} (m : Eff OpenAIService.Store A) : spends 0 (liftOpenAI m).
Proof. apply spends_quiet. intros w. unfold liftOpenAI. now destruct (m (openai w)). Qed.

Lemma spends_liftFiles {A : Type} (m : Eff FileService.FS A) : spends 0 (liftFiles m).
Proof. apply spends_quiet. intros w. unfold liftFiles. now destruct (m (files w)). Qed.

Lemma spends_liftMemory {A : Type} (m : Eff MemoryService.Store A) : spends 0 (liftMemory m).
Proof. apply spends_quiet. intros w. unfold liftMemory. now destruct (m (memory w)). Qed.

Lemma spends_askQuestionsFrom (questions : list string) (constraints preferences : JsObject) :
  spends 0 (askQuestionsFrom terminalInput questions constraints preferences).
Proof.
  revert constraints preferences.
  induction questions as [|q questions IH]; intros constraints preferences;
    cbn [askQuestionsFrom]; [apply spends_ret |].
  apply (spends_bind 0 0); [apply spends_input |]. intros answer.
  repeat match goal with |- context [if ?b then _ else _] => destruct b end; apply IH.
Qed.

Lemma spends_getUserFeedback (focus current : string) :
  spends 0 (getUserFeedback terminalInput terminalConfirm focus current).
Proof.
  unfold getUserFeedback. apply (spends_bind 0 0); [apply spends_confirm |].
  intros [|]; [|apply spends_ret].
  apply (spends_bind 0 0); [apply spends_input |]. intros refined. apply spends_ret.
Qed.

Lemma spends_developRounds (rounds : list Round) (experts : list string)
    (context : TaskContext) (philosophy : Philosophy) (previous : option string) :
  spends (List.length rounds)
    (developRounds provider terminalInput terminalConfirm roundUserPrompt extractSynthesis
       rounds experts context philosophy previous).
Proof.
  revert philosophy previous.
  induction rounds as [|round rounds IH]; intros philosophy previous;
    cbn [developRounds List.length]; [apply spends_ret |].
  apply (spends_bind 1 (List.length rounds)); [apply spends_generateResponse |].
  intros response.
  apply (spends_bind 0 (List.length rounds)); [apply spends_liftOpenAI |]. intros _.
  destruct (shouldCheckWithUser round); [|apply IH].
  apply (spends_bind 0 (List.length rounds)); [apply spends_getUserFeedback |].
  intros feedback. destruct (OpenAIService.truthy feedback); [|apply IH].
  apply (spends_bind 0 (List.length rounds)); [apply spends_liftOpenAI |]. intros _.
  apply IH.
Qed.

Lemma spends_phases (initialPrompt : string) :
  spends 5
    (phases provider terminalInput terminalConfirm clockISO cwd roundUserPrompt
       technicalUserPrompt outputUserPrompt extractSynthesis toLowerCaseJS initialPrompt).
Proof.
  unfold phases.
  apply (spends_bind 0 5).
  { unfold interactiveTaskAnalysis, askQuestions.
    apply (spends_bind 0 0); [apply spends_askQuestionsFrom |]. intros responses.
    apply (spends_bind 0 0); [apply spends_liftMemory |]. intros seeds. apply spends_ret. }
  intros taskContext. apply (spends_bind 3 2); [apply spends_developRounds |].
  intros philosophy. apply (spends_bind 1 1).
  { unfold translateToSpec.
    apply (spends_bind 1 0); [apply spends_generateResponse |]. intros response.
    apply (spends_bind 0 0); [apply spends_liftOpenAI |]. intros _. apply spends_ret. }
  intros spec. apply (spends_bind 1 0); [|intros outputPath; apply spends_ret].
  unfold formatOutput.
  apply (spends_bind 1 0); [apply spends_generateResponse |]. intros response.
  apply (spends_bind 0 0); [apply spends_liftOpenAI |]. intros _.
  apply (spends_bind 0 0); [now apply spends_quiet |]. intros iso.
  apply spends_liftFiles.
Qed.

(** X18: a run asks the provider five times when it succeeds (once per
    round of Phase 1, once for the specification, once for the output),
    and never more than five times when it fails; nothing else in a run
    reaches the provider. *)
Theorem run_spends_five_calls (initialPrompt : string) (w : World) :
  let out :=
    run provider terminalInput terminalConfirm clockISO clockMs cwd roundUserPrompt
      technicalUserPrompt outputUserPrompt extractSynthesis toLowerCaseJS initialPrompt w in
  (llmCalls w <= llmCalls (snd out) <= llmCalls w + 5)%nat
  /\ (forall result, fst out = Ok result -> llmCalls (snd out) = (llmCalls w + 5)%nat).
Proof.
  intros out. subst out.
  assert (H : spends 5
                (run provider terminalInput terminalConfirm clockISO clockMs cwd
                   roundUserPrompt technicalUserPrompt outputUserPrompt extractSynthesis
                   toLowerCaseJS initialPrompt)).
  { unfold run. apply (spends_bind 5 0); [apply spends_phases |].
    intros [[[taskContext philosophy] spec] outputPath]. unfold wrapUp.
    apply (spends_bind 0 0); [apply spends_liftOpenAI |]. intros interactions.
    apply (spends_bind 0 0); [now apply spends_quiet |]. intros now.
    apply (spends_bind 0 0); [now apply spends_quiet |]. intros currentTimestamp.
    apply (spends_bind 0 0); [apply spends_liftMemory |]. intros _. apply spends_ret. }
  exact (H w).
Qed.

End Phases.

(** X15 at work: a task that is both visual and about data gets the four
    questions, and a user who types the number of each prompt sees every
    number filed. *)
Lemma clarifying_answers_for_a_data_app :
  exists constraints preferences,
    fst (askQuestions numbering (generateClarifyingQuestions "design a data api") startWorld)
    = Ok (constraints, preferences)
    /\ property "environment" constraints = Some "0"
    /\ property "tone" preferences = Some "1"
    /\ property "scale" constraints = Some "2"
    /\ property "tech_stack" preferences = Some "3".
Proof.
  destruct (clarifying_answers_are_kept numbering (fun n => ofZ (Z.of_nat n))
              (fun _ _ => eq_refl) "design a data api" startWorld)
    as (constraints & preferences & w' & E & _ & _ & _ & Henv & Hstack & Htone & Hscale).
  exists constraints, preferences. rewrite E.
  split; [reflexivity |]. split; [exact Henv |]. split; [exact Htone |].
  split; [exact Hscale | exact Hstack].
Defined.

(** X14 at work: the specification of the dashboard, whose
    implementation is what the provider replied. *)
Lemma translateToSpec_of_a_dashboard :
  exists spec w',
    translateToSpec replying plainTechnicalPrompt []
      (mkTaskContext "build a dashboard" "general" [] [] []) startWorld
    = (Ok spec, w')
    /\ includes " " (spec_name spec) = false
    /\ spec_description spec = "build a dashboard"
    /\ spec_implementation spec = "**Synthesis**: keep it small".
Proof.
  destruct (translateToSpec replying plainTechnicalPrompt []
              (mkTaskContext "build a dashboard" "general" [] [] []) startWorld)
    as [[spec|e] w'] eqn:E; [|vm_compute in E; discriminate E].
  destruct (translateToSpec_names_the_task _ _ _ _ _ _ _ E)
    as (Hname & _ & Hdesc & (response & Hr & Himpl) & _).
  exists spec, w'. split; [reflexivity |]. split; [exact Hname |]. split; [exact Hdesc |].
  rewrite Himpl. injection Hr as <-. reflexivity.
Defined.

(** X16 at work: Phase 1 for the dashboard, with a user who refines the
    technical bridge and leaves the emotional resonance as it is. *)
Lemma developConcept_of_a_dashboard :
  exists philosophy w',
    developConcept replying typing refiningBridge plainRoundPrompt wholeReply
      (mkTaskContext "build a dashboard" "general" [] [] []) startWorld
    = (Ok philosophy, w')
    /\ philosophy
       = [ ("historical_grounding", "**Synthesis**: keep it small");
           ("emotional_resonance", "**Synthesis**: keep it small");
           ("technical_bridge", "Make it reactive.") ]
    /\ property "historicalGrounding" philosophy = None.
Proof.
  destruct (developConcept replying typing refiningBridge plainRoundPrompt wholeReply
              (mkTaskContext "build a dashboard" "general" [] [] []) startWorld)
    as [[philosophy|e] w'] eqn:E; [|vm_compute in E; discriminate E].
  destruct (developConcept_keys _ _ _ _ _ _ _ _ _ E) as (_ & _ & Hnone & _ & Hvalues).
  destruct (Hvalues
              (fun focus =>
                 String.eqb ("Would you like to refine the " ++ focus ++ "?")
                   "Would you like to refine the technical_bridge?")
              (fun _ => "Make it reactive.")
              (fun _ _ => eq_refl) (fun _ _ => eq_refl))
    as (r0 & r1 & r2 & H0 & H1 & H2 & Hp & _).
  exists philosophy, w'. split; [reflexivity |]. split; [|exact Hnone].
  cbn zeta in *. injection H0 as <-. injection H1 as <-. injection H2 as <-. exact Hp.
Defined.

(** X17 at work: the run for the dashboard, next to the archived one. *)
Lemma run_archives_a_dashboard :
  exists result w' row,
    run replying answering declining fixedISO fixedMs ["srv"] plainRoundPrompt
      plainTechnicalPrompt plainOutputPrompt wholeReply toLowerCase "build a dashboard" startWorld
    = (Ok result, w')
    /\ MemoryService.memories (memory w') = [archived; row]
    /\ MemoryService.formatSuccess row = "build a dashboard: ".
Proof.
  destruct (run replying answering declining fixedISO fixedMs ["srv"] plainRoundPrompt
              plainTechnicalPrompt plainOutputPrompt wholeReply toLowerCase "build a dashboard"
              startWorld) as [res w'] eqn:E.
  assert (Hres : exists result, res = Ok result).
  { change res with (fst (res, w')). rewrite <- E. vm_compute. eauto. }
  destruct Hres as [result ->].
  destruct (run_archives_the_prompt _ _ _ _ _ _ _ _ _ _ _ _ _ _ _ E)
    as (now & currentTimestamp & Hrows & _ & _ & Hseed & _).
  exists result, w'. eexists. split; [reflexivity |]. split; [exact Hrows | exact Hseed].
Defined.

End OrchestratorFacts.

(** ** The factory: what evolution, creation and search keep *)

Module DynamicAgentTeamsFacts.

Import DynamicAgentFactory DynamicAgentFactoryWords DynamicAgentFactoryFacts
  DynamicAgentTeams DynamicAgentTeamsWords EffFacts.

(** *** Invariants *)

Lemma preserves_ret (holds : World -> Prop) {A : Type} (a : A) : preserves holds (ret a).
Proof. intros w H. exact H. Qed.

Lemma preserves_fail (holds : World -> Prop) {A : Type} (e : string) :
  preserves holds (fail e : Eff World A).
Proof. intros w H. exact H. Qed.

Lemma preserves_bind (holds : World -> Prop) {A B : Type} (m : Eff World A)
    (k : A -> Eff World B) :
  preserves holds m -> (forall a, preserves holds (k a)) -> preserves holds (bind m k).
Proof.
  intros Hm Hk w H. unfold bind. specialize (Hm w H).
  destruct (m w) as [[a|e] w0]; cbn [snd] in *; [now apply Hk | exact Hm].
Qed.

(** A property that reads the table and the cache only is kept by every
    effect that writes neither. *)
Lemma preserves_keepsTable (holds : World -> Prop) {A : Type} (m : Eff World A) :
  (forall w w', db w' = db w -> agentCache w' = agentCache w -> holds w -> holds w') ->
  keepsTable m -> preserves holds m.
Proof. intros Hread Hm w H. destruct (Hm w) as [Hd Hc]. now apply (Hread w). Qed.

Lemma uniqueIds_reads (w w' : World) :
  db w' = db w -> agentCache w' = agentCache w -> uniqueIds w -> uniqueIds w'.
Proof. unfold uniqueIds. now intros -> _. Qed.

Lemma cachedAreStored_reads (w w' : World) :
  db w' = db w -> agentCache w' = agentCache w -> cachedAreStored w -> cachedAreStored w'.
Proof. unfold cachedAreStored. now intros -> ->. Qed.

Lemma ids_updateById (agentId : string) (f : AgentRow -> AgentRow) (rows : list AgentRow) :
  (forall r, row_id (f r) = row_id r) ->
  map row_id (updateById agentId f rows) = map row_id rows.
Proof.
  intros Hf. unfold updateById. rewrite map_map. apply map_ext.
  intros r. now destruct (hasId agentId r).
Qed.

Lemma selectById_ids (agentId : string) (rows : list AgentRow) :
  selectById agentId rows = None <-> ~ In agentId (map row_id rows).
Proof.
  unfold selectById. induction rows as [|r rows IH]; [split; [intros _ [] | reflexivity] |].
  cbn [List.find map In]. unfold hasId at 1.
  destruct (String.eqb_spec (row_id r) agentId) as [E|E].
  - split; [discriminate | intros H; exfalso; apply H; now left].
  - rewrite IH. split; [intros H [F|F]; [congruence | now apply H] | intros H F; apply H; now right].
Qed.

Lemma selectById_same_ids (agentId : string) (rows rows' : list AgentRow) :
  map row_id rows' = map row_id rows ->
  selectById agentId rows <> None -> selectById agentId rows' <> None.
Proof. intros E H F. apply H. apply selectById_ids. rewrite <- E. now apply selectById_ids. Qed.

Lemma selectById_grows (agentId : string) (rows more : list AgentRow) :
  selectById agentId rows <> None -> selectById agentId (rows ++ more) <> None.
Proof. intros H. rewrite selectById_app. now destruct (selectById agentId rows). Qed.

Lemma uniqueIds_incrementUsage (agentId : string) : preserves uniqueIds (incrementUsage agentId).
Proof.
  intros w H. unfold uniqueIds, incrementUsage, modify in *. cbn [snd db setDb].
  now rewrite ids_updateById.
Qed.

Lemma cachedAreStored_incrementUsage (agentId : string) :
  preserves cachedAreStored (incrementUsage agentId).
Proof.
  intros w H key agent Hk. unfold incrementUsage, modify in *. cbn [snd db setDb agentCache] in *.
  eapply selectById_same_ids; [|exact (H key agent Hk)]. now apply ids_updateById.
Qed.

Lemma updateSuccessRate_ids (agentId : string) (success : bool) (w : World) :
  map row_id (db (snd (updateSuccessRate agentId success w))) = map row_id (db w)
  /\ agentCache (snd (updateSuccessRate agentId success w)) = agentCache w.
Proof.
  rewrite updateSuccessRate_db. cbn [snd db setDb agentCache].
  destruct (selectById agentId (db w)); [|now split].
  split; [now apply ids_updateById | reflexivity].
Qed.

Lemma uniqueIds_updateSuccessRate (agentId : string) (success : bool) :
  preserves uniqueIds (updateSuccessRate agentId success).
Proof.
  intros w H. unfold uniqueIds in *.
  now destruct (updateSuccessRate_ids agentId success w) as [-> _].
Qed.

Lemma cachedAreStored_updateSuccessRate (agentId : string) (success : bool) :
  preserves cachedAreStored (updateSuccessRate agentId success).
Proof.
  intros w H key agent Hk.
  destruct (updateSuccessRate_ids agentId success w) as [Hd Hc]. rewrite Hc in Hk.
  eapply selectById_same_ids; [exact Hd | exact (H key agent Hk)].
Qed.

Lemma cacheSets_world (agent : DynamicAgent) (keys : list string) (w : World) :
  let out := fold_right (fun key rest => (modify (cacheSet key agent) ;; rest)%eff)
               (ret agent) keys w in
  fst out = Ok agent
  /\ db (snd out) = db w
  /\ forall key a, agentCache (snd out) !! key = Some a ->
                   a = agent \/ agentCache w !! key = Some a.
Proof.
  revert w. induction keys as [|k keys IH]; intros w; cbn [fold_right].
  - cbn. auto.
  - unfold bind at 1, modify at 1.
    destruct (IH (cacheSet k agent w)) as (Hf & Hd & Hc). cbv zeta in *.
    split; [exact Hf |]. split; [exact Hd |].
    intros key a Hk. destruct (Hc key a Hk) as [->|Hin]; [now left |].
    cbn [cacheSet agentCache] in Hin.
    destruct (decide (k = key)) as [->|Hne].
    + rewrite lookup_insert_eq in Hin. left. congruence.
    + rewrite lookup_insert_ne in Hin by exact Hne. now right.
Qed.

Lemma uniqueIds_storeAndCache (agent : DynamicAgent) (keys : list string) :
  preserves uniqueIds (storeAndCache agent keys).
Proof.
  intros w H. unfold storeAndCache, bind at 1, storeAgent.
  destruct (selectById (id agent) (db w)) eqn:E; [exact H |].
  destruct (cacheSets_world agent keys (setDb (db w ++ [rowOfAgent agent])%list w))
    as (_ & Hd & _). cbv zeta in Hd.
  unfold uniqueIds. rewrite Hd. cbn [db setDb]. rewrite map_app. cbn [map rowOfAgent row_id].
  apply NoDup_app. split; [exact H |]. split; [|apply NoDup_singleton].
  intros i Hi Hnew. apply list_elem_of_singleton in Hnew. subst i.
  apply list_elem_of_In in Hi. now apply selectById_ids in E.
Qed.

Lemma cachedAreStored_storeAndCache (agent : DynamicAgent) (keys : list string) :
  preserves cachedAreStored (storeAndCache agent keys).
Proof.
  intros w H. unfold storeAndCache, bind at 1, storeAgent.
  destruct (selectById (id agent) (db w)) eqn:E; [exact H |].
  destruct (cacheSets_world agent keys (setDb (db w ++ [rowOfAgent agent])%list w))
    as (_ & Hd & Hc). cbv zeta in Hd, Hc.
  intros key a Hk. rewrite Hd. cbn [db setDb].
  destruct (Hc key a Hk) as [->|Hold].
  - rewrite selectById_app, E. unfold selectById. cbn [List.find].
    now rewrite hasId_rowOfAgent.
  - apply selectById_grows. exact (H key a Hold).
Qed.

(** *** Opening a factory on a table *)

Lemma insertByUsage_perm (r : AgentRow) (l : list AgentRow) :
  Permutation (insertByUsage r l) (r :: l).
Proof.
  induction l as [|x l IH]; [reflexivity |]. cbn [insertByUsage].
  destruct (usage_count x <=? usage_count r)%Z; [reflexivity |].
  rewrite IH. apply perm_swap.
Qed.

Lemma orderByUsageDesc_perm (l : list AgentRow) : Permutation (orderByUsageDesc l) l.
Proof.
  unfold orderByUsageDesc. induction l as [|x l IH]; [reflexivity |].
  cbn [fold_right]. now rewrite insertByUsage_perm, IH.
Qed.

Lemma find_append {A : Type} (p : A -> bool) (l1 l2 : list A) :
  List.find p (l1 ++ l2)
  = match List.find p l1 with
    | Some a => Some a
    | None => List.find p l2
    end.
Proof.
  induction l1 as [|x l1 IH]; [reflexivity |]. cbn [app List.find].
  now destruct (p x).
Qed.

(** The cache after the loop over the loaded rows: under a key, the last
    loaded row with that id. *)
Lemma fold_cacheRow_lookup (l : list AgentRow) (cache : gmap string DynamicAgent)
    (key : string) :
  fold_left cacheRow l cache !! key
  = match List.find (fun r => String.eqb (row_id r) key) (rev l) with
    | Some r => Some (agentOfRow r)
    | None => cache !! key
    end.
Proof.
  revert cache. induction l as [|x l IH]; intros cache; [reflexivity |].
  cbn [fold_left rev]. rewrite IH, find_append. 
  destruct (List.find (fun r => String.eqb (row_id r) key) (rev l)); [reflexivity |].
  cbn [List.find]. unfold cacheRow.
  destruct (String.eqb_spec (row_id x) key) as [->|Hne].
  - apply lookup_insert_eq.
  - now apply lookup_insert_ne.
Qed.

Lemma find_by_id (l : list AgentRow) (r : AgentRow) :
  NoDup (map row_id l) -> In r l ->
  List.find (fun x => String.eqb (row_id x) (row_id r)) l = Some r.
Proof.
  induction l as [|x l IH]; [intros _ [] |].
  cbn [map]. intros Hnd Hin. apply NoDup_cons in Hnd as [Hx Hnd].
  cbn [List.find]. destruct Hin as [->|Hin]; [now rewrite String.eqb_refl |].
  destruct (String.eqb_spec (row_id x) (row_id r)) as [E|_]; [|now apply IH].
  exfalso. apply Hx. rewrite E. apply list_elem_of_In. now apply in_map.
Qed.

Lemma openFactory_cache (rows : list AgentRow) (n t : nat) (key : string) :
  agentCache (openFactory rows n t) !! key
  = option_map agentOfRow
      (List.find (fun r => String.eqb (row_id r) key)
         (rev (firstn 100 (orderByUsageDesc rows)))).
Proof.
  unfold openFactory, loadCachedAgents, modify. cbn [snd agentCache db].
  rewrite fold_cacheRow_lookup.
  destruct (List.find _ _); [reflexivity | apply lookup_empty].
Qed.

(** The keys of a factory that was just opened are ids of rows. *)
Lemma openFactory_keys (rows : list AgentRow) (n t : nat) (key : string)
    (agent : DynamicAgent) :
  agentCache (openFactory rows n t) !! key = Some agent ->
  exists r, In r rows /\ row_id r = key /\ agent = agentOfRow r.
Proof.
  rewrite openFactory_cache.
  destruct (List.find _ _) as [r|] eqn:F; [|discriminate].
  intros [= <-]. apply List.find_some in F as [Hin Hid].
  apply String.eqb_eq in Hid. exists r. split; [|now split].
  apply in_rev in Hin. apply MemorySearchFacts.firstn_In in Hin.
  eapply Permutation_in; [apply orderByUsageDesc_perm | exact Hin].
Qed.

Lemma agentOfRow_rowOfAgent (agent : DynamicAgent) : agentOfRow (rowOfAgent agent) = agent.
Proof. now destruct agent. Qed.

(** X19: what a restart gives back.  On a table of at most a hundred rows
    with distinct ids, the factory that the constructor builds holds every
    stored agent under its id, with the fields it was stored with; the
    statistics stay in the table.  The cache of a factory that was just
    opened has no other keys: an identity under which [createAgent] had
    cached an agent is not restored. *)
Theorem openFactory_restores_agents (rows : list AgentRow) (n t : nat) (r : AgentRow) :
  NoDup (map row_id rows) ->
  (List.length rows <= 100)%nat ->
  In r rows ->
  agentCache (openFactory rows n t) !! row_id r = Some (agentOfRow r)
  /\ (forall agent, r = rowOfAgent agent ->
                    agentCache (openFactory rows n t) !! id agent = Some agent)
  /\ (forall key agent,
        agentCache (openFactory rows n t) !! key = Some agent ->
        key = id agent /\ In key (map row_id rows))
  /\ db (openFactory rows n t) = rows.
Proof.
  intros Hnd Hlen Hin.
  assert (Hall : firstn 100 (orderByUsageDesc rows) = orderByUsageDesc rows).
  { apply firstn_all2. rewrite (Permutation_length (orderByUsageDesc_perm rows)). exact Hlen. }
  assert (Hr : agentCache (openFactory rows n t) !! row_id r = Some (agentOfRow r)).
  { rewrite openFactory_cache, Hall, find_by_id; [reflexivity | |].
    - rewrite map_rev, <- Permutation_rev, orderByUsageDesc_perm. exact Hnd.
    - apply in_rev. rewrite rev_involutive.
      eapply Permutation_in; [symmetry; apply orderByUsageDesc_perm | exact Hin]. }
  split; [exact Hr |]. split; [|split; [|reflexivity]].
  - intros agent ->. cbn [rowOfAgent row_id] in Hr. now rewrite agentOfRow_rowOfAgent in Hr.
  - intros key agent Hk. apply openFactory_keys in Hk as (x & Hx & <- & ->).
    split; [reflexivity | now apply in_map].
Qed.

(** X19 at work: the factory opened on the table of the example. *)
Lemma openFactory_on_the_sample_table :
  agentCache (openFactory [sampleRow] 0 0) !! "flowtuner_1690000000000" = Some sampleAgent.
Proof.
  apply (openFactory_restores_agents [sampleRow] 0 0 sampleRow).
  - apply NoDup_singleton.
  - cbn. lia.
  - now left.
Defined.

(** A factory that was just opened has a row for every cached agent. *)
Lemma openFactory_stored (rows : list AgentRow) (n t : nat) :
  cachedAreStored (openFactory rows n t).
Proof.
  intros key agent Hk. apply openFactory_keys in Hk as (r & Hr & _ & ->).
  change (db (openFactory rows n t)) with rows. cbn [agentOfRow id].
  intros F. apply selectById_ids in F. apply F. now apply in_map.
Qed.

Section Factory.

Variable provider : OpenAIService.Provider.
Variable clock : nat -> Z.
Variable parseAgentSpec : string -> option AgentSpec.
Variable parseNeeds : string -> option AgentNeeds.
Variable parseStrategy : string -> option Strategy.

Lemma keepsTable_gets {A : Type} (f : World -> A) : keepsTable (gets f).
Proof. intros w. now split. Qed.

Lemma keepsTable_analyzeAgentNeeds (task : string) (existingAgents : list string) :
  keepsTable (analyzeAgentNeeds provider parseNeeds task existingAgents).
Proof.
  unfold analyzeAgentNeeds. apply keepsTable_bind; [apply keepsTable_ask |].
  intros reply. destruct (parseNeeds reply); apply keepsTable_ret.
Qed.

Lemma keepsTable_createAgentTeam (task : string) (agents : list DynamicAgent) :
  keepsTable (createAgentTeam provider parseStrategy task agents).
Proof.
  unfold createAgentTeam. apply keepsTable_bind; [apply keepsTable_ask |].
  intros reply. destruct (parseStrategy reply); apply keepsTable_ret.
Qed.

(** Creation and evolution, with their tails named. *)
Lemma createAgent_tail (taskContext domain : string) (missingCapabilities : list string) :
  createAgent provider clock parseAgentSpec taskContext domain missingCapabilities
  = (let sorted := sortStrings missingCapabilities in
     let cacheKey := domain ++ "-" ++ join "-" sorted in
     let* cached := gets (fun w => agentCache w !! cacheKey) in
     match cached with
     | Some cached => incrementUsage (id cached) ;; ret cached
     | None =>
         let* spec := generateAgentSpec provider parseAgentSpec taskContext domain sorted in
         let* agentId := generateAgentId clock (agentSpec_name spec) in
         let* created := dateNow clock in
         let agent :=
           {| id := agentId;
              name := agentSpec_name spec;
              domain := agentSpec_domain spec;
              expertise := agentSpec_expertise spec;
              prompt := agentSpec_systemPrompt spec;
              capabilities := agentSpec_capabilities spec;
              createdAt := created;
              taskContext := taskContext |} in
         storeAndCache agent [cacheKey; agentId]
     end)%eff.
Proof. reflexivity. Qed.

Lemma evolveAgent_tail (agentId : string) (feedback : Feedback) :
  evolveAgent provider clock agentId feedback
  = (let* found := gets (fun w => agentCache w !! agentId) in
     match found with
     | None => fail ("Agent " ++ agentId ++ " not found")
     | Some agent =>
         updateSuccessRate agentId (success feedback) ;;
         match improvements feedback with
         | Some (imp :: imps) =>
             let* improvedPrompt := improveAgentPrompt provider agent (imp :: imps) in
             let* now := dateNow clock in
             let* created := dateNow clock in
             storeAndCache
               {| id := id agent ++ "-v" ++ ofZ now;
                  name := name agent;
                  domain := domain agent;
                  expertise := expertise agent;
                  prompt := improvedPrompt;
                  capabilities := capabilities agent;
                  createdAt := created;
                  taskContext := taskContext agent |}
               [id agent ++ "-v" ++ ofZ now]
         | _ => ret agent
         end
     end)%eff.
Proof. reflexivity. Qed.

Section Kept.

(** A property that reads the table and the cache only, and that the
    writes of the factory keep. *)
Variable holds : World -> Prop.
Hypothesis holds_reads :
  forall w w', db w' = db w -> agentCache w' = agentCache w -> holds w -> holds w'.
Hypothesis holds_incrementUsage : forall agentId, preserves holds (incrementUsage agentId).
Hypothesis holds_updateSuccessRate :
  forall agentId success, preserves holds (updateSuccessRate agentId success).
Hypothesis holds_storeAndCache :
  forall agent keys, preserves holds (storeAndCache agent keys).

Lemma kept_by_createAgent (taskContext domain : string) (missingCapabilities : list string) :
  preserves holds
    (createAgent provider clock parseAgentSpec taskContext domain missingCapabilities).
Proof.
  rewrite createAgent_tail. cbv zeta.
  apply preserves_bind; [apply preserves_keepsTable; [exact holds_reads | apply keepsTable_gets] |].
  intros [cached|].
  - apply preserves_bind; [apply holds_incrementUsage | intros _; apply preserves_ret].
  - apply preserves_bind;
      [apply preserves_keepsTable; [exact holds_reads | apply keepsTable_generateAgentSpec] |].
    intros spec. apply preserves_bind;
      [apply preserves_keepsTable; [exact holds_reads | apply keepsTable_generateAgentId] |].
    intros agentId. apply preserves_bind;
      [apply preserves_keepsTable; [exact holds_reads | apply keepsTable_dateNow] |].
    intros created. apply holds_storeAndCache.
Qed.

Lemma kept_by_evolveAgent (agentId : string) (feedback : Feedback) :
  preserves holds (evolveAgent provider clock agentId feedback).
Proof.
  rewrite evolveAgent_tail.
  apply preserves_bind; [apply preserves_keepsTable; [exact holds_reads | apply keepsTable_gets] |].
  intros [agent|]; [|apply preserves_fail].
  apply preserves_bind; [apply holds_updateSuccessRate |]. intros _.
  destruct (improvements feedback) as [[|imp imps]|]; try apply preserves_ret.
  apply preserves_bind;
    [apply preserves_keepsTable; [exact holds_reads | apply keepsTable_ask] |].
  intros improved. apply preserves_bind;
    [apply preserves_keepsTable; [exact holds_reads | apply keepsTable_dateNow] |].
  intros now. apply preserves_bind;
    [apply preserves_keepsTable; [exact holds_reads | apply keepsTable_dateNow] |].
  intros created. apply holds_storeAndCache.
Qed.

Lemma kept_by_findOrCreateFrom (task : string) (requiredDomains : list string)
    (agents : list DynamicAgent) :
  preserves holds
    (findOrCreateFrom provider clock parseAgentSpec parseNeeds task requiredDomains agents).
Proof.
  revert agents. induction requiredDomains as [|d ds IH]; intros agents;
    cbn [findOrCreateFrom]; [apply preserves_ret |].
  apply preserves_bind; [apply preserves_keepsTable; [exact holds_reads | apply keepsTable_gets] |].
  intros [|best existing]; [|apply IH].
  apply preserves_bind;
    [apply preserves_keepsTable; [exact holds_reads | apply keepsTable_analyzeAgentNeeds] |].
  intros analysis. destruct (needed analysis); [|apply IH].
  apply preserves_bind; [apply kept_by_createAgent | intros newAgent; apply IH].
Qed.

End Kept.

(** X20: the ids of the table stay distinct.  Whatever [createAgent],
    [evolveAgent] and [findOrCreateAgents] do, and whether they succeed or
    fail, a table without two rows of the same id is left without two rows
    of the same id: an INSERT goes through only for an id that is not in
    use, and an UPDATE does not touch the ids. *)
Theorem agent_ids_stay_distinct (taskContext domain : string)
    (missingCapabilities requiredDomains : list string) (agentId : string)
    (feedback : Feedback) :
  preserves uniqueIds
    (createAgent provider clock parseAgentSpec taskContext domain missingCapabilities)
  /\ preserves uniqueIds (evolveAgent provider clock agentId feedback)
  /\ preserves uniqueIds
       (findOrCreateAgents provider clock parseAgentSpec parseNeeds taskContext
          requiredDomains).
Proof.
  split; [|split].
  - apply kept_by_createAgent;
      [exact uniqueIds_reads | exact uniqueIds_incrementUsage | exact uniqueIds_storeAndCache].
  - apply kept_by_evolveAgent;
      [exact uniqueIds_reads | exact uniqueIds_updateSuccessRate
      | exact uniqueIds_storeAndCache].
  - apply kept_by_findOrCreateFrom;
      [exact uniqueIds_reads | exact uniqueIds_incrementUsage | exact uniqueIds_storeAndCache].
Qed.

(** X21: every cached agent is a stored agent.  When each agent of the
    cache has a row under its id, this is still so after [createAgent],
    [evolveAgent] and [findOrCreateAgents], whether they succeed or fail:
    an agent enters the cache only after its row is inserted, and no row
    is ever deleted.  It is so in a factory that was just opened, whatever
    the table. *)
Theorem cached_agents_stay_stored (taskContext domain : string)
    (missingCapabilities requiredDomains : list string) (agentId : string)
    (feedback : Feedback) :
  preserves cachedAreStored
    (createAgent provider clock parseAgentSpec taskContext domain missingCapabilities)
  /\ preserves cachedAreStored (evolveAgent provider clock agentId feedback)
  /\ preserves cachedAreStored
       (findOrCreateAgents provider clock parseAgentSpec parseNeeds taskContext
          requiredDomains)
  /\ forall rows n t, cachedAreStored (openFactory rows n t).
Proof.
  split; [|split; [|split; [|exact openFactory_stored]]].
  - apply kept_by_createAgent;
      [exact cachedAreStored_reads | exact cachedAreStored_incrementUsage
      | exact cachedAreStored_storeAndCache].
  - apply kept_by_evolveAgent;
      [exact cachedAreStored_reads | exact cachedAreStored_updateSuccessRate
      | exact cachedAreStored_storeAndCache].
  - apply kept_by_findOrCreateFrom;
      [exact cachedAreStored_reads | exact cachedAreStored_incrementUsage
      | exact cachedAreStored_storeAndCache].
Qed.

(** *** Evolution at the edges *)

(** X22: an evolution is refused for an id that the cache does not hold,
    also when the table has a row for it: the call fails with the message
    that names the id, and nothing is changed: no statistics are updated,
    no call is made to the provider, the clock is not read. *)
Theorem evolveAgent_unknown_agent (agentId : string) (feedback : Feedback) (w : World) :
  agentCache w !! agentId = None ->
  evolveAgent provider clock agentId feedback w
  = (Fail ("Agent " ++ agentId ++ " not found"), w).
Proof.
  intros Hmiss. unfold evolveAgent, bind at 1, gets. now rewrite Hmiss.
Qed.

(** X23: an evolution without improvements (none given, or an empty
    list) only updates the statistics: it returns the cached agent as it
    is, makes no call to the provider, does not read the clock, adds no
    row and leaves the cache alone. *)
Theorem evolveAgent_without_improvements (agentId : string) (success : bool)
    (improvements : option (list string)) (w : World) (agent : DynamicAgent) :
  agentCache w !! agentId = Some agent ->
  improvements = None \/ improvements = Some [] ->
  exists w',
    evolveAgent provider clock agentId (mkFeedback success improvements) w = (Ok agent, w')
    /\ db w' = db (snd (updateSuccessRate agentId success w))
    /\ List.length (db w') = List.length (db w)
    /\ agentCache w' = agentCache w
    /\ llmCalls w' = llmCalls w
    /\ ticks w' = ticks w.
Proof.
  intros Hcached Himp. unfold evolveAgent, bind at 1, gets. rewrite Hcached.
  cbn [DynamicAgentFactory.success DynamicAgentFactory.improvements].
  unfold bind. rewrite updateSuccessRate_db.
  eexists. split.
  - destruct Himp as [->| ->]; reflexivity.
  - cbn [snd db setDb agentCache llmCalls ticks]. repeat split.
    destruct (selectById agentId (db w)); [apply length_updateById | reflexivity].
Qed.

End Factory.

(** X22 at work: a factory that holds a row without having cached it. *)
Lemma evolveAgent_on_a_row_that_is_not_cached :
  let w := {| db := [sampleRow]; agentCache := ∅; llmCalls := 0; ticks := 0 |} in
  evolveAgent sampleProvider sampleClock "flowtuner_1690000000000" (mkFeedback true None) w
  = (Fail "Agent flowtuner_1690000000000 not found", w).
Proof.
  intros w.
  apply (evolveAgent_unknown_agent sampleProvider sampleClock "flowtuner_1690000000000"
           (mkFeedback true None) w).
  reflexivity.
Defined.

(** X23 at work: a success reported without improvements. *)
Lemma evolveAgent_reporting_a_success :
  exists w',
    evolveAgent sampleProvider sampleClock "flowtuner_1690000000000"
      (mkFeedback true (Some [])) sampleWorld
    = (Ok sampleAgent, w')
    /\ List.length (db w') = 1%nat
    /\ llmCalls w' = 0%nat.
Proof.
  destruct (evolveAgent_without_improvements sampleProvider sampleClock
              "flowtuner_1690000000000" true (Some []) sampleWorld sampleAgent eq_refl
              (or_intror eq_refl))
    as (w' & E & _ & Hlen & _ & Hcalls & _).
  exists w'. split; [exact E |]. split; [exact Hlen | exact Hcalls].
Defined.

(** *** Searching a domain *)

Lemma goesBefore_true (r x : AgentRow) : goesBefore r x = true -> ranksAbove r x.
Proof.
  unfold goesBefore, ranksAbove.
  destruct (Qle_bool (success_rate r) (success_rate x)) eqn:E1.
  - intros [E2 E3]%andb_true_iff. apply Qle_bool_iff in E1, E2. apply Z.leb_le in E3.
    right. split; [now apply Qle_antisym | exact E3].
  - intros _. left. apply Qnot_le_lt. intros H. apply Qle_bool_iff in H. congruence.
Qed.

Lemma goesBefore_false (r x : AgentRow) : goesBefore r x = false -> ranksAbove x r.
Proof.
  unfold goesBefore, ranksAbove.
  destruct (Qle_bool (success_rate r) (success_rate x)) eqn:E1; [|discriminate].
  apply Qle_bool_iff in E1. intros [E2|E3]%andb_false_iff.
  - left. apply Qnot_le_lt. intros H. apply Qle_bool_iff in H. congruence.
  - apply Z.leb_gt in E3. apply Qle_lt_or_eq in E1 as [Hlt|Heq]; [now left |].
    right. split; [exact Heq | lia].
Qed.

Lemma ranksAbove_refl (x : AgentRow) : ranksAbove x x.
Proof. right. split; [reflexivity | lia]. Qed.

Lemma ranksAbove_trans (x y z : AgentRow) :
  ranksAbove x y -> ranksAbove y z -> ranksAbove x z.
Proof.
  unfold ranksAbove. intros [H1|[H1 U1]] [H2|[H2 U2]].
  - left. lra.
  - left. lra.
  - left. lra.
  - right. split; [lra | lia].
Qed.

Lemma insertRanked_In (r x : AgentRow) (l : list AgentRow) :
  In x (insertRanked r l) <-> x = r \/ In x l.
Proof.
  induction l as [|y l IH]; cbn [insertRanked In]; [intuition congruence |].
  destruct (goesBefore r y); cbn [In]; [intuition congruence |].
  rewrite IH. intuition congruence.
Qed.

Lemma orderByRank_In (x : AgentRow) (l : list AgentRow) :
  In x (orderByRank l) <-> In x l.
Proof.
  unfold orderByRank. induction l as [|y l IH]; [reflexivity |].
  cbn [fold_right In]. rewrite insertRanked_In, IH. intuition congruence.
Qed.

(** The first row of the ordered result ranks above all the others. *)
Lemma orderByRank_head (l : list AgentRow) (best : AgentRow) (rest : list AgentRow) :
  orderByRank l = best :: rest -> forall r, In r l -> ranksAbove best r.
Proof.
  unfold orderByRank. revert best rest.
  induction l as [|x l IH]; intros best rest; [discriminate |].
  cbn [fold_right]. destruct (fold_right insertRanked [] l) as [|h t] eqn:S.
  - cbn [insertRanked]. intros [= <- <-] r [<-|Hr]; [apply ranksAbove_refl |].
    apply (orderByRank_In r l) in Hr. unfold orderByRank in Hr. rewrite S in Hr. destruct Hr.
  - specialize (IH h t eq_refl). cbn [insertRanked].
    destruct (goesBefore x h) eqn:G.
    + intros [= <- <-] r [<-|Hr]; [apply ranksAbove_refl |].
      apply (ranksAbove_trans _ h); [now apply goesBefore_true | now apply IH].
    + intros [= <- <-] r [<-|Hr]; [now apply goesBefore_false | now apply IH].
Qed.

Lemma selectByDomain_In (domain : string) (rows : list AgentRow) (r : AgentRow) :
  In r (selectByDomain domain rows) -> In r rows /\ row_domain r = domain.
Proof.
  unfold selectByDomain. intros H. apply MemorySearchFacts.firstn_In in H.
  apply orderByRank_In, List.filter_In in H as [Hin Hd]. now apply String.eqb_eq in Hd.
Qed.

Lemma selectByDomain_nil (domain : string) (rows : list AgentRow) :
  selectByDomain domain rows = [] <-> forall r, In r rows -> row_domain r <> domain.
Proof.
  unfold selectByDomain.
  set (chosen := List.filter (fun r => String.eqb (row_domain r) domain) rows).
  split.
  - intros H r Hr Hd.
    assert (Hc : In r (orderByRank chosen)).
    { apply orderByRank_In, List.filter_In. split; [exact Hr | now apply String.eqb_eq]. }
    destruct (orderByRank chosen) as [|h t]; [destruct Hc | discriminate H].
  - intros H. destruct (orderByRank chosen) as [|h t] eqn:S; [reflexivity |].
    assert (Hh : In h (orderByRank chosen)) by (rewrite S; now left).
    apply orderByRank_In, List.filter_In in Hh as [Hin Hd]. apply String.eqb_eq in Hd.
    now destruct (H h Hin).
Qed.

(** X24: the search of a domain reads the table and changes nothing.  It
    returns at most five agents, each of them read from a row of that
    domain, none when the table has no such row; and the first of them
    comes from a row that no row of the domain outranks: none has a higher
    success rate, and none with the same rate has more uses. *)
Theorem findAgentsByDomain_best_first (domain : string) (w : World) :
  exists rows,
    findAgentsByDomain domain w = (Ok (map agentOfRow rows), w)
    /\ (List.length rows <= 5)%nat
    /\ (forall r, In r rows -> In r (db w) /\ row_domain r = domain)
    /\ (rows = [] <-> forall r, In r (db w) -> row_domain r <> domain)
    /\ (forall best rest, rows = best :: rest ->
          forall r, In r (db w) -> row_domain r = domain -> ranksAbove best r).
Proof.
  exists (selectByDomain domain (db w)).
  split; [reflexivity |]. split; [|split; [|split]].
  - unfold selectByDomain. rewrite length_firstn. lia.
  - intros r. apply selectByDomain_In.
  - apply selectByDomain_nil.
  - unfold selectByDomain. intros best rest E r Hr Hd.
    destruct (orderByRank (List.filter (fun r => String.eqb (row_domain r) domain) (db w)))
      as [|h t] eqn:S; [discriminate E |].
    cbn [firstn] in E. injection E as <- _.
    apply (orderByRank_head _ _ _ S). apply List.filter_In.
    split; [exact Hr | now apply String.eqb_eq].
Qed.

Section Teams.

Variable provider : OpenAIService.Provider.
Variable clock : nat -> Z.
Variable parseAgentSpec : string -> option AgentSpec.
Variable parseNeeds : string -> option AgentNeeds.
Variable parseStrategy : string -> option Strategy.

Lemma findOrCreateFrom_stored (task : string) (requiredDomains : list string)
    (agents : list DynamicAgent) (w : World) :
  (forall d, In d requiredDomains -> exists r, In r (db w) /\ row_domain r = d) ->
  exists found,
    findOrCreateFrom provider clock parseAgentSpec parseNeeds task requiredDomains agents w
    = (Ok (agents ++ found)%list, w)
    /\ map domain found = requiredDomains
    /\ forall a, In a found -> exists r, In r (db w) /\ a = agentOfRow r.
Proof.
  revert agents. induction requiredDomains as [|d ds IH]; intros agents Hrows.
  - exists []. cbn [findOrCreateFrom]. rewrite app_nil_r. repeat split. intros a [].
  - cbn [findOrCreateFrom]. unfold bind at 1, findAgentsByDomain, gets.
    destruct (selectByDomain d (db w)) as [|best others] eqn:S.
    + exfalso. destruct (Hrows d (or_introl eq_refl)) as (r & Hr & Hd).
      exact (proj1 (selectByDomain_nil d (db w)) S r Hr Hd).
    + cbn [map].
      destruct (IH (agents ++ [agentOfRow best])%list) as (found & E & Hdom & Hfrom).
      { intros d' Hd'. apply Hrows. now right. }
      assert (Hbest : In best (selectByDomain d (db w))) by (rewrite S; now left).
      apply selectByDomain_In in Hbest as [Hin Hd].
      exists (agentOfRow best :: found). rewrite E, <- app_assoc. split; [reflexivity |].
      split; [cbn [map agentOfRow domain]; now rewrite Hd, Hdom |].
      intros a [<-|Ha]; [eauto | now apply Hfrom].
Qed.

(** X25: when the table has a row for every required domain,
    [findOrCreateAgents] creates nothing: it returns one stored agent per
    domain, in the order of the domains, and leaves the factory as it
    found it: no call to the provider, no row added or updated (a reuse is
    not counted as a use), no cache entry. *)
Theorem findOrCreateAgents_reuses_stored (task : string) (requiredDomains : list string)
    (w : World) :
  (forall d, In d requiredDomains -> exists r, In r (db w) /\ row_domain r = d) ->
  exists agents,
    findOrCreateAgents provider clock parseAgentSpec parseNeeds task requiredDomains w
    = (Ok agents, w)
    /\ map domain agents = requiredDomains
    /\ forall a, In a agents -> exists r, In r (db w) /\ a = agentOfRow r.
Proof.
  intros H. unfold findOrCreateAgents.
  destruct (findOrCreateFrom_stored task requiredDomains [] w H) as (found & E & Hd & Hf).
  exists found. now rewrite E.
Qed.

Lemma ask_Ok (text : string) (effort verbosity : OpenAIService.Level) (w w' : World)
    (reply : string) :
  ask provider text effort verbosity w = (Ok reply, w') ->
  w' = {| db := db w; agentCache := agentCache w; llmCalls := S (llmCalls w);
          ticks := ticks w |}.
Proof.
  unfold ask, bind, generateResponse, ret.
  destruct (OpenAIService.generateResponseAt provider (llmCalls w) _); [|discriminate].
  now intros [= _ <-].
Qed.

Lemma ask_Fail (text : string) (effort verbosity : OpenAIService.Level) (w w' : World)
    (e : string) :
  ask provider text effort verbosity w = (Fail e, w') ->
  exists detail, e = "OpenAI API error: " ++ detail.
Proof.
  unfold ask, bind, generateResponse, ret, OpenAIService.generateResponseAt.
  destruct (provider (llmCalls w) _) as [raw|e0]; [|intros [= <- _]; eauto].
  destruct (OpenAIService.raw_content raw) as [c|]; [|intros [= <- _]; eauto].
  destruct (String.eqb c EmptyString); [intros [= <- _]; eauto | discriminate].
Qed.

Lemma chooseLeader_In (wanted : option string) (agents : list DynamicAgent) :
  match chooseLeader wanted agents with
  | Some a => In a agents
  | None => agents = []
  end.
Proof.
  assert (Hhead : match head agents with Some a => In a agents | None => agents = [] end).
  { destruct agents; [reflexivity | now left]. }
  unfold chooseLeader. destruct wanted as [wanted|]; [|exact Hhead].
  destruct (List.find _ agents) as [a|] eqn:F; [|exact Hhead].
  now apply List.find_some in F as [Hin _].
Qed.

Lemma createAgentTeam_team (task : string) (agents : list DynamicAgent) (w w' : World)
    (t : Team) :
  createAgentTeam provider parseStrategy task agents w = (Ok t, w') -> team t = agents.
Proof.
  unfold createAgentTeam. intros (reply & wa & _ & H)%bind_Ok.
  destruct (parseStrategy reply); unfold ret in H; now injection H as <- _.
Qed.

Lemma ask_reply (text : string) (effort verbosity : OpenAIService.Level) (w w' : World)
    (reply : string) :
  ask provider text effort verbosity w = (Ok reply, w') ->
  exists response,
    OpenAIService.generateResponseAt provider (llmCalls w)
      (OpenAIService.mkRequest text effort verbosity None)
    = Ok response
    /\ reply = OpenAIService.content response.
Proof.
  unfold ask, bind, generateResponse, ret.
  destruct (OpenAIService.generateResponseAt provider (llmCalls w) _) as [response|];
    [|discriminate].
  intros [= <- _]. now exists response.
Qed.

(** The leader is the first agent of the id that the reply names. *)
Lemma chooseLeader_first (wanted : string) (before rest : list DynamicAgent)
    (a : DynamicAgent) :
  id a = wanted ->
  (forall b, In b before -> id b <> wanted) ->
  chooseLeader (Some wanted) (before ++ a :: rest)%list = Some a.
Proof.
  intros Ha Hbefore. unfold chooseLeader.
  assert (F : List.find (fun x => String.eqb (id x) wanted) (before ++ a :: rest)%list
              = Some a).
  { induction before as [|b before IH]; cbn [app List.find].
    - now rewrite Ha, String.eqb_refl.
    - assert (Hb : String.eqb (id b) wanted = false)
        by (apply String.eqb_neq, Hbefore; now left).
      rewrite Hb. apply IH. intros x Hx. apply Hbefore. now right. }
  now rewrite F.
Qed.

(** Without a name, or with the id of no agent, the first agent leads. *)
Lemma chooseLeader_absent (named : option string) (agents : list DynamicAgent) :
  (forall wanted, named = Some wanted -> forall b, In b agents -> id b <> wanted) ->
  chooseLeader named agents = head agents.
Proof.
  intros H. unfold chooseLeader. destruct named as [wanted|]; [|reflexivity].
  destruct (List.find _ agents) as [a|] eqn:F; [|reflexivity].
  apply List.find_some in F as [Hin E]. apply String.eqb_eq in E.
  now destruct (H wanted eq_refl a Hin).
Qed.

(** X26: the team that [createAgentTeam] returns is the list of agents it
    was given, and its leader is one of them: when the reply to the team
    prompt can be read and names the id of an agent of the list, the
    leader is the first agent of the list with that id; when it can be
    read and names no id, or the id of no agent of the list, and when it
    cannot be read, the leader is the first agent of the list; there is
    no leader only for an empty list.  The strategy of the team is the one
    of the reply, and the sequential collaboration with peer review when
    the reply cannot be read.  The call asks the provider once, at the
    next position, with medium reasoning effort and low verbosity, and
    writes nothing; a reply that cannot be read is no failure, so the
    call fails only with the provider. *)
Theorem createAgentTeam_leader_in_team (task : string) (agents : list DynamicAgent)
    (w : World) :
  match createAgentTeam provider parseStrategy task agents w with
  | (Ok t, w') =>
      team t = agents
      /\ match leader t with
         | Some a => In a agents
         | None => agents = []
         end
      /\ w' = {| db := db w; agentCache := agentCache w; llmCalls := S (llmCalls w);
                 ticks := ticks w |}
      /\ exists response,
           OpenAIService.generateResponseAt provider (llmCalls w)
             (OpenAIService.mkRequest (teamPrompt task agents) OpenAIService.medium
                OpenAIService.low None)
           = Ok response
           /\ (forall strategy wanted before a rest,
                 parseStrategy (OpenAIService.content response) = Some strategy ->
                 leaderId strategy = Some wanted ->
                 agents = (before ++ a :: rest)%list ->
                 id a = wanted ->
                 (forall b, In b before -> id b <> wanted) ->
                 leader t = Some a)
           /\ (forall strategy,
                 parseStrategy (OpenAIService.content response) = Some strategy ->
                 (forall wanted, leaderId strategy = Some wanted ->
                                 forall b, In b agents -> id b <> wanted) ->
                 leader t = head agents)
           /\ (forall strategy,
                 parseStrategy (OpenAIService.content response) = Some strategy ->
                 teamStrategy t = collaborationStrategy strategy)
           /\ (parseStrategy (OpenAIService.content response) = None ->
               leader t = head agents
               /\ teamStrategy t = Some "Sequential collaboration with peer review")
  | (Fail e, _) => exists detail, e = "OpenAI API error: " ++ detail
  end.
Proof.
  unfold createAgentTeam, bind.
  destruct (ask provider (teamPrompt task agents) OpenAIService.medium OpenAIService.low w)
    as [[reply|e] wa] eqn:A.
  - destruct (ask_reply _ _ _ _ _ _ A) as (response & Hresponse & ->).
    apply ask_Ok in A. subst wa.
    destruct (parseStrategy (OpenAIService.content response)) as [strategy|] eqn:P;
      unfold ret; cbn [team leader teamStrategy].
    + split; [reflexivity |]. split; [apply chooseLeader_In |]. split; [reflexivity |].
      exists response. split; [exact Hresponse |].
      split; [|split; [|split]].
      * intros strategy' wanted before a rest E Hnamed -> Ha Hbefore.
        assert (strategy' = strategy) as -> by congruence.
        rewrite Hnamed. now apply chooseLeader_first.
      * intros strategy' E Habsent. assert (strategy' = strategy) as -> by congruence.
        now apply chooseLeader_absent.
      * intros strategy' E. now assert (strategy' = strategy) as -> by congruence.
      * congruence.
    + split; [reflexivity |]. split; [apply (chooseLeader_In None) |]. split; [reflexivity |].
      exists response. split; [exact Hresponse |].
      split; [|split; [|split]]; try congruence. now split.
  - now apply ask_Fail in A.
Qed.

End Teams.

(** X26 at work: a reply that names the second agent of two. *)
Lemma createAgentTeam_led_by_the_second :
  exists t w',
    createAgentTeam sampleProvider namesCacheKeeper "speed up the nightly import"
      [sampleAgent; cacheKeeper] sampleWorld
    = (Ok t, w')
    /\ leader t = Some cacheKeeper
    /\ team t = [sampleAgent; cacheKeeper]
    /\ teamStrategy t = Some "CacheKeeper leads, FlowTuner reviews".
Proof.
  pose proof (createAgentTeam_leader_in_team sampleProvider namesCacheKeeper
                "speed up the nightly import" [sampleAgent; cacheKeeper] sampleWorld) as H.
  destruct (createAgentTeam sampleProvider namesCacheKeeper "speed up the nightly import"
              [sampleAgent; cacheKeeper] sampleWorld)
    as [[t|e] w'] eqn:E; [|vm_compute in E; discriminate E].
  destruct H as (Hteam & _ & _ & response & _ & Hfirst & _ & Hstrategy & _).
  exists t, w'. split; [reflexivity |]. split; [|split; [exact Hteam |]].
  - apply (Hfirst _ "cachekeeper_1690000000001" [sampleAgent] cacheKeeper [] eq_refl);
      try reflexivity.
    intros b [<-|[]] Hb. cbn in Hb. discriminate Hb.
  - apply (Hstrategy _ eq_refl).
Defined.

(** X25 at work: the domain of the stored agent is required twice. *)
Lemma findOrCreateAgents_on_the_sample_table :
  findOrCreateAgents sampleProvider sampleClock noSpec wantsOne "speed up the nightly import"
    ["data pipelines"; "data pipelines"] sampleWorld
  = (Ok [sampleAgent; sampleAgent], sampleWorld).
Proof.
  destruct (findOrCreateAgents_reuses_stored sampleProvider sampleClock noSpec wantsOne
              "speed up the nightly import" ["data pipelines"; "data pipelines"] sampleWorld)
    as (agents & E & _ & _).
  - intros d [<-|[<-|[]]]; exists sampleRow; split; (now left) || reflexivity.
  - rewrite E. f_equal. vm_compute in E. now injection E as <-.
Defined.

End DynamicAgentTeamsFacts.

(** ** The plan with dynamic rounds *)

Module DynamicModeInferenceFacts.

Import DynamicAgentFactory DynamicAgentFactoryWords DynamicAgentTeams DynamicAgentTeamsWords
  DynamicAgentTeamsFacts DynamicModeInference EffFacts.

Lemma spliceAt_middle {A : Type} (x : A) (pre post : list A) :
  spliceAt (List.length pre) x (pre ++ post)%list = (pre ++ x :: post)%list.
Proof.
  unfold spliceAt. now rewrite take_app_length, drop_app_length.
Qed.

(** Splicing one element after the other at the same index leaves them in
    the reverse order. *)
Lemma splice_all {A B : Type} (f : B -> A) (items : list B) (pre mid post : list A) :
  fold_left (fun l item => spliceAt (List.length pre) (f item) l) items
    (pre ++ mid ++ post)%list
  = (pre ++ rev (map f items) ++ mid ++ post)%list.
Proof.
  revert mid. induction items as [|item items IH]; intros mid; [reflexivity |].
  cbn [fold_left map rev]. rewrite spliceAt_middle.
  change (f item :: mid ++ post)%list with ((f item :: mid) ++ post)%list.
  rewrite IH. rewrite <- !app_assoc. reflexivity.
Qed.

Lemma spliceTeam_shape (mode : ModeInference.Mode) (agents : list DynamicAgent) :
  spliceTeam mode agents (baseRoundsByMode mode)
  = (firstn (insertIndex mode) (baseRoundsByMode mode)
     ++ rev (map dynamicRound agents)
     ++ skipn (insertIndex mode) (baseRoundsByMode mode))%list.
Proof.
  unfold spliceTeam.
  set (pre := firstn (insertIndex mode) (baseRoundsByMode mode)).
  set (post := skipn (insertIndex mode) (baseRoundsByMode mode)).
  assert (Hlen : List.length pre = insertIndex mode) by now destruct mode.
  assert (Hbase : baseRoundsByMode mode = (pre ++ [] ++ post)%list).
  { unfold pre, post. cbn [app]. symmetry. apply firstn_skipn. }
  rewrite Hbase at 1. rewrite <- Hlen. now rewrite splice_all.
Qed.

Lemma last_append {A : Type} (l l' : list A) (x d : A) :
  List.last (l ++ x :: l')%list d = List.last (x :: l') d.
Proof.
  induction l as [|y l IH]; [reflexivity |].
  cbn [app]. rewrite <- IH. cbn [List.last]. now destruct (l ++ x :: l')%list eqn:E;
    [destruct l; discriminate E |].
Qed.

Section Plan.

Variable provider : OpenAIService.Provider.
Variable clock : nat -> Z.
Variable parseAgentSpec : string -> option AgentSpec.
Variable parseNeeds : string -> option AgentNeeds.
Variable parseStrategy : string -> option Strategy.

(** What a plan is made of: the base table, with the rounds of some
    agents spliced in. *)
Lemma planRounds_shape (mode : ModeInference.Mode) (task : string)
    (withFactory : bool) (w w' : World) (rounds : list Round) :
  planRounds provider clock parseAgentSpec parseNeeds parseStrategy mode task withFactory w
  = (Ok rounds, w') ->
  exists agents,
    rounds = spliceTeam mode agents (baseRoundsByMode mode)
    /\ (withFactory = false -> agents = [] /\ w' = w).
Proof.
  intros H. unfold planRounds in H. cbv zeta in H. destruct withFactory; cbn [negb] in H.
  - apply bind_Ok in H as (analysis & wa & _ & H).
    destruct (needed analysis); cbn [negb] in H;
      [|unfold ret in H; injection H as <- _; exists []; now split].
    apply bind_Ok in H as (dynamicAgents & wb & _ & H).
    destruct dynamicAgents as [|agent others];
      [unfold ret in H; injection H as <- _; exists []; now split |].
    apply bind_Ok in H as (agentTeam & wc & Ht & H).
    apply createAgentTeam_team in Ht.
    unfold ret in H. injection H as <- _. rewrite Ht.
    exists (agent :: others). now split.
  - unfold ret in H. injection H as <- <-. exists []. now split.
Qed.

Lemma spliced_last (mode : ModeInference.Mode) (agents : list DynamicAgent) :
  exists review,
    List.last (spliceTeam mode agents (baseRoundsByMode mode))
      (mkRound EmptyString EmptyString None)
    = mkRound review "MasterReviewer" None
    /\ map (fun r => ModeInference.mkRound (focus r) (lead r)) (baseRoundsByMode mode)
       = (ModeInference.roundsByMode mode
          ++ [ModeInference.mkRound review "MasterReviewer"])%list.
Proof.
  rewrite spliceTeam_shape.
  destruct mode; eexists; (split; [|reflexivity]);
    cbn [insertIndex baseRoundsByMode firstn skipn];
    rewrite app_assoc; rewrite last_append; reflexivity.
Qed.

(** Where the dynamic agents of a plan come from. *)
Lemma planRounds_trace (mode : ModeInference.Mode) (task : string)
    (withFactory : bool) (w w' : World) (rounds : list Round) :
  planRounds provider clock parseAgentSpec parseNeeds parseStrategy mode task withFactory w
  = (Ok rounds, w') ->
  exists agents,
    rounds = spliceTeam mode agents (baseRoundsByMode mode)
    /\ (withFactory = false -> agents = [] /\ w' = w)
    /\ (withFactory = true ->
        exists analysis w1,
          analyzeAgentNeeds provider parseNeeds task (map lead (baseRoundsByMode mode)) w
          = (Ok analysis, w1)
          /\ (needed analysis = false -> agents = [] /\ w' = w1)
          /\ (needed analysis = true ->
              exists w2,
                findOrCreateAgents provider clock parseAgentSpec parseNeeds task
                  (suggestedDomains analysis) w1
                = (Ok agents, w2)
                /\ (agents = [] -> w' = w2)
                /\ (agents <> [] ->
                    exists agentTeam,
                      createAgentTeam provider parseStrategy task agents w2
                      = (Ok agentTeam, w')
                      /\ team agentTeam = agents))).
Proof.
  intros H. unfold planRounds in H. cbv zeta in H. destruct withFactory; cbn [negb] in H.
  - apply bind_Ok in H as (analysis & wa & Ha & H).
    destruct (needed analysis) eqn:N; cbn [negb] in H.
    + apply bind_Ok in H as (dynamicAgents & wb & Hf & H).
      destruct dynamicAgents as [|agent others].
      * unfold ret in H. injection H as <- <-. exists [].
        split; [reflexivity |]. split; [discriminate |]. intros _.
        exists analysis, wa. split; [exact Ha |]. split; [congruence |]. intros _.
        exists wb. split; [exact Hf |]. split; [reflexivity | congruence].
      * apply bind_Ok in H as (agentTeam & wc & Ht & H).
        pose proof (createAgentTeam_team _ _ _ _ _ _ _ Ht) as Hteam.
        unfold ret in H. injection H as <- <-. rewrite Hteam.
        exists (agent :: others).
        split; [reflexivity |]. split; [discriminate |]. intros _.
        exists analysis, wa. split; [exact Ha |]. split; [congruence |]. intros _.
        exists wb. split; [exact Hf |]. split; [discriminate |]. intros _.
        now exists agentTeam.
    + unfold ret in H. injection H as <- <-. exists [].
      split; [reflexivity |]. split; [discriminate |]. intros _.
      exists analysis, wa. split; [exact Ha |]. split; [now split | congruence].
  - unfold ret in H. injection H as <- <-. exists [].
    split; [reflexivity |]. split; [now split | discriminate].
Qed.

(** X27: the plan with dynamic rounds.  Without a factory the plan is the
    base table, and the world is untouched.  With a factory the agents of
    the plan are these: none when the analysis of the task, asked with
    the leads of the base table, says that no agent is needed; otherwise
    the agents that [findOrCreateAgents] returns for the domains that the
    analysis suggests, which are also the team that [createAgentTeam]
    then returns when there is at least one.  In every case the plan that
    [planRounds] returns is the base table of the mode with the rounds of
    these agents spliced in at index 1 for [explore] and 2 for the other
    modes, in the reverse of the order of the team; so the base rounds
    keep their order, the first round is the first base round, the last
    round is the review led by MasterReviewer, and there is one more
    round per agent.  The base table itself is the table of the plain
    plan followed by that review. *)
Theorem planRounds_splices_the_team (mode : ModeInference.Mode) (task : string)
    (withFactory : bool) (w w' : World) (rounds : list Round) :
  planRounds provider clock parseAgentSpec parseNeeds parseStrategy mode task withFactory w
  = (Ok rounds, w') ->
  exists agents,
    rounds = (firstn (insertIndex mode) (baseRoundsByMode mode)
              ++ rev (map dynamicRound agents)
              ++ skipn (insertIndex mode) (baseRoundsByMode mode))%list
    /\ (withFactory = false -> agents = [] /\ w' = w)
    /\ (withFactory = true ->
        exists analysis w1,
          analyzeAgentNeeds provider parseNeeds task (map lead (baseRoundsByMode mode)) w
          = (Ok analysis, w1)
          /\ (needed analysis = false -> agents = [] /\ w' = w1)
          /\ (needed analysis = true ->
              exists w2,
                findOrCreateAgents provider clock parseAgentSpec parseNeeds task
                  (suggestedDomains analysis) w1
                = (Ok agents, w2)
                /\ (agents = [] -> w' = w2)
                /\ (agents <> [] ->
                    exists agentTeam,
                      createAgentTeam provider parseStrategy task agents w2
                      = (Ok agentTeam, w')
                      /\ team agentTeam = agents)))
    /\ head rounds = head (baseRoundsByMode mode)
    /\ (exists review,
          List.last rounds (mkRound EmptyString EmptyString None)
          = mkRound review "MasterReviewer" None
          /\ map (fun r => ModeInference.mkRound (focus r) (lead r)) (baseRoundsByMode mode)
             = (ModeInference.roundsByMode mode
                ++ [ModeInference.mkRound review "MasterReviewer"])%list)
    /\ List.length rounds
       = (List.length (baseRoundsByMode mode) + List.length agents)%nat.
Proof.
  intros H. pose proof (planRounds_trace _ _ _ _ _ _ H) as Htrace.
  destruct Htrace as (agents & -> & Hplain & Hfactory). exists agents.
  pose proof (spliced_last mode agents) as Hlast.
  rewrite spliceTeam_shape in *. split; [reflexivity |]. split; [exact Hplain |].
  split; [exact Hfactory |].
  split; [now destruct mode |]. split; [exact Hlast |].
  rewrite !length_app, length_rev, length_map.
  pose proof (firstn_skipn (insertIndex mode) (baseRoundsByMode mode)) as E.
  apply (f_equal (@List.length Round)) in E. rewrite length_app in E. lia.
Qed.

(** X28: the round that closes a plan.  Whatever the mode and the
    dynamic rounds, the last round of the plan that [planRounds] returns
    is led by MasterReviewer, and the configuration of its lead asks for
    high reasoning effort and high verbosity, with the review instructions
    of the mode; no expert of another name is given high reasoning
    effort, and only MasterReviewer and DesignPhilosopher are given
    instructions, the latter those of its mode. *)
Theorem planRounds_ends_with_the_review (mode : ModeInference.Mode) (task : string)
    (withFactory : bool) (w w' : World) (rounds : list Round) :
  planRounds provider clock parseAgentSpec parseNeeds parseStrategy mode task withFactory w
  = (Ok rounds, w') ->
  let final := List.last rounds (mkRound EmptyString EmptyString None) in
  lead final = "MasterReviewer"
  /\ getExpertConfig (lead final) mode
     = {| reasoningEffort := OpenAIService.high;
          verbosity := OpenAIService.high;
          instructions := Some (getMasterReviewerInstructions mode) |}
  /\ (forall name, reasoningEffort (getExpertConfig name mode) = OpenAIService.high ->
                   name = "MasterReviewer")
  /\ (forall name text, instructions (getExpertConfig name mode) = Some text ->
         (name = "MasterReviewer" /\ text = getMasterReviewerInstructions mode)
         \/ (name = "DesignPhilosopher"
             /\ text = ModeInference.getDesignPhilosopherMode mode)).
Proof.
  intros H final. subst final.
  destruct (planRounds_shape _ _ _ _ _ _ H) as (agents & -> & _).
  destruct (spliced_last mode agents) as (review & -> & _). cbn [lead].
  split; [reflexivity |]. split; [reflexivity |]. split.
  - intros name. unfold getExpertConfig.
    destruct (String.eqb_spec name "MasterReviewer") as [->|_]; [reflexivity |].
    destruct (String.eqb name "DesignPhilosopher"); discriminate.
  - intros name text. unfold getExpertConfig.
    destruct (String.eqb_spec name "MasterReviewer") as [->|_];
      [intros [= <-]; now left |].
    destruct (String.eqb_spec name "DesignPhilosopher") as [->|_];
      [intros [= <-]; now right | discriminate].
Qed.

End Plan.

(** X27 at work: the plan of a [pr] task for which the analysis suggests
    two domains, one with a stored agent and one without; the agent that
    is found comes first in the team and last in the plan. *)
Lemma planRounds_with_two_dynamic_rounds :
  exists rounds w' found created,
    planRounds sampleProvider sampleClock noSpec wantsOne noLeader ModeInference.pr
      "speed up the nightly import" true sampleWorld
    = (Ok rounds, w')
    /\ fst (findOrCreateAgents sampleProvider sampleClock noSpec wantsOne
              "speed up the nightly import" ["data pipelines"; "caching"]
              (snd (analyzeAgentNeeds sampleProvider wantsOne "speed up the nightly import"
                      (map lead (baseRoundsByMode ModeInference.pr)) sampleWorld)))
       = Ok [found; created]
    /\ rounds
       = (firstn 2 (baseRoundsByMode ModeInference.pr)
          ++ [dynamicRound created; dynamicRound found]
          ++ skipn 2 (baseRoundsByMode ModeInference.pr))%list
    /\ name found = "FlowTuner" /\ name created = "cachingSpecialist"
    /\ List.length rounds = 9%nat.
Proof.
  destruct (planRounds sampleProvider sampleClock noSpec wantsOne noLeader ModeInference.pr
              "speed up the nightly import" true sampleWorld)
    as [[rounds|e] w'] eqn:E; [|vm_compute in E; discriminate E].
  destruct (planRounds_splices_the_team _ _ _ _ _ _ _ _ _ _ _ E)
    as (agents & Hshape & _ & Hfactory & _ & _ & Hlen).
  destruct (Hfactory eq_refl) as (analysis & w1 & Ha & _ & Hneeded).
  assert (Hanalysis : analysis = mkAgentNeeds true ["profiling"]
                                   ["data pipelines"; "caching"]).
  { unfold analyzeAgentNeeds, wantsOne in Ha. apply bind_Ok in Ha as (reply & wa & _ & Ha).
    unfold ret in Ha. now injection Ha as <- _. }
  subst analysis. destruct (Hneeded eq_refl) as (w2 & Hf & _).
  cbn [suggestedDomains] in Hf. rewrite Ha. cbn [snd]. rewrite Hf. cbn [fst].
  assert (Hnames : map name agents = ["FlowTuner"; "cachingSpecialist"]).
  { change agents with (default [] (match Ok agents with Ok l => Some l | Fail _ => None end)).
    change (Ok agents) with (fst (Ok agents, w2)). rewrite <- Hf.
    replace w1 with (snd (analyzeAgentNeeds sampleProvider wantsOne
                            "speed up the nightly import"
                            (map lead (baseRoundsByMode ModeInference.pr)) sampleWorld))
      by now rewrite Ha.
    vm_compute. reflexivity. }
  destruct agents as [|found [|created [|extra agents]]]; try discriminate Hnames.
  injection Hnames as Hfound Hcreated.
  exists rounds, w', found, created. split; [reflexivity |]. split; [reflexivity |].
  split; [exact Hshape |]. split; [exact Hfound |]. split; [exact Hcreated |].
  rewrite Hlen. reflexivity.
Defined.

(** X28 at work: the same plan ends with the review of [pr]. *)
Lemma planRounds_review_of_a_dynamic_plan :
  exists rounds w',
    planRounds sampleProvider sampleClock noSpec wantsOne noLeader ModeInference.pr
      "speed up the nightly import" true sampleWorld
    = (Ok rounds, w')
    /\ lead (List.last rounds (mkRound EmptyString EmptyString None)) = "MasterReviewer"
    /\ reasoningEffort
         (getExpertConfig (lead (List.last rounds (mkRound EmptyString EmptyString None)))
            ModeInference.pr)
       = OpenAIService.high.
Proof.
  destruct (planRounds sampleProvider sampleClock noSpec wantsOne noLeader ModeInference.pr
              "speed up the nightly import" true sampleWorld)
    as [[rounds|e] w'] eqn:E; [|vm_compute in E; discriminate E].
  destruct (planRounds_ends_with_the_review _ _ _ _ _ _ _ _ _ _ _ E) as (Hlead & Hconfig & _).
  exists rounds, w'. split; [reflexivity |]. split; [exact Hlead |]. now rewrite Hconfig.
Defined.

End DynamicModeInferenceFacts.

(** ** When the output can be written, and when a run cannot start *)

Module PhaseZeroFacts.

Import FileService FileServiceFacts ModeInference CreativeAILoop CreativeAILoopWords
  PhaseZeroWords JsStringFacts EffFacts.

(** *** The output directory *)

(** A file on the way stops the recursive [mkdir]. *)
Lemma mkdirFrom_blocked (base : Path) (segments : list string) (fs : FS) (k : nat)
    (c : string) :
  (0 < k <= List.length segments)%nat ->
  fs !! (base ++ firstn k segments)%list = Some (File c) ->
  mkdirFrom base segments fs = Fail "EEXIST: file already exists".
Proof.
  revert base fs k. induction segments as [|s rest IH]; intros base fs k Hk Hfile;
    [cbn [List.length] in Hk; lia |].
  cbn [mkdirFrom]. destruct k as [|k]; [lia |]. cbn [firstn] in Hfile.
  destruct k as [|k].
  - change (firstn 0 rest) with (@nil string) in Hfile. now rewrite Hfile.
  - assert (G : mkdirFrom (base ++ [s])%list rest (<[(base ++ [s])%list := Dir]> fs)
                = Fail "EEXIST: file already exists").
    { apply (IH _ _ (S k)); [cbn [List.length] in Hk; lia |].
      rewrite lookup_insert_ne.
      - now rewrite <- app_assoc.
      - intros E. apply (f_equal (@List.length string)) in E.
        rewrite !length_app, length_firstn in E. cbn [List.length] in E, Hk. lia. }
    destruct (fs !! (base ++ [s])%list) as [[|c']|]; [exact G | reflexivity | exact G].
Qed.

(** X29: what stands in the way of [saveOutput].  When a regular file
    sits where the output directory or one of the directories above it
    should be, the call fails with a message that starts with
    [Failed to create output directory: ] and leaves the tree as it was.
    When the path of the output file is a directory, the call fails and
    every file is as before; if the output directory could be made, the
    message starts with [Failed to write output file: ] and the tree is
    the one that making the directory left.  So a call that succeeds
    found neither: no file sat on the way to the output directory and
    the path of the output file was no directory; it returns that path,
    and the file there holds the content. *)
Theorem saveOutput_blocked (cwd : Path) (iso taskName content : string) (fs : FS) :
  let outputDir := (cwd ++ ["output"])%list in
  let target := (cwd ++ ["output"; outputFilename iso taskName])%list in
  (forall k c, (0 < k <= List.length outputDir)%nat ->
               fs !! firstn k outputDir = Some (File c) ->
               exists detail,
                 saveOutput cwd iso taskName content fs
                 = (Fail ("Failed to create output directory: " ++ detail), fs))
  /\ (fs !! target = Some Dir ->
      exists e fs',
        saveOutput cwd iso taskName content fs = (Fail e, fs')
        /\ (forall q c, fs' !! q = Some (File c) <-> fs !! q = Some (File c))
        /\ (forall fs1, mkdir outputDir fs = (Ok tt, fs1) ->
                        fs' = fs1
                        /\ exists detail, e = "Failed to write output file: " ++ detail))
  /\ (forall p fs',
        saveOutput cwd iso taskName content fs = (Ok p, fs') ->
        (forall k c, (0 < k <= List.length outputDir)%nat ->
                     fs !! firstn k outputDir <> Some (File c))
        /\ fs !! target <> Some Dir
        /\ p = target
        /\ fs' !! target = Some (File content)).
Proof.
  intros outputDir target.
  assert (Hpath : (outputDir ++ [outputFilename iso taskName])%list = target).
  { unfold outputDir, target. now rewrite <- app_assoc. }
  assert (Hparent : removelast target = outputDir).
  { rewrite <- Hpath. apply removelast_last. }
  assert (Hne : target <> []) by (unfold target; destruct cwd; discriminate).
  split; [|split].
  - intros k c Hk Hfile. exists "EEXIST: file already exists".
    unfold saveOutput, bind, mapFail, mkdir. fold outputDir.
    now rewrite (mkdirFrom_blocked [] outputDir fs k c Hk Hfile).
  - intros Htarget.
    destruct (mkdirFrom [] outputDir fs) as [fs1|e0] eqn:M.
    + assert (Hdir : fs1 !! outputDir = Some Dir).
      { apply (mkdirFrom_dir [] outputDir fs fs1 M). unfold outputDir.
        destruct cwd; discriminate. }
      assert (HisDir : isDir fs1 outputDir = true).
      { unfold isDir. rewrite Hdir. unfold outputDir. now destruct cwd. }
      pose proof (mkdirFrom_keeps_dir _ _ _ _ _ M Htarget) as Hstill.
      exists ("Failed to write output file: " ++ "EISDIR: illegal operation on a directory"),
        fs1.
      split; [|split].
      * unfold saveOutput, bind, mapFail, ret, mkdir. fold outputDir. rewrite M, Hpath.
        unfold writeFile. rewrite Hparent, HisDir. cbn [negb].
        destruct target as [|x t]; [congruence |]. now rewrite Hstill.
      * apply (mkdirFrom_files _ _ _ _ M).
      * intros fs2. unfold mkdir. rewrite M. intros [= <-]. split; [reflexivity |].
        now exists "EISDIR: illegal operation on a directory".
    + exists ("Failed to create output directory: " ++ e0), fs. split; [|split].
      * unfold saveOutput, bind, mapFail, mkdir. fold outputDir. now rewrite M.
      * reflexivity.
      * intros fs2. unfold mkdir. rewrite M. discriminate.
  - intros p fs' Hok.
    destruct (saveOutput_Ok _ _ _ _ _ _ _ Hok) as (fs1 & M & _ & -> & ->).
    fold target. unfold mkdir in M. fold outputDir in M.
    destruct (mkdirFrom [] outputDir fs) as [fs0|e0] eqn:M0; [|discriminate M].
    injection M as <-.
    split; [|split; [|split; [reflexivity | apply lookup_insert_eq]]].
    + intros k c Hk Hfile.
      rewrite (mkdirFrom_blocked [] outputDir fs k c Hk Hfile) in M0. discriminate M0.
    + intros Htarget. pose proof (mkdirFrom_keeps_dir _ _ _ _ _ M0 Htarget) as Hstill.
      revert Hok. unfold saveOutput, bind, mapFail, ret, mkdir. fold outputDir.
      rewrite M0, Hpath.
      unfold writeFile. destruct target as [|x t]; [congruence |].
      destruct (negb (isDir fs0 (removelast (x :: t)))); [discriminate |].
      now rewrite Hstill.
Qed.

(** X29 at work: a file named [output] in the working directory. *)
Lemma saveOutput_onto_a_file :
  exists detail,
    saveOutput ["srv"] "2024-01-15T10:30:45.123Z" "build a dashboard" "guide" outputIsAFile
    = (Fail ("Failed to create output directory: " ++ detail), outputIsAFile).
Proof.
  destruct (saveOutput_blocked ["srv"] "2024-01-15T10:30:45.123Z" "build a dashboard"
              "guide" outputIsAFile) as (Hblocked & _).
  apply (Hblocked 2%nat "notes").
  - cbn [List.length app]. lia.
  - apply lookup_insert_eq.
Defined.

(** *** A prompt without a keyword *)

Section Start.

Variable provider : OpenAIService.Provider.
Variable terminalInput : nat -> string -> Result string.
Variable terminalConfirm : nat -> string -> Result bool.
Variable clockISO : nat -> string.
Variable clockMs : nat -> Z.
Variable cwd : FileService.Path.
Variable roundUserPrompt : Round -> list string -> TaskContext -> Philosophy -> string.
Variable technicalUserPrompt : Philosophy -> TaskContext -> list string -> string.
Variable outputUserPrompt : Philosophy -> TechnicalSpec -> TaskContext -> string.
Variable extractSynthesis : string -> string.
Variable toLowerCaseJS : string -> string.

Lemma onlyPrompts_input (message : string) : onlyPrompts (input terminalInput message).
Proof.
  intros w. unfold input, mapFail.
  destruct (terminalInput (prompts w) message); now cbn.
Qed.

Lemma onlyPrompts_bind {A B : Type} (m : Eff World A) (k : A -> Eff World B) :
  onlyPrompts m -> (forall a, onlyPrompts (k a)) -> onlyPrompts (bind m k).
Proof.
  intros Hm Hk w. unfold bind. destruct (Hm w) as (H1 & H2 & H3 & H4 & H5).
  destruct (m w) as [[a|e] w0]; cbn [snd] in *; [|auto].
  destruct (Hk a w0) as (G1 & G2 & G3 & G4 & G5). repeat split; congruence.
Qed.

Lemma onlyPrompts_askQuestionsFrom (questions : list string)
    (constraints preferences : JsObject) :
  onlyPrompts (askQuestionsFrom terminalInput questions constraints preferences).
Proof.
  revert constraints preferences.
  induction questions as [|q questions IH]; intros constraints preferences;
    cbn [askQuestionsFrom]; [intros w; now cbn |].
  apply onlyPrompts_bind; [apply onlyPrompts_input |]. intros answer.
  repeat match goal with |- context [if ?b then _ else _] => destruct b end; apply IH.
Qed.

(** X30: a run cannot start on a prompt without a keyword.  When no
    piece of the lower-cased prompt between single spaces is longer than
    three characters (the empty prompt is such a prompt), the run fails in
    Phase 0: once the clarifying questions are answered, the search of the
    memory store is refused by the database, and the run ends with that
    failure.  Nothing else has happened by then: no call to the provider,
    no record in the bookkeeping, no file, no entry in the memory store. *)
Theorem run_fails_without_keywords (initialPrompt : string) (w : World) :
  MemoryService.keywordsOf toLowerCaseJS initialPrompt = [] ->
  exists e w',
    run provider terminalInput terminalConfirm clockISO clockMs cwd roundUserPrompt
      technicalUserPrompt outputUserPrompt extractSynthesis toLowerCaseJS initialPrompt w
    = (Fail e, w')
    /\ memory w' = memory w
    /\ openai w' = openai w
    /\ files w' = files w
    /\ llmCalls w' = llmCalls w
    /\ ticks w' = ticks w
    /\ ((forall n q, exists a, terminalInput n q = Ok a) ->
        e = "Failed to query memories: " ++ MemoryService.syntaxError
        /\ prompts w'
           = (prompts w + List.length (generateClarifyingQuestions initialPrompt))%nat).
Proof.
  intros Hnone.
  assert (Hfind : forall st,
             MemoryService.findRelevantSuccesses toLowerCaseJS initialPrompt st
             = (Fail ("Failed to query memories: " ++ MemoryService.syntaxError), st)).
  { intros st. unfold MemoryService.findRelevantSuccesses, mapFail. now rewrite Hnone. }
  pose proof (onlyPrompts_askQuestionsFrom (generateClarifyingQuestions initialPrompt) [] [] w)
    as (K1 & K2 & K3 & K4 & K5).
  assert (Hrun : forall r wa,
             askQuestionsFrom terminalInput (generateClarifyingQuestions initialPrompt) [] [] w
             = (r, wa) ->
             run provider terminalInput terminalConfirm clockISO clockMs cwd roundUserPrompt
               technicalUserPrompt outputUserPrompt extractSynthesis toLowerCaseJS
               initialPrompt w
             = (Fail match r with
                     | Ok _ => "Failed to query memories: " ++ MemoryService.syntaxError
                     | Fail e => e
                     end, wa)).
  { intros r wa E. unfold run, phases, interactiveTaskAnalysis, askQuestions.
    unfold bind at 1. unfold bind at 1. unfold bind at 1. rewrite E.
    destruct r as [responses|e]; [|reflexivity].
    unfold bind at 1, liftMemory. rewrite Hfind. now destruct wa. }
  destruct (askQuestionsFrom terminalInput (generateClarifyingQuestions initialPrompt) [] [] w)
    as [r wa] eqn:E.
  cbn [snd] in *. eexists. exists wa. split; [exact (Hrun r wa eq_refl) |].
  repeat (split; [assumption |]).
  intros Hanswers.
  assert (G : forall questions constraints preferences w0,
             exists responses w1,
               askQuestionsFrom terminalInput questions constraints preferences w0
               = (Ok responses, w1)
               /\ prompts w1 = (prompts w0 + List.length questions)%nat).
  { induction questions as [|q questions IH]; intros constraints preferences w0.
    - do 2 eexists. split; [reflexivity |]. cbn [List.length]. lia.
    - cbn [askQuestionsFrom]. unfold bind, input, mapFail.
      destruct (Hanswers (prompts w0) q) as [a ->].
      repeat match goal with |- context [if ?b then _ else _] => destruct b end;
        match goal with
        | |- context [askQuestionsFrom _ _ ?c ?p ?x] =>
            destruct (IH c p x) as (responses & w1 & -> & Hp)
        end;
        do 2 eexists; (split; [reflexivity |]); rewrite Hp; cbn [nextPrompt prompts List.length];
        lia. }
  destruct (G (generateClarifyingQuestions initialPrompt) [] [] w) as (responses & w1 & E1 & Hp).
  rewrite E in E1. injection E1 as -> ->. split; [reflexivity | exact Hp].
Qed.

End Start.

(** X30 at work: the prompt of three short words. *)
Lemma run_on_fix_the_css :
  exists w',
    run replying answering declining fixedISO fixedMs ["srv"] plainRoundPrompt
      plainTechnicalPrompt plainOutputPrompt wholeReply toLowerCase "fix the css" startWorld
    = (Fail ("Failed to query memories: " ++ MemoryService.syntaxError), w')
    /\ llmCalls w' = 0%nat
    /\ files w' = ∅.
Proof.
  destruct (run_fails_without_keywords replying answering declining fixedISO fixedMs ["srv"]
              plainRoundPrompt plainTechnicalPrompt plainOutputPrompt wholeReply toLowerCase
              "fix the css" startWorld eq_refl)
    as (e & w' & E & _ & _ & Hfiles & Hcalls & _ & Hmessage).
  destruct Hmessage as [-> _]; [intros n q; now exists "production" |].
  exists w'. split; [exact E |]. split; [exact Hcalls | exact Hfiles].
Defined.

End PhaseZeroFacts.
